(* ===== verification/_CoqProject ===== *)
-Q . S2P
Prelude.v
GoStrings.v
GoFloat.v
Encoding.v
Hash.v
Json.v
Types.v
RateLimit.v
Balancer.v
Canary.v
Breaker.v
Backpressure.v
Cache.v
Token.v
Access.v
Policy.v
Validation.v
Transform.v
Codec.v
Config.v
Http.v
Url.v
Ai.v
OpenApi.v
Handler.v
Lifecycle.v
Proxy.v
Wasm.v
Replay.v
Gateway.v
WebSocket.v
Provider.v
Typing.v
Admin.v
Boot.v
Cli.v
Serving.v
Scenarios.v
AdminScenarios.v
PolicyCompiler.v
