(* ===== verification/Prelude.v ===== *)
(** * ServGate: a verification development

    ServGate (src/) is an API gateway in Go: it matches a request to a route,
    admits it (tokens, API keys, address lists, policies, rate limits,
    concurrency limits), answers it from a cache or forwards it to a target it
    selects, and is administered over HTTP while it runs.  This library models
    the community build (the files with the build constraint [!enterprise])
    and proves what its parts promise, alone and composed.

    ** Conventions

    A Go function is a Gallina function of the same name that takes the state
    it reads and returns the state it changes.  What a function takes from the
    outside (clock readings, random draws, map iteration orders, the answers of
    backends, files and other services) is an argument.  [(value, error)] is
    [result]; a computation that can panic is [exec].  An [int] is a [Z], with
    its wrap-around written out where the code can reach it; instants and
    durations are nanoseconds; a string or byte slice is a [string] of bytes; a
    map is a [gmap]; a pointer that may be nil is an [option].  Every
    definition evaluates, and the scenarios run them with [vm_compute].

    ** Parts and files

    Foundations, the parts of Go's library the program uses:
    - Prelude: results, panics, machine integers, shared lemmas and tactics.
    - GoStrings, GoFloat, Encoding, Hash, Json, Url: [strings], [float64],
      base64, hexadecimal and big-endian words, SHA-256, HMAC and SHA-1,
      [encoding/json], [net/url], all executable on byte strings.

    Data and configuration (pkg/proxy/handler.go, provider.go, ai.go):
    - Types: the configuration records.  Codec: their struct tags as encoders
      and decoders behind the class [Codec], whose law is the round trip.
      Typing: what the decoders return, whatever the bytes (class [Typed]), and
      what a configuration that loads is.
    - Config: [signConfig], [verifyConfigSignature], [Load] and [Save] of both
      providers.  Provider: the interface [ConfigProvider] as a class with its
      laws ([ProviderLaws]), and the two providers as instances.

    Components of the gateway, one file each (pkg/proxy/handler.go unless
    noted):
    - RateLimit: [isRateLimited] in memory and over Redis (the server is the
      class [RedisZSet]) and the administration's limiter (main.go).
    - Balancer: [selectTarget], connection counters, the weighted splits.
    - Canary (canary.go): one tick of the promotion loop.
    - Breaker: the circuit breaker.  Backpressure: [Acquire] as a step relation
      over any number of concurrent requests.
    - Cache (cache.go), Token (JWTs and revocation), Access (address lists),
      Policy (the policy engine of ServShared), Validation (validation.go),
      Transform (key renaming, redaction, gRPC frames), Ai (ai.go), OpenApi.
    - Wasm (pkg/wasm/runner.go): modules, instance pools, the mutex, [Run],
      alone and under every interleaving; the wazero runtime is the class
      [Engine].
    - Replay (replay.go), WebSocket (websocket.go).

    Composition:
    - Http: requests, the server's response writer, the recording writer, error
      replies and the access log (errors.go, access_log.go).
    - Handler: the record [GatewayHandler] with its construction and its
      operations on routes and resources.  Lifecycle: the buffered log files
      and eviction goroutines behind those resources, and [Close].
    - Proxy: the reverse proxy of the standard library and [RetryingTransport].
    - Gateway: [ServeHTTP] stage by stage, in a state monad with early returns,
      panics, a trace of effects and deferred calls.  A WASM runtime is any
      [WasmRunner]; the manager of Wasm is one.
    - Admin: the handlers of main.go over the state of the process, for any
      [ConfigProvider] and any [WasmRegistry].  Boot: the start of the process,
      the object store poll, [servgate install].  Cli: the choice of the
      command, [servgate replay], the plugin registry.  PolicyCompiler:
      [servgate policy compile].
    - Serving: proof rules for programs of the gateway monad, and the theorems
      about the whole of [ServeHTTP].
    - Scenarios, AdminScenarios: concrete gateways, the witnesses of the
      theorems about compositions, and the behaviours reported as findings.

    ** What the theorems show

    - Admission: what holds of a request before a WASM module, a plugin, and
      then a queue, tunnel or backend is given a part of it: every check that
      comes before, rate limits, body validation and prompt guard included; no
      administration handler but AI billing answers or acts without credentials;
      accepted tokens carry the right HMAC; which tokens a revocation refuses;
      which addresses, policies and bodies are accepted.
    - Accounting: on every exit of [ServeHTTP], panics included, the request is
      counted once and its slot and connection are given back; slots, waiting
      requests, pooled instances and connection counters are bounded and exact
      under every interleaving, one WASM instance being leaked for each request
      that panics.  WASM requests make progress: they wait for the mutex only
      while a guest is being started, and there is no deadlock and no livelock.
    - Limits: without Redis, [isRateLimited] refines a sliding window per key,
      and no key is admitted more than its limit in a minute.
    - Routing and forwarding: weighted selection and round robin are exactly
      proportional, canary weights stay within bounds, the breaker's states,
      how often a request is sent and what is returned.
    - Caching: under every interleaving of its critical sections the cache
      answers what its history determines, and is one that never evicts unless a
      lookup races with a store; only successes are stored.
    - Configuration: a saved configuration loads back; what loads is what its
      text decodes to, signed when a secret is set, and well typed; one
      signature binds the routes; a route change that is answered 200 is stored
      and live; routes have the resources they ask for under any history of the
      handler and of administration, up to the stated failures; and the poll
      converges while only it replaces the routes.
    - Formats: gRPC frames, WebSocket frames, JSON, compiled policies, log
      files, replay summaries.

    The examples named in the findings of the manifest show where the code does
    not do what it means to.

    ** Bounds and fuel

    Recursion is structural except in the JSON parser and printer, UTF-8
    validation, decimal printing and the regular expressions, which take fuel
    computed from the length of the input; the round trips (for instance
    [json_parse_render]) show that it is enough on every printed value.
    Nesting is limited to 10000 levels as in [encoding/json].  Hash functions
    are exact for inputs below 2^61 bytes.

    ** Not modelled

    - [string] functions are those of ASCII: case folding, white space and
      [%q] of other code points are not modelled.
    - A nil slice or map is not told from an empty one, so that a route list
      printed as [null] is printed as an empty one here.
    - Requests of [ServeHTTP] and of the administration are handled one at a
      time; interleavings are modelled for the limiter, the backpressure
      channels, the Redis commands, the cache's critical sections and the WASM
      manager.  The mux's redirects of unclean paths are left out.
    - The tracer (pkg/otel) forwards to ServShared, of which only the policy
      engine is in the repository's use; spans are what the world answers.
    - Listening, TLS and certificates, signal handling and graceful shutdown
      are calls into the standard library: only the choice between the
      listeners is modelled.  The Go compiler [servgate policy compile] calls is
      not: the emitted program is given its meaning by definition.
    - Enterprise files ([ai_billing.go], [ssl_offload.go]) hold constants only;
      the no-op hooks of the community build are inlined at their calls.
      [proxyToLLMTarget] and [AIBillingTracker] are called by nothing in this
      build. *)

From Stdlib Require Export ZArith Lia Bool List String Ascii.
From stdpp Require Export base numbers list gmap strings option.

#[export] Set Default Goal Selector "!".

(** ** Scope and notations *)

Declare Scope go_scope.
Delimit Scope go_scope with go.
Open Scope Z_scope.

(** Go's [(value, error)] results: a function either returns a value or an
    error of type [E]. *)
Inductive result (E A : Type) : Type :=
| Ok (a : A)
| Err (e : E).
Arguments Ok {E A} a.
Arguments Err {E A} e.

Definition rbind {E A B} (c : result E A) (f : A -> result E B) : result E B :=
  match c with Ok a => f a | Err e => Err e end.

Definition is_ok {E A} (c : result E A) : bool :=
  match c with Ok _ => true | Err _ => false end.

(** A Go computation that can panic (index or slice out of range, send on a
    closed channel, negative [make] size). *)
Inductive exec (A : Type) : Type :=
| Done (a : A)
| Panic (why : string).
Arguments Done {A} a.
Arguments Panic {A} why.

Definition ebind {A B} (c : exec A) (f : A -> exec B) : exec B :=
  match c with Done a => f a | Panic w => Panic w end.

Notation "'let?' x ':=' c 'in' k" := (rbind c (fun x => k))
  (at level 10, x name, c at level 100, k at level 200) : go_scope.
Notation "'let!' x ':=' c 'in' k" := (ebind c (fun x => k))
  (at level 10, x name, c at level 100, k at level 200) : go_scope.
Open Scope go_scope.

(** ** Machine integers

    Go's [int], [int64] and [time.Duration] are 64-bit two's complement;
    [uint32] and [uint64] wrap modulo a power of two. *)

Definition u8 (x : Z) : Z := x mod 2 ^ 8.
Definition u32 (x : Z) : Z := x mod 2 ^ 32.
Definition u64 (x : Z) : Z := x mod 2 ^ 64.
Definition i64 (x : Z) : Z := (x + 2 ^ 63) mod 2 ^ 64 - 2 ^ 63.

Definition in_i64 (x : Z) : Prop := - 2 ^ 63 <= x < 2 ^ 63.
Definition in_u32 (x : Z) : Prop := 0 <= x < 2 ^ 32.

(** Durations and instants are nanoseconds. *)
Definition millisecond : Z := 1000000.
Definition second : Z := 1000000000.
Definition minute : Z := 60 * second.

Lemma i64_id x : in_i64 x -> i64 x = x.
Proof. unfold in_i64, i64. intros ?. rewrite Z.mod_small; lia. Qed.

Lemma i64_range x : in_i64 (i64 x).
Proof.
  unfold in_i64, i64.
  pose proof (Z.mod_pos_bound (x + 2 ^ 63) (2 ^ 64) ltac:(lia)). lia.
Qed.

Lemma u32_id x : in_u32 x -> u32 x = x.
Proof. unfold in_u32, u32. intros ?. by apply Z.mod_small. Qed.

Lemma u32_range x : in_u32 (u32 x).
Proof. unfold in_u32, u32. apply Z.mod_pos_bound. lia. Qed.

Lemma u8_range x : 0 <= u8 x < 256.
Proof. unfold u8. apply Z.mod_pos_bound. lia. Qed.

Lemma u64_id x : 0 <= x < 2 ^ 64 -> u64 x = x.
Proof. intros ?. by apply Z.mod_small. Qed.

(** ** Tactics *)

Create HintDb go.
Create Rewrite HintDb go_lists.
Create Rewrite HintDb go_strings.

(** Turn the boolean tests of the code into propositions. *)
Ltac breflect :=
  repeat match goal with
  | H : (_ && _) = true |- _ => apply andb_true_iff in H; destruct H
  | H : (_ || _) = false |- _ => apply orb_false_iff in H; destruct H
  | H : negb _ = true |- _ => apply negb_true_iff in H
  | H : negb _ = false |- _ => apply negb_false_iff in H
  | H : Z.leb _ _ = true |- _ => apply Z.leb_le in H
  | H : Z.leb _ _ = false |- _ => apply Z.leb_gt in H
  | H : Z.ltb _ _ = true |- _ => apply Z.ltb_lt in H
  | H : Z.ltb _ _ = false |- _ => apply Z.ltb_ge in H
  | H : Z.eqb _ _ = true |- _ => apply Z.eqb_eq in H
  | H : Z.eqb _ _ = false |- _ => apply Z.eqb_neq in H
  | H : Z.gtb _ _ = true |- _ => rewrite Z.gtb_ltb in H; apply Z.ltb_lt in H
  | H : Z.gtb _ _ = false |- _ => rewrite Z.gtb_ltb in H; apply Z.ltb_ge in H
  | H : Z.geb _ _ = true |- _ => rewrite Z.geb_leb in H; apply Z.leb_le in H
  | H : Z.geb _ _ = false |- _ => rewrite Z.geb_leb in H; apply Z.leb_gt in H
  | H : String.eqb _ _ = true |- _ => apply String.eqb_eq in H
  | H : String.eqb _ _ = false |- _ => apply String.eqb_neq in H
  | H : bool_decide _ = true |- _ => apply bool_decide_eq_true in H
  | H : bool_decide _ = false |- _ => apply bool_decide_eq_false in H
  end.

(** Case on the next boolean test of the goal (or of [H]) and reflect it. *)
Ltac bcase :=
  match goal with
  | |- context [if ?b then _ else _] =>
      lazymatch type of b with bool => destruct b eqn:? end
  end; breflect.

Ltac bcase_in H :=
  match type of H with
  | context [if ?b then _ else _] =>
      lazymatch type of b with bool => destruct b eqn:? end
  end; breflect.

(** ** Lists *)

Definition sumZ (l : list Z) : Z := foldr Z.add 0 l.

(** Number of elements satisfying [p], as a [Z] like Go's [len]. *)
Definition countZ {A} (p : A -> bool) (l : list A) : Z :=
  Z.of_nat (length (List.filter p l)).

Definition lenZ {A} (l : list A) : Z := Z.of_nat (length l).

Lemma sumZ_app l k : sumZ (l ++ k) = sumZ l + sumZ k.
Proof. unfold sumZ. induction l; simpl; lia. Qed.

#[export] Instance sumZ_Proper : Proper (Permutation ==> eq) sumZ.
Proof. unfold sumZ. induction 1; simpl; lia. Qed.

Lemma sumZ_map_perm {A} (f : A -> Z) l k : l ≡ₚ k -> sumZ (map f l) = sumZ (map f k).
Proof. intros H. by rewrite (fmap_Permutation f _ _ H : map f l ≡ₚ map f k). Qed.

Lemma sumZ_nonneg l : Forall (Z.le 0) l -> 0 <= sumZ l.
Proof. unfold sumZ. induction 1; simpl; lia. Qed.

Lemma lenZ_nonneg {A} (l : list A) : 0 <= lenZ l.
Proof. unfold lenZ. lia. Qed.

Lemma lenZ_app {A} (l k : list A) : lenZ (l ++ k) = lenZ l + lenZ k.
Proof. unfold lenZ. rewrite length_app. lia. Qed.

Lemma lenZ_cons {A} (x : A) l : lenZ (x :: l) = lenZ l + 1.
Proof. unfold lenZ. simpl. lia. Qed.

Lemma lenZ_zero_inv {A} (l : list A) : lenZ l = 0 -> l = [].
Proof. destruct l; [done|]. unfold lenZ. simpl. lia. Qed.

Lemma lenZ_filter_le {A} (p : A -> bool) l : lenZ (List.filter p l) <= lenZ l.
Proof. unfold lenZ. induction l; simpl; [lia|]. case_match; simpl; lia. Qed.

Lemma countZ_app {A} (p : A -> bool) l k :
  countZ p (l ++ k) = countZ p l + countZ p k.
Proof. unfold countZ. rewrite List.filter_app, length_app. lia. Qed.

Lemma countZ_nonneg {A} (p : A -> bool) l : 0 <= countZ p l.
Proof. unfold countZ. lia. Qed.

Lemma countZ_cons {A} (f : A -> bool) x l : countZ f (x :: l) = (if f x then 1 else 0) + countZ f l.
Proof. unfold countZ. simpl. destruct (f x); simpl; lia. Qed.

Lemma countZ_one {A} (p : A -> bool) x : countZ p [x] = if p x then 1 else 0.
Proof. unfold countZ. simpl. by destruct (p x). Qed.

Lemma countZ_le {A} (p : A -> bool) l : countZ p l <= lenZ l.
Proof. apply lenZ_filter_le. Qed.

Lemma lfilter_filter {A} (p q : A -> bool) l :
  List.filter p (List.filter q l) = List.filter (fun x => q x && p x) l.
Proof.
  induction l as [|x l IH]; simpl; [done|].
  destruct (q x); simpl; [destruct (p x)|]; by rewrite IH.
Qed.

Lemma lfilter_ext {A} (p q : A -> bool) l :
  (forall x, x ∈ l -> p x = q x) -> List.filter p l = List.filter q l.
Proof.
  induction l as [|x l IH]; intros H; simpl; [done|].
  rewrite H, IH by set_solver. done.
Qed.

Lemma lfilter_all {A} (p : A -> bool) l :
  (forall x, x ∈ l -> p x = true) -> List.filter p l = l.
Proof.
  induction l as [|x l IH]; intros H; simpl; [done|].
  rewrite H, IH by set_solver. done.
Qed.

Lemma lfilter_none {A} (p : A -> bool) l :
  (forall x, x ∈ l -> p x = false) -> List.filter p l = [].
Proof.
  induction l as [|x l IH]; intros H; simpl; [done|].
  rewrite H, IH by set_solver. done.
Qed.

Lemma elem_of_lfilter {A} (p : A -> bool) l x :
  x ∈ List.filter p l <-> x ∈ l /\ p x = true.
Proof. rewrite !list_elem_of_In. apply filter_In. Qed.

#[export] Hint Resolve lenZ_nonneg countZ_nonneg i64_range u32_range u8_range : go.
#[export] Hint Rewrite @lenZ_app @lenZ_cons @countZ_app sumZ_app : go_lists.
