(* ===== verification/GoStrings.v ===== *)
(** * Go's [strings] package and byte strings

    Go strings and byte slices are byte sequences: both are [string].  The
    functions below are the ones the gateway calls.  Case mapping and white
    space are those of ASCII; bytes above 127 are left alone. *)

From S2P Require Import Prelude.

#[local] Open Scope string_scope.
Open Scope Z_scope.

(** Let [simpl] compute appends of a literal head. *)
#[global] Arguments String.append : simpl nomatch.

(** ** Length, prefixes, suffixes *)

Definition slen (s : string) : Z := Z.of_nat (String.length s).

Definition HasPrefix (s p : string) : bool := String.prefix p s.

(** [s[n:]] for [n <= len(s)]. *)
Fixpoint sdrop (n : nat) (s : string) : string :=
  match n, s with
  | O, _ => s
  | S n', EmptyString => EmptyString
  | S n', String _ s' => sdrop n' s'
  end.

(** [s[:n]]. *)
Fixpoint stake (n : nat) (s : string) : string :=
  match n, s with
  | O, _ => EmptyString
  | S n', EmptyString => EmptyString
  | S n', String c s' => String c (stake n' s')
  end.

Definition TrimPrefix (s p : string) : string :=
  if HasPrefix s p then sdrop (String.length p) s else s.

Definition HasSuffix (s p : string) : bool :=
  (String.length p <=? String.length s)%nat &&
  String.eqb (sdrop (String.length s - String.length p) s) p.

Definition TrimSuffix (s p : string) : string :=
  if HasSuffix s p then stake (String.length s - String.length p) s else s.

(** [strings.Contains]. *)
Fixpoint Contains (s sub : string) : bool :=
  HasPrefix s sub ||
  match s with EmptyString => false | String _ s' => Contains s' sub end.

(** ** Splitting and joining on one byte *)

(** [strings.Split(s, sep)] for a one-byte [sep]. *)
Fixpoint Split (c : ascii) (s : string) : list string :=
  match s with
  | EmptyString => [EmptyString]
  | String a s' =>
      if Ascii.eqb a c then EmptyString :: Split c s'
      else match Split c s' with
           | [] => [String a EmptyString]
           | w :: ws => String a w :: ws
           end
  end.

Fixpoint Join (ws : list string) (sep : string) : string :=
  match ws with
  | [] => ""
  | [w] => w
  | w :: ws' => w ++ sep ++ Join ws' sep
  end.

(** ** Bytes, case and white space *)

Definition byte_of (c : ascii) : Z := Z.of_N (N_of_ascii c).
Definition of_byte (x : Z) : ascii := ascii_of_N (Z.to_N (x mod 256)).

Definition in_range (lo hi : Z) (c : ascii) : bool :=
  (lo <=? byte_of c) && (byte_of c <=? hi).
Definition is_upper : ascii -> bool := in_range 65 90.
Definition is_lower : ascii -> bool := in_range 97 122.
Definition is_digit : ascii -> bool := in_range 48 57.

Definition lower_byte (c : ascii) : ascii :=
  if is_upper c then of_byte (byte_of c + 32) else c.
Definition upper_byte (c : ascii) : ascii :=
  if is_lower c then of_byte (byte_of c - 32) else c.

Fixpoint smap (f : ascii -> ascii) (s : string) : string :=
  match s with EmptyString => EmptyString | String c s' => String (f c) (smap f s') end.

Fixpoint sforall (p : ascii -> bool) (s : string) : bool :=
  match s with EmptyString => true | String c s' => p c && sforall p s' end.

Definition ToLower : string -> string := smap lower_byte.

(** [strings.EqualFold] on ASCII. *)
Definition EqualFold (s t : string) : bool := String.eqb (ToLower s) (ToLower t).

(** Tab, line feed, vertical tab, form feed, carriage return, space. *)
Definition is_space (c : ascii) : bool := in_range 9 13 c || (byte_of c =? 32).

(** [strings.TrimLeft]/[TrimRight] with a byte predicate. *)
Fixpoint trim_left (p : ascii -> bool) (s : string) : string :=
  match s with
  | EmptyString => EmptyString
  | String c s' => if p c then trim_left p s' else s
  end.

Fixpoint trim_right (p : ascii -> bool) (s : string) : string :=
  match s with
  | EmptyString => EmptyString
  | String c s' =>
      match trim_right p s' with
      | EmptyString => if p c then EmptyString else String c EmptyString
      | s'' => String c s''
      end
  end.

Definition trim (p : ascii -> bool) (s : string) : string := trim_right p (trim_left p s).
Definition TrimSpace : string -> string := trim is_space.

(** Is byte [c] in the cutset. *)
Fixpoint in_cutset (cs : string) (c : ascii) : bool :=
  match cs with EmptyString => false | String a cs' => Ascii.eqb a c || in_cutset cs' c end.
Definition Trim (s cutset : string) : string := trim (in_cutset cutset) s.

(** [strings.Fields]: the maximal runs of non-space bytes. *)
Fixpoint fields_from (cur : string) (s : string) : list string :=
  match s with
  | EmptyString => if String.eqb cur "" then [] else [cur]
  | String c s' =>
      if is_space c
      then if String.eqb cur "" then fields_from "" s' else cur :: fields_from "" s'
      else fields_from (cur ++ String c EmptyString) s'
  end.
Definition Fields (s : string) : list string := fields_from "" s.

(** [strings.ReplaceAll] of one byte by another. *)
Definition replace_byte (a b : ascii) (s : string) : string :=
  smap (fun c => if Ascii.eqb c a then b else c) s.

Fixpoint Repeat (s : string) (n : nat) : string :=
  match n with O => "" | S n' => s ++ Repeat s n' end.

(** [strings.Index(s, c)] of one byte: the position of its first occurrence. *)
Fixpoint index_byte (s : string) (c : ascii) : option nat :=
  match s with
  | EmptyString => None
  | String a s' => if Ascii.eqb a c then Some O else S <$> index_byte s' c
  end.

(** [strings.LastIndexByte]. *)
Fixpoint last_index_byte (s : string) (c : ascii) : option nat :=
  match s with
  | EmptyString => None
  | String a s' =>
      match last_index_byte s' c with
      | Some n => Some (S n)
      | None => if Ascii.eqb a c then Some O else None
      end
  end.

(** ** Decimal numerals ([%d]) *)

Fixpoint digits_fuel (fuel : nat) (n : Z) (acc : string) : string :=
  match fuel with
  | O => acc
  | S f =>
      let acc' := String (of_byte (48 + n mod 10)) acc in
      if n <? 10 then acc' else digits_fuel f (n / 10) acc'
  end.

(** The fuel bounds the number of decimal digits by the number of bits. *)
Definition digits (n : Z) : string := digits_fuel (S (Z.to_nat (Z.log2_up (n + 1)))) n "".

Definition Itoa (n : Z) : string :=
  if n <? 0 then "-" ++ digits (- n) else digits n.

(** ** Lemmas *)

Lemma sapp_assoc s t u : (s ++ t) ++ u = s ++ (t ++ u).
Proof. induction s as [|c s IH]; simpl; [done|]. by rewrite IH. Qed.

Lemma sapp_nil_r s : s ++ "" = s.
Proof. induction s; simpl; congruence. Qed.

Lemma slength_app s t : String.length (s ++ t) = (String.length s + String.length t)%nat.
Proof. induction s; simpl; congruence. Qed.

Lemma slen_app s t : slen (s ++ t) = slen s + slen t.
Proof. unfold slen. rewrite slength_app. lia. Qed.

Lemma sdrop_app s t : sdrop (String.length s) (s ++ t) = t.
Proof. by induction s. Qed.

Lemma stake_app s t : stake (String.length s) (s ++ t) = s.
Proof. induction s; simpl; congruence. Qed.

Lemma HasPrefix_app p t : HasPrefix (p ++ t) p = true.
Proof. unfold HasPrefix. induction p; simpl; [by destruct t|]. by case_match. Qed.

Lemma HasPrefix_spec s p : HasPrefix s p = true <-> exists t, s = p ++ t.
Proof.
  split; [|intros [t ->]; apply HasPrefix_app].
  unfold HasPrefix. revert s. induction p as [|c p IH]; intros s H.
  - by exists s.
  - destruct s as [|a s]; simpl in H; [done|].
    destruct (ascii_dec c a); [|done]. subst.
    destruct (IH s H) as [t ->]. by exists t.
Qed.

Lemma HasPrefix_nil s : HasPrefix s "" = true.
Proof. by destruct s. Qed.

Lemma TrimPrefix_app p t : TrimPrefix (p ++ t) p = t.
Proof. unfold TrimPrefix. by rewrite HasPrefix_app, sdrop_app. Qed.

Lemma TrimPrefix_none s p : HasPrefix s p = false -> TrimPrefix s p = s.
Proof. unfold TrimPrefix. by intros ->. Qed.

Lemma HasSuffix_app s p : HasSuffix (s ++ p) p = true.
Proof.
  unfold HasSuffix. rewrite slength_app, Nat.add_sub, sdrop_app, String.eqb_refl.
  by rewrite (proj2 (Nat.leb_le _ _)) by lia.
Qed.

Lemma TrimSuffix_app s p : TrimSuffix (s ++ p) p = s.
Proof.
  unfold TrimSuffix. by rewrite HasSuffix_app, slength_app, Nat.add_sub, stake_app.
Qed.

Lemma stake_sdrop n s : stake n s ++ sdrop n s = s.
Proof. revert s. induction n; intros [|c s]; simpl; try done. by rewrite IHn. Qed.

Lemma HasSuffix_spec s p : HasSuffix s p = true <-> exists t, s = t ++ p.
Proof.
  split; [|intros [t ->]; apply HasSuffix_app].
  unfold HasSuffix. intros [_ H%String.eqb_eq]%andb_true_iff.
  exists (stake (String.length s - String.length p) s).
  rewrite <- (stake_sdrop (String.length s - String.length p) s) at 1. by rewrite H.
Qed.

Lemma Contains_spec s sub :
  Contains s sub = true <-> exists a b, s = a ++ sub ++ b.
Proof.
  split.
  - induction s as [|c s IH]; cbn [Contains]; intros [H|H]%orb_true_iff; try done.
    + apply HasPrefix_spec in H as [t ->]. by exists "", t.
    + apply HasPrefix_spec in H as [t ->]. by exists "", t.
    + destruct (IH H) as (a & b & ->). by exists (String c a), b.
  - intros (a & b & ->). induction a as [|c a IH].
    + simpl. destruct (sub ++ b) eqn:E; cbn [Contains]; by rewrite <- E, HasPrefix_app.
    + simpl. by rewrite IH, orb_true_r.
Qed.

(** A string free of the separator. *)
Definition free_of (c : ascii) (s : string) : bool := sforall (fun a => negb (Ascii.eqb a c)) s.

Lemma Split_free c s : free_of c s = true -> Split c s = [s].
Proof.
  induction s as [|a s IH]; simpl; [done|].
  intros [Ha Hs]%andb_true_iff. apply negb_true_iff in Ha. by rewrite Ha, IH.
Qed.

Lemma Split_app c s t :
  free_of c s = true -> Split c (s ++ String c t) = s :: Split c t.
Proof.
  induction s as [|a s IH]; simpl.
  - by rewrite Ascii.eqb_refl.
  - intros [Ha Hs]%andb_true_iff. apply negb_true_iff in Ha. by rewrite Ha, IH.
Qed.

Lemma Split_nonempty c s : Split c s <> [].
Proof. induction s as [|a s IH]; simpl; [done|]. repeat case_match; done. Qed.

Lemma Join_cons w ws sep : ws <> [] -> Join (w :: ws) sep = w ++ sep ++ Join ws sep.
Proof. by destruct ws. Qed.

(** [strings.Join] undoes [strings.Split]. *)
Lemma Join_Split c s : Join (Split c s) (String c EmptyString) = s.
Proof.
  induction s as [|a s IH]; simpl; [done|].
  pose proof (Split_nonempty c s) as Hne.
  destruct (Ascii.eqb a c) eqn:E.
  - apply Ascii.eqb_eq in E as ->. rewrite Join_cons by done. simpl. by rewrite IH.
  - destruct (Split c s) as [|w [|w' ws]] eqn:Es; [done| |]; simpl in *; by rewrite IH.
Qed.

(** Splitting undoes joining, for pieces free of the separator. *)
Lemma Split_Join c ws :
  ws <> [] -> Forall (fun w => free_of c w = true) ws ->
  Split c (Join ws (String c EmptyString)) = ws.
Proof.
  intros Hne H. induction H as [|w ws Hw Hws IH]; [done|]. destruct ws as [|w' ws].
  - simpl. by apply Split_free.
  - rewrite Join_cons by done. cbn [String.append]. by rewrite Split_app, IH.
Qed.

Lemma smap_length f s : String.length (smap f s) = String.length s.
Proof. induction s; simpl; congruence. Qed.

Lemma smap_app f s t : smap f (s ++ t) = smap f s ++ smap f t.
Proof. induction s; simpl; congruence. Qed.

Lemma sforall_app p s t : sforall p (s ++ t) = sforall p s && sforall p t.
Proof. induction s; simpl; [done|]. by rewrite IHs, andb_assoc. Qed.

Lemma byte_of_bound c : 0 <= byte_of c < 256.
Proof. unfold byte_of. pose proof (N_ascii_bounded c). lia. Qed.

Lemma byte_of_of_byte x : 0 <= x < 256 -> byte_of (of_byte x) = x.
Proof.
  intros ?. unfold byte_of, of_byte. rewrite Z.mod_small by lia.
  rewrite N_ascii_embedding by lia. lia.
Qed.

Lemma of_byte_byte_of c : of_byte (byte_of c) = c.
Proof.
  unfold of_byte. pose proof (byte_of_bound c). rewrite Z.mod_small by lia.
  unfold byte_of. rewrite N2Z.id. apply ascii_N_embedding.
Qed.

(** A property of all bytes, by evaluation. *)
Lemma all_bytes (p : ascii -> bool) :
  forallb p (map (fun n => of_byte (Z.of_nat n)) (seq 0 256)) = true ->
  forall c, p c = true.
Proof.
  intros H c. rewrite forallb_forall in H. apply H, in_map_iff.
  exists (Z.to_nat (byte_of c)). pose proof (byte_of_bound c).
  split; [rewrite Z2Nat.id by lia; apply of_byte_byte_of|]. apply in_seq. lia.
Qed.

Lemma lower_byte_idem c : lower_byte (lower_byte c) = lower_byte c.
Proof.
  apply Ascii.eqb_eq. revert c.
  apply (all_bytes (fun c => Ascii.eqb (lower_byte (lower_byte c)) (lower_byte c))).
  by vm_compute.
Qed.

Lemma ToLower_idem s : ToLower (ToLower s) = ToLower s.
Proof. unfold ToLower. induction s; simpl; [done|]. by rewrite lower_byte_idem, IHs. Qed.

Lemma EqualFold_refl s : EqualFold s s = true.
Proof. apply String.eqb_refl. Qed.

Lemma EqualFold_sym s t : EqualFold s t = EqualFold t s.
Proof. unfold EqualFold. apply String.eqb_sym. Qed.

#[export] Hint Rewrite sapp_assoc sapp_nil_r slength_app sdrop_app stake_app HasPrefix_app
  TrimPrefix_app TrimSuffix_app String.eqb_refl Ascii.eqb_refl : go_strings.
