(* ===== verification/GoFloat.v ===== *)
(** * IEEE 754 binary64 arithmetic

    Go's [float64] operations on the executable specification [SpecFloat]
    (53 bits of precision, exponent bound 1024, round to nearest even). *)

From Stdlib Require Export Floats.SpecFloat.
From S2P Require Import Prelude GoStrings.

Abbreviation float64 := spec_float.

#[export] Instance float64_eq_dec : EqDecision spec_float.
Proof. solve_decision. Defined.

Definition fmul : float64 -> float64 -> float64 := SFmul 53 1024.
Definition fadd : float64 -> float64 -> float64 := SFadd 53 1024.
Definition fdiv : float64 -> float64 -> float64 := SFdiv 53 1024.
Definition fltb : float64 -> float64 -> bool := SFltb.
Definition fleb : float64 -> float64 -> bool := SFleb.
Definition fgtb (x y : float64) : bool := SFltb y x.
Definition feqb : float64 -> float64 -> bool := SFeqb.

(** [float64(n)] for an integer [n]. *)
Definition of_int (n : Z) : float64 := binary_normalize 53 1024 n 0 false.

(** The decimal [(-1)^neg * m * 10^e], correctly rounded: what [strconv.ParseFloat]
    and the compiler compute for a literal. *)
Definition of_decimal (neg : bool) (m e : Z) : float64 :=
  match m with
  | Z.pos p =>
      if 0 <=? e then
        match m * 10 ^ e with
        | Z.pos q => binary_round 53 1024 neg q 0
        | _ => S754_zero neg
        end
      else
        match 10 ^ (- e) with
        | Z.pos q =>
            let '(mz, ez, lz) := SFdiv_core_binary 53 1024 (Z.pos p) 0 (Z.pos q) 0 in
            binary_round_aux 53 1024 neg mz ez lz
        | _ => S754_nan
        end
  | _ => S754_zero neg
  end.

(** The integer part of a finite float, towards zero. *)
Definition ftrunc (x : float64) : option Z :=
  match x with
  | S754_zero _ => Some 0
  | S754_finite s m e =>
      let a := if 0 <=? e then Z.pos m * 2 ^ e else Z.pos m / 2 ^ (- e) in
      Some (if s then - a else a)
  | _ => None
  end.

(** [int(x)] on amd64: values outside the range give the minimum integer. *)
Definition to_int (x : float64) : Z :=
  match ftrunc x with
  | Some n => if (- 2 ^ 63 <=? n) && (n <? 2 ^ 63) then n else - 2 ^ 63
  | None => - 2 ^ 63
  end.

Example of_decimal_099 : of_decimal false 99 (-2) = S754_finite false 8917127262193582 (-53).
Proof. by vm_compute. Qed.

Example of_int_50 : ftrunc (fmul (of_int 50) (of_decimal false 99 (-2))) = Some 49.
Proof. by vm_compute. Qed.

(** ** Formatting: [%.nf] *)

(** Round the rational [num / den] (both positive) half to even. *)
Definition round_half_even (num den : Z) : Z :=
  let q := num / den in
  let r := num mod den in
  match Z.compare (2 * r) den with
  | Lt => q
  | Gt => q + 1
  | Eq => if Z.even q then q else q + 1
  end.

(** Left pad with zeros to [n] characters. *)
Definition pad_zeros (n : nat) (s : string) : string :=
  (Repeat "0" (n - String.length s) ++ s)%string.

(** [fmt.Sprintf("%.nf", x)] of a finite [x]. *)
Definition fmt_fixed (n : nat) (x : float64) : string :=
  match x with
  | S754_zero s => ((if s then "-" else "") ++ "0" ++ (if (n =? 0)%nat then "" else "." ++ Repeat "0" n))%string
  | S754_finite s m e =>
      let scaled :=
        if 0 <=? e then Z.pos m * 2 ^ e * 10 ^ Z.of_nat n
        else round_half_even (Z.pos m * 10 ^ Z.of_nat n) (2 ^ (- e)) in
      let ip := digits (scaled / 10 ^ Z.of_nat n) in
      let fp := pad_zeros n (digits (scaled mod 10 ^ Z.of_nat n)) in
      ((if s then "-" else "") ++ ip ++ (if (n =? 0)%nat then "" else "." ++ fp))%string
  | S754_infinity s => if s then "-Inf" else "+Inf"
  | S754_nan => "NaN"
  end.

Example fmt_fixed_3 : fmt_fixed 3 (of_decimal false 3 (-3)) = "0.003"%string.
Proof. by vm_compute. Qed.
Example fmt_fixed_6 : fmt_fixed 6 (of_decimal false 1234567 (-3)) = "1234.567000"%string.
Proof. by vm_compute. Qed.
