(* ===== verification/Encoding.v ===== *)
(** * Bytes: base64, hexadecimal, big-endian words, hashes

    The parts of [encoding/base64], [encoding/binary], [crypto/sha256],
    [crypto/sha1] and [crypto/hmac] the gateway calls, executable on byte
    strings. *)

From S2P Require Import Prelude GoStrings.
#[local] Open Scope string_scope.
Open Scope Z_scope.

(** ** Bytes of a string *)

Fixpoint bytes (s : string) : list Z :=
  match s with EmptyString => [] | String c s' => byte_of c :: bytes s' end.

Fixpoint of_bytes (l : list Z) : string :=
  match l with [] => EmptyString | x :: l' => String (of_byte x) (of_bytes l') end.

Definition is_byte (x : Z) : Prop := 0 <= x < 256.

Lemma of_bytes_bytes s : of_bytes (bytes s) = s.
Proof. induction s; simpl; [done|]. by rewrite of_byte_byte_of, IHs. Qed.

Lemma bytes_of_bytes l : Forall is_byte l -> bytes (of_bytes l) = l.
Proof. induction 1; simpl; [done|]. by rewrite byte_of_of_byte, IHForall. Qed.

Lemma bytes_are_bytes s : Forall is_byte (bytes s).
Proof. induction s; simpl; constructor; [apply byte_of_bound|done]. Qed.

Lemma length_bytes s : length (bytes s) = String.length s.
Proof. induction s; simpl; congruence. Qed.

Lemma bytes_app s t : bytes (s ++ t) = (bytes s ++ bytes t)%list.
Proof. induction s as [|c s IH]; simpl; [done|]. by rewrite IH. Qed.

(** ** Big-endian words *)

(** [binary.BigEndian.PutUint32]. *)
Definition be32 (x : Z) : string :=
  of_bytes [Z.shiftr x 24 mod 256; Z.shiftr x 16 mod 256; Z.shiftr x 8 mod 256; x mod 256].

(** [binary.BigEndian.Uint32] of four bytes. *)
Definition of_be (l : list Z) : Z := fold_left (fun acc b => acc * 256 + b) l 0.

Lemma bytes_be32 x :
  bytes (be32 x)
  = [Z.shiftr x 24 mod 256; Z.shiftr x 16 mod 256; Z.shiftr x 8 mod 256; x mod 256].
Proof.
  unfold be32. apply bytes_of_bytes. repeat constructor; apply Z.mod_pos_bound; lia.
Qed.

Lemma of_be_be32 x : in_u32 x -> of_be (bytes (be32 x)) = x.
Proof.
  unfold in_u32. intros Hx. rewrite bytes_be32. unfold of_be. simpl fold_left.
  rewrite !Z.shiftr_div_pow2 by lia. Z.to_euclidean_division_equations. lia.
Qed.

Lemma of_be_fold l acc :
  fold_left (fun a b => a * 256 + b) l acc = acc * 256 ^ lenZ l + of_be l.
Proof.
  unfold of_be. revert acc. induction l as [|b l IH]; intros acc; [unfold lenZ; simpl; lia|].
  rewrite lenZ_cons. cbn [fold_left]. rewrite (IH (acc * 256 + b)), (IH (0 * 256 + b)), Z.pow_add_r; unfold lenZ; lia.
Qed.

Lemma of_be_cons b l : of_be (b :: l) = b * 256 ^ lenZ l + of_be l.
Proof. exact (of_be_fold l b). Qed.

(** The bytes of a length, most significant first. *)
Definition be_bytes (n : nat) (x : Z) : list Z :=
  map (fun i => u8 (Z.shiftr x (Z.of_nat i * 8))) (rev (seq 0 n)).

Lemma length_be_bytes n x : lenZ (be_bytes n x) = Z.of_nat n.
Proof. unfold lenZ, be_bytes. by rewrite length_map, length_rev, length_seq. Qed.

Lemma be_bytes_succ n x : be_bytes (S n) x = u8 (Z.shiftr x (Z.of_nat n * 8)) :: be_bytes n x.
Proof. unfold be_bytes. by rewrite seq_S, rev_app_distr. Qed.

Lemma of_be_bytes n x : of_be (be_bytes n x) = x mod 256 ^ Z.of_nat n.
Proof.
  induction n as [|n IH]; [by rewrite Z.mod_1_r|].
  rewrite be_bytes_succ, of_be_cons, length_be_bytes, IH, Nat2Z.inj_succ, Z.pow_succ_r by lia.
  unfold u8. rewrite Z.shiftr_div_pow2 by lia.
  replace (2 ^ (Z.of_nat n * 8)) with (256 ^ Z.of_nat n)
    by (rewrite Z.mul_comm, Z.pow_mul_r by lia; done).
  rewrite (Z.mul_comm 256), Z.rem_mul_r by (try apply Z.pow_nonzero; lia).
  change (2 ^ 8) with 256. lia.
Qed.

Lemma be_bytes_are_bytes n x : Forall is_byte (be_bytes n x).
Proof. apply List.Forall_map, List.Forall_forall. intros i _. apply u8_range. Qed.

Lemma length_of_bytes l : String.length (of_bytes l) = length l.
Proof. induction l; simpl; auto. Qed.

Lemma slen_of_bytes l : slen (of_bytes l) = lenZ l.
Proof. unfold slen, lenZ. by rewrite length_of_bytes. Qed.

Lemma of_bytes_app l k : of_bytes (l ++ k) = (of_bytes l ++ of_bytes k)%string.
Proof. induction l as [|x l IH]; simpl; [done|by rewrite IH]. Qed.

(** Reading the next bytes of a header. *)
Lemma stake_bytes n l s : length l = n -> Forall is_byte l -> bytes (stake n (of_bytes l ++ s)) = l.
Proof.
  intros <- Hl. rewrite <- (bytes_of_bytes l) at 3 by done. f_equal.
  rewrite <- length_of_bytes. apply stake_app.
Qed.
Lemma sdrop_bytes n l s : length l = n -> sdrop n (of_bytes l ++ s) = s.
Proof.
  intros <-. rewrite <- length_of_bytes. apply sdrop_app.
Qed.

(** ** Hexadecimal ([%x]) *)

Definition hex_digit (x : Z) : ascii :=
  of_byte (if x <? 10 then 48 + x else 87 + x).

Fixpoint hex_of (l : list Z) : string :=
  match l with
  | [] => ""
  | x :: l' => String (hex_digit (x / 16)) (String (hex_digit (x mod 16)) (hex_of l'))
  end.

(** ** Base64 *)

(** The standard and the URL alphabets: the byte of a 6-bit group. *)
Definition b64_char (url : bool) (x : Z) : ascii :=
  of_byte
    (if x <? 26 then 65 + x
     else if x <? 52 then 71 + x
     else if x <? 62 then x - 4
     else if x =? 62 then (if url then 45 else 43)
     else (if url then 95 else 47)).

Definition b64_value (url : bool) (c : ascii) : option Z :=
  let b := byte_of c in
  if (65 <=? b) && (b <=? 90) then Some (b - 65)
  else if (97 <=? b) && (b <=? 122) then Some (b - 71)
  else if (48 <=? b) && (b <=? 57) then Some (b + 4)
  else if b =? (if url then 45 else 43) then Some 62
  else if b =? (if url then 95 else 47) then Some 63
  else None.

(** [EncodeToString]; [pad] selects the padded encodings. *)
Fixpoint b64_encode_bytes (url pad : bool) (l : list Z) : string :=
  match l with
  | [] => ""
  | [a] =>
      String (b64_char url (a / 4))
        (String (b64_char url (a mod 4 * 16)) (if pad then "==" else ""))
  | [a; b] =>
      String (b64_char url (a / 4))
        (String (b64_char url (a mod 4 * 16 + b / 16))
          (String (b64_char url (b mod 16 * 4)) (if pad then "=" else "")))
  | a :: b :: c :: l' =>
      String (b64_char url (a / 4))
        (String (b64_char url (a mod 4 * 16 + b / 16))
          (String (b64_char url (b mod 16 * 4 + c / 64))
            (String (b64_char url (c mod 64)) (b64_encode_bytes url pad l'))))
  end.

Definition b64_encode (url pad : bool) (s : string) : string :=
  b64_encode_bytes url pad (bytes s).

(** The decoder ignores carriage returns and line feeds. *)
Definition is_newline (c : ascii) : bool := (byte_of c =? 10) || (byte_of c =? 13).

Fixpoint strip_newlines (s : string) : string :=
  match s with
  | EmptyString => EmptyString
  | String c s' => if is_newline c then strip_newlines s' else String c (strip_newlines s')
  end.

Definition is_pad (c : ascii) : bool := byte_of c =? 61.

(** [DecodeString] of the padded, non-strict encodings: quadruples, of which
    only the last may end in one or two ['=']; trailing bits are not checked. *)
Fixpoint b64_decode_quads (url : bool) (s : string) : option (list Z) :=
  match s with
  | EmptyString => Some []
  | String c0 (String c1 (String c2 (String c3 s'))) =>
      match b64_value url c0, b64_value url c1 with
      | Some v0, Some v1 =>
          let x0 := v0 * 4 + v1 / 16 in
          match b64_value url c2 with
          | Some v2 =>
              let x1 := v1 mod 16 * 16 + v2 / 4 in
              match b64_value url c3 with
              | Some v3 =>
                  match b64_decode_quads url s' with
                  | Some l => Some (x0 :: x1 :: (v2 mod 4 * 64 + v3) :: l)
                  | None => None
                  end
              | None =>
                  if is_pad c3 && String.eqb s' "" then Some [x0; x1] else None
              end
          | None =>
              if is_pad c2 && is_pad c3 && String.eqb s' "" then Some [x0] else None
          end
      | _, _ => None
      end
  | _ => None
  end.

Definition b64_decode (url : bool) (s : string) : option string :=
  of_bytes <$> b64_decode_quads url (strip_newlines s).

Lemma b64_value_char url x : 0 <= x < 64 -> b64_value url (b64_char url x) = Some x.
Proof.
  intros Hx.
  assert (forallb (fun n => bool_decide (b64_value url (b64_char url (Z.of_nat n))
            = Some (Z.of_nat n))) (seq 0 64) = true) as H by (by destruct url; vm_compute).
  rewrite forallb_forall in H. specialize (H (Z.to_nat x) ltac:(apply in_seq; lia)).
  apply bool_decide_eq_true in H. by rewrite Z2Nat.id in H by lia.
Qed.

Lemma b64_char_plain url x :
  0 <= x < 64 -> is_newline (b64_char url x) = false /\ is_pad (b64_char url x) = false /\
                 byte_of (b64_char url x) <> 46.
Proof.
  intros Hx.
  assert (forallb (fun n => negb (is_newline (b64_char url (Z.of_nat n))) &&
            negb (is_pad (b64_char url (Z.of_nat n))) &&
            negb (byte_of (b64_char url (Z.of_nat n)) =? 46)) (seq 0 64) = true) as H
    by (by destruct url; vm_compute).
  rewrite forallb_forall in H. specialize (H (Z.to_nat x) ltac:(apply in_seq; lia)).
  rewrite Z2Nat.id in H by lia. breflect. done.
Qed.

(** Induction three elements at a time. *)
Lemma list_ind3 {A} (P : list A -> Prop) :
  P [] -> (forall a, P [a]) -> (forall a b, P [a; b]) ->
  (forall a b c l, P l -> P (a :: b :: c :: l)) -> forall l, P l.
Proof.
  intros H0 H1 H2 H3. fix IH 1. intros [|a [|b [|c l]]]; [done..|]. apply H3, IH.
Qed.

(** The 6-bit groups of a byte sequence. *)
Lemma sextet_bounds a b c :
  is_byte a -> is_byte b -> is_byte c ->
  0 <= a / 4 < 64 /\ 0 <= a mod 4 * 16 + b / 16 < 64 /\
  0 <= b mod 16 * 4 + c / 64 < 64 /\ 0 <= c mod 64 < 64 /\
  0 <= a mod 4 * 16 < 64 /\ 0 <= b mod 16 * 4 < 64.
Proof. unfold is_byte. intros. Z.to_euclidean_division_equations. lia. Qed.

Lemma sextet_join a b c :
  is_byte a -> is_byte b -> is_byte c ->
  a / 4 * 4 + (a mod 4 * 16 + b / 16) / 16 = a /\
  (a mod 4 * 16 + b / 16) mod 16 * 16 + (b mod 16 * 4 + c / 64) / 4 = b /\
  (b mod 16 * 4 + c / 64) mod 4 * 64 + c mod 64 = c.
Proof. unfold is_byte. intros. Z.to_euclidean_division_equations. lia. Qed.

Lemma is_byte_0 : is_byte 0.
Proof. unfold is_byte. lia. Qed.

Lemma b64_value_pad url : b64_value url "="%char = None.
Proof. by destruct url. Qed.

Lemma b64_quads_encode url l :
  Forall is_byte l -> b64_decode_quads url (b64_encode_bytes url true l) = Some l.
Proof.
  induction l as [|a|a b|a b c l IH] using list_ind3; intros H; [done|..].
  - apply Forall_inv in H as Ha. pose proof (sextet_bounds a 0 0 Ha is_byte_0 is_byte_0).
    pose proof (sextet_join a 0 0 Ha is_byte_0 is_byte_0) as (J & _).
    rewrite Z.div_0_l, Z.add_0_r in J by lia. cbn -[Z.div Z.modulo Z.mul].
    rewrite !b64_value_char by lia. cbn -[Z.div Z.modulo Z.mul b64_value]. by rewrite b64_value_pad, J.
  - apply Forall_cons_1 in H as [Ha [Hb _]%Forall_cons_1].
    pose proof (sextet_bounds a b 0 Ha Hb is_byte_0).
    pose proof (sextet_join a b 0 Ha Hb is_byte_0) as (J1 & J2 & _).
    rewrite Z.div_0_l, Z.add_0_r in J2 by lia. cbn -[Z.div Z.modulo Z.mul].
    rewrite !b64_value_char by lia. cbn -[Z.div Z.modulo Z.mul b64_value].
    by rewrite b64_value_pad, J1, J2.
  - apply Forall_cons_1 in H as [Ha [Hb [Hc H]%Forall_cons_1]%Forall_cons_1].
    pose proof (sextet_bounds a b c Ha Hb Hc).
    pose proof (sextet_join a b c Ha Hb Hc) as (J1 & J2 & J3).
    cbn [b64_encode_bytes b64_decode_quads].
    rewrite !b64_value_char by lia. rewrite IH by done. by rewrite J1, J2, J3.
Qed.

(** No character of an encoding is a line break or a dot. *)
Definition is_plain (c : ascii) : bool := negb (is_newline c) && negb (byte_of c =? 46).

Lemma b64_char_is_plain url x : 0 <= x < 64 -> is_plain (b64_char url x) = true.
Proof.
  intros Hx. destruct (b64_char_plain url x Hx) as (H1 & _ & H2). unfold is_plain.
  rewrite H1. simpl. apply negb_true_iff, Z.eqb_neq. done.
Qed.

Lemma b64_encode_plain url pad l :
  Forall is_byte l -> sforall is_plain (b64_encode_bytes url pad l) = true.
Proof.
  induction l as [|a|a b|a b c l IH] using list_ind3; intros H; [done|..].
  - apply Forall_inv in H as Ha. pose proof (sextet_bounds a 0 0 Ha is_byte_0 is_byte_0).
    cbn -[Z.div Z.modulo Z.mul is_plain]. rewrite !b64_char_is_plain by lia. by destruct pad.
  - apply Forall_cons_1 in H as [Ha [Hb _]%Forall_cons_1].
    pose proof (sextet_bounds a b 0 Ha Hb is_byte_0).
    cbn -[Z.div Z.modulo Z.mul is_plain]. rewrite !b64_char_is_plain by lia. by destruct pad.
  - apply Forall_cons_1 in H as [Ha [Hb [Hc H]%Forall_cons_1]%Forall_cons_1].
    pose proof (sextet_bounds a b c Ha Hb Hc).
    cbn -[Z.div Z.modulo Z.mul is_plain]. rewrite !b64_char_is_plain by lia.
    by rewrite IH.
Qed.

Lemma strip_newlines_plain s : sforall is_plain s = true -> strip_newlines s = s.
Proof.
  induction s as [|c s IH]; simpl; [done|]. intros [H1 H2]%andb_true_iff.
  unfold is_plain in H1. apply andb_true_iff in H1 as [H1 _]. apply negb_true_iff in H1.
  by rewrite H1, IH.
Qed.

(** Decoding inverts the padded encoding, for every byte string. *)
Lemma b64_decode_encode url s : b64_decode url (b64_encode url true s) = Some s.
Proof.
  unfold b64_decode, b64_encode. pose proof (bytes_are_bytes s) as Hs.
  rewrite strip_newlines_plain by (by apply b64_encode_plain).
  rewrite b64_quads_encode by done. simpl. by rewrite of_bytes_bytes.
Qed.

(** Padding a raw URL encoding to a multiple of four gives the padded one. *)
Lemma pad_raw_url l :
  Forall is_byte l ->
  (if 0 <? slen (b64_encode_bytes true false l) mod 4
   then b64_encode_bytes true false l
        ++ Repeat "=" (Z.to_nat (4 - slen (b64_encode_bytes true false l) mod 4))
   else b64_encode_bytes true false l)
  = b64_encode_bytes true true l.
Proof.
  induction l as [|a|a b|a b c l IH] using list_ind3; intros H; [done..|].
  apply Forall_cons_1 in H as [Ha [Hb [Hc H]%Forall_cons_1]%Forall_cons_1].
  specialize (IH H). cbn [b64_encode_bytes].
  set (s := b64_encode_bytes true false l) in *.
  match goal with |- context [slen ?t mod 4] =>
    replace (slen t mod 4) with (slen s mod 4) end.
  2: { unfold slen. cbn [String.length]. rewrite !Nat2Z.inj_succ.
       rewrite <- (Z_mod_plus_full (Z.of_nat (String.length s)) 1 4). f_equal. lia. }
  destruct (0 <? slen s mod 4); cbn [String.append]; by rewrite IH.
Qed.
