(* ===== verification/Hash.v ===== *)
(** * Hashes: SHA-256, HMAC-SHA256, SHA-1

    The algorithms of [crypto/sha256], [crypto/hmac] and [crypto/sha1]
    (FIPS 180-4, RFC 2104) on byte strings, executable. *)

From S2P Require Import Prelude GoStrings Encoding.
Open Scope Z_scope.

(** ** 32-bit words *)

Definition add32 (x y : Z) : Z := u32 (x + y).
Definition not32 (x : Z) : Z := 2 ^ 32 - 1 - x.
Definition rotl (n x : Z) : Z := Z.lor (u32 (Z.shiftl x n)) (Z.shiftr x (32 - n)).
Definition rotr (n x : Z) : Z := rotl (32 - n) x.

(** Big-endian words of a byte sequence, and back. *)
Fixpoint words (l : list Z) : list Z :=
  match l with
  | a :: b :: c :: d :: l' => of_be [a; b; c; d] :: words l'
  | _ => []
  end.

Definition word_bytes (x : Z) : list Z :=
  [Z.shiftr x 24 mod 256; Z.shiftr x 16 mod 256; Z.shiftr x 8 mod 256; x mod 256].

(** Consecutive groups of [n] elements. *)
Fixpoint chunks_fuel {A} (fuel n : nat) (l : list A) : list (list A) :=
  match fuel, l with
  | S f, _ :: _ => take n l :: chunks_fuel f n (drop n l)
  | _, _ => []
  end.

Definition chunks {A} (n : nat) (l : list A) : list (list A) := chunks_fuel (length l) n l.

(** Merkle-Damgard padding to 64-byte blocks: 0x80, zeros, the bit length in
    eight bytes. *)
Definition md_pad (l : list Z) : list Z :=
  let n := lenZ l in
  let zeros := (55 - n) mod 64 in
  l ++ 128 :: repeat 0 (Z.to_nat zeros)
    ++ word_bytes (Z.shiftr (8 * n) 32) ++ word_bytes (u32 (8 * n)).

(** ** SHA-256 *)

Definition sha256_K : list Z :=
  [1116352408; 1899447441; 3049323471; 3921009573; 961987163; 1508970993;
   2453635748; 2870763221; 3624381080; 310598401; 607225278; 1426881987;
   1925078388; 2162078206; 2614888103; 3248222580; 3835390401; 4022224774;
   264347078; 604807628; 770255983; 1249150122; 1555081692; 1996064986;
   2554220882; 2821834349; 2952996808; 3210313671; 3336571891; 3584528711;
   113926993; 338241895; 666307205; 773529912; 1294757372; 1396182291;
   1695183700; 1986661051; 2177026350; 2456956037; 2730485921; 2820302411;
   3259730800; 3345764771; 3516065817; 3600352804; 4094571909; 275423344;
   430227734; 506948616; 659060556; 883997877; 958139571; 1322822218;
   1537002063; 1747873779; 1955562222; 2024104815; 2227730452; 2361852424;
   2428436474; 2756734187; 3204031479; 3329325298].

Definition sha256_H0 : list Z :=
  [1779033703; 3144134277; 1013904242; 2773480762; 1359893119; 2600822924; 528734635; 1541459225].

(** The message schedule, most recent word first. *)
Fixpoint sha256_extend (n : nat) (ws : list Z) : list Z :=
  match n with
  | O => ws
  | S n' =>
      let w15 := nth 14 ws 0 in
      let w2 := nth 1 ws 0 in
      let s0 := Z.lxor (Z.lxor (rotr 7 w15) (rotr 18 w15)) (Z.shiftr w15 3) in
      let s1 := Z.lxor (Z.lxor (rotr 17 w2) (rotr 19 w2)) (Z.shiftr w2 10) in
      sha256_extend n' (u32 (nth 15 ws 0 + s0 + nth 6 ws 0 + s1) :: ws)
  end.

Definition sha256_schedule (block : list Z) : list Z :=
  rev (sha256_extend 48 (rev (words block))).

Definition sha256_round (st : list Z) (kw : Z * Z) : list Z :=
  match st with
  | [a; b; c; d; e; f; g; h] =>
      let S1 := Z.lxor (Z.lxor (rotr 6 e) (rotr 11 e)) (rotr 25 e) in
      let ch := Z.lxor (Z.land e f) (Z.land (not32 e) g) in
      let temp1 := u32 (h + S1 + ch + fst kw + snd kw) in
      let S0 := Z.lxor (Z.lxor (rotr 2 a) (rotr 13 a)) (rotr 22 a) in
      let maj := Z.lxor (Z.lxor (Z.land a b) (Z.land a c)) (Z.land b c) in
      [add32 temp1 (add32 S0 maj); a; b; c; add32 d temp1; e; f; g]
  | _ => st
  end.

Definition sha256_block (h : list Z) (block : list Z) : list Z :=
  zip_with add32 h
    (fold_left sha256_round (zip_with pair sha256_K (sha256_schedule block)) h).

Definition sha256_bytes (l : list Z) : list Z :=
  concat (map word_bytes (fold_left sha256_block (chunks 64 (md_pad l)) sha256_H0)).

(** [sha256.Sum256]. *)
Definition sha256 (s : string) : string := of_bytes (sha256_bytes (bytes s)).

(** ** HMAC-SHA256 *)

Definition hmac_key (key : list Z) : list Z :=
  let k := if 64 <? lenZ key then sha256_bytes key else key in
  k ++ repeat 0 (64 - length k)%nat.

Definition hmac_sha256_bytes (key msg : list Z) : list Z :=
  let k := hmac_key key in
  let inner := sha256_bytes (map (Z.lxor 54) k ++ msg) in
  sha256_bytes (map (Z.lxor 92) k ++ inner).

(** [hmac.New(sha256.New, key)], [Write(msg)], [Sum(nil)]. *)
Definition hmac_sha256 (key msg : string) : string :=
  of_bytes (hmac_sha256_bytes (bytes key) (bytes msg)).

(** ** SHA-1 *)

Fixpoint sha1_extend (n : nat) (ws : list Z) : list Z :=
  match n with
  | O => ws
  | S n' =>
      let x := Z.lxor (Z.lxor (nth 2 ws 0) (nth 7 ws 0)) (Z.lxor (nth 13 ws 0) (nth 15 ws 0)) in
      sha1_extend n' (rotl 1 x :: ws)
  end.

Definition sha1_round (st : list Z) (iw : Z * Z) : list Z :=
  match st with
  | [a; b; c; d; e] =>
      let '(i, w) := iw in
      let '(f, k) :=
        if i <? 20 then (Z.lor (Z.land b c) (Z.land (not32 b) d), 1518500249)
        else if i <? 40 then (Z.lxor (Z.lxor b c) d, 1859775393)
        else if i <? 60 then
          (Z.lor (Z.lor (Z.land b c) (Z.land b d)) (Z.land c d), 2400959708)
        else (Z.lxor (Z.lxor b c) d, 3395469782) in
      [u32 (rotl 5 a + f + e + k + w); a; rotl 30 b; c; d]
  | _ => st
  end.

Definition sha1_block (h : list Z) (block : list Z) : list Z :=
  zip_with add32 h
    (fold_left sha1_round (zip_with pair (seqZ 0 80) (rev (sha1_extend 64 (rev (words block))))) h).

(** [sha1.New], [Write(s)], [Sum(nil)]. *)
Definition sha1 (s : string) : string :=
  of_bytes (concat (map word_bytes
    (fold_left sha1_block (chunks 64 (md_pad (bytes s)))
       [1732584193; 4023233417; 2562383102; 271733878; 3285377520]))).

(** ** Test vectors *)

Example sha256_abc :
  hex_of (bytes (sha256 "abc"))
  = "ba7816bf8f01cfea414140de5dae2223b00361a396177a9cb410ff61f20015ad"%string.
Proof. vm_compute. reflexivity. Qed.

Example sha256_two_blocks :
  hex_of (bytes (sha256 "abcdbcdecdefdefgefghfghighijhijkijkljklmklmnlmnomnopnopq"))
  = "248d6a61d20638b8e5c026930c3e6039a33ce45964ff2167f6ecedd419db06c1"%string.
Proof. vm_compute. reflexivity. Qed.

Example hmac_rfc4231_case_2 :
  hex_of (bytes (hmac_sha256 "Jefe" "what do ya want for nothing?"))
  = "5bdcc146bf60754e6a042426089575c75a003f089d2739839dec58b964ec3843"%string.
Proof. vm_compute. reflexivity. Qed.

Example sha1_abc :
  hex_of (bytes (sha1 "abc")) = "a9993e364706816aba3e25717850c26c9cd0d89d"%string.
Proof. vm_compute. reflexivity. Qed.

(** ** Sizes *)

Lemma length_word_bytes x : length (word_bytes x) = 4%nat.
Proof. done. Qed.

Lemma word_bytes_are_bytes x : Forall is_byte (word_bytes x).
Proof. unfold word_bytes, is_byte. repeat constructor; apply Z.mod_pos_bound; lia. Qed.

Lemma sha256_bytes_are_bytes l : Forall is_byte (sha256_bytes l).
Proof.
  unfold sha256_bytes. apply Forall_concat, List.Forall_map, Forall_true.
  intros x. apply word_bytes_are_bytes.
Qed.
