(* ===== verification/Json.v ===== *)
(** * [encoding/json]

    The parser, the decoding of parsed documents into Go values and struct
    fields, and the printer, executable on byte strings.  Numbers are kept as
    their literals until they are decoded. *)

From stdpp Require Import sorting.
From S2P Require Import Prelude GoStrings GoFloat Encoding.
#[local] Open Scope string_scope.
Open Scope Z_scope.

(** ** UTF-8 *)

Definition cont : ascii -> bool := in_range 128 191.

(** The length of the valid encoding at the head of [s], as
    [utf8.DecodeRuneInString] sees it. *)
Definition rune_len (s : string) : option nat :=
  match s with
  | EmptyString => None
  | String c0 t =>
      let b := byte_of c0 in
      if b <? 128 then Some 1%nat
      else if (194 <=? b) && (b <=? 223) then
        match t with
        | String c1 _ => if cont c1 then Some 2%nat else None
        | _ => None
        end
      else if (224 <=? b) && (b <=? 239) then
        match t with
        | String c1 (String c2 _) =>
            if in_range (if b =? 224 then 160 else 128) (if b =? 237 then 159 else 191) c1 && cont c2
            then Some 3%nat else None
        | _ => None
        end
      else if (240 <=? b) && (b <=? 244) then
        match t with
        | String c1 (String c2 (String c3 _)) =>
            if in_range (if b =? 240 then 144 else 128) (if b =? 244 then 143 else 191) c1
               && cont c2 && cont c3
            then Some 4%nat else None
        | _ => None
        end
      else None
  end.

(** The encoding of a scalar value. *)
Definition utf8_encode (r : Z) : string :=
  of_bytes
    (if r <? 128 then [r]
     else if r <? 2048 then [192 + r / 64; 128 + r mod 64]
     else if r <? 65536 then [224 + r / 4096; 128 + r / 64 mod 64; 128 + r mod 64]
     else [240 + r / 262144; 128 + r / 4096 mod 64; 128 + r / 64 mod 64; 128 + r mod 64]).

(** U+FFFD. *)
Definition replacement : string := utf8_encode 65533.

Fixpoint utf8_valid_fuel (n : nat) (s : string) : bool :=
  match n, s with
  | _, EmptyString => true
  | O, _ => false
  | S n', _ => match rune_len s with Some k => utf8_valid_fuel n' (sdrop k s) | None => false end
  end.

Definition utf8_valid (s : string) : bool := utf8_valid_fuel (String.length s) s.

(** ** Strings *)

Definition u_escape (b : Z) : string :=
  "\u00" ++ String (hex_digit (b / 16)) (String (hex_digit (b mod 16)) "").

(** One byte below 128 of an encoded string, with HTML escaping. *)
Definition quote_byte (c : ascii) : string :=
  let b := byte_of c in
  if b =? 34 then "\" ++ String c ""
  else if b =? 92 then "\\"
  else if b =? 8 then "\b"
  else if b =? 12 then "\f"
  else if b =? 10 then "\n"
  else if b =? 13 then "\r"
  else if b =? 9 then "\t"
  else if (b <? 32) || (b =? 60) || (b =? 62) || (b =? 38) then u_escape b
  else String c "".

(** U+2028 and U+2029 are escaped too. *)
Definition quote_rune (r : string) : string :=
  if String.eqb r (utf8_encode 8232) then "\u2028"
  else if String.eqb r (utf8_encode 8233) then "\u2029"
  else r.

Fixpoint quote_fuel (n : nat) (s : string) : string :=
  match n, s with
  | S n', String c t =>
      if byte_of c <? 128 then quote_byte c ++ quote_fuel n' t
      else match rune_len s with
           | Some k => quote_rune (stake k s) ++ quote_fuel n' (sdrop k s)
           | None => "\ufffd" ++ quote_fuel n' t
           end
  | _, _ => ""
  end.

Definition dquote : string := String (of_byte 34) "".

(** The JSON text of a string. *)
Definition quote (s : string) : string := dquote ++ quote_fuel (String.length s) s ++ dquote.

Definition simple_escape (c : ascii) : option ascii :=
  let b := byte_of c in
  if (b =? 34) || (b =? 92) || (b =? 47) then Some c
  else if b =? 98 then Some (of_byte 8)
  else if b =? 102 then Some (of_byte 12)
  else if b =? 110 then Some (of_byte 10)
  else if b =? 114 then Some (of_byte 13)
  else if b =? 116 then Some (of_byte 9)
  else None.

Definition hex_value (c : ascii) : option Z :=
  let b := byte_of c in
  if (48 <=? b) && (b <=? 57) then Some (b - 48)
  else if (97 <=? b) && (b <=? 102) then Some (b - 87)
  else if (65 <=? b) && (b <=? 70) then Some (b - 55)
  else None.

(** Four hexadecimal digits. *)
Definition hex4 (s : string) : option (Z * string) :=
  match s with
  | String a (String b (String c (String d t))) =>
      match hex_value a, hex_value b, hex_value c, hex_value d with
      | Some x, Some y, Some z, Some w => Some (((x * 16 + y) * 16 + z) * 16 + w, t)
      | _, _, _, _ => None
      end
  | _ => None
  end.

(** The low half of a surrogate pair, when [\uXXXX] follows. *)
Definition low_surrogate (hi : Z) (s : string) : option (Z * string) :=
  match s with
  | String a (String u t) =>
      if (byte_of a =? 92) && (byte_of u =? 117) && (hi <? 56320) then
        match hex4 t with
        | Some (lo, t') =>
            if (56320 <=? lo) && (lo <? 57344)
            then Some (65536 + (hi - 55296) * 1024 + (lo - 56320), t') else None
        | None => None
        end
      else None
  | _ => None
  end.

Definition prepend (p : string) (o : option (string * string)) : option (string * string) :=
  (fun xr => (p ++ fst xr, snd xr)) <$> o.

(** The rest of a string literal after its opening quote: the decoded value and
    what follows the closing quote. *)
Fixpoint unquote (n : nat) (s : string) : option (string * string) :=
  match n, s with
  | S n', String c t =>
      let b := byte_of c in
      if b =? 34 then Some ("", t)
      else if b <? 32 then None
      else if b =? 92 then
        match t with
        | EmptyString => None
        | String e u =>
            match simple_escape e with
            | Some x => prepend (String x "") (unquote n' u)
            | None =>
                if byte_of e =? 117 then
                  match hex4 u with
                  | Some (v, u') =>
                      if (55296 <=? v) && (v <? 57344) then
                        match low_surrogate v u' with
                        | Some (r, u'') => prepend (utf8_encode r) (unquote n' u'')
                        | None => prepend replacement (unquote n' u')
                        end
                      else prepend (utf8_encode v) (unquote n' u')
                  | None => None
                  end
                else None
            end
        end
      else match rune_len s with
           | Some k => prepend (stake k s) (unquote n' (sdrop k s))
           | None => prepend replacement (unquote n' t)
           end
  | _, _ => None
  end.

(** ** Documents *)

Inductive json :=
| JNull
| JBool (b : bool)
| JNum (lit : string)
| JStr (s : string)
| JArr (l : list json)
| JObj (l : list (string * json)).

Definition is_ws (c : ascii) : bool :=
  let b := byte_of c in (b =? 32) || (b =? 9) || (b =? 10) || (b =? 13).

Definition skip_ws : string -> string := trim_left is_ws.

(** The longest run of digits. *)
Fixpoint take_digits (s : string) : string * string :=
  match s with
  | String c t =>
      if is_digit c then let '(d, r) := take_digits t in (String c d, r) else ("", s)
  | EmptyString => ("", "")
  end.

(** The optional fraction and exponent of a number. *)
Definition take_frac (s : string) : option (string * string) :=
  match s with
  | String c t =>
      if byte_of c =? 46 then
        match take_digits t with
        | ("", _) => None
        | (d, r) => Some (String c d, r)
        end
      else Some ("", s)
  | EmptyString => Some ("", "")
  end.

Definition take_exp (s : string) : option (string * string) :=
  match s with
  | String c t =>
      if (byte_of c =? 101) || (byte_of c =? 69) then
        let '(sign, t') :=
          match t with
          | String a t' => if (byte_of a =? 43) || (byte_of a =? 45) then (String a "", t') else ("", t)
          | EmptyString => ("", t)
          end in
        match take_digits t' with
        | ("", _) => None
        | (d, r) => Some (String c (sign ++ d), r)
        end
      else Some ("", s)
  | EmptyString => Some ("", "")
  end.

(** The integer part: a zero, or digits not starting with one. *)
Definition take_int (s : string) : option (string * string) :=
  match s with
  | String c u => if byte_of c =? 48 then Some (String c "", u)
                  else match take_digits s with ("", _) => None | dr => Some dr end
  | EmptyString => None
  end.

Definition take_unsigned (s : string) : option (string * string) :=
  match take_int s with
  | None => None
  | Some (d, r) =>
      match take_frac r with
      | None => None
      | Some (f, r') =>
          match take_exp r' with
          | None => None
          | Some (e, r'') => Some (d ++ f ++ e, r'')
          end
      end
  end.

(** A number literal and what follows it. *)
Definition take_number (s : string) : option (string * string) :=
  match s with
  | String c t =>
      if byte_of c =? 45 then prepend (String c "") (take_unsigned t) else take_unsigned s
  | EmptyString => None
  end.

(** [s] after the literal [lit]. *)
Definition expect (lit s : string) : option string :=
  if HasPrefix s lit then Some (sdrop (String.length lit) s) else None.

Definition maxNestingDepth : Z := 10000.

(** One value, the elements of an array after its bracket and the members of
    an object after its brace, by recursive descent; [d] is the nesting depth. *)
Fixpoint parse_value (n : nat) (d : Z) (s : string) {struct n} : option (json * string) :=
  match n with
  | O => None
  | S n' =>
      let s := skip_ws s in
      match s with
      | EmptyString => None
      | String c t =>
          let b := byte_of c in
          if b =? 34 then
            match unquote (S (String.length t)) t with
            | Some (v, r) => Some (JStr v, r)
            | None => None
            end
          else if b =? 123 then
            if maxNestingDepth <=? d then None else
            match expect "}" (skip_ws t) with
            | Some r => Some (JObj [], r)
            | None =>
                match parse_members n' (d + 1) t with
                | Some (l, r) => Some (JObj l, r)
                | None => None
                end
            end
          else if b =? 91 then
            if maxNestingDepth <=? d then None else
            match expect "]" (skip_ws t) with
            | Some r => Some (JArr [], r)
            | None =>
                match parse_elems n' (d + 1) t with
                | Some (l, r) => Some (JArr l, r)
                | None => None
                end
            end
          else if b =? 110 then (fun r => (JNull, r)) <$> expect "null" s
          else if b =? 116 then (fun r => (JBool true, r)) <$> expect "true" s
          else if b =? 102 then (fun r => (JBool false, r)) <$> expect "false" s
          else match take_number s with
               | Some (l, r) => Some (JNum l, r)
               | None => None
               end
      end
  end
with parse_elems (n : nat) (d : Z) (s : string) {struct n} : option (list json * string) :=
  match n with
  | O => None
  | S n' =>
      match parse_value n' d s with
      | None => None
      | Some (v, r) =>
          match expect "," (skip_ws r) with
          | Some r' =>
              match parse_elems n' d r' with
              | Some (l, r'') => Some (v :: l, r'')
              | None => None
              end
          | None => (fun r' => ([v], r')) <$> expect "]" (skip_ws r)
          end
      end
  end
with parse_members (n : nat) (d : Z) (s : string) {struct n}
  : option (list (string * json) * string) :=
  match n with
  | O => None
  | S n' =>
      match expect dquote (skip_ws s) with
      | None => None
      | Some t =>
          match unquote (S (String.length t)) t with
          | None => None
          | Some (k, t') =>
              match expect ":" (skip_ws t') with
              | None => None
              | Some t'' =>
                  match parse_value n' d t'' with
                  | None => None
                  | Some (v, r) =>
                      match expect "," (skip_ws r) with
                      | Some r' =>
                          match parse_members n' d r' with
                          | Some (l, r'') => Some ((k, v) :: l, r'')
                          | None => None
                          end
                      | None => (fun r' => ([(k, v)], r')) <$> expect "}" (skip_ws r)
                      end
                  end
              end
          end
      end
  end.

(** Every two nested calls consume a byte. *)
Definition parse_fuel (s : string) : nat := 2 * String.length s + 2.

(** [json.NewDecoder(r).Decode]: the first value, whatever follows. *)
Definition json_decode (s : string) : option json :=
  fst <$> parse_value (parse_fuel s) 0 s.

(** [json.Unmarshal]: one value and white space. *)
Definition json_parse (s : string) : option json :=
  match parse_value (parse_fuel s) 0 s with
  | Some (v, r) => if String.eqb (skip_ws r) "" then Some v else None
  | None => None
  end.

Example parse_claims :
  json_parse (" {" ++ quote "username" ++ ": " ++ quote "al<ice" ++ ", " ++ quote "exp"
              ++ ":-1.50e+3," ++ quote "a" ++ ":[true,null,{}]} ")
  = Some (JObj [("username", JStr "al<ice"); ("exp", JNum "-1.50e+3");
                ("a", JArr [JBool true; JNull; JObj []])]).
Proof. by vm_compute. Qed.

Example parse_surrogates :
  json_parse (dquote ++ "\ud83d\ude00\ud83dx" ++ dquote)
  = Some (JStr (utf8_encode 128512 ++ replacement ++ "x")).
Proof. by vm_compute. Qed.

(** ** Numbers *)

Fixpoint digits_value (acc : Z) (s : string) : Z :=
  match s with
  | String c t => digits_value (acc * 10 + (byte_of c - 48)) t
  | EmptyString => acc
  end.

Definition split_sign (s : string) : bool * string :=
  match s with
  | String c t => if byte_of c =? 45 then (true, t)
                  else if byte_of c =? 43 then (false, t) else (false, s)
  | EmptyString => (false, s)
  end.

(** [strconv.ParseInt(lit, 10, 64)] of a number literal. *)
Definition parse_int64 (lit : string) : option Z :=
  let '(neg, t) := split_sign lit in
  if sforall is_digit t && negb (String.eqb t "") then
    let v := if neg then - digits_value 0 t else digits_value 0 t in
    if (- 2 ^ 63 <=? v) && (v <? 2 ^ 63) then Some v else None
  else None.

(** Sign, decimal significand and decimal exponent of a number literal. *)
Definition float_parts (lit : string) : bool * Z * Z :=
  let '(neg, t) := split_sign lit in
  let '(ip, r) := take_digits t in
  let '(fp, r') :=
    match r with
    | String c u => if byte_of c =? 46 then take_digits u else ("", r)
    | EmptyString => ("", r)
    end in
  let e :=
    match r' with
    | String _ u => let '(eneg, ds) := split_sign u in
                    if eneg then - digits_value 0 ds else digits_value 0 ds
    | EmptyString => 0
    end in
  (neg, digits_value 0 (ip ++ fp), e - slen fp).

(** Number of decimal digits of a positive integer. *)
Definition ndigits (n : Z) : Z := slen (digits n).

(** [strconv.ParseFloat(lit, 64)]; [None] is the range error of an overflow. *)
Definition parse_float (lit : string) : option float64 :=
  let '(neg, m, e) := float_parts lit in
  if m =? 0 then Some (S754_zero neg)
  else if 310 <? ndigits m + e then None
  else if ndigits m + e <? -330 then Some (S754_zero neg)
  else match of_decimal neg m e with
       | S754_infinity _ => None
       | x => Some x
       end.

(** The decimal exponent [k] of the positive rational [num / den]:
    [10 ^ (k - 1) <= num / den < 10 ^ k]. *)
Definition dec_exp (num den : Z) : Z :=
  if den <=? num then ndigits (num / den)
  else
    let j := ndigits (den / num) in
    if num * 10 ^ (j - 1) =? den then 2 - j else 1 - j.

(** The shortest significand that reads back as [x]: the first of 1 to 17
    digits whose correctly rounded value is [x]. *)
Fixpoint shortest (fuel : nat) (n : Z) (x : float64) (num den k : Z) : Z * Z :=
  let c := if 0 <=? n - k then round_half_even (num * 10 ^ (n - k)) den
           else round_half_even num (den * 10 ^ (k - n)) in
  match fuel with
  | O => (c, k - n)
  | S f => if feqb (of_decimal false c (k - n)) x then (c, k - n) else shortest f (n + 1) x num den k
  end.

Fixpoint strip_zeros (fuel : nat) (c e : Z) : Z * Z :=
  match fuel with
  | O => (c, e)
  | S f => if c mod 10 =? 0 then strip_zeros f (c / 10) (e + 1) else (c, e)
  end.

(** The JSON text of a finite [float64]. *)
Definition fmt_float (x : float64) : string :=
  match x with
  | S754_finite s m e =>
      let '(num, den) := if 0 <=? e then (Z.pos m * 2 ^ e, 1) else (Z.pos m, 2 ^ (- e)) in
      let '(c0, e0) := shortest 16 1 (S754_finite false m e) num den (dec_exp num den) in
      let '(c, e10) := strip_zeros 20 c0 e0 in
      let ds := digits c in
      let nd := slen ds in
      let k := nd + e10 in
      let abs := S754_finite false m e in
      (if s then "-" else "") ++
      (if fltb abs (of_decimal false 1 (-6)) || negb (fltb abs (of_decimal false 1 21)) then
         stake 1 ds ++ (if 1 <? nd then "." ++ sdrop 1 ds else "") ++
         "e" ++ (if k - 1 <? 0 then "-" else "+") ++ digits (Z.abs (k - 1))
       else if k <=? 0 then "0." ++ Repeat "0" (Z.to_nat (- k)) ++ ds
       else if nd <=? k then ds ++ Repeat "0" (Z.to_nat (k - nd))
       else stake (Z.to_nat k) ds ++ "." ++ sdrop (Z.to_nat k) ds)
  | S754_zero s => if s then "-0" else "0"
  | S754_infinity s => if s then "-Inf" else "+Inf"
  | S754_nan => "NaN"
  end.

Example fmt_float_examples :
  map (fun l => fmt_float <$> parse_float l)
    ["1"; "-12.50"; "0.1"; "1e21"; "123456789012345680000"; "1e-7"; "0.000001"; "9007199254740993";
     "1e400"; "5e-324"; "-0"; "100"; "1.7976931348623157e308"]
  = [Some "1"; Some "-12.5"; Some "0.1"; Some "1e+21"; Some "123456789012345680000"; Some "1e-7";
     Some "0.000001"; Some "9007199254740992"; None; Some "5e-324"; Some "-0"; Some "100";
     Some "1.7976931348623157e+308"].
Proof. by vm_compute. Qed.

(** ** Values of type [interface{}] *)

Inductive any :=
| Nil
| ABool (b : bool)
| AFloat (x : float64)
| AStr (s : string)
| ASlice (l : list any)
| AMap (m : list (string * any)).

(** A [map[string]interface{}] is its list of entries in key order. *)
Fixpoint put {A} (k : string) (v : A) (m : list (string * A)) : list (string * A) :=
  match m with
  | [] => [(k, v)]
  | (k', v') :: m' =>
      match String.compare k k' with
      | Eq => (k, v) :: m'
      | Lt => (k, v) :: m
      | Gt => (k', v') :: put k v m'
      end
  end.

Fixpoint assoc {A} (k : string) (m : list (string * A)) : option A :=
  match m with
  | [] => None
  | (k', v) :: m' => if String.eqb k k' then Some v else assoc k m'
  end.

(** Later entries of the document overwrite earlier ones. *)
Definition from_entries {A} (l : list (string * A)) : list (string * A) :=
  fold_left (fun m kv => put (fst kv) (snd kv) m) l [].

(** Decoding into an [interface{}]. *)
Fixpoint to_any (v : json) : option any :=
  match v with
  | JNull => Some Nil
  | JBool b => Some (ABool b)
  | JNum l => AFloat <$> parse_float l
  | JStr s => Some (AStr s)
  | JArr l =>
      ASlice <$>
      (fix go (l : list json) : option (list any) :=
         match l with
         | [] => Some []
         | v :: l' => match to_any v, go l' with Some x, Some xs => Some (x :: xs) | _, _ => None end
         end) l
  | JObj l =>
      (fun es => AMap (from_entries es)) <$>
      (fix go (l : list (string * json)) : option (list (string * any)) :=
         match l with
         | [] => Some []
         | (k, v) :: l' =>
             match to_any v, go l' with Some x, Some xs => Some ((k, x) :: xs) | _, _ => None end
         end) l
  end.

(** [json.Unmarshal(body, &data)] with [data] an [interface{}]. *)
Definition unmarshal_any (s : string) : option any :=
  match json_parse s with Some v => to_any v | None => None end.

(** With [data] a [map[string]interface{}]: [null] leaves the nil map. *)
Definition unmarshal_map (s : string) : option (list (string * any)) :=
  match json_parse s with
  | Some JNull => Some []
  | Some (JObj l) =>
      match to_any (JObj l) with Some (AMap m) => Some m | _ => None end
  | _ => None
  end.

Fixpoint of_any (v : any) : json :=
  match v with
  | Nil => JNull
  | ABool b => JBool b
  | AFloat x => JNum (fmt_float x)
  | AStr s => JStr s
  | ASlice l => JArr (map of_any l)
  | AMap m => JObj (map (fun kv => (fst kv, of_any (snd kv))) m)
  end.

(** ** Printing *)

(** The text of a document; [nl] is the line break and indentation at a depth,
    [colon] separates keys and values. *)
Fixpoint print (nl : nat -> string) (colon : string) (d : nat) (v : json) : string :=
  match v with
  | JNull => "null"
  | JBool true => "true"
  | JBool false => "false"
  | JNum l => l
  | JStr s => quote s
  | JArr [] => "[]"
  | JObj [] => "{}"
  | JArr l =>
      "[" ++ nl (S d) ++ Join (map (print nl colon (S d)) l) ("," ++ nl (S d)) ++ nl d ++ "]"
  | JObj l =>
      "{" ++ nl (S d) ++
      Join (map (fun kv => quote (fst kv) ++ colon ++ print nl colon (S d) (snd kv)) l)
        ("," ++ nl (S d)) ++ nl d ++ "}"
  end.

(** [json.Marshal], and [json.MarshalIndent] with two spaces. *)
Definition render : json -> string := print (fun _ => "") ":" 0.
Definition render_indent : json -> string :=
  print (fun d => String (of_byte 10) "" ++ Repeat "  " d) ": " 0.

(** [json.Marshal] of an [interface{}] (the document's maps are sorted). *)
Definition marshal (v : any) : string := render (of_any v).

(** ** Struct fields

    Each entry of the object, in order, is stored in the field whose name it
    matches (case folded); [null] leaves the field alone, a value of the wrong
    type is an error. *)
Section fields.
Context {A : Type} (dec : A -> json -> option A).

Fixpoint field (name : string) (cur : A) (l : list (string * json)) : option A :=
  match l with
  | [] => Some cur
  | (k, v) :: l' =>
      if EqualFold k name
      then match dec cur v with Some x => field name x l' | None => None end
      else field name cur l'
  end.

(** Elements of a slice; null elements keep what the position held. *)
Fixpoint dec_elems (zero : A) (cur : list A) (l : list json) : option (list A) :=
  match l with
  | [] => Some []
  | v :: l' =>
      match dec (match cur with x :: _ => x | [] => zero end) v, dec_elems zero (tail cur) l' with
      | Some x, Some xs => Some (x :: xs)
      | _, _ => None
      end
  end.

Definition dec_slice (zero : A) (cur : list A) (v : json) : option (list A) :=
  match v with
  | JNull => Some []
  | JArr l => dec_elems zero cur l
  | _ => None
  end.

(** A pointer field: [null] is nil, anything else decodes into the pointee. *)
Definition dec_ptr (zero : A) (cur : option A) (v : json) : option (option A) :=
  match v with
  | JNull => Some None
  | _ => Some <$> dec (default zero cur) v
  end.

Fixpoint dec_entries (zero : A) (m : gmap string A) (l : list (string * json))
  : option (gmap string A) :=
  match l with
  | [] => Some m
  | (k, v) :: l' =>
      match dec zero v with Some x => dec_entries zero (<[k := x]> m) l' | None => None end
  end.

Definition dec_map (zero : A) (cur : gmap string A) (v : json) : option (gmap string A) :=
  match v with
  | JNull => Some ∅
  | JObj l => dec_entries zero cur l
  | _ => None
  end.
End fields.

Definition dec_string (cur : string) (v : json) : option string :=
  match v with JNull => Some cur | JStr s => Some s | _ => None end.

Definition dec_bool (cur : bool) (v : json) : option bool :=
  match v with JNull => Some cur | JBool b => Some b | _ => None end.

Definition dec_int (cur : Z) (v : json) : option Z :=
  match v with JNull => Some cur | JNum l => parse_int64 l | _ => None end.

Definition dec_float (cur : float64) (v : json) : option float64 :=
  match v with JNull => Some cur | JNum l => parse_float l | _ => None end.

Definition dec_any (cur : any) (v : json) : option any := to_any v.

(** The entries of a document decoded into a struct. *)
Definition obj_entries (v : json) : option (list (string * json)) :=
  match v with JNull => Some [] | JObj l => Some l | _ => None end.

(** ** Round trips *)

(** Close a goal about a byte known by its code. *)
Ltac by_code c E :=
  apply Z.eqb_eq in E; destruct c as [[] [] [] [] [] [] [] []]; try discriminate E; reflexivity.

(** An encoded low byte decodes to itself. *)
Lemma unquote_quote_byte n c rest :
  byte_of c <? 128 = true ->
  unquote (S n) (quote_byte c ++ rest) = prepend (String c "") (unquote n rest).
Proof.
  intros Hc.
  assert (Hplain : (byte_of c =? 34) = false -> (byte_of c <? 32) = false ->
    (byte_of c =? 92) = false ->
    unquote (S n) (String c rest) = prepend (String c "") (unquote n rest)).
  { intros H1 H2 H3. cbn [unquote]. rewrite H1, H2, H3. unfold rune_len. by rewrite Hc. }
  unfold quote_byte.
  destruct (byte_of c =? 34) eqn:E34; [by_code c E34|].
  destruct (byte_of c =? 92) eqn:E92; [by_code c E92|].
  destruct (byte_of c =? 8) eqn:E8; [by_code c E8|].
  destruct (byte_of c =? 12) eqn:E12; [by_code c E12|].
  destruct (byte_of c =? 10) eqn:E10; [by_code c E10|].
  destruct (byte_of c =? 13) eqn:E13; [by_code c E13|].
  destruct (byte_of c =? 9) eqn:E9; [by_code c E9|].
  destruct (_ || _) eqn:E; [|breflect; apply Hplain; (done || apply Z.ltb_ge; lia)].
  destruct c as [[] [] [] [] [] [] [] []]; try discriminate E; try discriminate Hc; done.
Qed.

(** A valid encoding lies within the string and is recognised whatever
    follows it. *)
Lemma rune_len_spec c t k :
  rune_len (String c t) = Some k ->
  (1 <= k <= S (String.length t))%nat /\
  (byte_of c <? 128 = true -> k = 1%nat) /\
  forall rest, rune_len (stake k (String c t) ++ rest) = Some k.
Proof.
  unfold rune_len.
  destruct (byte_of c <? 128) eqn:H1; [intros [= <-]; simpl; rewrite H1; repeat split; lia|].
  destruct (_ && _) eqn:H2.
  { destruct t as [|c1 t]; [done|]. destruct (cont c1) eqn:E1; [|done]. intros [= <-].
    split; [simpl; lia|]. split; [done|]. intros rest. simpl. by rewrite H1, H2, E1. }
  destruct (_ && _) eqn:H3 in |- *.
  { destruct t as [|c1 [|c2 t]]; [done..|]. destruct (_ && _) eqn:E1 in |- *; [|done].
    intros [= <-]. split; [simpl; lia|]. split; [done|]. intros rest. simpl.
    by rewrite H1, H2, H3, E1. }
  destruct (_ && _) eqn:H4 in |- *; [|done].
  destruct t as [|c1 [|c2 [|c3 t]]]; [done..|]. destruct (_ && _) eqn:E1 in |- *; [|done].
  intros [= <-]. split; [simpl; lia|]. split; [done|]. intros rest. simpl.
  by rewrite H1, H2, H3, H4, E1.
Qed.

Lemma stake_stake_app k s rest :
  (k <= String.length s)%nat -> stake k (stake k s ++ rest) = stake k s.
Proof.
  revert s. induction k as [|k IH]; intros [|c s] Hk; simpl in *; try done; [lia|].
  by rewrite IH by lia.
Qed.

Lemma sdrop_stake_app k s rest :
  (k <= String.length s)%nat -> sdrop k (stake k s ++ rest) = rest.
Proof.
  revert s. induction k as [|k IH]; intros [|c s] Hk; simpl in *; try done; [lia|].
  by rewrite IH by lia.
Qed.

Lemma length_sdrop k s : String.length (sdrop k s) = (String.length s - k)%nat.
Proof. revert s. induction k; intros [|c s]; simpl; try done; lia. Qed.

(** A multi-byte encoding decodes to itself. *)
Lemma unquote_quote_rune n c t k rest :
  byte_of c <? 128 = false -> rune_len (String c t) = Some k ->
  unquote (S n) (quote_rune (stake k (String c t)) ++ rest)
  = prepend (stake k (String c t)) (unquote n rest).
Proof.
  intros Hc Hk. destruct (rune_len_spec c t k Hk) as (Hlen & _ & Hr).
  unfold quote_rune.
  destruct (String.eqb _ (utf8_encode 8232)) eqn:E1; [apply String.eqb_eq in E1 as ->; done|].
  destruct (String.eqb _ (utf8_encode 8233)) eqn:E2; [apply String.eqb_eq in E2 as ->; done|].
  specialize (Hr rest).
  pose proof (stake_stake_app k (String c t) rest ltac:(simpl; lia)) as Hs.
  pose proof (sdrop_stake_app k (String c t) rest ltac:(simpl; lia)) as Hd.
  destruct k as [|k]; [lia|].
  change (stake (S k) (String c t) ++ rest) with (String c (stake k t ++ rest)) in *.
  cbn [unquote]. rewrite Hr, Hs, Hd. breflect.
  rewrite (proj2 (Z.eqb_neq _ _)) by lia. rewrite (proj2 (Z.ltb_ge _ _)) by lia.
  by rewrite (proj2 (Z.eqb_neq _ _)) by lia.
Qed.

Lemma unquote_quote_fuel m s n rest :
  utf8_valid_fuel m s = true -> (String.length s < n)%nat -> (String.length s <= m)%nat ->
  unquote n (quote_fuel m s ++ dquote ++ rest) = Some (s, rest).
Proof.
  revert s n. induction m as [|m IH]; intros s n Hv Hn Hm; (destruct n as [|n]; [lia|]).
  { destruct s; [done|]. simpl in Hm. lia. }
  destruct s as [|c t]; [done|]. cbn [quote_fuel]. simpl in Hn, Hm.
  cbn [utf8_valid_fuel] in Hv. destruct (rune_len (String c t)) as [k|] eqn:Hk; [|done].
  destruct (rune_len_spec c t k Hk) as (Hlen & Hone & _).
  destruct (byte_of c <? 128) eqn:Hc.
  - rewrite sapp_assoc, unquote_quote_byte by done.
    rewrite (Hone eq_refl) in Hv. simpl in Hv. by rewrite IH by (done || lia).
  - rewrite sapp_assoc, unquote_quote_rune by done.
    rewrite IH; [|done|rewrite length_sdrop; simpl; lia|rewrite length_sdrop; simpl; lia].
    simpl. by rewrite stake_sdrop.
Qed.

Lemma length_stake k s : String.length (stake k s) = Nat.min k (String.length s).
Proof. revert s. induction k; intros [|c s]; simpl; try done. by rewrite IHk. Qed.

Lemma length_quote_fuel m s :
  utf8_valid_fuel m s = true -> (String.length s <= m)%nat ->
  (String.length s <= String.length (quote_fuel m s))%nat.
Proof.
  revert s. induction m as [|m IH]; intros s Hv Hm; [by destruct s|].
  destruct s as [|c t]; [simpl; lia|]. simpl in Hm. cbn [utf8_valid_fuel] in Hv.
  destruct (rune_len (String c t)) as [k|] eqn:Hk; [|done].
  destruct (rune_len_spec c t k Hk) as (Hlen & Hone & Hr). cbn [quote_fuel].
  destruct (byte_of c <? 128) eqn:Hc.
  - rewrite (Hone eq_refl) in Hv. simpl in Hv. specialize (IH t Hv ltac:(lia)).
    rewrite slength_app. simpl.
    assert (1 <= String.length (quote_byte c))%nat; [|lia].
    unfold quote_byte, u_escape. repeat case_match; simpl; lia.
  - rewrite Hk, slength_app.
    specialize (IH _ Hv ltac:(rewrite length_sdrop; simpl; lia)). rewrite length_sdrop in IH.
    assert (k <= String.length (quote_rune (stake k (String c t))))%nat; [|simpl in *; lia].
    unfold quote_rune. specialize (Hr ""). rewrite sapp_nil_r in Hr.
    destruct (String.eqb _ (utf8_encode 8232)) eqn:E1;
      [apply String.eqb_eq in E1; rewrite E1 in Hr; vm_compute in Hr; simplify_eq; simpl; lia|].
    destruct (String.eqb _ (utf8_encode 8233)) eqn:E2;
      [apply String.eqb_eq in E2; rewrite E2 in Hr; vm_compute in Hr; simplify_eq; simpl; lia|].
    rewrite length_stake. simpl. lia.
Qed.

(** Reading a printed string gives it back. *)
Lemma unquote_quote s rest :
  utf8_valid s = true ->
  let t := quote_fuel (String.length s) s ++ dquote ++ rest in
  unquote (S (String.length t)) t = Some (s, rest).
Proof.
  intros Hv t. unfold t. apply unquote_quote_fuel; [done| |lia].
  pose proof (length_quote_fuel _ _ Hv ltac:(lia)). rewrite slength_app. lia.
Qed.

(** *** Numbers *)

(** No byte that could continue a number. *)
Definition delimited (rest : string) : bool :=
  match rest with
  | EmptyString => true
  | String c _ =>
      negb (is_digit c || (byte_of c =? 46) || (byte_of c =? 101) || (byte_of c =? 69))
  end.

Lemma take_digits_app s rest :
  delimited rest = true ->
  take_digits (s ++ rest) = (fst (take_digits s), snd (take_digits s) ++ rest).
Proof.
  intros Hd. induction s as [|c s IH].
  - destruct rest as [|c r]; [done|]. simpl in *. breflect.
    by match goal with H : is_digit c = false |- _ => rewrite H end.
  - simpl. destruct (is_digit c); [|done]. rewrite IH. by destruct (take_digits s).
Qed.

Lemma take_frac_app s rest f r :
  delimited rest = true -> take_frac s = Some (f, r) -> take_frac (s ++ rest) = Some (f, r ++ rest).
Proof.
  intros Hd. destruct s as [|c t]; simpl.
  - intros [= <- <-]. destruct rest as [|c rest]; [done|]. simpl in *. breflect.
    by rewrite (proj2 (Z.eqb_neq _ _)) by done.
  - destruct (byte_of c =? 46); [|by intros [= <- <-]].
    rewrite take_digits_app by done. destruct (take_digits t) as [[|] r']; [done|].
    by intros [= <- <-].
Qed.

Lemma take_exp_app s rest e r :
  delimited rest = true -> take_exp s = Some (e, r) -> take_exp (s ++ rest) = Some (e, r ++ rest).
Proof.
  intros Hd. destruct s as [|c t].
  - intros [= <- <-]. destruct rest as [|c rest]; [done|]. simpl in *. breflect.
    by rewrite !(proj2 (Z.eqb_neq _ _)) by done.
  - cbn [take_exp String.append]. destruct (_ || _); [|by intros [= <- <-]].
    destruct t as [|a t]; [by simpl|]. cbn [String.append].
    destruct ((byte_of a =? 43) || (byte_of a =? 45)).
    + rewrite take_digits_app by done. destruct (take_digits t) as [[|] r']; [done|].
      by intros [= <- <-].
    + change (String a (t ++ rest)) with (String a t ++ rest).
      rewrite take_digits_app by done. destruct (take_digits (String a t)) as [[|] r']; [done|].
      by intros [= <- <-].
Qed.

(** A complete number literal. *)
Definition number_lit (l : string) : bool :=
  match take_number l with Some (l', r) => String.eqb l' l && String.eqb r "" | None => false end.

Lemma take_int_app s rest d r :
  delimited rest = true -> take_int s = Some (d, r) -> take_int (s ++ rest) = Some (d, r ++ rest).
Proof.
  intros Hd. destruct s as [|c t]; [done|]. unfold take_int.
  rewrite take_digits_app by done. cbn [String.append].
  destruct (byte_of c =? 48); [by intros [= <- <-]|].
  destruct (take_digits (String c t)) as [[|d0 d'] r']; [done|]. by intros [= <- <-].
Qed.

Lemma take_unsigned_app s rest l r :
  delimited rest = true -> take_unsigned s = Some (l, r) ->
  take_unsigned (s ++ rest) = Some (l, r ++ rest).
Proof.
  intros Hd. unfold take_unsigned.
  destruct (take_int s) as [[d r1]|] eqn:E1; [|done]. rewrite (take_int_app _ _ _ _ Hd E1).
  destruct (take_frac r1) as [[f r2]|] eqn:E2; [|done]. rewrite (take_frac_app _ _ _ _ Hd E2).
  destruct (take_exp r2) as [[e r3]|] eqn:E3; [|done]. rewrite (take_exp_app _ _ _ _ Hd E3).
  by intros [= <- <-].
Qed.

Lemma take_number_app l rest :
  delimited rest = true -> number_lit l = true -> take_number (l ++ rest) = Some (l, rest).
Proof.
  intros Hd Hl. unfold number_lit in Hl.
  destruct (take_number l) as [[l' r]|] eqn:E; [|done]. breflect. subst l' r.
  destruct l as [|c t]; [done|]. cbn [take_number String.append] in *.
  destruct (byte_of c =? 45).
  - destruct (take_unsigned t) as [[l' r]|] eqn:Et; [|done]. simpl in E.
    injection E as <- ->. by rewrite (take_unsigned_app _ _ _ _ Hd Et).
  - by rewrite (take_unsigned_app _ _ _ _ Hd E : take_unsigned (String c (t ++ rest)) = _).
Qed.

(** A number literal starts with a minus sign or a digit. *)
Lemma number_lit_head l :
  number_lit l = true -> exists c t, l = String c t /\ ((byte_of c =? 45) || is_digit c) = true.
Proof.
  unfold number_lit. destruct l as [|c t]; [done|]. intros H. exists c, t. split; [done|].
  cbn [take_number] in H. destruct (byte_of c =? 45); [done|].
  unfold take_unsigned, take_int in H. destruct (byte_of c =? 48) eqn:E0.
  - apply Z.eqb_eq in E0. unfold is_digit, in_range. by rewrite E0.
  - cbn [take_digits] in H. by destruct (is_digit c).
Qed.

(** *** Documents *)

Section json_induction.
Context (P : json -> Prop).
Context (HNull : P JNull) (HBool : forall b, P (JBool b)) (HNum : forall l, P (JNum l)).
Context (HStr : forall s, P (JStr s)) (HArr : forall l, Forall P l -> P (JArr l)).
Context (HObj : forall l, Forall (fun kv => P (snd kv)) l -> P (JObj l)).

Fixpoint json_induction (v : json) : P v :=
  match v with
  | JNull => HNull
  | JBool b => HBool b
  | JNum l => HNum l
  | JStr s => HStr s
  | JArr l =>
      HArr l ((fix go (l : list json) : Forall P l :=
        match l with [] => @Forall_nil _ P | v :: l' => @Forall_cons _ P v l' (json_induction v) (go l') end) l)
  | JObj l =>
      HObj l ((fix go (l : list (string * json)) : Forall (fun kv => P (snd kv)) l :=
        match l with
        | [] => @Forall_nil _ _
        | kv :: l' => @Forall_cons _ (fun kv => P (snd kv)) kv l' (json_induction (snd kv)) (go l')
        end) l)
  end.
End json_induction.

(** Strings are valid UTF-8, numbers are complete literals. *)
Fixpoint json_wf (v : json) : bool :=
  match v with
  | JNum l => number_lit l
  | JStr s => utf8_valid s
  | JArr l => forallb json_wf l
  | JObj l => forallb (fun kv => utf8_valid (fst kv) && json_wf (snd kv)) l
  | _ => true
  end.

Fixpoint json_depth (v : json) : Z :=
  match v with
  | JArr l => 1 + foldr Z.max 0 (map json_depth l)
  | JObj l => 1 + foldr Z.max 0 (map (fun kv => json_depth (snd kv)) l)
  | _ => 0
  end.

(** The text of a value starts with a byte that is no white space and closes
    no array or object. *)
Definition value_head (s : string) : bool :=
  match s with
  | String c _ => negb (is_ws c) && negb (byte_of c =? 93) && negb (byte_of c =? 125)
  | EmptyString => false
  end.

Lemma value_head_skip s : value_head s = true -> skip_ws s = s.
Proof. destruct s as [|c t]; [done|]. simpl. unfold skip_ws. simpl. by destruct (is_ws c). Qed.

Lemma value_head_app s rest : value_head s = true -> value_head (s ++ rest) = true.
Proof. by destruct s. Qed.

Lemma number_head_value c : ((byte_of c =? 45) || is_digit c) = true ->
  (negb (is_ws c) && negb (byte_of c =? 93) && negb (byte_of c =? 125)) = true /\
  ((byte_of c =? 34) || (byte_of c =? 123) || (byte_of c =? 91) || (byte_of c =? 110)
   || (byte_of c =? 116) || (byte_of c =? 102)) = false.
Proof.
  unfold is_digit, in_range, is_ws. intros H. apply orb_true_iff in H as [H|H]; breflect.
  - by rewrite H.
  - split; repeat (rewrite (proj2 (Z.eqb_neq _ _)) by lia); done.
Qed.

(** [parse_value] on a number, and on each opening byte. *)
Lemma parse_number n d l rest :
  number_lit l = true -> delimited rest = true ->
  parse_value (S n) d (l ++ rest) = Some (JNum l, rest).
Proof.
  intros Hl Hr. pose proof (take_number_app l rest Hr Hl) as Ht.
  pose proof (value_head_skip (l ++ rest)) as Hs.
  destruct (number_lit_head l Hl) as (c & t & -> & Hc).
  destruct (number_head_value c Hc) as [Hv Hn]. cbn [String.append] in *.
  cbn [parse_value]. rewrite Hs by done.
  repeat (apply orb_false_iff in Hn as [Hn ?]). 
  repeat match goal with H : (byte_of c =? _) = false |- _ => rewrite H; clear H end.
  by rewrite Ht.
Qed.

Lemma expect_app lit s : expect lit (lit ++ s) = Some s.
Proof. unfold expect. by rewrite HasPrefix_app, sdrop_app. Qed.

Lemma skip_lit c s : is_ws c = false -> skip_ws (String c "" ++ s) = String c "" ++ s.
Proof. intros H. unfold skip_ws. simpl. by rewrite H. Qed.

Lemma skip_dquote s : skip_ws (dquote ++ s) = dquote ++ s.
Proof. by apply skip_lit. Qed.

Lemma expect_close_value (b : bool) s :
  value_head s = true -> expect (if b then "]" else "}") s = None.
Proof.
  destruct s as [|c t]; [done|]. simpl. intros H. unfold expect, HasPrefix.
  destruct b; cbn [String.prefix];
    match goal with |- context [ascii_dec ?a c] => destruct (ascii_dec a c) as [<-|] end;
    (done || (exfalso; vm_compute in H; congruence)).
Qed.

Lemma Join_map_cons {A} (f : A -> string) sep x l :
  Join (map f (x :: l)) sep = match l with [] => f x | _ => f x ++ sep ++ Join (map f l) sep end.
Proof. by destruct l. Qed.

(** White space. *)
Definition blank (w : string) : Prop := sforall is_ws w = true.

Lemma skip_blank w s : blank w -> skip_ws (w ++ s) = skip_ws s.
Proof.
  unfold blank, skip_ws. induction w as [|c w IH]; [done|]. simpl.
  intros [H1 H2]%andb_true_iff. rewrite H1. by apply IH.
Qed.

Lemma parse_value_blank n d w s : blank w -> parse_value n d (w ++ s) = parse_value n d s.
Proof. intros Hw. destruct n; [done|]. cbn [parse_value]. by rewrite skip_blank. Qed.

Lemma delimited_blank w s : blank w -> delimited s = true -> delimited (w ++ s) = true.
Proof.
  unfold blank. destruct w as [|c w]; [done|]. simpl. intros [H _]%andb_true_iff _.
  unfold is_ws in H. unfold is_digit, in_range.
  repeat (apply orb_true_iff in H as [H|H]); apply Z.eqb_eq in H; by rewrite H.
Qed.

Lemma value_head_not_close (b : bool) s rest :
  value_head s = true -> expect (if b then "]" else "}") (skip_ws (s ++ rest)) = None.
Proof.
  intros H. rewrite value_head_skip by (by apply value_head_app).
  by apply expect_close_value, value_head_app.
Qed.

Lemma Join_head_app {A} (f : A -> string) sep x l :
  exists tail, Join (map f (x :: l)) sep = f x ++ tail.
Proof.
  destruct l; [exists ""; by rewrite sapp_nil_r|]. rewrite Join_map_cons. by eexists.
Qed.

(** One step of the parser at each opening byte. *)
Lemma parse_string n d s rest :
  utf8_valid s = true -> parse_value (S n) d (quote s ++ rest) = Some (JStr s, rest).
Proof.
  intros H. pose proof (unquote_quote s rest H) as Hu. cbv zeta in Hu.
  unfold quote. rewrite !sapp_assoc. cbn [parse_value]. rewrite skip_dquote.
  unfold dquote at 1. cbn [String.append].
  change (byte_of (of_byte 34) =? 34) with true. cbv iota. by rewrite Hu.
Qed.

Lemma parse_array n d s :
  d < maxNestingDepth -> expect "]" (skip_ws s) = None ->
  parse_value (S n) d ("[" ++ s)
  = match parse_elems n (d + 1) s with Some (l, r) => Some (JArr l, r) | None => None end.
Proof.
  intros Hd He. cbn [parse_value]. rewrite skip_lit by done. cbn [String.append].
  change (byte_of "[" =? 34) with false. change (byte_of "[" =? 123) with false.
  change (byte_of "[" =? 91) with true. cbv iota.
  by rewrite (proj2 (Z.leb_gt _ _) Hd), He.
Qed.

Lemma parse_object n d s :
  d < maxNestingDepth -> expect "}" (skip_ws s) = None ->
  parse_value (S n) d ("{" ++ s)
  = match parse_members n (d + 1) s with Some (l, r) => Some (JObj l, r) | None => None end.
Proof.
  intros Hd He. cbn [parse_value]. rewrite skip_lit by done. cbn [String.append].
  change (byte_of "{" =? 34) with false. change (byte_of "{" =? 123) with true. cbv iota.
  by rewrite (proj2 (Z.leb_gt _ _) Hd), He.
Qed.

Lemma parse_empty n d rest :
  d < maxNestingDepth ->
  parse_value (S n) d ("[]" ++ rest) = Some (JArr [], rest) /\
  parse_value (S n) d ("{}" ++ rest) = Some (JObj [], rest).
Proof.
  intros Hd. apply Z.leb_gt in Hd. split.
  - cbn [parse_value].
    change (skip_ws ("[]" ++ rest)) with (String "[" ("]" ++ rest)). cbv iota beta zeta.
    change (byte_of "[" =? 34) with false. change (byte_of "[" =? 123) with false.
    change (byte_of "[" =? 91) with true. cbv iota.
    by rewrite Hd, skip_lit, expect_app by done.
  - cbn [parse_value].
    change (skip_ws ("{}" ++ rest)) with (String "{" ("}" ++ rest)). cbv iota beta zeta.
    change (byte_of "{" =? 34) with false. change (byte_of "{" =? 123) with true. cbv iota.
    by rewrite Hd, skip_lit, expect_app by done.
Qed.

Lemma depth_nonneg (l : list Z) : 0 <= foldr Z.max 0 l.
Proof. induction l; simpl; lia. Qed.

(** **** Printing with any white space *)
Section print_parse.
Context (nl : nat -> string) (colon : string).
Context (nl_blank : forall d, blank (nl d)) (colon_spec : exists w, colon = ":" ++ w /\ blank w).

Definition print_member (i : nat) (kv : string * json) : string :=
  quote (fst kv) ++ colon ++ print nl colon i (snd kv).

Lemma print_head i v : json_wf v = true -> value_head (print nl colon i v) = true.
Proof.
  destruct v as [|[]|l|s|[|]|[|]]; try done. intros H.
  destruct (number_lit_head l H) as (c & t & -> & Hc). apply (number_head_value c Hc).
Qed.

Definition parses (v : json) : Prop := forall i n d rest,
  json_wf v = true -> (2 * String.length (print nl colon i v) <= n)%nat ->
  d + json_depth v <= maxNestingDepth -> delimited rest = true ->
  parse_value n d (print nl colon i v ++ rest) = Some (v, rest).

Lemma parse_elems_print i l n d w rest :
  Forall parses l -> l <> [] -> forallb json_wf l = true -> blank w ->
  (2 * String.length (Join (map (print nl colon i) l) ("," ++ nl i)) + 2 <= n)%nat ->
  d + foldr Z.max 0 (map json_depth l) <= maxNestingDepth ->
  parse_elems n d (nl i ++ Join (map (print nl colon i) l) ("," ++ nl i) ++ w ++ "]" ++ rest)
  = Some (l, rest).
Proof using nl_blank.
  intros Hall. revert n. induction Hall as [|v l Hv Hall IH]; intros n Hne Hwf Hw Hn Hd; [done|].
  destruct n as [|n]; [lia|]. cbn [forallb map foldr] in Hwf, Hd.
  apply andb_true_iff in Hwf as [Hwfv Hwf]. rewrite Join_map_cons in Hn |- *.
  cbn [parse_elems]. rewrite parse_value_blank by done. destruct l as [|v' l].
  - rewrite Hv by (done || lia || by apply delimited_blank).
    rewrite !skip_blank, !skip_lit, expect_app by done. reflexivity.
  - rewrite !slength_app in Hn. cbn [String.length] in Hn. rewrite !sapp_assoc.
    rewrite Hv by (done || lia). rewrite skip_lit, expect_app by done.
    by rewrite IH by (done || lia).
Qed.

Lemma parse_members_print i l n d w rest :
  Forall (fun kv => parses (snd kv)) l -> l <> [] ->
  forallb (fun kv => utf8_valid (fst kv) && json_wf (snd kv)) l = true -> blank w ->
  (2 * String.length (Join (map (print_member i) l) ("," ++ nl i)) + 2 <= n)%nat ->
  d + foldr Z.max 0 (map (fun kv => json_depth (snd kv)) l) <= maxNestingDepth ->
  parse_members n d (nl i ++ Join (map (print_member i) l) ("," ++ nl i) ++ w ++ "}" ++ rest)
  = Some (l, rest).
Proof using nl_blank colon_spec.
  destruct colon_spec as (wc & Hcolon & Hwc). intros Hall. revert n.
  induction Hall as [|[k v] l Hv Hall IH]; intros n Hne Hwf Hw Hn Hd; [done|].
  destruct n as [|n]; [lia|]. cbn [forallb map foldr fst snd] in Hwf, Hd, Hv.
  apply andb_true_iff in Hwf as [[Hk Hwfv]%andb_true_iff Hwf].
  rewrite Join_map_cons in Hn |- *.
  assert (Hlen : (String.length (print_member i (k, v))
                  >= 3 + String.length (print nl colon i v))%nat).
  { unfold print_member, quote. rewrite Hcolon, !slength_app. simpl. lia. }
  assert (Hmem : forall tail, print_member i (k, v) ++ tail
    = dquote ++ quote_fuel (String.length k) k ++ dquote ++
      (":" ++ wc ++ print nl colon i v ++ tail)).
  { intros tail. unfold print_member, quote. simpl fst. simpl snd.
    rewrite !sapp_assoc. by rewrite Hcolon at 1; rewrite sapp_assoc. }
  cbn [parse_members]. rewrite skip_blank by done. destruct l as [|kv' l].
  - rewrite Hmem, skip_dquote, expect_app, unquote_quote by done.
    rewrite skip_lit, expect_app, parse_value_blank by done.
    rewrite Hv by (done || lia || by apply delimited_blank).
    rewrite !skip_blank, !skip_lit, expect_app by done. reflexivity.
  - rewrite !slength_app in Hn. cbn [String.length] in Hn. rewrite !sapp_assoc, Hmem.
    rewrite skip_dquote, expect_app, unquote_quote by done.
    rewrite skip_lit, expect_app, parse_value_blank by done.
    rewrite Hv by (done || lia). rewrite skip_lit, expect_app by done.
    by rewrite IH by (done || lia).
Qed.

Lemma parses_scalar s v n d rest :
  (forall m, parse_value (S m) d (s ++ rest) = Some (v, rest)) -> (1 <= n)%nat ->
  parse_value n d (s ++ rest) = Some (v, rest).
Proof. intros H Hn. destruct n; [lia|]. apply H. Qed.

Lemma parse_print v : parses v.
Proof using nl_blank colon_spec.
  induction v as [|b|l|s|l IH|l IH] using json_induction; intros i n d rest Hwf Hn Hd Hr.
  - apply parses_scalar; [intros m; by destruct rest|simpl in Hn; lia].
  - apply parses_scalar; [intros m; by destruct b, rest|destruct b; simpl in Hn; lia].
  - destruct n as [|n]; [|by apply parse_number].
    destruct (number_lit_head l Hwf) as (c & t & -> & _). simpl in Hn. lia.
  - destruct n as [|n]; [|by apply parse_string]. simpl in Hn.
    unfold quote in Hn. rewrite !slength_app in Hn. simpl in Hn. lia.
  - cbn [json_depth json_wf] in *. pose proof (depth_nonneg (map json_depth l)).
    destruct n as [|n]; [destruct l; simpl in Hn; lia|].
    destruct l as [|v l]; [apply parse_empty; lia|].
    apply andb_true_iff in Hwf as Hv. destruct Hv as [Hv _].
    cbn [print] in *. rewrite !slength_app in Hn. cbn [String.length] in Hn. rewrite !sapp_assoc.
    rewrite parse_array, parse_elems_print; try (done || lia).
    rewrite skip_blank by done.
    destruct (Join_head_app (print nl colon (S i)) ("," ++ nl (S i)) v l) as [tl ->].
    rewrite sapp_assoc. by apply (value_head_not_close true), print_head.
  - cbn [json_depth json_wf] in *.
    pose proof (depth_nonneg (map (fun kv => json_depth (snd kv)) l)).
    destruct n as [|n]; [destruct l; simpl in Hn; lia|].
    destruct l as [|v l]; [apply parse_empty; lia|].
    cbn [print] in *. fold (print_member (S i)) in Hn |- *.
    rewrite !slength_app in Hn. cbn [String.length] in Hn. rewrite !sapp_assoc.
    rewrite parse_object, parse_members_print; try (done || lia).
    rewrite skip_blank by done.
    destruct (Join_head_app (print_member (S i)) ("," ++ nl (S i)) v l) as [tl ->].
    rewrite sapp_assoc. by apply (value_head_not_close false).
Qed.

Lemma json_parse_print i v :
  json_wf v = true -> json_depth v <= maxNestingDepth ->
  json_parse (print nl colon i v) = Some v /\ json_decode (print nl colon i v) = Some v.
Proof using nl_blank colon_spec.
  intros Hwf Hd. unfold json_parse, json_decode, parse_fuel.
  pose proof (parse_print v i (2 * String.length (print nl colon i v) + 2)%nat 0 "" Hwf) as H.
  rewrite sapp_nil_r in H. rewrite H by (done || lia). done.
Qed.
End print_parse.

(** Parsing a printed document gives it back. *)
Lemma json_parse_render v :
  json_wf v = true -> json_depth v <= maxNestingDepth -> json_parse (render v) = Some v.
Proof. intros Hwf Hd. apply json_parse_print; [done|by exists ""|done|done]. Qed.

Lemma json_decode_indent v :
  json_wf v = true -> json_depth v <= maxNestingDepth -> json_decode (render_indent v) = Some v.
Proof.
  intros Hwf Hd. apply json_parse_print; [|by exists " "|done|done].
  intros d. unfold blank. rewrite sforall_app. simpl. induction d; simpl; done.
Qed.

(** *** Integers *)

Lemma digits_value_app acc s t :
  digits_value acc (s ++ t) = digits_value (digits_value acc s) t.
Proof. revert acc. induction s as [|c s IH]; intros acc; simpl; [done|]. apply IH. Qed.

Lemma digit_byte x : 0 <= x < 10 ->
  is_digit (of_byte (48 + x)) = true /\ byte_of (of_byte (48 + x)) = 48 + x.
Proof.
  intros Hx. assert (byte_of (of_byte (48 + x)) = 48 + x) as H by (apply byte_of_of_byte; lia).
  split; [|done]. unfold is_digit, in_range. rewrite H. apply andb_true_iff.
  split; apply Z.leb_le; lia.
Qed.

(** A canonical decimal numeral of [n]. *)
Definition numeral (n : Z) (d : string) : Prop :=
  sforall is_digit d = true /\ d <> "" /\ digits_value 0 d = n /\
  (forall c t, d = String c t -> byte_of c = 48 -> t = "").

Lemma digits_fuel_numeral f n acc :
  0 <= n < 10 ^ Z.of_nat f -> (0 < f)%nat ->
  exists d, digits_fuel f n acc = d ++ acc /\ numeral n d /\ (n = 0 \/ 0 < n).
Proof.
  revert n acc. induction f as [|f IH]; intros n acc Hn Hf; [lia|]. cbn [digits_fuel].
  destruct (n <? 10) eqn:E; breflect.
  - exists (String (of_byte (48 + n)) ""). rewrite Z.mod_small by lia.
    destruct (digit_byte n) as [Hd Hb]; [lia|]. split; [done|]. split; [|lia].
    split; [simpl; by rewrite Hd|]. split; [done|]. split; [simpl; rewrite Hb; lia|].
    intros c t [= <- <-]. done.
  - rewrite Nat2Z.inj_succ, Z.pow_succ_r in Hn by lia.
    assert (Hq : 1 <= n / 10 < 10 ^ Z.of_nat f) by (Z.to_euclidean_division_equations; lia).
    destruct f as [|f]; [simpl in Hq; lia|].
    destruct (IH (n / 10) (String (of_byte (48 + n mod 10)) acc)) as (d & Hd & (H1 & H2 & H3 & H4) & _);
      [lia|lia|].
    destruct (digit_byte (n mod 10)) as [Hm Hb]; [apply Z.mod_pos_bound; lia|].
    exists (d ++ String (of_byte (48 + n mod 10)) ""). split; [by rewrite Hd, sapp_assoc|].
    split; [|lia]. split; [rewrite sforall_app, H1; simpl; by rewrite Hm|].
    split; [by destruct d|]. split.
    + rewrite digits_value_app, H3. simpl. rewrite Hb. Z.to_euclidean_division_equations. lia.
    + intros c t Ht Hc. destruct d as [|c' d']; [done|]. injection Ht as <- _.
      specialize (H4 _ _ eq_refl Hc). subst d'. simpl in H3. rewrite Hc in H3. lia.
Qed.

Lemma digits_numeral n : 0 <= n -> numeral n (digits n).
Proof.
  intros Hn. unfold digits.
  destruct (digits_fuel_numeral (S (Z.to_nat (Z.log2_up (n + 1)))) n "") as (d & -> & Hd & _).
  - split; [done|]. rewrite Nat2Z.inj_succ, Z2Nat.id by apply Z.log2_up_nonneg.
    pose proof (Z.log2_up_nonneg (n + 1)).
    apply Z.lt_le_trans with (2 ^ Z.log2_up (n + 1) * 1 + 1).
    + destruct (decide (n = 0)) as [->|]; [done|].
      pose proof (Z.log2_up_spec (n + 1) ltac:(lia)). lia.
    + rewrite Z.pow_succ_r by done.
      pose proof (Z.pow_le_mono_l 2 10 (Z.log2_up (n + 1)) ltac:(lia)).
      pose proof (Z.pow_pos_nonneg 2 (Z.log2_up (n + 1)) ltac:(lia) ltac:(done)). lia.
  - lia.
  - by rewrite sapp_nil_r.
Qed.

Lemma take_digits_all d : sforall is_digit d = true -> take_digits d = (d, "").
Proof.
  induction d as [|c d IH]; [done|]. simpl. intros [H1 H2]%andb_true_iff.
  by rewrite H1, IH.
Qed.

Lemma numeral_unsigned n d : numeral n d -> take_unsigned d = Some (d, "").
Proof.
  intros (H1 & H2 & _ & H4). destruct d as [|c t]; [done|]. unfold take_unsigned, take_int.
  destruct (byte_of c =? 48) eqn:E.
  - apply Z.eqb_eq in E. by rewrite (H4 c t eq_refl E).
  - rewrite take_digits_all by done. simpl. by rewrite sapp_nil_r.
Qed.

Lemma numeral_head n d : numeral n d -> exists c t, d = String c t /\
  (byte_of c =? 45) = false /\ (byte_of c =? 43) = false.
Proof.
  intros (H1 & H2 & _). destruct d as [|c t]; [done|]. exists c, t. split; [done|].
  simpl in H1. apply andb_true_iff in H1 as [H1 _]. unfold is_digit, in_range in H1.
  breflect. split; apply Z.eqb_neq; lia.
Qed.

(** A printed integer is a number literal that decodes to itself. *)
Lemma Itoa_lit n : number_lit (Itoa n) = true.
Proof.
  unfold number_lit, Itoa. destruct (n <? 0) eqn:E; breflect.
  - pose proof (numeral_unsigned _ _ (digits_numeral (- n) ltac:(lia))) as H.
    cbn [take_number String.append]. change (byte_of "-" =? 45) with true. cbv iota.
    rewrite H. simpl. by rewrite String.eqb_refl.
  - pose proof (digits_numeral n ltac:(lia)) as Hd.
    pose proof (numeral_unsigned _ _ Hd) as H.
    destruct (numeral_head _ _ Hd) as (c & t & Ht & Hc & _). rewrite Ht in *.
    cbn [take_number]. rewrite Hc, H. by rewrite String.eqb_refl.
Qed.

Lemma parse_int64_Itoa n : in_i64 n -> parse_int64 (Itoa n) = Some n.
Proof.
  unfold in_i64. intros Hn. unfold parse_int64, Itoa. destruct (n <? 0) eqn:E; breflect.
  - destruct (digits_numeral (- n) ltac:(lia)) as (H1 & H2 & H3 & _).
    cbn [split_sign String.append]. change (byte_of "-" =? 45) with true. cbv iota beta.
    rewrite H1, H3. rewrite (proj2 (String.eqb_neq _ _) H2). cbn [negb andb].
    rewrite Z.opp_involutive.
    by rewrite (proj2 (Z.leb_le _ _)), (proj2 (Z.ltb_lt _ _)) by lia.
  - pose proof (digits_numeral n ltac:(lia)) as Hd.
    destruct (numeral_head _ _ Hd) as (c & t & Ht & Hc1 & Hc2).
    destruct Hd as (H1 & H2 & H3 & _).
    assert (split_sign (digits n) = (false, digits n)) as ->.
    { rewrite Ht. simpl. by rewrite Hc1, Hc2. }
    rewrite H1, H3.
    rewrite (proj2 (String.eqb_neq _ _) H2). cbn [negb andb].
    by rewrite (proj2 (Z.leb_le _ _)), (proj2 (Z.ltb_lt _ _)) by lia.
Qed.

(** *** Entries in key order *)

Lemma put_perm {A} k (v : A) m : k ∉ map fst m -> put k v m ≡ₚ (k, v) :: m.
Proof.
  induction m as [|[k' v'] m IH]; intros Hk; simpl; [done|].
  destruct (String.compare k k') eqn:E.
  - apply String.compare_eq_iff in E as ->. exfalso. apply Hk. simpl. by left.
  - done.
  - rewrite IH; [apply perm_swap|]. intros ?. apply Hk. simpl. by right.
Qed.

Lemma from_entries_perm {A} (l acc : list (string * A)) :
  NoDup (map fst (l ++ acc)) -> fold_left (fun m kv => put (fst kv) (snd kv) m) l acc ≡ₚ l ++ acc.
Proof.
  revert acc. induction l as [|[k v] l IH]; intros acc Hnd; simpl; [done|].
  simpl in Hnd. apply list.NoDup_cons in Hnd as [Hk Hnd].
  assert (Hp : put k v acc ≡ₚ (k, v) :: acc).
  { apply put_perm. intros ?. apply Hk. rewrite map_app. apply elem_of_app. by right. }
  rewrite IH.
  - rewrite Hp. by rewrite Permutation_middle.
  - assert (Hpm : map fst (l ++ put k v acc) ≡ₚ map fst ((k, v) :: l ++ acc)).
    { apply (fmap_Permutation fst). rewrite Hp. by rewrite Permutation_middle. }
    rewrite Hpm. by apply list.NoDup_cons.
Qed.
