(* ===== verification/Types.v ===== *)
(** * The data of the gateway (pkg/proxy/handler.go, provider.go, ai.go)

    The configuration records, field for field.  A Go [int] or [int64] field is
    a [Z], a slice a [list], a nil pointer [None], a map a [gmap]. *)

From S2P Require Import Prelude GoStrings GoFloat.
Open Scope Z_scope.

Record WeightedTarget := { URL : string; Weight : Z }.

Record LLMTarget := { LLM_URL : string; LLM_Model : string }.

Record LLMRoutingConfig := {
  Primary : LLMTarget;
  Fallback : LLMTarget;
  ConfidenceHeader : string;
  MinConfidence : float64;
}.

Record WASMTarget := { MiddlewareName : string; WASMWeight : Z }.

Record WASMSplitConfig := { WASMTargets : list WASMTarget }.

(** [type PromptABTest struct] (ai.go). *)
Record PromptABTest_t := {
  PromptName : string;
  Versions : gmap string string;
  Weights : gmap string Z;
}.

Record Route := {
  Prefix : string;
  SchemaName : string;
  Target : string;
  Targets : list string;
  TargetsWeighted : list WeightedTarget;
  CanaryAutoPromote : bool;
  CanaryPromoteStep : Z;
  CanaryPromoteSec : Z;
  CanaryMaxErrorRate : float64;
  LoadBalancer : string;
  TranspileType : string;
  Middleware : string;
  ResponseMiddleware : string;
  RateLimitRPM : Z;
  PromptGuard : bool;
  PiiRedact : bool;
  SemanticCache : bool;
  ValidationSchema : gmap string string;
  IPAllowlist : list string;
  IPBlocklist : list string;
  AccessLog : bool;
  AccessLogPath : string;
  CacheTTLSeconds : Z;
  CacheMethods : list string;
  ClientCertPath : string;
  ClientKeyPath : string;
  RootCAPath : string;
  MaxConcurrentRequests : Z;
  MaxQueueSize : Z;
  QueueTimeoutMs : Z;
  GoMiddleware : string;
  RequireAPIKey : bool;
  AllowedTenants : list string;
  RequestTransform : gmap string string;
  ResponseTransform : gmap string string;
  GraphQLFederation : gmap string string;
  MCPEnabled : bool;
  LLMRouting : option LLMRoutingConfig;
  WASMSplit : option WASMSplitConfig;
  MaxBodySize : Z;
  PromptABTest : option PromptABTest_t;
  ResponseQualityScore : bool;
  SemanticRateLimit : bool;
  SemanticTokenLimitPerMin : Z;
  AIWAFEnabled : bool;
}.

(** Routes as JSON gives them when only the prefix and the target are set. *)
Definition plain_route (prefix target : string) : Route := {|
  Prefix := prefix;
  SchemaName := ""%string;
  Target := target;
  Targets := [];
  TargetsWeighted := [];
  CanaryAutoPromote := false;
  CanaryPromoteStep := 0;
  CanaryPromoteSec := 0;
  CanaryMaxErrorRate := SpecFloat.S754_zero false;
  LoadBalancer := ""%string;
  TranspileType := ""%string;
  Middleware := ""%string;
  ResponseMiddleware := ""%string;
  RateLimitRPM := 0;
  PromptGuard := false;
  PiiRedact := false;
  SemanticCache := false;
  ValidationSchema := ∅;
  IPAllowlist := [];
  IPBlocklist := [];
  AccessLog := false;
  AccessLogPath := ""%string;
  CacheTTLSeconds := 0;
  CacheMethods := [];
  ClientCertPath := ""%string;
  ClientKeyPath := ""%string;
  RootCAPath := ""%string;
  MaxConcurrentRequests := 0;
  MaxQueueSize := 0;
  QueueTimeoutMs := 0;
  GoMiddleware := ""%string;
  RequireAPIKey := false;
  AllowedTenants := [];
  RequestTransform := ∅;
  ResponseTransform := ∅;
  GraphQLFederation := ∅;
  MCPEnabled := false;
  LLMRouting := None;
  WASMSplit := None;
  MaxBodySize := 0;
  PromptABTest := None;
  ResponseQualityScore := false;
  SemanticRateLimit := false;
  SemanticTokenLimitPerMin := 0;
  AIWAFEnabled := false
|}.

(** ** Field updates *)

Definition with_Targets (v : list string) (r : Route) : Route := {|
  Prefix := Prefix r; SchemaName := SchemaName r; Target := Target r; Targets := v;
  TargetsWeighted := TargetsWeighted r; CanaryAutoPromote := CanaryAutoPromote r;
  CanaryPromoteStep := CanaryPromoteStep r; CanaryPromoteSec := CanaryPromoteSec r;
  CanaryMaxErrorRate := CanaryMaxErrorRate r; LoadBalancer := LoadBalancer r;
  TranspileType := TranspileType r; Middleware := Middleware r;
  ResponseMiddleware := ResponseMiddleware r; RateLimitRPM := RateLimitRPM r;
  PromptGuard := PromptGuard r; PiiRedact := PiiRedact r;
  SemanticCache := SemanticCache r; ValidationSchema := ValidationSchema r;
  IPAllowlist := IPAllowlist r; IPBlocklist := IPBlocklist r; AccessLog := AccessLog r;
  AccessLogPath := AccessLogPath r; CacheTTLSeconds := CacheTTLSeconds r;
  CacheMethods := CacheMethods r; ClientCertPath := ClientCertPath r;
  ClientKeyPath := ClientKeyPath r; RootCAPath := RootCAPath r;
  MaxConcurrentRequests := MaxConcurrentRequests r; MaxQueueSize := MaxQueueSize r;
  QueueTimeoutMs := QueueTimeoutMs r; GoMiddleware := GoMiddleware r;
  RequireAPIKey := RequireAPIKey r; AllowedTenants := AllowedTenants r;
  RequestTransform := RequestTransform r; ResponseTransform := ResponseTransform r;
  GraphQLFederation := GraphQLFederation r; MCPEnabled := MCPEnabled r;
  LLMRouting := LLMRouting r; WASMSplit := WASMSplit r; MaxBodySize := MaxBodySize r;
  PromptABTest := PromptABTest r; ResponseQualityScore := ResponseQualityScore r;
  SemanticRateLimit := SemanticRateLimit r;
  SemanticTokenLimitPerMin := SemanticTokenLimitPerMin r;
  AIWAFEnabled := AIWAFEnabled r |}.

Definition with_TargetsWeighted (v : list WeightedTarget) (r : Route) : Route := {|
  Prefix := Prefix r; SchemaName := SchemaName r; Target := Target r;
  Targets := Targets r; TargetsWeighted := v; CanaryAutoPromote := CanaryAutoPromote r;
  CanaryPromoteStep := CanaryPromoteStep r; CanaryPromoteSec := CanaryPromoteSec r;
  CanaryMaxErrorRate := CanaryMaxErrorRate r; LoadBalancer := LoadBalancer r;
  TranspileType := TranspileType r; Middleware := Middleware r;
  ResponseMiddleware := ResponseMiddleware r; RateLimitRPM := RateLimitRPM r;
  PromptGuard := PromptGuard r; PiiRedact := PiiRedact r;
  SemanticCache := SemanticCache r; ValidationSchema := ValidationSchema r;
  IPAllowlist := IPAllowlist r; IPBlocklist := IPBlocklist r; AccessLog := AccessLog r;
  AccessLogPath := AccessLogPath r; CacheTTLSeconds := CacheTTLSeconds r;
  CacheMethods := CacheMethods r; ClientCertPath := ClientCertPath r;
  ClientKeyPath := ClientKeyPath r; RootCAPath := RootCAPath r;
  MaxConcurrentRequests := MaxConcurrentRequests r; MaxQueueSize := MaxQueueSize r;
  QueueTimeoutMs := QueueTimeoutMs r; GoMiddleware := GoMiddleware r;
  RequireAPIKey := RequireAPIKey r; AllowedTenants := AllowedTenants r;
  RequestTransform := RequestTransform r; ResponseTransform := ResponseTransform r;
  GraphQLFederation := GraphQLFederation r; MCPEnabled := MCPEnabled r;
  LLMRouting := LLMRouting r; WASMSplit := WASMSplit r; MaxBodySize := MaxBodySize r;
  PromptABTest := PromptABTest r; ResponseQualityScore := ResponseQualityScore r;
  SemanticRateLimit := SemanticRateLimit r;
  SemanticTokenLimitPerMin := SemanticTokenLimitPerMin r;
  AIWAFEnabled := AIWAFEnabled r |}.

Definition with_CanaryAutoPromote (v : bool) (r : Route) : Route := {|
  Prefix := Prefix r; SchemaName := SchemaName r; Target := Target r;
  Targets := Targets r; TargetsWeighted := TargetsWeighted r; CanaryAutoPromote := v;
  CanaryPromoteStep := CanaryPromoteStep r; CanaryPromoteSec := CanaryPromoteSec r;
  CanaryMaxErrorRate := CanaryMaxErrorRate r; LoadBalancer := LoadBalancer r;
  TranspileType := TranspileType r; Middleware := Middleware r;
  ResponseMiddleware := ResponseMiddleware r; RateLimitRPM := RateLimitRPM r;
  PromptGuard := PromptGuard r; PiiRedact := PiiRedact r;
  SemanticCache := SemanticCache r; ValidationSchema := ValidationSchema r;
  IPAllowlist := IPAllowlist r; IPBlocklist := IPBlocklist r; AccessLog := AccessLog r;
  AccessLogPath := AccessLogPath r; CacheTTLSeconds := CacheTTLSeconds r;
  CacheMethods := CacheMethods r; ClientCertPath := ClientCertPath r;
  ClientKeyPath := ClientKeyPath r; RootCAPath := RootCAPath r;
  MaxConcurrentRequests := MaxConcurrentRequests r; MaxQueueSize := MaxQueueSize r;
  QueueTimeoutMs := QueueTimeoutMs r; GoMiddleware := GoMiddleware r;
  RequireAPIKey := RequireAPIKey r; AllowedTenants := AllowedTenants r;
  RequestTransform := RequestTransform r; ResponseTransform := ResponseTransform r;
  GraphQLFederation := GraphQLFederation r; MCPEnabled := MCPEnabled r;
  LLMRouting := LLMRouting r; WASMSplit := WASMSplit r; MaxBodySize := MaxBodySize r;
  PromptABTest := PromptABTest r; ResponseQualityScore := ResponseQualityScore r;
  SemanticRateLimit := SemanticRateLimit r;
  SemanticTokenLimitPerMin := SemanticTokenLimitPerMin r;
  AIWAFEnabled := AIWAFEnabled r |}.

Definition with_LoadBalancer (v : string) (r : Route) : Route := {|
  Prefix := Prefix r; SchemaName := SchemaName r; Target := Target r;
  Targets := Targets r; TargetsWeighted := TargetsWeighted r;
  CanaryAutoPromote := CanaryAutoPromote r; CanaryPromoteStep := CanaryPromoteStep r;
  CanaryPromoteSec := CanaryPromoteSec r; CanaryMaxErrorRate := CanaryMaxErrorRate r;
  LoadBalancer := v; TranspileType := TranspileType r; Middleware := Middleware r;
  ResponseMiddleware := ResponseMiddleware r; RateLimitRPM := RateLimitRPM r;
  PromptGuard := PromptGuard r; PiiRedact := PiiRedact r;
  SemanticCache := SemanticCache r; ValidationSchema := ValidationSchema r;
  IPAllowlist := IPAllowlist r; IPBlocklist := IPBlocklist r; AccessLog := AccessLog r;
  AccessLogPath := AccessLogPath r; CacheTTLSeconds := CacheTTLSeconds r;
  CacheMethods := CacheMethods r; ClientCertPath := ClientCertPath r;
  ClientKeyPath := ClientKeyPath r; RootCAPath := RootCAPath r;
  MaxConcurrentRequests := MaxConcurrentRequests r; MaxQueueSize := MaxQueueSize r;
  QueueTimeoutMs := QueueTimeoutMs r; GoMiddleware := GoMiddleware r;
  RequireAPIKey := RequireAPIKey r; AllowedTenants := AllowedTenants r;
  RequestTransform := RequestTransform r; ResponseTransform := ResponseTransform r;
  GraphQLFederation := GraphQLFederation r; MCPEnabled := MCPEnabled r;
  LLMRouting := LLMRouting r; WASMSplit := WASMSplit r; MaxBodySize := MaxBodySize r;
  PromptABTest := PromptABTest r; ResponseQualityScore := ResponseQualityScore r;
  SemanticRateLimit := SemanticRateLimit r;
  SemanticTokenLimitPerMin := SemanticTokenLimitPerMin r;
  AIWAFEnabled := AIWAFEnabled r |}.

Definition with_CacheTTLSeconds (v : Z) (r : Route) : Route := {|
  Prefix := Prefix r; SchemaName := SchemaName r; Target := Target r;
  Targets := Targets r; TargetsWeighted := TargetsWeighted r;
  CanaryAutoPromote := CanaryAutoPromote r; CanaryPromoteStep := CanaryPromoteStep r;
  CanaryPromoteSec := CanaryPromoteSec r; CanaryMaxErrorRate := CanaryMaxErrorRate r;
  LoadBalancer := LoadBalancer r; TranspileType := TranspileType r;
  Middleware := Middleware r; ResponseMiddleware := ResponseMiddleware r;
  RateLimitRPM := RateLimitRPM r; PromptGuard := PromptGuard r;
  PiiRedact := PiiRedact r; SemanticCache := SemanticCache r;
  ValidationSchema := ValidationSchema r; IPAllowlist := IPAllowlist r;
  IPBlocklist := IPBlocklist r; AccessLog := AccessLog r;
  AccessLogPath := AccessLogPath r; CacheTTLSeconds := v;
  CacheMethods := CacheMethods r; ClientCertPath := ClientCertPath r;
  ClientKeyPath := ClientKeyPath r; RootCAPath := RootCAPath r;
  MaxConcurrentRequests := MaxConcurrentRequests r; MaxQueueSize := MaxQueueSize r;
  QueueTimeoutMs := QueueTimeoutMs r; GoMiddleware := GoMiddleware r;
  RequireAPIKey := RequireAPIKey r; AllowedTenants := AllowedTenants r;
  RequestTransform := RequestTransform r; ResponseTransform := ResponseTransform r;
  GraphQLFederation := GraphQLFederation r; MCPEnabled := MCPEnabled r;
  LLMRouting := LLMRouting r; WASMSplit := WASMSplit r; MaxBodySize := MaxBodySize r;
  PromptABTest := PromptABTest r; ResponseQualityScore := ResponseQualityScore r;
  SemanticRateLimit := SemanticRateLimit r;
  SemanticTokenLimitPerMin := SemanticTokenLimitPerMin r;
  AIWAFEnabled := AIWAFEnabled r |}.

Definition with_CacheMethods (v : list string) (r : Route) : Route := {|
  Prefix := Prefix r; SchemaName := SchemaName r; Target := Target r;
  Targets := Targets r; TargetsWeighted := TargetsWeighted r;
  CanaryAutoPromote := CanaryAutoPromote r; CanaryPromoteStep := CanaryPromoteStep r;
  CanaryPromoteSec := CanaryPromoteSec r; CanaryMaxErrorRate := CanaryMaxErrorRate r;
  LoadBalancer := LoadBalancer r; TranspileType := TranspileType r;
  Middleware := Middleware r; ResponseMiddleware := ResponseMiddleware r;
  RateLimitRPM := RateLimitRPM r; PromptGuard := PromptGuard r;
  PiiRedact := PiiRedact r; SemanticCache := SemanticCache r;
  ValidationSchema := ValidationSchema r; IPAllowlist := IPAllowlist r;
  IPBlocklist := IPBlocklist r; AccessLog := AccessLog r;
  AccessLogPath := AccessLogPath r; CacheTTLSeconds := CacheTTLSeconds r;
  CacheMethods := v; ClientCertPath := ClientCertPath r;
  ClientKeyPath := ClientKeyPath r; RootCAPath := RootCAPath r;
  MaxConcurrentRequests := MaxConcurrentRequests r; MaxQueueSize := MaxQueueSize r;
  QueueTimeoutMs := QueueTimeoutMs r; GoMiddleware := GoMiddleware r;
  RequireAPIKey := RequireAPIKey r; AllowedTenants := AllowedTenants r;
  RequestTransform := RequestTransform r; ResponseTransform := ResponseTransform r;
  GraphQLFederation := GraphQLFederation r; MCPEnabled := MCPEnabled r;
  LLMRouting := LLMRouting r; WASMSplit := WASMSplit r; MaxBodySize := MaxBodySize r;
  PromptABTest := PromptABTest r; ResponseQualityScore := ResponseQualityScore r;
  SemanticRateLimit := SemanticRateLimit r;
  SemanticTokenLimitPerMin := SemanticTokenLimitPerMin r;
  AIWAFEnabled := AIWAFEnabled r |}.

Definition with_RateLimitRPM (v : Z) (r : Route) : Route := {|
  Prefix := Prefix r; SchemaName := SchemaName r; Target := Target r;
  Targets := Targets r; TargetsWeighted := TargetsWeighted r;
  CanaryAutoPromote := CanaryAutoPromote r; CanaryPromoteStep := CanaryPromoteStep r;
  CanaryPromoteSec := CanaryPromoteSec r; CanaryMaxErrorRate := CanaryMaxErrorRate r;
  LoadBalancer := LoadBalancer r; TranspileType := TranspileType r;
  Middleware := Middleware r; ResponseMiddleware := ResponseMiddleware r;
  RateLimitRPM := v; PromptGuard := PromptGuard r; PiiRedact := PiiRedact r;
  SemanticCache := SemanticCache r; ValidationSchema := ValidationSchema r;
  IPAllowlist := IPAllowlist r; IPBlocklist := IPBlocklist r; AccessLog := AccessLog r;
  AccessLogPath := AccessLogPath r; CacheTTLSeconds := CacheTTLSeconds r;
  CacheMethods := CacheMethods r; ClientCertPath := ClientCertPath r;
  ClientKeyPath := ClientKeyPath r; RootCAPath := RootCAPath r;
  MaxConcurrentRequests := MaxConcurrentRequests r; MaxQueueSize := MaxQueueSize r;
  QueueTimeoutMs := QueueTimeoutMs r; GoMiddleware := GoMiddleware r;
  RequireAPIKey := RequireAPIKey r; AllowedTenants := AllowedTenants r;
  RequestTransform := RequestTransform r; ResponseTransform := ResponseTransform r;
  GraphQLFederation := GraphQLFederation r; MCPEnabled := MCPEnabled r;
  LLMRouting := LLMRouting r; WASMSplit := WASMSplit r; MaxBodySize := MaxBodySize r;
  PromptABTest := PromptABTest r; ResponseQualityScore := ResponseQualityScore r;
  SemanticRateLimit := SemanticRateLimit r;
  SemanticTokenLimitPerMin := SemanticTokenLimitPerMin r;
  AIWAFEnabled := AIWAFEnabled r |}.

Definition with_MaxConcurrentRequests (v : Z) (r : Route) : Route := {|
  Prefix := Prefix r; SchemaName := SchemaName r; Target := Target r;
  Targets := Targets r; TargetsWeighted := TargetsWeighted r;
  CanaryAutoPromote := CanaryAutoPromote r; CanaryPromoteStep := CanaryPromoteStep r;
  CanaryPromoteSec := CanaryPromoteSec r; CanaryMaxErrorRate := CanaryMaxErrorRate r;
  LoadBalancer := LoadBalancer r; TranspileType := TranspileType r;
  Middleware := Middleware r; ResponseMiddleware := ResponseMiddleware r;
  RateLimitRPM := RateLimitRPM r; PromptGuard := PromptGuard r;
  PiiRedact := PiiRedact r; SemanticCache := SemanticCache r;
  ValidationSchema := ValidationSchema r; IPAllowlist := IPAllowlist r;
  IPBlocklist := IPBlocklist r; AccessLog := AccessLog r;
  AccessLogPath := AccessLogPath r; CacheTTLSeconds := CacheTTLSeconds r;
  CacheMethods := CacheMethods r; ClientCertPath := ClientCertPath r;
  ClientKeyPath := ClientKeyPath r; RootCAPath := RootCAPath r;
  MaxConcurrentRequests := v; MaxQueueSize := MaxQueueSize r;
  QueueTimeoutMs := QueueTimeoutMs r; GoMiddleware := GoMiddleware r;
  RequireAPIKey := RequireAPIKey r; AllowedTenants := AllowedTenants r;
  RequestTransform := RequestTransform r; ResponseTransform := ResponseTransform r;
  GraphQLFederation := GraphQLFederation r; MCPEnabled := MCPEnabled r;
  LLMRouting := LLMRouting r; WASMSplit := WASMSplit r; MaxBodySize := MaxBodySize r;
  PromptABTest := PromptABTest r; ResponseQualityScore := ResponseQualityScore r;
  SemanticRateLimit := SemanticRateLimit r;
  SemanticTokenLimitPerMin := SemanticTokenLimitPerMin r;
  AIWAFEnabled := AIWAFEnabled r |}.

Definition with_MaxQueueSize (v : Z) (r : Route) : Route := {|
  Prefix := Prefix r; SchemaName := SchemaName r; Target := Target r;
  Targets := Targets r; TargetsWeighted := TargetsWeighted r;
  CanaryAutoPromote := CanaryAutoPromote r; CanaryPromoteStep := CanaryPromoteStep r;
  CanaryPromoteSec := CanaryPromoteSec r; CanaryMaxErrorRate := CanaryMaxErrorRate r;
  LoadBalancer := LoadBalancer r; TranspileType := TranspileType r;
  Middleware := Middleware r; ResponseMiddleware := ResponseMiddleware r;
  RateLimitRPM := RateLimitRPM r; PromptGuard := PromptGuard r;
  PiiRedact := PiiRedact r; SemanticCache := SemanticCache r;
  ValidationSchema := ValidationSchema r; IPAllowlist := IPAllowlist r;
  IPBlocklist := IPBlocklist r; AccessLog := AccessLog r;
  AccessLogPath := AccessLogPath r; CacheTTLSeconds := CacheTTLSeconds r;
  CacheMethods := CacheMethods r; ClientCertPath := ClientCertPath r;
  ClientKeyPath := ClientKeyPath r; RootCAPath := RootCAPath r;
  MaxConcurrentRequests := MaxConcurrentRequests r; MaxQueueSize := v;
  QueueTimeoutMs := QueueTimeoutMs r; GoMiddleware := GoMiddleware r;
  RequireAPIKey := RequireAPIKey r; AllowedTenants := AllowedTenants r;
  RequestTransform := RequestTransform r; ResponseTransform := ResponseTransform r;
  GraphQLFederation := GraphQLFederation r; MCPEnabled := MCPEnabled r;
  LLMRouting := LLMRouting r; WASMSplit := WASMSplit r; MaxBodySize := MaxBodySize r;
  PromptABTest := PromptABTest r; ResponseQualityScore := ResponseQualityScore r;
  SemanticRateLimit := SemanticRateLimit r;
  SemanticTokenLimitPerMin := SemanticTokenLimitPerMin r;
  AIWAFEnabled := AIWAFEnabled r |}.

Definition with_MaxBodySize (v : Z) (r : Route) : Route := {|
  Prefix := Prefix r; SchemaName := SchemaName r; Target := Target r;
  Targets := Targets r; TargetsWeighted := TargetsWeighted r;
  CanaryAutoPromote := CanaryAutoPromote r; CanaryPromoteStep := CanaryPromoteStep r;
  CanaryPromoteSec := CanaryPromoteSec r; CanaryMaxErrorRate := CanaryMaxErrorRate r;
  LoadBalancer := LoadBalancer r; TranspileType := TranspileType r;
  Middleware := Middleware r; ResponseMiddleware := ResponseMiddleware r;
  RateLimitRPM := RateLimitRPM r; PromptGuard := PromptGuard r;
  PiiRedact := PiiRedact r; SemanticCache := SemanticCache r;
  ValidationSchema := ValidationSchema r; IPAllowlist := IPAllowlist r;
  IPBlocklist := IPBlocklist r; AccessLog := AccessLog r;
  AccessLogPath := AccessLogPath r; CacheTTLSeconds := CacheTTLSeconds r;
  CacheMethods := CacheMethods r; ClientCertPath := ClientCertPath r;
  ClientKeyPath := ClientKeyPath r; RootCAPath := RootCAPath r;
  MaxConcurrentRequests := MaxConcurrentRequests r; MaxQueueSize := MaxQueueSize r;
  QueueTimeoutMs := QueueTimeoutMs r; GoMiddleware := GoMiddleware r;
  RequireAPIKey := RequireAPIKey r; AllowedTenants := AllowedTenants r;
  RequestTransform := RequestTransform r; ResponseTransform := ResponseTransform r;
  GraphQLFederation := GraphQLFederation r; MCPEnabled := MCPEnabled r;
  LLMRouting := LLMRouting r; WASMSplit := WASMSplit r; MaxBodySize := v;
  PromptABTest := PromptABTest r; ResponseQualityScore := ResponseQualityScore r;
  SemanticRateLimit := SemanticRateLimit r;
  SemanticTokenLimitPerMin := SemanticTokenLimitPerMin r;
  AIWAFEnabled := AIWAFEnabled r |}.

Definition with_RequireAPIKey (v : bool) (r : Route) : Route := {|
  Prefix := Prefix r; SchemaName := SchemaName r; Target := Target r;
  Targets := Targets r; TargetsWeighted := TargetsWeighted r;
  CanaryAutoPromote := CanaryAutoPromote r; CanaryPromoteStep := CanaryPromoteStep r;
  CanaryPromoteSec := CanaryPromoteSec r; CanaryMaxErrorRate := CanaryMaxErrorRate r;
  LoadBalancer := LoadBalancer r; TranspileType := TranspileType r;
  Middleware := Middleware r; ResponseMiddleware := ResponseMiddleware r;
  RateLimitRPM := RateLimitRPM r; PromptGuard := PromptGuard r;
  PiiRedact := PiiRedact r; SemanticCache := SemanticCache r;
  ValidationSchema := ValidationSchema r; IPAllowlist := IPAllowlist r;
  IPBlocklist := IPBlocklist r; AccessLog := AccessLog r;
  AccessLogPath := AccessLogPath r; CacheTTLSeconds := CacheTTLSeconds r;
  CacheMethods := CacheMethods r; ClientCertPath := ClientCertPath r;
  ClientKeyPath := ClientKeyPath r; RootCAPath := RootCAPath r;
  MaxConcurrentRequests := MaxConcurrentRequests r; MaxQueueSize := MaxQueueSize r;
  QueueTimeoutMs := QueueTimeoutMs r; GoMiddleware := GoMiddleware r;
  RequireAPIKey := v; AllowedTenants := AllowedTenants r;
  RequestTransform := RequestTransform r; ResponseTransform := ResponseTransform r;
  GraphQLFederation := GraphQLFederation r; MCPEnabled := MCPEnabled r;
  LLMRouting := LLMRouting r; WASMSplit := WASMSplit r; MaxBodySize := MaxBodySize r;
  PromptABTest := PromptABTest r; ResponseQualityScore := ResponseQualityScore r;
  SemanticRateLimit := SemanticRateLimit r;
  SemanticTokenLimitPerMin := SemanticTokenLimitPerMin r;
  AIWAFEnabled := AIWAFEnabled r |}.

Definition with_Middleware (v : string) (r : Route) : Route := {|
  Prefix := Prefix r; SchemaName := SchemaName r; Target := Target r;
  Targets := Targets r; TargetsWeighted := TargetsWeighted r;
  CanaryAutoPromote := CanaryAutoPromote r; CanaryPromoteStep := CanaryPromoteStep r;
  CanaryPromoteSec := CanaryPromoteSec r; CanaryMaxErrorRate := CanaryMaxErrorRate r;
  LoadBalancer := LoadBalancer r; TranspileType := TranspileType r; Middleware := v;
  ResponseMiddleware := ResponseMiddleware r; RateLimitRPM := RateLimitRPM r;
  PromptGuard := PromptGuard r; PiiRedact := PiiRedact r;
  SemanticCache := SemanticCache r; ValidationSchema := ValidationSchema r;
  IPAllowlist := IPAllowlist r; IPBlocklist := IPBlocklist r; AccessLog := AccessLog r;
  AccessLogPath := AccessLogPath r; CacheTTLSeconds := CacheTTLSeconds r;
  CacheMethods := CacheMethods r; ClientCertPath := ClientCertPath r;
  ClientKeyPath := ClientKeyPath r; RootCAPath := RootCAPath r;
  MaxConcurrentRequests := MaxConcurrentRequests r; MaxQueueSize := MaxQueueSize r;
  QueueTimeoutMs := QueueTimeoutMs r; GoMiddleware := GoMiddleware r;
  RequireAPIKey := RequireAPIKey r; AllowedTenants := AllowedTenants r;
  RequestTransform := RequestTransform r; ResponseTransform := ResponseTransform r;
  GraphQLFederation := GraphQLFederation r; MCPEnabled := MCPEnabled r;
  LLMRouting := LLMRouting r; WASMSplit := WASMSplit r; MaxBodySize := MaxBodySize r;
  PromptABTest := PromptABTest r; ResponseQualityScore := ResponseQualityScore r;
  SemanticRateLimit := SemanticRateLimit r;
  SemanticTokenLimitPerMin := SemanticTokenLimitPerMin r;
  AIWAFEnabled := AIWAFEnabled r |}.

Definition with_TranspileType (v : string) (r : Route) : Route := {|
  Prefix := Prefix r; SchemaName := SchemaName r; Target := Target r;
  Targets := Targets r; TargetsWeighted := TargetsWeighted r;
  CanaryAutoPromote := CanaryAutoPromote r; CanaryPromoteStep := CanaryPromoteStep r;
  CanaryPromoteSec := CanaryPromoteSec r; CanaryMaxErrorRate := CanaryMaxErrorRate r;
  LoadBalancer := LoadBalancer r; TranspileType := v; Middleware := Middleware r;
  ResponseMiddleware := ResponseMiddleware r; RateLimitRPM := RateLimitRPM r;
  PromptGuard := PromptGuard r; PiiRedact := PiiRedact r;
  SemanticCache := SemanticCache r; ValidationSchema := ValidationSchema r;
  IPAllowlist := IPAllowlist r; IPBlocklist := IPBlocklist r; AccessLog := AccessLog r;
  AccessLogPath := AccessLogPath r; CacheTTLSeconds := CacheTTLSeconds r;
  CacheMethods := CacheMethods r; ClientCertPath := ClientCertPath r;
  ClientKeyPath := ClientKeyPath r; RootCAPath := RootCAPath r;
  MaxConcurrentRequests := MaxConcurrentRequests r; MaxQueueSize := MaxQueueSize r;
  QueueTimeoutMs := QueueTimeoutMs r; GoMiddleware := GoMiddleware r;
  RequireAPIKey := RequireAPIKey r; AllowedTenants := AllowedTenants r;
  RequestTransform := RequestTransform r; ResponseTransform := ResponseTransform r;
  GraphQLFederation := GraphQLFederation r; MCPEnabled := MCPEnabled r;
  LLMRouting := LLMRouting r; WASMSplit := WASMSplit r; MaxBodySize := MaxBodySize r;
  PromptABTest := PromptABTest r; ResponseQualityScore := ResponseQualityScore r;
  SemanticRateLimit := SemanticRateLimit r;
  SemanticTokenLimitPerMin := SemanticTokenLimitPerMin r;
  AIWAFEnabled := AIWAFEnabled r |}.

Definition with_WASMSplit (v : option WASMSplitConfig) (r : Route) : Route := {|
  Prefix := Prefix r; SchemaName := SchemaName r; Target := Target r;
  Targets := Targets r; TargetsWeighted := TargetsWeighted r;
  CanaryAutoPromote := CanaryAutoPromote r; CanaryPromoteStep := CanaryPromoteStep r;
  CanaryPromoteSec := CanaryPromoteSec r; CanaryMaxErrorRate := CanaryMaxErrorRate r;
  LoadBalancer := LoadBalancer r; TranspileType := TranspileType r;
  Middleware := Middleware r; ResponseMiddleware := ResponseMiddleware r;
  RateLimitRPM := RateLimitRPM r; PromptGuard := PromptGuard r;
  PiiRedact := PiiRedact r; SemanticCache := SemanticCache r;
  ValidationSchema := ValidationSchema r; IPAllowlist := IPAllowlist r;
  IPBlocklist := IPBlocklist r; AccessLog := AccessLog r;
  AccessLogPath := AccessLogPath r; CacheTTLSeconds := CacheTTLSeconds r;
  CacheMethods := CacheMethods r; ClientCertPath := ClientCertPath r;
  ClientKeyPath := ClientKeyPath r; RootCAPath := RootCAPath r;
  MaxConcurrentRequests := MaxConcurrentRequests r; MaxQueueSize := MaxQueueSize r;
  QueueTimeoutMs := QueueTimeoutMs r; GoMiddleware := GoMiddleware r;
  RequireAPIKey := RequireAPIKey r; AllowedTenants := AllowedTenants r;
  RequestTransform := RequestTransform r; ResponseTransform := ResponseTransform r;
  GraphQLFederation := GraphQLFederation r; MCPEnabled := MCPEnabled r;
  LLMRouting := LLMRouting r; WASMSplit := v; MaxBodySize := MaxBodySize r;
  PromptABTest := PromptABTest r; ResponseQualityScore := ResponseQualityScore r;
  SemanticRateLimit := SemanticRateLimit r;
  SemanticTokenLimitPerMin := SemanticTokenLimitPerMin r;
  AIWAFEnabled := AIWAFEnabled r |}.

(** ** Keys, tenants and the configuration file *)

Record APIKey := {
  Key : string;
  Tenant : string;
  KeyRateLimitRPM : Z;
  AllowedRoutes : list string;
  MaxTokensPerDay : Z;
  MaxCostPerDay : float64;
}.

Record TenantPolicy := {
  TenantID : string;
  AllowedClusters : list string;
  AllowedRegions : list string;
  PolicyRateLimitRPM : Z;
}.

Record GatewayConfig := {
  Addr : string;
  AuthToken : string;
  TlsCert : string;
  TlsKey : string;
  Routes : list Route;
  APIKeys : list APIKey;
  Signature : string;
}.

Definition with_Routes (v : list Route) (c : GatewayConfig) : GatewayConfig :=
  {| Addr := Addr c; AuthToken := AuthToken c; TlsCert := TlsCert c; TlsKey := TlsKey c;
     Routes := v; APIKeys := APIKeys c; Signature := Signature c |}.

Definition with_Signature (v : string) (c : GatewayConfig) : GatewayConfig :=
  {| Addr := Addr c; AuthToken := AuthToken c; TlsCert := TlsCert c; TlsKey := TlsKey c;
     Routes := Routes c; APIKeys := APIKeys c; Signature := v |}.

(** ** Decidable equality *)

#[export] Instance WeightedTarget_eq_dec : EqDecision WeightedTarget.
Proof. solve_decision. Defined.
#[export] Instance LLMTarget_eq_dec : EqDecision LLMTarget.
Proof. solve_decision. Defined.
#[export] Instance LLMRoutingConfig_eq_dec : EqDecision LLMRoutingConfig.
Proof. solve_decision. Defined.
#[export] Instance WASMTarget_eq_dec : EqDecision WASMTarget.
Proof. solve_decision. Defined.
#[export] Instance WASMSplitConfig_eq_dec : EqDecision WASMSplitConfig.
Proof. solve_decision. Defined.
#[export] Instance PromptABTest_eq_dec : EqDecision PromptABTest_t.
Proof. solve_decision. Defined.
#[export] Instance Route_eq_dec : EqDecision Route.
Proof. solve_decision. Defined.
