(* ===== verification/RateLimit.v ===== *)
(** * Sliding-window rate limiting

    The in-memory limiter of [GatewayHandler.isRateLimited] and its Redis
    variant (pkg/proxy/handler.go), and [adminRateLimiter.Limit] of main.go.
    Both keep the accepted instants of the last minute per key and drop the
    older ones by compacting the slice in place ([history[:0]]).

    Instants are nanoseconds ([Z]). *)

From S2P Require Import Prelude.

(** ** The in-place compaction loop *)

Module Compact.

(** [valid := h[:0]; for _, t := range h { if t.After(cutoff) { valid =
    append(valid, t) } }]: [arr] is the backing array, [i] the read index of
    the [range] loop, [w] the length of [valid], which shares [arr].  The
    loop runs [n] more iterations. *)
Fixpoint compact_loop (n : nat) (arr : list Z) (i w : nat) (cutoff : Z)
    : list Z * nat :=
  match n with
  | O => (arr, w)
  | S n' =>
      let t := nth i arr 0 in
      if cutoff <? t
      then compact_loop n' (<[w := t]> arr) (S i) (S w) cutoff
      else compact_loop n' arr (S i) w cutoff
  end.

Definition compact (history : list Z) (cutoff : Z) : list Z :=
  let '(arr, w) := compact_loop (length history) history 0 0 cutoff in
  firstn w arr.

Lemma compact_loop_spec n arr i w cutoff :
  (w <= i)%nat -> (i + n = length arr)%nat ->
  let '(arr', w') := compact_loop n arr i w cutoff in
  firstn w' arr'
  = firstn w arr ++ List.filter (fun t => cutoff <? t) (skipn i arr).
Proof.
  revert arr i w. induction n as [|n IH]; intros arr i w Hw Hlen; simpl.
  - rewrite skipn_all2 by lia. simpl. by rewrite app_nil_r.
  - destruct (lookup_lt_is_Some_2 arr i ltac:(lia)) as [t Ht].
    assert (nth i arr 0 = t) as ->.
    { rewrite nth_lookup, Ht. done. }
    rewrite (drop_S arr t i Ht). simpl. bcase.
    + specialize (IH (<[w:=t]> arr) (S i) (S w) ltac:(lia)).
      rewrite length_insert in IH. specialize (IH ltac:(lia)).
      destruct (compact_loop _ _ _ _ _) as [arr' w'].
      rewrite IH, drop_insert_lt by lia.
      erewrite take_S_r by (apply list_lookup_insert_eq; lia).
      rewrite take_insert_ge by lia. by rewrite <- app_assoc.
    + specialize (IH arr (S i) w ltac:(lia) ltac:(lia)).
      destruct (compact_loop _ _ _ _ _) as [arr' w']. done.
Qed.

(** The in-place loop computes the stable filter of the window. *)
Lemma compact_filter history cutoff :
  compact history cutoff = List.filter (fun t => cutoff <? t) history.
Proof.
  unfold compact.
  pose proof (compact_loop_spec (length history) history 0 0 cutoff
                ltac:(lia) ltac:(lia)) as H.
  destruct (compact_loop _ _ _ _ _) as [arr w]. done.
Qed.

(** The in-place compaction of the history slice, which writes to the array
    it is reading, is the stable filter by the window: it drops exactly the
    instants at or before the cutoff and keeps the order of the others, for
    every array. *)
Theorem in_place_compaction_is_filter (history : list Z) (cutoff : Z) :
  compact history cutoff = List.filter (fun t => cutoff <? t) history.
Proof. apply compact_filter. Qed.

End Compact.

(** ** The limiter of the gateway *)

Module Limiter.

(** [type rateLimiter struct { mu; history []time.Time }]. *)
Record rateLimiter := { history : list Z }.

(** The critical section of one limiter, under [lim.mu]: returns whether the
    request is limited, and the limiter after it. *)
Definition limiter_step (lim : rateLimiter) (limit now : Z) : bool * rateLimiter :=
  let cutoff := now - minute in
  let valid := Compact.compact (history lim) cutoff in
  if limit <=? lenZ valid
  then (true, {| history := valid |})
  else (false, {| history := valid ++ [now] |}).

(** The Redis commands the limiter issues.  The server and its client are
    outside the gateway: [zcard_pipe] is the pipeline [ZREMRANGEBYSCORE key -inf
    cutoff; ZCARD key], which fails or returns the cardinality;
    [zadd_pipe] is the pipeline [ZADD key score member; EXPIRE key 60s]
    whose error is ignored. *)
Class RedisZSet (R : Type) := {
  zcard_pipe : R -> string -> Z -> R * option Z;
  zadd_pipe : R -> string -> Z -> string -> R;
}.

Section IsRateLimited.
Context {R : Type} `{RedisZSet R}.

(** What [isRateLimited] touches: [h.ratLimiters] and the Redis server. *)
Record state := { ratLimiters : gmap string rateLimiter; redis : option R }.

(** The in-memory part: create the limiter on first use, then run its
    critical section. *)
Definition local_step (ls : gmap string rateLimiter) (key : string)
    (limit now : Z) : bool * gmap string rateLimiter :=
  let lim := default {| history := [] |} (ls !! key) in
  let '(limited, lim') := limiter_step lim limit now in
  (limited, <[key := lim']> ls).

(** The Redis part is two pipelines: a check ... *)
Definition redis_check (r : R) (key : string) (limit now : Z) : R * option bool :=
  let nowMs := Z.quot now 1000000 in
  let cutoffMs := nowMs - 60000 in
  let '(r', card) := zcard_pipe r ("servgate:ratelimit:" ++ key)%string cutoffMs in
  (r', (fun count => limit <=? count) <$> card).

(** ... and, for an admitted request, an addition. *)
Definition redis_add (r : R) (key : string) (now : Z) (member : string) : R :=
  zadd_pipe r ("servgate:ratelimit:" ++ key)%string (Z.quot now 1000000) member.

(** [None] when the check fails and the code falls back to the local
    limiter. *)
Definition redis_step (r : R) (key : string) (limit now : Z) (member : string)
    : R * option bool :=
  match redis_check r key limit now with
  | (r', Some false) => (redis_add r' key now member, Some false)
  | (r', other) => (r', other)
  end.

(** [isRateLimited].  [nowRedis] and [now] are the clock readings of the Redis
    and of the in-memory path, [member] the random member name of the Redis
    path. *)
Definition isRateLimited (st : state) (clientIP routePrefix : string)
    (limit nowRedis now : Z) (member : string) : bool * state :=
  if limit <=? 0 then (false, st) else
  let key := (clientIP ++ ":" ++ routePrefix)%string in
  let local (r : option R) :=
    let '(limited, ls) := local_step (ratLimiters st) key limit now in
    (limited, {| ratLimiters := ls; redis := r |}) in
  match redis st with
  | Some r =>
      match redis_step r key limit nowRedis member with
      | (r', Some b) => (b, {| ratLimiters := ratLimiters st; redis := Some r' |})
      | (r', None) => local (Some r')
      end
  | None => local None
  end.

End IsRateLimited.
Arguments state R : clear implicits.
Arguments Build_state {R}.

(** *** Specification: the sliding window over the accepted instants *)

(** Accepted instants strictly newer than [now - minute]. *)
Definition in_window (now : Z) (t : Z) : bool := now - minute <? t.

(** [spec_run acc calls]: process the calls [(now, limit)] in order, keeping
    every accepted instant ever; a call is limited iff [limit] accepted
    instants lie in the minute before it. *)
Fixpoint spec_run (acc : list Z) (calls : list (Z * Z)) : list bool * list Z :=
  match calls with
  | [] => ([], acc)
  | (now, limit) :: calls' =>
      let limited := limit <=? countZ (in_window now) acc in
      let acc' := if limited then acc else acc ++ [now] in
      let '(ds, acc'') := spec_run acc' calls' in (limited :: ds, acc'')
  end.

(** The limiter run over the same calls. *)
Fixpoint impl_run (lim : rateLimiter) (calls : list (Z * Z))
    : list bool * rateLimiter :=
  match calls with
  | [] => ([], lim)
  | (now, limit) :: calls' =>
      let '(limited, lim') := limiter_step lim limit now in
      let '(ds, lim'') := impl_run lim' calls' in (limited :: ds, lim'')
  end.

Fixpoint monotone_from (t0 : Z) (calls : list (Z * Z)) : Prop :=
  match calls with
  | [] => True
  | (now, _) :: calls' => t0 <= now /\ monotone_from now calls'
  end.

Lemma limiter_step_unfold lim limit now :
  limiter_step lim limit now =
    (let valid := List.filter (in_window now) (history lim) in
     if limit <=? lenZ valid then (true, {| history := valid |})
     else (false, {| history := valid ++ [now] |})).
Proof. unfold limiter_step. by rewrite Compact.compact_filter. Qed.

(** The limiter keeps exactly the accepted instants still in the window. *)
Definition window_rel (t0 : Z) (acc : list Z) (lim : rateLimiter) : Prop :=
  forall now, t0 <= now ->
    List.filter (in_window now) (history lim) = List.filter (in_window now) acc.

Lemma in_window_mono t0 now t : t0 <= now -> in_window now t = true ->
  in_window t0 t = true.
Proof. unfold in_window. intros ? ?. breflect. apply Z.ltb_lt. lia. Qed.

Lemma filter_window_twice t0 now l :
  t0 <= now ->
  List.filter (in_window now) (List.filter (in_window t0) l)
  = List.filter (in_window now) l.
Proof.
  intros Hle. rewrite lfilter_filter. apply lfilter_ext. intros t _.
  destruct (in_window now t) eqn:E; [|by rewrite andb_false_r].
  by rewrite (in_window_mono _ _ _ Hle E).
Qed.

Lemma window_rel_step t0 acc lim limit now :
  window_rel t0 acc lim -> t0 <= now ->
  let '(limited, lim') := limiter_step lim limit now in
  limited = (limit <=? countZ (in_window now) acc) /\
  window_rel now (if limited then acc else acc ++ [now]) lim'.
Proof.
  intros Hrel Hle. rewrite limiter_step_unfold. simpl.
  rewrite Hrel by done. unfold countZ, lenZ.
  destruct (limit <=? _); (split; [done|]); intros t Ht; simpl.
  - by apply filter_window_twice.
  - rewrite !List.filter_app. f_equal. by apply filter_window_twice.
Qed.

Lemma impl_run_refines t0 acc lim calls :
  window_rel t0 acc lim -> monotone_from t0 calls ->
  fst (impl_run lim calls) = fst (spec_run acc calls).
Proof.
  revert t0 acc lim. induction calls as [|[now limit] calls IH];
    intros t0 acc lim Hrel Hmono; [done|].
  destruct Hmono as (Hle & Hmono). simpl.
  pose proof (window_rel_step t0 acc lim limit now Hrel Hle) as Hstep.
  destruct (limiter_step lim limit now) as [limited lim'].
  destruct Hstep as [-> Hrel']. specialize (IH _ _ _ Hrel' Hmono).
  destruct (impl_run lim' calls) as [ds lim''], (spec_run _ calls) as [ds' acc''].
  simpl in *. by subst.
Qed.

(** No minute holds more than [limit] accepted instants. *)
Definition bounded_window (limit : Z) (acc : list Z) : Prop :=
  forall now, countZ (fun t => in_window now t && (t <=? now)) acc <= limit.

Lemma countZ_impl {A} (p q : A -> bool) l :
  (forall x, x ∈ l -> p x = true -> q x = true) -> countZ p l <= countZ q l.
Proof.
  unfold countZ. induction l as [|x l IH]; intros H; simpl; [lia|].
  pose proof (H x ltac:(set_solver)). specialize (IH ltac:(set_solver)).
  destruct (p x) eqn:?, (q x) eqn:?; simpl; try lia.
Qed.

Lemma past_window_le now t acc : t <= now ->
  countZ (fun x => in_window now x && (x <=? now)) acc <= countZ (in_window t) acc.
Proof.
  intros Ht. apply countZ_impl. intros x _ [Hx _]%andb_true_iff. by apply (in_window_mono t now).
Qed.

(** Times of accepted requests never exceed the last clock reading. *)
Lemma spec_run_bounded limit t0 acc calls :
  Forall (fun c => snd c <= limit) calls -> monotone_from t0 calls ->
  (forall t, t ∈ acc -> t <= t0) ->
  bounded_window limit acc -> bounded_window limit (snd (spec_run acc calls)).
Proof.
  revert t0 acc. induction calls as [|[now l] calls IH];
    intros t0 acc Hl Hmono Hacc Hb; [done|].
  apply Forall_cons_1 in Hl as [Hnow Hl]. simpl in Hnow.
  destruct Hmono as (Hle & Hmono). simpl.
  destruct (l <=? countZ (in_window now) acc) eqn:E.
  - specialize (IH now acc Hl Hmono). destruct (spec_run acc calls); simpl in *.
    apply IH; [|done]. intros t Ht. specialize (Hacc t Ht). lia.
  - breflect. specialize (IH now (acc ++ [now]) Hl Hmono).
    destruct (spec_run (acc ++ [now]) calls); simpl in *. apply IH.
    + intros t [Ht | ->%list_elem_of_singleton]%elem_of_app; [|lia].
      specialize (Hacc t Ht). lia.
    + intros t. rewrite countZ_app. specialize (Hb t). destruct (Z.le_gt_cases now t).
      * assert (countZ (fun x => in_window t x && (x <=? t)) [now] <= 1) as H1.
        { unfold countZ. simpl. case_match; simpl; lia. }
        pose proof (past_window_le t now acc). lia.
      * unfold countZ at 2. simpl. rewrite (proj2 (Z.leb_gt now t)) by lia.
        rewrite andb_false_r. simpl. lia.
Qed.

Lemma window_rel_init t0 : window_rel t0 [] {| history := [] |}.
Proof. by intros now _. Qed.

(** *** Traces of calls to [isRateLimited] *)

Record call := {
  c_ip : string; c_prefix : string; c_limit : Z;
  c_now_redis : Z; c_now : Z; c_member : string }.

Definition call_key (c : call) : string := (c_ip c ++ ":" ++ c_prefix c)%string.

Section Traces.
Context {R : Type} `{RedisZSet R}.

Fixpoint serve_calls (st : state R) (cs : list call) : list bool * state R :=
  match cs with
  | [] => ([], st)
  | c :: cs' =>
      let '(b, st') :=
        isRateLimited st (c_ip c) (c_prefix c) (c_limit c) (c_now_redis c) (c_now c)
    (c_member c) in
      let '(bs, st'') := serve_calls st' cs' in (b :: bs, st'')
  end.

(** The calls of one key that are subject to a limit, and the decisions
    taken on them. *)
Definition relevant (k : string) (c : call) : bool :=
  (0 <? c_limit c) && String.eqb (call_key c) k.

Definition calls_of (k : string) (cs : list call) : list (Z * Z) :=
  map (fun c => (c_now c, c_limit c)) (List.filter (relevant k) cs).

Definition decisions_of (k : string) (cs : list call) (ds : list bool) : list bool :=
  map snd (List.filter (fun p => relevant k (fst p)) (combine cs ds)).

(** The instants at which requests of [k] were let through. *)
Definition accepted_of (k : string) (cs : list call) (ds : list bool) : list Z :=
  map (fun p => c_now (fst p))
    (List.filter (fun p => relevant k (fst p) && negb (snd p)) (combine cs ds)).

Fixpoint clock_monotone (t0 : Z) (cs : list call) : Prop :=
  match cs with
  | [] => True
  | c :: cs' => t0 <= c_now c /\ clock_monotone (c_now c) cs'
  end.

Definition limiter_of (st : state R) (k : string) : rateLimiter :=
  default {| history := [] |} (ratLimiters st !! k).

Lemma isRateLimited_local st c :
  redis st = None -> 0 < c_limit c ->
  isRateLimited st (c_ip c) (c_prefix c) (c_limit c) (c_now_redis c) (c_now c)
    (c_member c)
  = (let '(b, lim') := limiter_step (limiter_of st (call_key c)) (c_limit c) (c_now c) in
     (b, {| ratLimiters := <[call_key c := lim']> (ratLimiters st); redis := None |})).
Proof.
  intros Hr Hpos. unfold isRateLimited, local_step.
  destruct (c_limit c <=? 0) eqn:?; breflect; [lia|]. rewrite Hr.
  fold (call_key c). fold (limiter_of st (call_key c)).
  by destruct (limiter_step _ _ _).
Qed.

Lemma isRateLimited_unlimited st c :
  c_limit c <= 0 ->
  isRateLimited st (c_ip c) (c_prefix c) (c_limit c) (c_now_redis c) (c_now c)
    (c_member c) = (false, st).
Proof. intros ?. unfold isRateLimited. destruct (_ <=? 0) eqn:?; breflect; [done|lia]. Qed.

Lemma limiter_of_insert ls k k' lim :
  limiter_of {| ratLimiters := <[k' := lim]> ls; redis := None |} k =
  if String.eqb k' k then lim else default {| history := [] |} (ls !! k).
Proof.
  unfold limiter_of. simpl. destruct (String.eqb k' k) eqn:?; breflect.
  - subst. by rewrite lookup_insert_eq.
  - by rewrite lookup_insert_ne.
Qed.

(** One call keeps the window relation of every key and, when it is a call
    of [k], takes the decision of the specification. *)
Lemma serve_one k t0 acc st c :
  redis st = None -> window_rel t0 acc (limiter_of st k) ->
  t0 <= c_now c ->
  let '(b, st') :=
    isRateLimited st (c_ip c) (c_prefix c) (c_limit c) (c_now_redis c) (c_now c)
    (c_member c) in
  redis st' = None /\
  if relevant k c
  then b = (c_limit c <=? countZ (in_window (c_now c)) acc) /\
       window_rel (c_now c) (if b then acc else acc ++ [c_now c]) (limiter_of st' k)
  else window_rel (c_now c) acc (limiter_of st' k).
Proof.
  intros Hr Hrel Hle. unfold relevant.
  assert (Hweak : window_rel (c_now c) acc (limiter_of st k)).
  { intros t Ht. apply Hrel. lia. }
  destruct (0 <? c_limit c) eqn:Hpos; breflect.
  - rewrite isRateLimited_local by done. simpl.
    pose proof (window_rel_step t0 acc (limiter_of st (call_key c)) (c_limit c)
                  (c_now c)) as Hstep.
    destruct (String.eqb (call_key c) k) eqn:Hk; breflect.
    + subst k. specialize (Hstep Hrel Hle).
      destruct (limiter_step _ _ _) as [b lim']. destruct Hstep as [-> Hstep].
      rewrite limiter_of_insert, String.eqb_refl. done.
    + clear Hstep. destruct (limiter_step _ _ _) as [b lim'].
      rewrite limiter_of_insert.
      destruct (String.eqb (call_key c) k) eqn:?; breflect; [done|]. done.
  - rewrite isRateLimited_unlimited by lia. done.
Qed.

Lemma serve_calls_refines k t0 acc st cs :
  redis st = None -> window_rel t0 acc (limiter_of st k) -> clock_monotone t0 cs ->
  decisions_of k cs (fst (serve_calls st cs)) = fst (spec_run acc (calls_of k cs)) /\
  snd (spec_run acc (calls_of k cs)) = acc ++ accepted_of k cs (fst (serve_calls st cs)).
Proof.
  revert t0 acc st. induction cs as [|c cs IH]; intros t0 acc st Hr Hrel Hmono.
  - split; [done|]. simpl. by rewrite app_nil_r.
  - destruct Hmono as (Hle & Hmono). simpl.
    pose proof (serve_one k t0 acc st c Hr Hrel Hle) as Hone.
    destruct (isRateLimited _ _ _ _ _ _ _) as [b st']. destruct Hone as [Hr' Hone].
    unfold decisions_of, calls_of, accepted_of in *.
    destruct (serve_calls st' cs) as [bs st''] eqn:E. simpl.
    destruct (relevant k c) eqn:Hk; simpl.
    + destruct Hone as [Hb Hrel'].
      specialize (IH _ _ _ Hr' Hrel' Hmono). rewrite E in IH. simpl in IH.
      rewrite <- Hb. destruct (spec_run _ _) as [ds acc'']. simpl in *.
      destruct IH as [IH1 IH2]. split; [by rewrite IH1|]. rewrite IH2.
      destruct b; simpl; [done|]. by rewrite <- app_assoc.
    + specialize (IH _ _ _ Hr' Hone Hmono). by rewrite E in IH.
Qed.

Lemma calls_of_monotone k t0 cs :
  clock_monotone t0 cs -> monotone_from t0 (calls_of k cs).
Proof.
  unfold calls_of. revert t0. induction cs as [|c cs IH]; intros t0; [done|].
  intros (Hle & Hm). simpl. destruct (relevant k c); simpl; [naive_solver|].
  specialize (IH _ Hm). destruct (map _ _) as [|[? ?] ?]; [done|].
  destruct IH as [? ?]. simpl. split; [lia|done].
Qed.

End Traces.

Definition fresh_state {R} : state R := {| ratLimiters := ∅; redis := None |}.

(** C15. Functional refinement of the in-memory limiter: over any sequence of
    requests read off a monotone clock, interleaved over any keys, the decisions
    taken on the requests of one key are those of the specification that keeps
    every accepted instant and limits a request iff [limit] of them lie in the
    minute before it. *)
Theorem isRateLimited_refines_window {R} `{RedisZSet R} (k : string) (cs : list call) :
  clock_monotone 0 cs ->
  decisions_of k cs (fst (serve_calls (fresh_state : state R) cs))
  = fst (spec_run [] (calls_of k cs)).
Proof.
  intros Hm. by eapply serve_calls_refines with (t0 := 0).
Qed.

(** C19. Without a Redis server no key is ever let through more than its limit
    in a minute: whatever requests interleave on a monotone clock, and even if
    the limit changes between them, any minute, wherever it starts, holds at
    most as many accepted requests of a key as the largest limit its requests
    were checked against.  (With Redis the check and the addition are two
    commands, and concurrent requests can exceed the limit.) *)
Theorem memory_limiter_bounds_every_minute {R} `{RedisZSet R} (k : string) (limit : Z)
    (cs : list call) :
  clock_monotone 0 cs -> 0 <= limit ->
  Forall (fun c => snd c <= limit) (calls_of k cs) ->
  bounded_window limit (accepted_of k cs (fst (serve_calls (fresh_state : state R) cs))).
Proof.
  intros Hm H0 Hl.
  pose proof (serve_calls_refines k 0 [] (fresh_state : state R) cs eq_refl
                (window_rel_init 0) Hm) as [_ H1].
  simpl in H1. rewrite <- H1.
  eapply spec_run_bounded; [done|by apply calls_of_monotone|set_solver|intros t; exact H0].
Qed.

(** *** The Redis server: contract and a concrete server *)

(** What the limiter relies on while the server answers: [ZREMRANGEBYSCORE]
    drops the scores at or below the cutoff, [ZCARD] counts the members left,
    [ZADD] adds a member or updates its score. *)
Class RedisZSetOk (R : Type) `{RedisZSet R} := {
  zset : R -> string -> gmap string Z;
  zcard_answers r k cutoff : is_Some (snd (zcard_pipe r k cutoff));
  zcard_spec r k cutoff r' n :
    zcard_pipe r k cutoff = (r', Some n) ->
    zset r' k = filter (fun p => cutoff < p.2) (zset r k) /\
    n = Z.of_nat (size (zset r' k));
  zadd_spec r k score m : zset (zadd_pipe r k score m) k = <[m := score]> (zset r k);
}.

Abbreviation store := (gmap string (gmap string Z)).

#[export] Instance store_redis : RedisZSet store := {|
  zcard_pipe r k cutoff :=
    let kept := filter (fun p => cutoff < p.2) (default ∅ (r !! k)) in
    (<[k := kept]> r, Some (Z.of_nat (size kept)));
  zadd_pipe r k score m := <[k := <[m := score]> (default ∅ (r !! k))]> r;
|}.

#[export] Instance store_redis_ok : RedisZSetOk store.
Proof.
  refine {| zset (r : store) k := default ∅ (r !! k) |}.
  - intros r k cutoff. by eexists.
  - intros r k cutoff r' n [= <- <-]. by rewrite lookup_insert_eq.
  - intros r k score m. simpl. by rewrite lookup_insert_eq.
Defined.

Section Redis.
Context {R : Type} `{RedisZSetOk R}.

Definition redis_key (key : string) : string := ("servgate:ratelimit:" ++ key)%string.

(** Members still inside the minute before [now]. *)
Definition live (r : R) (key : string) (now : Z) : gmap string Z :=
  filter (fun p => Z.quot now 1000000 - 60000 < p.2) (zset r (redis_key key)).

Lemma redis_check_spec r key limit now :
  exists r', redis_check r key limit now
             = (r', Some (limit <=? Z.of_nat (size (live r key now)))) /\
             zset r' (redis_key key) = live r key now.
Proof.
  unfold redis_check. fold (redis_key key).
  pose proof (zcard_answers r (redis_key key) (Z.quot now 1000000 - 60000)) as [n Hn].
  destruct (zcard_pipe _ _ _) as [r' card] eqn:E. simpl in Hn. subst card.
  destruct (zcard_spec _ _ _ _ _ E) as [Hz ->]. exists r'. by rewrite Hz.
Qed.

Lemma live_twice r r' key now :
  zset r' (redis_key key) = live r key now -> live r' key now = live r key now.
Proof.
  unfold live. intros ->. apply map_filter_filter_l. naive_solver.
Qed.

(** [n] gateway replicas run their checks before any of them adds. *)
Fixpoint concurrent_checks (n : nat) (r : R) (key : string) (limit now : Z)
    : R * list (option bool) :=
  match n with
  | O => (r, [])
  | S n' =>
      let '(r', b) := redis_check r key limit now in
      let '(r'', bs) := concurrent_checks n' r' key limit now in (r'', b :: bs)
  end.

Definition concurrent_adds (r : R) (key : string) (now : Z) (ms : list string) : R :=
  fold_left (fun r m => redis_add r key now m) ms r.

Lemma concurrent_checks_spec n r key limit now :
  Z.of_nat (size (live r key now)) < limit ->
  let '(r', bs) := concurrent_checks n r key limit now in
  bs = replicate n (Some false) /\ live r' key now = live r key now.
Proof.
  revert r. induction n as [|n IH]; intros r Hlt; [done|]. simpl.
  destruct (redis_check_spec r key limit now) as (r' & -> & Hz).
  apply live_twice in Hz. rewrite <- Hz in Hlt. specialize (IH r' Hlt).
  destruct (concurrent_checks n r' key limit now) as [r'' bs].
  destruct IH as [-> IH]. rewrite Hz in *. split; [|done]. simpl. do 2 f_equal.
  apply Z.leb_gt. lia.
Qed.

Lemma live_add r key now m :
  live (redis_add r key now m) key now = <[m := Z.quot now 1000000]> (live r key now).
Proof.
  unfold live, redis_add. rewrite zadd_spec. apply map_filter_insert_True. simpl. lia.
Qed.

Lemma concurrent_adds_size r key now ms :
  NoDup ms -> (forall m, m ∈ ms -> live r key now !! m = None) ->
  size (live (concurrent_adds r key now ms) key now)
  = (size (live r key now) + length ms)%nat.
Proof.
  revert r. induction ms as [|m ms IH]; intros r Hnd Hfresh; simpl; [lia|].
  apply list.NoDup_cons in Hnd as [Hm Hnd]. rewrite IH; [| done |].
  - rewrite live_add, map_size_insert_None by (apply Hfresh; set_solver). lia.
  - intros m' Hm'. rewrite live_add, lookup_insert_ne by set_solver.
    apply Hfresh. set_solver.
Qed.

(** On the Redis path the two pipelines of one request are exact when they
    are not interleaved with another replica's: the request is limited iff
    the window already holds [limit] members, and an admitted request with a
    fresh member name makes the window one larger. *)
Theorem redis_step_exact (ls : gmap string rateLimiter) (r : R)
    (ip prefix member : string) (limit now nowLocal : Z) :
  0 < limit ->
  let key := (ip ++ ":" ++ prefix)%string in
  live r key now !! member = None ->
  exists r', isRateLimited {| ratLimiters := ls; redis := Some r |} ip prefix limit now nowLocal member
    = (limit <=? Z.of_nat (size (live r key now)), {| ratLimiters := ls; redis := Some r' |}) /\
    size (live r' key now)
    = if limit <=? Z.of_nat (size (live r key now)) then size (live r key now)
      else S (size (live r key now)).
Proof.
  intros Hpos key Hfresh. unfold isRateLimited. simpl.
  destruct (limit <=? 0) eqn:?; breflect; [lia|]. fold key. unfold redis_step.
  destruct (redis_check_spec r key limit now) as (r' & -> & Hz). apply live_twice in Hz.
  destruct (limit <=? Z.of_nat (size (live r key now))); eexists; (split; [done|]).
  - by rewrite Hz.
  - rewrite live_add, map_size_insert_None; by rewrite Hz.
Qed.

(** The Redis path is check-then-act in two pipelines: any number of
    replicas whose checks run before any of their additions are all admitted
    once the window is below [limit], so the window can exceed the limit by
    any amount. *)
Theorem redis_concurrent_overadmission (r : R) (key : string) (limit now : Z)
    (ms : list string) :
  Z.of_nat (size (live r key now)) < limit ->
  NoDup ms -> (forall m, m ∈ ms -> live r key now !! m = None) ->
  let '(r', decisions) := concurrent_checks (length ms) r key limit now in
  decisions = replicate (length ms) (Some false) /\
  size (live (concurrent_adds r' key now ms) key now)
  = (size (live r key now) + length ms)%nat.
Proof.
  intros Hlt Hnd Hfresh.
  pose proof (concurrent_checks_spec (length ms) r key limit now Hlt) as H1.
  destruct (concurrent_checks _ _ _ _ _) as [r' ds]. destruct H1 as [-> Hl].
  split; [done|]. rewrite <- Hl. apply concurrent_adds_size; [done|].
  intros m Hm. rewrite Hl. by apply Hfresh.
Qed.

End Redis.

Definition sample_calls : list call :=
  let mk t := {| c_ip := "10.0.0.1"; c_prefix := "/api"; c_limit := 2;
                 c_now_redis := t; c_now := t;
                 c_member := "" |} in
  [mk 10; mk 20; mk 30; mk (11 + minute); mk (12 + minute)].

Lemma sample_monotone : clock_monotone 0 sample_calls.
Proof. vm_compute. repeat split; discriminate. Qed.

Lemma isRateLimited_refines_window_witness :
  decisions_of "10.0.0.1:/api" sample_calls
    (fst (serve_calls (fresh_state : state store) sample_calls))
  = [false; false; true; false; true].
Proof.
  rewrite (isRateLimited_refines_window "10.0.0.1:/api" sample_calls sample_monotone).
  reflexivity.
Defined.

(** The limit is lowered while requests come in. *)
Definition lowered_calls : list call :=
  let mk l t := {| c_ip := "10.0.0.1"; c_prefix := "/api"; c_limit := l;
                   c_now_redis := t; c_now := t; c_member := "" |} in
  [mk 3 10; mk 3 20; mk 1 30; mk 3 40; mk 3 50; mk 1 (11 + minute); mk 1 (41 + minute)].

Lemma memory_limiter_bounds_every_minute_witness :
  let accepted := accepted_of "10.0.0.1:/api" lowered_calls
    (fst (serve_calls (fresh_state : state store) lowered_calls)) in
  accepted = [10; 20; 40; 41 + minute] /\ bounded_window 3 accepted.
Proof.
  split; [vm_compute; reflexivity|].
  apply (memory_limiter_bounds_every_minute "10.0.0.1:/api" 3 lowered_calls).
  - vm_compute. repeat split; discriminate.
  - discriminate.
  - repeat constructor; discriminate.
Defined.

Lemma redis_step_exact_witness :
  exists r', isRateLimited {| ratLimiters := ∅; redis := Some (∅ : store) |}
               "ip" "/p" 1 (5 * minute) 0 "m"
             = (false, {| ratLimiters := ∅; redis := Some r' |}).
Proof.
  destruct (redis_step_exact ∅ (∅ : store) "ip" "/p" "m" 1 (5 * minute) 0) as (r' & H & _);
    [lia | reflexivity |]. exists r'. exact H.
Defined.

Definition three_members : list string := ["a"; "b"; "c"]%string.

Lemma redis_concurrent_overadmission_witness :
  let '(r', decisions) := concurrent_checks 3 (∅ : store) "ip:/p" 1 (5 * minute) in
  decisions = replicate 3 (Some false) /\
  size (live (concurrent_adds r' "ip:/p" (5 * minute) three_members)
          "ip:/p" (5 * minute)) = (size (live (∅ : store) "ip:/p" (5 * minute)) + 3)%nat.
Proof.
  refine (redis_concurrent_overadmission (∅ : store) "ip:/p" 1 (5 * minute)
            three_members _ _ _).
  - reflexivity.
  - apply (bool_decide_unpack _). by vm_compute.
  - intros m _. reflexivity.
Defined.

End Limiter.

(** ** The limiter of the admin endpoints (main.go) *)

Module Admin.

(** [type adminRateLimiter struct { mu; history map[string][]time.Time }];
    the map is created on first use, which a total map makes implicit. *)
Record adminRateLimiter := { history : gmap string (list Z) }.

Definition Limit (al : adminRateLimiter) (ip : string) (limit now : Z)
    : bool * adminRateLimiter :=
  let cutoff := now - minute in
  let hist := default [] (history al !! ip) in
  let valid := Compact.compact hist cutoff in
  if limit <=? lenZ valid
  then (true, {| history := <[ip := valid]> (history al) |})
  else (false, {| history := <[ip := valid ++ [now]]> (history al) |}).

(** The admin limiter of one address is the gateway limiter of one key. *)
Definition as_limiter (al : adminRateLimiter) (ip : string) : Limiter.rateLimiter :=
  {| Limiter.history := default [] (history al !! ip) |}.

Fixpoint admin_run (al : adminRateLimiter) (calls : list (string * Z * Z))
    : list bool * adminRateLimiter :=
  match calls with
  | [] => ([], al)
  | (ip, limit, now) :: calls' =>
      let '(b, al') := Limit al ip limit now in
      let '(bs, al'') := admin_run al' calls' in (b :: bs, al'')
  end.

Lemma Limit_step al ip limit now :
  let '(b, al') := Limit al ip limit now in
  (b, as_limiter al' ip) = Limiter.limiter_step (as_limiter al ip) limit now /\
  forall ip', ip' <> ip -> as_limiter al' ip' = as_limiter al ip'.
Proof.
  unfold Limit, Limiter.limiter_step, as_limiter. simpl.
  destruct (limit <=? _); simpl; (split; [by rewrite lookup_insert_eq|]);
    intros ip' Hne; by rewrite lookup_insert_ne.
Qed.

Lemma admin_run_key ip al calls :
  map snd (List.filter (fun p => String.eqb ip (fst (fst (fst p))))
             (combine calls (fst (admin_run al calls))))
  = fst (Limiter.impl_run (as_limiter al ip)
      (map (fun c => (snd c, snd (fst c)))
         (List.filter (fun c => String.eqb ip (fst (fst c))) calls))).
Proof.
  revert al. induction calls as [|[[ip' limit] now] calls IH]; intros al; [done|]. simpl.
  pose proof (Limit_step al ip' limit now) as Hstep.
  destruct (Limit al ip' limit now) as [b al']. destruct Hstep as [Hstep Hother].
  specialize (IH al'). destruct (admin_run al' calls) as [bs al'']. simpl in *.
  destruct (String.eqb ip ip') eqn:E; breflect; simpl.
  - subst ip'. rewrite <- Hstep, IH. by destruct (Limiter.impl_run _ _).
  - rewrite IH. by rewrite Hother.
Qed.

(** The limiter of the admin endpoints is the same sliding window: per
    address and over a monotone clock its decisions are those of the
    specification, whatever the other addresses do. *)
Theorem admin_limit_refines_window (ip : string) (calls : list (string * Z * Z)) :
  let mine := map (fun c => (snd c, snd (fst c)))
                (List.filter (fun c => String.eqb ip (fst (fst c))) calls) in
  Limiter.monotone_from 0 mine ->
  map snd (List.filter (fun p => String.eqb ip (fst (fst (fst p))))
             (combine calls (fst (admin_run {| history := ∅ |} calls))))
  = fst (Limiter.spec_run [] mine).
Proof.
  intros mine Hm. rewrite admin_run_key.
  eapply Limiter.impl_run_refines; [apply Limiter.window_rel_init|done].
Qed.

Lemma admin_limit_refines_window_witness :
  map snd (List.filter (fun p => String.eqb "a" (fst (fst (fst p))))
    (combine [("a", 1, 5); ("b", 1, 6); ("a", 1, 7); ("a", 1, 7 + minute)]%string
       (fst (admin_run {| history := ∅ |}
               [("a", 1, 5); ("b", 1, 6); ("a", 1, 7); ("a", 1, 7 + minute)]%string))))
  = [false; true; false].
Proof.
  rewrite (admin_limit_refines_window "a"); [reflexivity|].
  vm_compute. repeat split; discriminate.
Defined.

End Admin.
