(* ===== verification/Balancer.v ===== *)
(** * Target selection and connection accounting (pkg/proxy/handler.go, ai.go)

    [selectTarget] with its four strategies, [incConn]/[decConn],
    [selectWASMMiddleware] and [SelectABPromptVersion].  A random draw
    [rand.Intn(n)] is [rand_intn seed n] for an arbitrary [seed]: every value of
    [0 .. n-1] is the draw of some seed. *)

From S2P Require Import Prelude GoStrings GoFloat Types.
Open Scope Z_scope.

Definition rand_intn (seed n : Z) : Z := seed mod n.

(** ** The weighted pick shared by the three selections *)

Section Weighted.
Context {A : Type} (weight : A -> Z).

(** [for _, x := range l { total += x.Weight }], in 64-bit arithmetic. *)
Definition total_weight (l : list A) : Z :=
  fold_left (fun acc x => i64 (acc + weight x)) l 0.

(** [for _, x := range l { accum += x.Weight; if r < accum { return x } }]. *)
Fixpoint pick (r accum : Z) (l : list A) : option A :=
  match l with
  | [] => None
  | x :: l' =>
      let accum' := i64 (accum + weight x) in
      if r <? accum' then Some x else pick r accum' l'
  end.

(** Non-negative weights whose sum fits an [int]. *)
Definition sane_weights (l : list A) : Prop :=
  Forall (fun x => 0 <= weight x) l /\ sumZ (map weight l) < 2 ^ 63.

Lemma total_weight_from l acc :
  Forall (fun x => 0 <= weight x) l -> 0 <= acc -> acc + sumZ (map weight l) < 2 ^ 63 ->
  fold_left (fun acc x => i64 (acc + weight x)) l acc = acc + sumZ (map weight l).
Proof.
  revert acc. induction l as [|x l IH]; intros acc Hw Ha Hs; simpl in *; [lia|].
  apply Forall_cons_1 in Hw as [Hx Hw].
  assert (0 <= sumZ (map weight l)) by (apply sumZ_nonneg, List.Forall_map; exact Hw).
  rewrite i64_id by (unfold in_i64; lia). rewrite IH by (done || lia). lia.
Qed.

Lemma total_weight_sum l : sane_weights l -> total_weight l = sumZ (map weight l).
Proof. intros [? ?]. unfold total_weight. by rewrite total_weight_from by (done || lia). Qed.

(** A draw below the running sum of the rest always picks an element. *)
Lemma pick_total l r accum :
  Forall (fun x => 0 <= weight x) l -> 0 <= accum -> accum + sumZ (map weight l) < 2 ^ 63 ->
  r < accum + sumZ (map weight l) -> accum <= r -> is_Some (pick r accum l).
Proof.
  revert accum. induction l as [|x l IH]; intros accum Hw Ha Hs Hr Hlo; simpl in *; [lia|].
  apply Forall_cons_1 in Hw as [Hx Hw].
  assert (0 <= sumZ (map weight l)) by (apply sumZ_nonneg, List.Forall_map; exact Hw).
  rewrite i64_id by (unfold in_i64; lia). bcase; [by eexists|].
  apply IH; (done || lia).
Qed.

(** Of the draws [accum .. accum + sum - 1], those that pick an element
    satisfying [p] number the total weight of these elements. *)
Lemma pick_count (p : A -> bool) l accum :
  Forall (fun x => 0 <= weight x) l -> 0 <= accum -> accum + sumZ (map weight l) < 2 ^ 63 ->
  countZ (fun r => match pick r accum l with Some x => p x | None => false end)
    (seqZ accum (sumZ (map weight l)))
  = sumZ (map weight (List.filter p l)).
Proof.
  revert accum. induction l as [|x l IH]; intros accum Hw Ha Hs; simpl in *; [done|].
  apply Forall_cons_1 in Hw as [Hx Hw].
  assert (0 <= sumZ (map weight l)) by (apply sumZ_nonneg, List.Forall_map; exact Hw).
  rewrite i64_id by (unfold in_i64; lia).
  rewrite seqZ_app by lia. rewrite countZ_app.
  specialize (IH (accum + weight x) Hw ltac:(lia) ltac:(lia)).
  assert (Hlow : countZ (fun r => match (if r <? accum + weight x then Some x
      else pick r (accum + weight x) l) with Some x => p x | None => false end)
      (seqZ accum (weight x)) = if p x then weight x else 0).
  { unfold countZ. rewrite (lfilter_ext _ (fun _ => p x)).
    - destruct (p x).
      + rewrite lfilter_all by done. rewrite length_seqZ. lia.
      + induction (seqZ accum (weight x)); simpl; [done|]. done.
    - intros r Hr%elem_of_seqZ. by rewrite (proj2 (Z.ltb_lt _ _)) by lia. }
  rewrite Hlow.
  assert (Hhigh : countZ (fun r => match (if r <? accum + weight x then Some x
      else pick r (accum + weight x) l) with Some x => p x | None => false end)
      (seqZ (accum + weight x) (sumZ (map weight l))) =
      countZ (fun r => match pick r (accum + weight x) l with Some x => p x | None => false end)
      (seqZ (accum + weight x) (sumZ (map weight l)))).
  { unfold countZ. f_equal. f_equal. apply lfilter_ext. intros r Hr%elem_of_seqZ.
    by rewrite (proj2 (Z.ltb_ge _ _)) by lia. }
  rewrite Hhigh, IH. destruct (p x); simpl; lia.
Qed.

End Weighted.

(** ** The balancer *)

(** What the selections read and write: [h.rrIndices], [h.activeConns] (under
    [balancerMu]) and [h.targetLoad] (under [targetLoadMu]). *)
Record balancer := {
  rrIndices : gmap string Z;
  activeConns : gmap string Z;
  targetLoad : gmap string Z;
}.

Definition set_rrIndices (b : balancer) m : balancer :=
  {| rrIndices := m; activeConns := activeConns b; targetLoad := targetLoad b |}.
Definition set_activeConns (b : balancer) m : balancer :=
  {| rrIndices := rrIndices b; activeConns := m; targetLoad := targetLoad b |}.
Definition set_targetLoad (b : balancer) m : balancer :=
  {| rrIndices := rrIndices b; activeConns := activeConns b; targetLoad := m |}.

Definition conns (b : balancer) (target : string) : Z := default 0 (activeConns b !! target).
Definition load (b : balancer) (target : string) : Z := default 0 (targetLoad b !! target).

(** The loop of the [least_conn] and [backpressure] strategies, [-1] being the
    code's "nothing seen yet". *)
Fixpoint min_loop (val : string -> Z) (minVal : Z) (selected : string) (ts : list string)
    : string :=
  match ts with
  | [] => selected
  | t :: ts' =>
      if (minVal =? -1) || (val t <? minVal)
      then min_loop val (val t) t ts'
      else min_loop val minVal selected ts'
  end.

Definition round_robin (b : balancer) (route : Route) : exec (string * balancer) :=
  let n := lenZ (Targets route) in
  let idx := default 0 (rrIndices b !! Prefix route) in
  let k := Z.rem idx n in
  if k <? 0 then Panic "index out of range" else
  match Targets route !! Z.to_nat k with
  | None => Panic "index out of range"
  | Some selected =>
      Done (selected,
            set_rrIndices b (<[Prefix route := Z.rem (i64 (idx + 1)) n]> (rrIndices b)))
  end.

Definition selectTarget (b : balancer) (route : Route) (seed : Z) : exec (string * balancer) :=
  let ws := TargetsWeighted route in
  let totalWeight := total_weight Weight ws in
  let unweighted :=
    if lenZ (Targets route) =? 0 then Done (Target route, b) else
    if String.eqb (LoadBalancer route) "least_conn"
    then Done (min_loop (conns b) (-1) "" (Targets route), b)
    else if String.eqb (LoadBalancer route) "backpressure"
    then
      let selected := min_loop (load b) (-1) "" (Targets route) in
      if String.eqb selected "" then round_robin b route else Done (selected, b)
    else round_robin b route in
  match ws with
  | wt0 :: _ =>
      if 0 <? totalWeight then
        match pick Weight (rand_intn seed totalWeight) 0 ws with
        | Some wt => Done (URL wt, b)
        | None => Done (URL wt0, b)
        end
      else unweighted
  | [] => unweighted
  end.

Definition incConn (b : balancer) (target : string) : balancer :=
  set_activeConns b (<[target := i64 (conns b target + 1)]> (activeConns b)).

Definition decConn (b : balancer) (target : string) : balancer :=
  let n := i64 (conns b target - 1) in
  set_activeConns b (<[target := if n <? 0 then 0 else n]> (activeConns b)).

(** [GetActiveConnections] copies the map. *)
Definition GetActiveConnections (b : balancer) : gmap string Z := activeConns b.

(** The choice of a target leaves the connection counters alone. *)
Lemma round_robin_conns b route u b' :
  round_robin b route = Done (u, b') -> activeConns b' = activeConns b.
Proof.
  unfold round_robin. destruct (_ <? 0); [done|]. destruct (Targets route !! _); [|done].
  by intros [= _ <-].
Qed.

Lemma selectTarget_conns b route seed u b' :
  selectTarget b route seed = Done (u, b') -> activeConns b' = activeConns b.
Proof.
  unfold selectTarget. set (unw := if _ =? 0 then _ else _).
  assert (Hu : forall u b', unw = Done (u, b') -> activeConns b' = activeConns b).
  { clear. subst unw. intros u b'. repeat destruct (_ =? _); try by intros [= _ <-].
    repeat (destruct (String.eqb _ _)); try (by intros [= _ <-]); apply round_robin_conns. }
  destruct (TargetsWeighted route); [apply Hu|]. destruct (0 <? _); [|apply Hu].
  destruct (pick _ _ _ _); by intros [= _ <-].
Qed.

(** ** WASM middleware split and prompt A/B test *)

Definition selectWASMMiddleware (route : Route) (seed : Z) : string :=
  match WASMSplit route with
  | None => Middleware route
  | Some split =>
      match WASMTargets split with
      | [] => Middleware route
      | t0 :: _ =>
          let totalWeight := total_weight WASMWeight (WASMTargets split) in
          if totalWeight <=? 0 then Middleware route
          else match pick WASMWeight (rand_intn seed totalWeight) 0 (WASMTargets split) with
               | Some t => MiddlewareName t
               | None => MiddlewareName t0
               end
      end
  end.

(** [SelectABPromptVersion]: [ws1] and [ws2] are the orders in which the two
    [range test.Weights] loops visit the map, [vs] that of [range
    test.Versions].  [test.Versions[v]] of an absent version is the empty
    string. *)
Definition SelectABPromptVersion (test : PromptABTest_t) (ws1 ws2 : list (string * Z))
    (vs : list (string * string)) (seed : Z) : string * string :=
  let totalWeight := total_weight snd ws1 in
  let first_version := match vs with v :: _ => v | [] => (""%string, ""%string) end in
  if totalWeight <=? 0 then first_version
  else match pick snd (Z.rem seed totalWeight) 0 ws2 with
       | Some (v, _) => (v, default ""%string (Versions test !! v))
       | None => first_version
       end.

(** ** Lemmas *)

(** The loop returns the first target of minimal value, for values that never
    collide with the sentinel. *)
Lemma min_loop_spec val minVal selected ts :
  (forall t, t ∈ ts -> 0 <= val t) -> minVal = val selected -> 0 <= minVal ->
  let r := min_loop val minVal selected ts in
  (r = selected \/ r ∈ ts) /\ val r <= minVal /\ (forall t, t ∈ ts -> val r <= val t).
Proof.
  revert minVal selected. induction ts as [|t ts IH]; intros minVal selected Hpos Hm H0; simpl.
  - split; [by left|]. split; [lia|]. intros t []%elem_of_nil.
  - assert (0 <= val t) by (apply Hpos; set_solver).
    assert (Hts : forall u, u ∈ ts -> 0 <= val u) by (intros; apply Hpos; set_solver).
    rewrite (proj2 (Z.eqb_neq _ _)) by lia. simpl. bcase.
    + destruct (IH (val t) t Hts eq_refl ltac:(lia)) as (Hr & Hle & Hall).
      split; [set_solver|]. split; [lia|].
      intros u [->|Hu]%elem_of_cons; [done|by apply Hall].
    + destruct (IH minVal selected Hts Hm H0) as (Hr & Hle & Hall).
      split; [set_solver|]. split; [lia|].
      intros u [->|Hu]%elem_of_cons; [lia|by apply Hall].
Qed.

Lemma min_loop_first val ts :
  ts <> [] -> (forall t, t ∈ ts -> 0 <= val t) ->
  let r := min_loop val (-1) "" ts in r ∈ ts /\ forall t, t ∈ ts -> val r <= val t.
Proof.
  destruct ts as [|t ts]; [done|]. intros _ Hpos. simpl.
  assert (0 <= val t) by (apply Hpos; set_solver).
  destruct (min_loop_spec val (val t) t ts) as (Hr & Hle & Hall);
    [intros; apply Hpos; set_solver|done|done|].
  split; [set_solver|]. intros u [->|Hu]%elem_of_cons; [done|by apply Hall].
Qed.

(** Round-robin indices stay in range. *)
Definition rr_wf (b : balancer) : Prop := map_Forall (fun _ idx => 0 <= idx < 2 ^ 62) (rrIndices b).

Lemma round_robin_spec b route :
  rr_wf b -> Targets route <> [] -> lenZ (Targets route) < 2 ^ 62 ->
  let n := lenZ (Targets route) in
  let idx := default 0 (rrIndices b !! Prefix route) in
  exists t, Targets route !! Z.to_nat (idx mod n) = Some t /\
    round_robin b route =
      Done (t, set_rrIndices b (<[Prefix route := (idx + 1) mod n]> (rrIndices b))).
Proof.
  intros Hwf Hne Hlen n idx.
  assert (0 < n).
  { pose proof (lenZ_nonneg (Targets route)).
    assert (lenZ (Targets route) <> 0) by (intros E; by apply Hne, lenZ_zero_inv). lia. }
  assert (Hidx : 0 <= idx < 2 ^ 62).
  { unfold idx. destruct (rrIndices b !! Prefix route) eqn:E; simpl; [by apply (Hwf _ _ E)|lia]. }
  assert (Hmod : 0 <= idx mod n < n) by (by apply Z.mod_pos_bound).
  assert (Hlt : (Z.to_nat (idx mod n) < length (Targets route))%nat).
  { unfold n, lenZ in *. lia. }
  destruct (lookup_lt_is_Some_2 _ _ Hlt) as [t Ht]. exists t. split; [done|].
  unfold round_robin. fold n. fold idx. rewrite Z.rem_mod_nonneg by lia.
  rewrite (proj2 (Z.ltb_ge _ _)) by lia. rewrite Ht.
  rewrite i64_id by (unfold in_i64; lia). by rewrite Z.rem_mod_nonneg by lia.
Qed.

Lemma round_robin_wf b route t b' :
  rr_wf b -> Targets route <> [] -> lenZ (Targets route) < 2 ^ 62 ->
  round_robin b route = Done (t, b') -> rr_wf b'.
Proof.
  intros Hwf Hne Hlen Hrr. destruct (round_robin_spec b route Hwf Hne Hlen) as (t' & _ & E).
  rewrite E in Hrr. injection Hrr as <- <-. apply map_Forall_insert_2; [|done].
  assert (lenZ (Targets route) <> 0) by (intros ?; by apply Hne, lenZ_zero_inv).
  pose proof (lenZ_nonneg (Targets route)).
  pose proof (Z.mod_pos_bound (default 0 (rrIndices b !! Prefix route) + 1)
                (lenZ (Targets route)) ltac:(lia)). lia.
Qed.

(** [n] selections in a row. *)
Fixpoint select_many (b : balancer) (route : Route) (seeds : list Z)
    : exec (list string * balancer) :=
  match seeds with
  | [] => Done ([], b)
  | seed :: seeds' =>
      let! p := selectTarget b route seed in
      let! q := select_many (snd p) route seeds' in
      Done (fst p :: fst q, snd q)
  end.

Definition is_round_robin (route : Route) : Prop :=
  TargetsWeighted route = [] /\ Targets route <> [] /\ lenZ (Targets route) < 2 ^ 62 /\
  LoadBalancer route <> "least_conn"%string /\ LoadBalancer route <> "backpressure"%string.

Lemma selectTarget_rr b route seed :
  is_round_robin route -> selectTarget b route seed = round_robin b route.
Proof.
  intros (Hw & Hne & _ & H1 & H2). unfold selectTarget. rewrite Hw.
  destruct (_ =? 0) eqn:E; breflect; [by apply lenZ_zero_inv in E|].
  apply String.eqb_neq in H1, H2. by rewrite H1, H2.
Qed.

Lemma select_many_rr b route seeds idx :
  is_round_robin route -> rr_wf b -> default 0 (rrIndices b !! Prefix route) = idx ->
  exists b', select_many b route seeds =
    Done (map (fun k => nth (Z.to_nat ((idx + Z.of_nat k) mod lenZ (Targets route)))
                         (Targets route) ""%string)
            (seq 0 (length seeds)), b').
Proof.
  intros Hrr. revert b idx. induction seeds as [|seed seeds IH]; intros b idx Hwf Hidx.
  - by eexists.
  - cbn [select_many]. rewrite selectTarget_rr by done.
    destruct Hrr as (Hw & Hne & Hlen & Hrest).
    destruct (round_robin_spec b route Hwf Hne Hlen) as (t & Ht & E).
    pose proof (round_robin_wf _ _ _ _ Hwf Hne Hlen E) as Hwf'. rewrite E. cbn [ebind fst snd].
    rewrite Hidx in *.
    edestruct (IH _ ((idx + 1) mod lenZ (Targets route)) Hwf') as [b' Hb'].
    { simpl. by rewrite lookup_insert_eq. }
    rewrite Hb'. cbn [ebind fst snd]. exists b'. do 2 f_equal.
    cbn [length seq map]. rewrite Z.add_0_r, nth_lookup, Ht. f_equal.
    rewrite <- seq_shift, map_map. apply map_ext. intros k. do 2 f_equal.
    rewrite Zplus_mod_idemp_l. f_equal. lia.
Qed.

(** Reading a list from position [j] with wrap-around rotates it. *)
Lemma map_rotation (l : list string) idx :
  0 < lenZ l -> 0 <= idx ->
  map (fun k => nth (Z.to_nat ((idx + Z.of_nat k) mod lenZ l)) l ""%string)
    (seq 0 (length l))
  = drop (Z.to_nat (idx mod lenZ l)) l ++ take (Z.to_nat (idx mod lenZ l)) l.
Proof.
  intros Hn Hidx. set (n := lenZ l) in *. set (j := Z.to_nat (idx mod n)).
  pose proof (Z.mod_pos_bound idx n Hn) as Hj.
  assert (Hjl : (j <= length l)%nat) by (unfold j, n, lenZ in *; lia).
  apply list_eq. intros i. destruct (decide (i < length l)%nat) as [Hi|Hi].
  - rewrite list_lookup_fmap, (lookup_seq_lt 0 (length l) i Hi). simpl.
    assert (Hmod : (idx + Z.of_nat i) mod n
      = if idx mod n + Z.of_nat i <? n then idx mod n + Z.of_nat i
        else idx mod n + Z.of_nat i - n).
    { rewrite <- Zplus_mod_idemp_l. bcase; [by apply Z.mod_small; lia|].
      rewrite <- (Z.mod_small (idx mod n + Z.of_nat i - n) n) by (unfold n, lenZ in *; lia).
      rewrite <- (Z_mod_plus_full (idx mod n + Z.of_nat i - n) 1 n). f_equal. lia. }
    rewrite Hmod. clear Hmod. rewrite nth_lookup. bcase.
    + rewrite lookup_app_l by (rewrite length_drop; unfold j, n, lenZ in *; lia).
      rewrite lookup_drop. replace (Z.to_nat (idx mod n + Z.of_nat i)) with (j + i)%nat
        by (unfold j; lia).
      destruct (lookup_lt_is_Some_2 l (j + i)%nat) as [x Hx]; [unfold j, n, lenZ in *; lia|].
      by rewrite Hx.
    + rewrite lookup_app_r by (rewrite length_drop; unfold j, n, lenZ in *; lia).
      rewrite length_drop, lookup_take_lt by (unfold j, n, lenZ in *; lia).
      replace (Z.to_nat (idx mod n + Z.of_nat i - n)) with (i - (length l - j))%nat
        by (unfold j, n, lenZ in *; lia).
      destruct (lookup_lt_is_Some_2 l (i - (length l - j))%nat) as [x Hx];
        [unfold j, n, lenZ in *; lia|]. by rewrite Hx.
  - rewrite !lookup_ge_None_2; [done| |].
    + rewrite length_app, length_drop, length_take. lia.
    + rewrite length_map, length_seq. lia.
Qed.

(** Opening and closing of proxied connections. *)
Inductive conn_event := Opened (t : string) | Closed (t : string).

Definition conn_step (b : balancer) (e : conn_event) : balancer :=
  match e with Opened t => incConn b t | Closed t => decConn b t end.

Definition is_opened (t : string) (e : conn_event) : bool :=
  match e with Opened u => String.eqb u t | _ => false end.
Definition is_closed (t : string) (e : conn_event) : bool :=
  match e with Closed u => String.eqb u t | _ => false end.

(** Requests of [t] in flight after the events. *)
Definition in_flight (t : string) (es : list conn_event) : Z :=
  countZ (is_opened t) es - countZ (is_closed t) es.

(** [ServeHTTP] closes a connection only after opening it. *)
Definition well_bracketed (es : list conn_event) : Prop :=
  forall t n, 0 <= in_flight t (take n es).

Lemma in_flight_app t es e :
  in_flight t (es ++ [e])
  = in_flight t es + (if is_opened t e then 1 else 0) - (if is_closed t e then 1 else 0).
Proof.
  unfold in_flight. rewrite !countZ_app. unfold countZ. simpl.
  destruct (is_opened t e), (is_closed t e); simpl; lia.
Qed.

Lemma conns_incConn b t u :
  conns (incConn b t) u = if String.eqb t u then i64 (conns b u + 1) else conns b u.
Proof.
  unfold conns, incConn, set_activeConns. simpl. destruct (String.eqb t u) eqn:?; breflect.
  - subst. by rewrite lookup_insert_eq.
  - by rewrite lookup_insert_ne.
Qed.

Lemma conns_decConn b t u :
  conns (decConn b t) u =
    if String.eqb t u
    then (if i64 (conns b u - 1) <? 0 then 0 else i64 (conns b u - 1)) else conns b u.
Proof.
  unfold decConn, conns, set_activeConns. simpl. destruct (String.eqb t u) eqn:?; breflect.
  - subst. by rewrite lookup_insert_eq.
  - by rewrite lookup_insert_ne.
Qed.

Lemma conns_of_events es :
  well_bracketed es -> lenZ es < 2 ^ 62 ->
  forall t, conns (fold_left conn_step es {| rrIndices := ∅; activeConns := ∅; targetLoad := ∅ |}) t
            = in_flight t es.
Proof.
  induction es as [|e es IH] using rev_ind; intros Hwb Hlen t.
  - done.
  - rewrite lenZ_app in Hlen. change (lenZ [e]) with 1 in Hlen.
    assert (Hwb' : well_bracketed es).
    { intros u n. destruct (decide (n <= length es)%nat).
      - specialize (Hwb u n). by rewrite take_app_le in Hwb.
      - specialize (Hwb u (length es)). rewrite take_app_length in Hwb.
        by rewrite take_ge by lia. }
    specialize (IH Hwb' ltac:(lia)). rewrite fold_left_app. simpl.
    assert (Hb : forall u, 0 <= in_flight u es <= lenZ es).
    { intros u. split.
      - specialize (Hwb' u (length es)). by rewrite firstn_all in Hwb'.
      - unfold in_flight. pose proof (countZ_nonneg (is_closed u) es).
        pose proof (lenZ_filter_le (is_opened u) es). unfold countZ, lenZ in *. lia. }
    rewrite in_flight_app. destruct e as [u|u]; simpl.
    + rewrite conns_incConn, IH. specialize (Hb t).
      destruct (String.eqb u t); [rewrite i64_id by (unfold in_i64; lia)|]; lia.
    + rewrite conns_decConn, IH. destruct (String.eqb u t) eqn:E; breflect; [|lia].
      subst u. specialize (Hwb t (length (es ++ [Closed t]))).
      rewrite firstn_all, in_flight_app in Hwb. simpl in Hwb. rewrite String.eqb_refl in Hwb.
      specialize (Hb t). rewrite i64_id by (unfold in_i64; lia).
      rewrite (proj2 (Z.ltb_ge _ _)) by lia. lia.
Qed.

(** ** Properties *)

(** Does the selection for [seed] give [url] and leave the balancer alone? *)
Definition selects (b : balancer) (route : Route) (url : string) (seed : Z) : bool :=
  match selectTarget b route seed with Done (u, _) => String.eqb u url | Panic _ => false end.

Lemma selectTarget_weighted b route seed :
  let ws := TargetsWeighted route in
  sane_weights Weight ws -> 0 < sumZ (map Weight ws) ->
  exists wt, pick Weight (seed mod sumZ (map Weight ws)) 0 ws = Some wt /\
    selectTarget b route seed = Done (URL wt, b).
Proof.
  intros ws Hsane Htot. pose proof Hsane as [Hw Hs]. pose proof (Z.mod_pos_bound seed _ Htot).
  destruct (pick_total Weight ws (seed mod sumZ (map Weight ws)) 0) as [wt Hwt];
    [done|lia|lia|lia|lia|]. exists wt. split; [done|].
  unfold selectTarget. fold ws. rewrite (total_weight_sum Weight ws) by done.
  unfold rand_intn. rewrite Hwt. rewrite (proj2 (Z.ltb_lt _ _)) by done.
  by destruct ws.
Qed.

Lemma pick_elem {A} (weight : A -> Z) r accum l x : pick weight r accum l = Some x -> x ∈ l.
Proof.
  revert accum. induction l as [|y l IH]; intros accum; simpl; [done|].
  case_match; [intros [= ->]; by left|]. intros ?. right. by eapply IH.
Qed.

(** C20. Weighted (canary) selection is exactly proportional: of the
    [total] possible draws, the number that send the request to [url] is the
    total weight of the entries with that URL, and no draw touches the balancer
    or fails. *)
Theorem weighted_selection_exact b route url :
  let ws := TargetsWeighted route in
  sane_weights Weight ws -> 0 < sumZ (map Weight ws) ->
  countZ (selects b route url) (seqZ 0 (sumZ (map Weight ws)))
  = sumZ (map Weight (List.filter (fun wt => String.eqb (URL wt) url) ws)) /\
  forall seed, exists u, selectTarget b route seed = Done (u, b) /\ u ∈ map URL ws.
Proof.
  intros ws Hsane Htot. pose proof Hsane as [Hw Hs]. split.
  - rewrite <- (pick_count Weight (fun wt => String.eqb (URL wt) url) ws 0) by (done || lia).
    unfold countZ. do 2 f_equal. apply lfilter_ext. intros r Hr%elem_of_seqZ.
    destruct (selectTarget_weighted b route r Hsane Htot) as (wt & Hp & E).
    unfold selects. rewrite E. fold ws in Hp. rewrite Z.mod_small in Hp by lia. by rewrite Hp.
  - intros seed. destruct (selectTarget_weighted b route seed Hsane Htot) as (wt & Hp & E).
    exists (URL wt). split; [done|]. apply list_elem_of_In, in_map, list_elem_of_In.
    by eapply pick_elem.
Qed.

(** C25. Round robin is fair from any reachable index, also after the target
    list shrank under it: as many consecutive selections as there are targets
    hit every target position exactly once, in cyclic order. *)
Theorem round_robin_fair b route seeds :
  is_round_robin route -> rr_wf b -> length seeds = length (Targets route) ->
  exists sel b', select_many b route seeds = Done (sel, b') /\ sel ≡ₚ Targets route.
Proof.
  intros Hrr Hwf Hlen.
  destruct (select_many_rr b route seeds _ Hrr Hwf eq_refl) as [b' Hb'].
  rewrite Hlen, map_rotation in Hb'.
  - do 2 eexists. split; [done|]. rewrite Permutation_app_comm. by rewrite take_drop.
  - destruct Hrr as (_ & Hne & _). pose proof (lenZ_nonneg (Targets route)).
    assert (lenZ (Targets route) <> 0) by (intros ?; by apply Hne, lenZ_zero_inv). lia.
  - destruct (rrIndices b !! Prefix route) eqn:E; simpl; [|lia]. by apply (Hwf _ _ E).
Qed.

(** [least_conn] picks a target with the fewest active connections. *)
Theorem least_conn_minimal b route seed :
  TargetsWeighted route = [] -> Targets route <> [] ->
  LoadBalancer route = "least_conn"%string ->
  (forall t, t ∈ Targets route -> 0 <= conns b t) ->
  exists t, selectTarget b route seed = Done (t, b) /\ t ∈ Targets route /\
    forall u, u ∈ Targets route -> conns b t <= conns b u.
Proof.
  intros Hw Hne Hlb Hpos. unfold selectTarget. rewrite Hw, Hlb.
  destruct (_ =? 0) eqn:E; breflect; [by apply lenZ_zero_inv in E|]. simpl.
  eexists. split; [done|]. by apply min_loop_first.
Qed.

(** The sentinel [-1] of the [backpressure] strategy collides with a load
    a backend can report: after [X-Backpressure: -1] the first of two targets
    is never selected, however loaded the second is. *)
Theorem negative_load_defeats_backpressure b route seed t1 t2 :
  TargetsWeighted route = [] -> Targets route = [t1; t2] ->
  LoadBalancer route = "backpressure"%string -> t2 <> ""%string ->
  load b t1 = -1 ->
  selectTarget b route seed = Done (t2, b).
Proof.
  intros Hw Ht Hlb Hne Hload. unfold selectTarget. rewrite Hw, Hlb, Ht. simpl.
  rewrite Hload. simpl. apply String.eqb_neq in Hne. by rewrite Hne.
Qed.

(** C27. Connection accounting: over any interleaving of requests in which
    every close follows its open, the counter of each target is the number of
    its requests in flight (the clamp at zero never acts). *)
Theorem active_connections_exact es t :
  well_bracketed es -> lenZ es < 2 ^ 62 ->
  conns (fold_left conn_step es {| rrIndices := ∅; activeConns := ∅; targetLoad := ∅ |}) t
  = in_flight t es.
Proof. intros Hwb Hlen. by apply conns_of_events. Qed.

(** In any enumeration of a map, the values listed under one key add up to
    its value. *)
Lemma enumeration_weight (m : gmap string Z) l v :
  l ≡ₚ map_to_list m ->
  sumZ (map snd (List.filter (fun p => String.eqb (fst p) v) l)) = default 0 (m !! v).
Proof.
  intros Hl. assert (Hnd : NoDup l.*1) by (rewrite Hl; apply NoDup_fst_map_to_list).
  destruct (m !! v) as [w|] eqn:E.
  - assert ((v, w) ∈ l) as Hin by (rewrite Hl; by apply elem_of_map_to_list).
    apply list_elem_of_split in Hin as (l1 & l2 & ->). clear Hl.
    rewrite List.filter_app. simpl. rewrite String.eqb_refl.
    rewrite fmap_app, fmap_cons in Hnd. apply list.NoDup_app in Hnd as (_ & Hd & Hnd2).
    apply list.NoDup_cons in Hnd2 as [Hv _]. simpl in *.
    rewrite !lfilter_none; [simpl; lia| |].
    + intros [u w'] Hu. simpl. apply String.eqb_neq. intros ->.
      apply Hv, list_elem_of_fmap. by exists (v, w').
    + intros [u w'] Hu. simpl. apply String.eqb_neq. intros ->.
      apply (Hd v); [apply list_elem_of_fmap; by exists (v, w')|by left].
  - rewrite lfilter_none; [done|]. intros [u w'] Hu. simpl. apply String.eqb_neq. intros ->.
    rewrite Hl in Hu. apply elem_of_map_to_list in Hu. congruence.
Qed.

(** The prompt A/B test is weight-proportional whatever the iteration
    orders of the two maps: of the seeds [0 .. total-1], exactly the weight of
    [v] choose version [v]. *)
Theorem prompt_ab_exact test ws1 ws2 vs v :
  ws1 ≡ₚ map_to_list (Weights test) -> ws2 ≡ₚ map_to_list (Weights test) ->
  sane_weights snd ws1 -> 0 < sumZ (map snd ws1) ->
  countZ (fun seed => String.eqb (fst (SelectABPromptVersion test ws1 ws2 vs seed)) v)
    (seqZ 0 (sumZ (map snd ws1)))
  = default 0 (Weights test !! v).
Proof.
  intros H1 H2 Hsane Htot.
  assert (Hsum : sumZ (map snd ws2) = sumZ (map snd ws1)).
  { apply sumZ_map_perm. by rewrite H1, H2. }
  assert (Hw2 : Forall (fun x => 0 <= snd x) ws2).
  { destruct Hsane as [Hw _]. by rewrite H2, <- H1. }
  transitivity (sumZ (map snd (List.filter (fun p => String.eqb (fst p) v) ws2))).
  - rewrite <- (pick_count snd (fun p => String.eqb (fst p) v) ws2 0) by
      (done || (destruct Hsane; lia)).
    rewrite Hsum. unfold countZ. do 2 f_equal. apply lfilter_ext. intros r Hr%elem_of_seqZ.
    unfold SelectABPromptVersion. rewrite total_weight_sum by done.
    rewrite (proj2 (Z.leb_gt _ _)) by lia. rewrite Z.rem_small by lia.
    destruct (pick_total snd ws2 r 0) as [[u w] Hu]; [done|lia|destruct Hsane; lia|lia|lia|].
    by rewrite Hu.
  - by apply enumeration_weight.
Qed.

(** ** Witnesses *)

Definition canary_route : Route :=
  with_TargetsWeighted [{| URL := "v1"; Weight := 90 |}; {| URL := "v2"; Weight := 10 |}]%string
    (plain_route "/api" "").

Definition empty_balancer : balancer :=
  {| rrIndices := ∅; activeConns := ∅; targetLoad := ∅ |}.

Lemma weighted_selection_exact_witness :
  countZ (selects empty_balancer canary_route "v2") (seqZ 0 100) = 10.
Proof.
  destruct (weighted_selection_exact empty_balancer canary_route "v2") as [H _].
  - split; [repeat constructor; discriminate|reflexivity].
  - reflexivity.
  - exact H.
Defined.

Definition rr_route : Route := with_Targets ["a"; "b"; "c"]%string (plain_route "/rr" "").
(** A stale index, left by a longer target list. *)
Definition stale_balancer : balancer := set_rrIndices empty_balancer {[ "/rr"%string := 7 ]}.

Lemma round_robin_fair_witness :
  exists sel b', select_many stale_balancer rr_route [0; 0; 0] = Done (sel, b') /\
    sel ≡ₚ ["a"; "b"; "c"]%string.
Proof.
  apply (round_robin_fair stale_balancer rr_route [0; 0; 0]).
  - by vm_compute.
  - apply map_Forall_singleton. simpl. lia.
  - reflexivity.
Defined.

Definition lc_route : Route := with_LoadBalancer "least_conn" rr_route.
Definition lc_balancer : balancer :=
  set_activeConns empty_balancer (<["a" := 3]> (<["b" := 1]> (<["c" := 2]> ∅)))%string.

Lemma least_conn_minimal_witness :
  exists t, selectTarget lc_balancer lc_route 0 = Done (t, lc_balancer) /\
    t ∈ Targets lc_route /\ forall u, u ∈ Targets lc_route -> conns lc_balancer t <= conns lc_balancer u.
Proof.
  apply least_conn_minimal; try done.
  intros t Ht. repeat (apply elem_of_cons in Ht as [->|Ht]; [by vm_compute|]).
  by apply elem_of_nil in Ht.
Defined.

Lemma negative_load_defeats_backpressure_witness :
  selectTarget (set_targetLoad empty_balancer (<["t1" := -1]> (<["t2" := 100]> ∅))%string)
    (with_LoadBalancer "backpressure" (with_Targets ["t1"; "t2"]%string (plain_route "/" ""))) 0
  = Done ("t2"%string,
          set_targetLoad empty_balancer (<["t1" := -1]> (<["t2" := 100]> ∅))%string).
Proof. by apply (negative_load_defeats_backpressure _ _ _ "t1" "t2"). Defined.

Lemma active_connections_exact_witness :
  conns (fold_left conn_step [Opened "a"; Opened "b"; Opened "a"; Closed "a"]%string
           empty_balancer) "a" = 1.
Proof.
  apply (active_connections_exact [Opened "a"; Opened "b"; Opened "a"; Closed "a"]%string "a").
  - intros t n. unfold in_flight, countZ.
    do 5 (destruct n as [|n]; [cbn [take firstn List.filter is_opened is_closed];
      destruct (String.eqb "a" t), (String.eqb "b" t); cbn; lia|]).
    cbn [take firstn List.filter is_opened is_closed].
    destruct (String.eqb "a" t), (String.eqb "b" t); cbn; lia.
  - by vm_compute.
Defined.

Definition ab_test : PromptABTest_t :=
  {| PromptName := "p"; Versions := <["a" := "A"]> (<["b" := "B"]> ∅);
     Weights := <["a" := 1]> (<["b" := 3]> ∅) |}%string.

Lemma prompt_ab_exact_witness :
  countZ (fun seed => String.eqb (fst (SelectABPromptVersion ab_test
     [("b", 3); ("a", 1)]%string [("a", 1); ("b", 3)]%string [] seed)) "b") (seqZ 0 4) = 3.
Proof.
  apply (prompt_ab_exact ab_test [("b", 3); ("a", 1)]%string [("a", 1); ("b", 3)]%string [] "b").
  - apply (bool_decide_unpack _). by vm_compute.
  - apply (bool_decide_unpack _). by vm_compute.
  - split; [repeat constructor; discriminate|reflexivity].
  - reflexivity.
Defined.
