(* ===== verification/Canary.v ===== *)
(** * The canary promotion engine (pkg/proxy/canary.go)

    One tick of [startCanaryPromotionLoop] over the routes, and the statistics
    [ServeHTTP] feeds it.  Error rates are IEEE binary64 quotients. *)

From S2P Require Import Prelude GoStrings GoFloat Types.
Open Scope Z_scope.

Record canaryStatsRecord := { TotalCalls : Z; ErrorCalls : Z }.

(** [h.canaryStats] (by canary URL) and the loop's [lastPromoted] (by prefix). *)
Record engine := {
  canaryStats : gmap string canaryStatsRecord;
  lastPromoted : gmap string Z;
}.

(** [ServeHTTP] after a proxied request: [selectedTarget] is compared with the
    second weighted target. *)
Definition record_canary (stats : gmap string canaryStatsRecord) (route : Route)
    (selectedTarget : string) (statusCode : Z) : gmap string canaryStatsRecord :=
  match TargetsWeighted route with
  | _ :: c :: _ =>
      if String.eqb selectedTarget (URL c) then
        let s := default {| TotalCalls := 0; ErrorCalls := 0 |} (stats !! selectedTarget) in
        <[selectedTarget :=
            {| TotalCalls := i64 (TotalCalls s + 1);
               ErrorCalls := if 500 <=? statusCode then i64 (ErrorCalls s + 1)
                             else ErrorCalls s |}]> stats
      else stats
  | _ => stats
  end.

Definition set_Weight (w : Z) (t : WeightedTarget) : WeightedTarget :=
  {| URL := URL t; Weight := w |}.

(** The error-rate test of one route. *)
Definition error_rate_exceeded (route : Route) (total errors : Z) : bool :=
  let maxErrRate :=
    if fleb (CanaryMaxErrorRate route) (of_int 0) then of_decimal false 1 (-2)
    else CanaryMaxErrorRate route in
  (3 <=? total) && fgtb (fdiv (of_int errors) (of_int total)) maxErrRate.

(** The promotion interval and step, with their defaults. *)
Definition promote_interval (route : Route) : Z :=
  let interval := i64 (CanaryPromoteSec route * second) in
  if interval <=? 0 then second else interval.

Definition promote_step (route : Route) : Z :=
  if CanaryPromoteStep route <=? 0 then 10 else CanaryPromoteStep route.

(** The body of the loop for one route: [now] is the reading for a first
    sighting and for [time.Since], [now'] the one stored after a promotion. *)
Definition canary_route_tick (e : engine) (route : Route) (now now' : Z) : Route * engine :=
  match TargetsWeighted route with
  | stable :: canary :: rest =>
      if negb (CanaryAutoPromote route) then (route, e) else
      if 100 <=? Weight canary then (with_CanaryAutoPromote false route, e) else
      let stats := canaryStats e !! URL canary in
      let total := from_option TotalCalls 0 stats in
      let errors := from_option ErrorCalls 0 stats in
      if error_rate_exceeded route total errors then
        (with_CanaryAutoPromote false
           (with_TargetsWeighted (set_Weight 100 stable :: set_Weight 0 canary :: rest) route),
         {| canaryStats := delete (URL canary) (canaryStats e);
            lastPromoted := lastPromoted e |})
      else
      match lastPromoted e !! Prefix route with
      | None =>
          (route, {| canaryStats := canaryStats e;
                     lastPromoted := <[Prefix route := now]> (lastPromoted e) |})
      | Some lastTime =>
          if promote_interval route <=? now - lastTime then
            let w := i64 (Weight canary + promote_step route) in
            let w := if 100 <? w then 100 else w in
            (with_TargetsWeighted (set_Weight (i64 (100 - w)) stable :: set_Weight w canary :: rest)
               route,
             {| canaryStats :=
                  match stats with
                  | Some _ => <[URL canary := {| TotalCalls := 0; ErrorCalls := 0 |}]>
                                (canaryStats e)
                  | None => canaryStats e
                  end;
                lastPromoted := <[Prefix route := now']> (lastPromoted e) |})
          else (route, e)
      end
  | _ => (route, e)
  end.

(** One tick over all routes; [clock i] are the readings at the [i]-th route. *)
Fixpoint canary_tick_from (i : nat) (clock : nat -> Z * Z) (e : engine) (routes : list Route)
    : list Route * engine :=
  match routes with
  | [] => ([], e)
  | r :: routes' =>
      let '(r', e') := canary_route_tick e r (fst (clock i)) (snd (clock i)) in
      let '(rs, e'') := canary_tick_from (S i) clock e' routes' in (r' :: rs, e'')
  end.

Definition canary_tick (clock : nat -> Z * Z) (e : engine) (routes : list Route)
    : list Route * engine := canary_tick_from 0 clock e routes.

(** ** Lemmas *)

(** A canary configuration whose weights the engine can promote: the canary
    weight lies in [0, 100], and steps are below the overflow bound. *)
Definition canary_wf (route : Route) : Prop :=
  promote_step route < 2 ^ 62 /\
  match TargetsWeighted route with
  | _ :: c :: _ => 0 <= Weight c <= 100
  | _ => True
  end.

Definition weights_split (route : Route) : Prop :=
  match TargetsWeighted route with
  | s :: c :: _ => Weight s + Weight c = 100 /\ 0 <= Weight c <= 100
  | _ => False
  end.

(** A threshold the configuration can hold: not NaN. *)
Definition sane_rate (x : float64) : bool :=
  match x with S754_nan => false | _ => true end.

(** Error-free statistics never exceed the threshold, whatever the traffic. *)
Lemma no_error_no_rollback route total :
  sane_rate (CanaryMaxErrorRate route) = true -> error_rate_exceeded route total 0 = false.
Proof.
  intros Hmax. unfold error_rate_exceeded. apply andb_false_iff. right.
  assert (Hz : fdiv (of_int 0) (of_int total) = S754_nan \/
               exists s, fdiv (of_int 0) (of_int total) = S754_zero s).
  { change (of_int 0) with (S754_zero false).
    destruct (of_int total); simpl; eauto. }
  destruct (fleb (CanaryMaxErrorRate route) (of_int 0)) eqn:E.
  - destruct Hz as [-> | [s ->]]; done.
  - change (of_int 0) with (S754_zero false) in E.
    destruct (CanaryMaxErrorRate route) as [s|s| |s m e]; try done;
      destruct s; try done; destruct Hz as [-> | [s' ->]]; done.
Qed.

(** With the default threshold, a single error among fewer than a hundred
    calls exceeds it. *)
Lemma default_rate_one_error route total errors :
  fleb (CanaryMaxErrorRate route) (of_int 0) = true ->
  3 <= total < 100 -> 1 <= errors <= total -> error_rate_exceeded route total errors = true.
Proof.
  intros Hdef Htot Herr. unfold error_rate_exceeded. rewrite Hdef.
  rewrite (proj2 (Z.leb_le _ _)) by lia. simpl.
  assert (forallb (fun t => forallb (fun e =>
      fgtb (fdiv (of_int (Z.of_nat e)) (of_int (Z.of_nat t))) (of_decimal false 1 (-2)))
      (seq 1 t)) (seq 3 97) = true) as H by by vm_compute.
  rewrite forallb_forall in H. specialize (H (Z.to_nat total)).
  rewrite forallb_forall in H. specialize (H ltac:(apply in_seq; lia) (Z.to_nat errors)).
  rewrite !Z2Nat.id in H by lia. apply H, in_seq. lia.
Qed.

Lemma canary_tick_weights e route now now' :
  canary_wf route ->
  let route' := fst (canary_route_tick e route now now') in
  canary_wf route' /\
  (TargetsWeighted route' = TargetsWeighted route \/ weights_split route') /\
  map URL (TargetsWeighted route') = map URL (TargetsWeighted route).
Proof.
  intros [Hstep Hw]. unfold canary_route_tick.
  destruct (TargetsWeighted route) as [|s [|c rest]] eqn:E; simpl;
    [unfold canary_wf; rewrite E; auto..|].
  assert (0 < promote_step route) by (unfold promote_step; bcase; lia).
  pose proof (i64_range (Weight c + promote_step route)) as Hrange. unfold in_i64 in Hrange.
  repeat case_match; simplify_eq/=; unfold canary_wf, weights_split; simpl; try rewrite E;
    breflect; (split; [split; [done|]|split]); try (by left); try done; try lia;
    rewrite (i64_id (Weight c + _)) in * by (unfold in_i64; lia);
    rewrite ?(i64_id (100 - _)) by (unfold in_i64; lia); try lia; try (right; lia).
Qed.

(** Successive ticks of one route, each with one clock reading. *)
Fixpoint tick_run (e : engine) (route : Route) (ts : list Z) : Route * engine :=
  match ts with
  | [] => (route, e)
  | t :: ts' => let '(r, e') := canary_route_tick e route t t in tick_run e' r ts'
  end.

Fixpoint spaced (gap last : Z) (ts : list Z) : Prop :=
  match ts with [] => True | t :: ts' => last + gap <= t /\ spaced gap t ts' end.

Definition canary_weight (route : Route) : Z :=
  match TargetsWeighted route with _ :: c :: _ => Weight c | _ => 0 end.

Lemma tick_disabled e route now now' :
  CanaryAutoPromote route = false -> canary_route_tick e route now now' = (route, e).
Proof. intros H. unfold canary_route_tick. rewrite H. by repeat case_match. Qed.

Lemma tick_run_disabled e route ts :
  CanaryAutoPromote route = false -> tick_run e route ts = (route, e).
Proof.
  intros H. revert e. induction ts as [|t ts IH]; intros e; [done|]. simpl.
  by rewrite tick_disabled.
Qed.

(** One due tick of an unobserved canary promotes it. *)
Lemma tick_promotes e route s c rest last t :
  TargetsWeighted route = s :: c :: rest -> CanaryAutoPromote route = true ->
  0 <= Weight c < 100 -> promote_step route < 2 ^ 62 ->
  canaryStats e !! URL c = None -> lastPromoted e !! Prefix route = Some last ->
  last + promote_interval route <= t ->
  let w := Z.min 100 (Weight c + promote_step route) in
  canary_route_tick e route t t
  = (with_TargetsWeighted (set_Weight (100 - w) s :: set_Weight w c :: rest) route,
     {| canaryStats := canaryStats e; lastPromoted := <[Prefix route := t]> (lastPromoted e) |}).
Proof.
  intros Hts Hauto Hw Hstep Hst Hlast Hdue w.
  assert (0 < promote_step route) by (unfold promote_step; bcase; lia).
  unfold canary_route_tick. rewrite Hts, Hauto, Hst, Hlast. simpl.
  rewrite (proj2 (Z.leb_gt _ _)) by lia.
  rewrite (proj2 (Z.leb_le _ _)) by lia. rewrite (i64_id (Weight c + promote_step route)) by (unfold in_i64; lia).
  replace (if 100 <? Weight c + promote_step route then 100
           else Weight c + promote_step route) with w; [|unfold w; bcase; lia].
  by rewrite i64_id by (unfold in_i64, w; lia).
Qed.

Lemma unobserved_run e route s c rest last ts :
  TargetsWeighted route = s :: c :: rest -> CanaryAutoPromote route = true ->
  0 <= Weight c <= 100 -> promote_step route < 2 ^ 62 ->
  canaryStats e !! URL c = None -> lastPromoted e !! Prefix route = Some last ->
  spaced (promote_interval route) last ts ->
  canary_weight (fst (tick_run e route ts))
  = Z.min 100 (Weight c + lenZ ts * promote_step route).
Proof.
  revert e route s c last. induction ts as [|t ts IH];
    intros e route s c last Hts Hauto Hw Hstep Hst Hlast Hsp.
  - simpl. unfold canary_weight. rewrite Hts. change (lenZ (@nil Z)) with 0. lia.
  - destruct Hsp as [Hdue Hsp]. cbn [tick_run]. rewrite lenZ_cons.
    assert (0 < promote_step route) by (unfold promote_step; bcase; lia).
    pose proof (lenZ_nonneg ts).
    destruct (Z.eq_dec (Weight c) 100) as [H100|H100].
    + unfold canary_route_tick. rewrite Hts, Hauto, H100. simpl.
      rewrite tick_run_disabled by done. unfold canary_weight. simpl. rewrite Hts, H100. nia.
    + rewrite (tick_promotes e route s c rest last t) by (done || lia).
      set (w := Z.min 100 (Weight c + promote_step route)).
      erewrite IH; [| done | done | | done | done | | exact Hsp].
      * simpl. unfold promote_step in *. simpl. nia.
      * simpl. unfold w. lia.
      * simpl. apply lookup_insert_eq.
Qed.

(** ** Properties *)

(** C24. A tick keeps every canary configuration well formed: the canary
    weight stays in [0, 100], the targets and their order are unchanged, and
    whenever the engine rewrites the two weights they sum to 100. *)
Theorem canary_weights_invariant clock e routes i r :
  Forall canary_wf routes -> routes !! i = Some r ->
  exists r', fst (canary_tick clock e routes) !! i = Some r' /\ canary_wf r' /\
    map URL (TargetsWeighted r') = map URL (TargetsWeighted r) /\
    (TargetsWeighted r' = TargetsWeighted r \/ weights_split r').
Proof.
  unfold canary_tick. generalize O at 1 as k. intros k Hall. revert k e i.
  induction Hall as [|r0 routes Hr0 _ IH]; intros k e i Hi; [by destruct i|]. simpl.
  pose proof (canary_tick_weights e r0 (fst (clock k)) (snd (clock k)) Hr0) as Hstep.
  destruct (canary_route_tick e r0 _ _) as [r0' e']. simpl in Hstep.
  destruct Hstep as (Hwf & Hor & Hurl). specialize (IH (S k) e').
  destruct (canary_tick_from (S k) clock e' routes) as [rs e'']. simpl in *.
  destruct i as [|i]; simpl in *; [|by apply IH].
  simplify_eq. by exists r0'.
Qed.

(** The rollback rule with the default threshold of 1%: with at least
    three and fewer than a hundred recorded calls, one tick rolls the canary
    back to weight 0 (stable 100), disables promotion and forgets the
    statistics exactly when at least one call failed. *)
Theorem default_rollback_exact e route s c rest st now now' :
  TargetsWeighted route = s :: c :: rest -> CanaryAutoPromote route = true ->
  Weight c < 100 -> fleb (CanaryMaxErrorRate route) (of_int 0) = true ->
  canaryStats e !! URL c = Some st -> 3 <= TotalCalls st < 100 ->
  0 <= ErrorCalls st <= TotalCalls st ->
  (1 <= ErrorCalls st <->
   canary_route_tick e route now now'
   = (with_CanaryAutoPromote false
        (with_TargetsWeighted (set_Weight 100 s :: set_Weight 0 c :: rest) route),
      {| canaryStats := delete (URL c) (canaryStats e); lastPromoted := lastPromoted e |})).
Proof.
  intros Hts Hauto Hw Hdef Hst Htot Herr. split.
  - intros H1. unfold canary_route_tick. rewrite Hts, Hauto, Hst. simpl.
    rewrite (proj2 (Z.leb_gt _ _)) by lia. by rewrite default_rate_one_error by (done || lia).
  - intros H. destruct (decide (1 <= ErrorCalls st)) as [|Hno]; [done|exfalso].
    assert (ErrorCalls st = 0) as H0 by lia.
    assert (Hauto' : CanaryAutoPromote (fst (canary_route_tick e route now now')) = false)
      by by rewrite H.
    unfold canary_route_tick in Hauto'. rewrite Hts, Hauto, Hst in Hauto'. simpl in Hauto'.
    rewrite H0 in Hauto'. rewrite (proj2 (Z.leb_gt _ _)) in Hauto' by lia.
    rewrite no_error_no_rollback in Hauto'; [repeat case_match; simplify_eq/=; congruence|].
    by destruct (CanaryMaxErrorRate route).
Qed.

(** Promotion terminates, and does so without any evidence: for a canary
    no request was ever routed to, [n] ticks at the promotion interval after
    the first sighting raise its weight by [n] steps up to 100. *)
Theorem unobserved_canary_promoted e route s c rest t0 ts :
  TargetsWeighted route = s :: c :: rest -> CanaryAutoPromote route = true ->
  0 <= Weight c < 100 -> promote_step route < 2 ^ 62 ->
  canaryStats e !! URL c = None -> lastPromoted e !! Prefix route = None ->
  spaced (promote_interval route) t0 ts ->
  canary_weight (fst (tick_run e route (t0 :: ts)))
  = Z.min 100 (Weight c + lenZ ts * promote_step route).
Proof.
  intros Hts Hauto Hw Hstep Hst Hlast Hsp. cbn [tick_run].
  assert (canary_route_tick e route t0 t0 = (route,
    {| canaryStats := canaryStats e; lastPromoted := <[Prefix route := t0]> (lastPromoted e) |}))
    as ->.
  { unfold canary_route_tick. rewrite Hts, Hauto, Hst, Hlast. simpl.
    by rewrite (proj2 (Z.leb_gt _ _)) by lia. }
  eapply unobserved_run; try done; [lia|]. apply lookup_insert_eq.
Qed.

(** ** Witnesses *)

Definition auto_route : Route :=
  with_CanaryAutoPromote true
    (with_TargetsWeighted [{| URL := "v1"; Weight := 90 |}; {| URL := "v2"; Weight := 10 |}]%string
       (plain_route "/api" "")).

Definition idle_engine : engine := {| canaryStats := ∅; lastPromoted := ∅ |}.

Lemma canary_weights_invariant_witness :
  exists r', fst (canary_tick (fun _ => (5, 5)) idle_engine [auto_route]) !! 0%nat = Some r' /\
    canary_wf r' /\ map URL (TargetsWeighted r') = ["v1"; "v2"]%string /\
    (TargetsWeighted r' = TargetsWeighted auto_route \/ weights_split r').
Proof.
  apply (canary_weights_invariant (fun _ => (5, 5)) idle_engine [auto_route] 0 auto_route);
    [|reflexivity].
  repeat constructor; vm_compute; congruence.
Defined.

Definition failing_engine : engine :=
  {| canaryStats := {[ "v2"%string := {| TotalCalls := 50; ErrorCalls := 1 |} ]};
     lastPromoted := ∅ |}.

Lemma default_rollback_exact_witness :
  canary_route_tick failing_engine auto_route 0 0
  = (with_CanaryAutoPromote false (with_TargetsWeighted
       [{| URL := "v1"; Weight := 100 |}; {| URL := "v2"; Weight := 0 |}]%string auto_route),
     {| canaryStats := delete "v2"%string (canaryStats failing_engine); lastPromoted := ∅ |}).
Proof.
  refine (proj1 (default_rollback_exact failing_engine auto_route {| URL := "v1"; Weight := 90 |}
    {| URL := "v2"; Weight := 10 |} [] {| TotalCalls := 50; ErrorCalls := 1 |} 0 0
    _ _ _ _ _ _ _) _); try reflexivity; simpl; lia.
Defined.

Lemma unobserved_canary_promoted_witness :
  canary_weight (fst (tick_run idle_engine auto_route
    (0 :: map (fun k => Z.of_nat k * second) (seq 1 9)))) = 100.
Proof.
  rewrite (unobserved_canary_promoted idle_engine auto_route {| URL := "v1"; Weight := 90 |}
    {| URL := "v2"; Weight := 10 |} [] 0); try reflexivity; try (simpl; lia);
    vm_compute; intuition congruence.
Defined.
