(* ===== verification/Breaker.v ===== *)
(** * The automatic circuit breaker (pkg/proxy/handler.go, CD.85)

    One breaker per target: [Allow] gates a request, [RecordRequest] feeds back
    its duration and success.  Durations and instants are nanoseconds. *)

From S2P Require Import Prelude GoStrings GoFloat.
From stdpp Require Import sorting.
Open Scope Z_scope.

Module Breaker.

Inductive CircuitState := StateClosed | StateOpen | StateHalfOpen.

#[export] Instance CircuitState_eq_dec : EqDecision CircuitState.
Proof. solve_decision. Defined.

(** The mutex is implicit: every operation is one critical section.  The zero
    [time.Time] of a new breaker is [0]; it is only read in [StateOpen]. *)
Record CircuitBreaker := {
  state : CircuitState;
  latencies : list Z;
  successCount : Z;
  lastStateChange : Z;
  sloThreshold : Z;
}.

Definition NewCircuitBreaker (slo : Z) : CircuitBreaker :=
  {| state := StateClosed; latencies := []; successCount := 0;
     lastStateChange := 0; sloThreshold := slo |}.

Definition set_state (cb : CircuitBreaker) (s : CircuitState) (now : Z) : CircuitBreaker :=
  {| state := s; latencies := latencies cb; successCount := successCount cb;
     lastStateChange := now; sloThreshold := sloThreshold cb |}.

Definition set_latencies (cb : CircuitBreaker) (l : list Z) : CircuitBreaker :=
  {| state := state cb; latencies := l; successCount := successCount cb;
     lastStateChange := lastStateChange cb; sloThreshold := sloThreshold cb |}.

Definition set_successCount (cb : CircuitBreaker) (n : Z) : CircuitBreaker :=
  {| state := state cb; latencies := latencies cb; successCount := n;
     lastStateChange := lastStateChange cb; sloThreshold := sloThreshold cb |}.

(** [Allow]: [now] is the reading of [time.Since], [now'] that of the later
    [time.Now()]. *)
Definition Allow (cb : CircuitBreaker) (now now' : Z) : bool * CircuitBreaker :=
  match state cb with
  | StateClosed => (true, cb)
  | StateOpen =>
      if 5 * second <? now - lastStateChange cb
      then (true, set_successCount (set_state cb StateHalfOpen now') 0)
      else (false, cb)
  | StateHalfOpen => (true, cb)
  end.

(** [idx := int(float64(len(sorted)) * 0.99)], clamped to the last index. *)
Definition p99_index (n : Z) : Z :=
  let idx := to_int (fmul (of_int n) (of_decimal false 99 (-2))) in
  if n <=? idx then n - 1 else idx.

Definition calculateP99 (cb : CircuitBreaker) : exec Z :=
  let sorted := merge_sort Z.le (latencies cb) in
  let idx := p99_index (lenZ sorted) in
  if idx <? 0 then Panic "index out of range"
  else match sorted !! Z.to_nat idx with
       | Some p99 => Done p99
       | None => Panic "index out of range"
       end.

Definition RecordRequest (cb : CircuitBreaker) (dur : Z) (success : bool) (now : Z)
    : exec CircuitBreaker :=
  if negb success then Done (set_state cb StateOpen now) else
  let l := latencies cb ++ [dur] in
  let cb := set_latencies cb (if 50 <? lenZ l then tail l else l) in
  match state cb with
  | StateHalfOpen =>
      let cb := set_successCount cb (i64 (successCount cb + 1)) in
      if (dur <=? sloThreshold cb) && (3 <=? successCount cb)
      then Done (set_state (set_latencies cb []) StateClosed now)
      else if sloThreshold cb <? dur
      then Done (set_state cb StateOpen now)
      else Done cb
  | StateClosed =>
      if 5 <=? lenZ (latencies cb) then
        let! p99 := calculateP99 cb in
        if sloThreshold cb <? p99 then Done (set_state cb StateOpen now) else Done cb
      else Done cb
  | StateOpen => Done cb
  end.

(** ** The percentile is the maximum of the window *)

Lemma p99_index_window n : 1 <= n <= 50 -> p99_index n = n - 1.
Proof.
  intros Hn.
  assert (forallb (fun k => p99_index (Z.of_nat k) =? Z.of_nat k - 1) (seq 1 50) = true)
    as H by by vm_compute.
  rewrite forallb_forall in H. specialize (H (Z.to_nat n)).
  rewrite Z2Nat.id in H by lia. apply Z.eqb_eq, H, in_seq. lia.
Qed.

Lemma sorted_last_max (l : list Z) (m : Z) :
  StronglySorted Z.le l -> last l = Some m -> Forall (fun x => x <= m) l.
Proof.
  induction 1 as [|x l Hs IH Hx]; [done|]. intros Hl.
  destruct l as [|y l]; simpl in *.
  - injection Hl as ->. repeat constructor. lia.
  - specialize (IH Hl). constructor; [|done].
    apply Forall_inv in Hx. apply Forall_inv in IH. lia.
Qed.

Definition is_max (m : Z) (l : list Z) : Prop := m ∈ l /\ Forall (fun x => x <= m) l.

Lemma calculateP99_spec cb :
  1 <= lenZ (latencies cb) <= 50 ->
  exists m, calculateP99 cb = Done m /\ is_max m (latencies cb).
Proof.
  intros Hlen. unfold calculateP99.
  set (s := merge_sort Z.le (latencies cb)).
  assert (Hperm : s ≡ₚ latencies cb) by apply merge_sort_Permutation.
  assert (HlenZ : lenZ s = lenZ (latencies cb)) by (unfold lenZ; by rewrite Hperm).
  rewrite p99_index_window by lia.
  destruct (_ <? 0) eqn:?; breflect; [lia|].
  assert (Hlt : (Z.to_nat (lenZ s - 1) < length s)%nat) by (unfold lenZ in *; lia).
  destruct (lookup_lt_is_Some_2 _ _ Hlt) as [m Hm]. rewrite Hm. exists m.
  assert (Hlast : last s = Some m).
  { rewrite last_lookup, <- Hm. f_equal. unfold lenZ in *. lia. }
  split; [done|]. split.
  - rewrite <- Hperm. by eapply list_elem_of_lookup_2.
  - rewrite <- Hperm. eapply sorted_last_max; [|done].
    apply StronglySorted_merge_sort; apply _.
Qed.

(** ** The invariant *)

(** The window never exceeds 50 samples. *)
Definition wf (cb : CircuitBreaker) : Prop := lenZ (latencies cb) <= 50.

Definition window (cb : CircuitBreaker) (dur : Z) : list Z :=
  let l := latencies cb ++ [dur] in if 50 <? lenZ l then tail l else l.

Lemma window_length cb dur : wf cb -> 1 <= lenZ (window cb dur) <= 50.
Proof.
  unfold wf, window. intros Hw. destruct (50 <? _) eqn:E; breflect.
  - destruct (latencies cb) as [|x l]; simpl in *; [by vm_compute in E|].
    rewrite lenZ_cons, lenZ_app in *. change (lenZ [dur]) with 1 in *. lia.
  - split; [|lia]. rewrite lenZ_app. change (lenZ [dur]) with 1.
    pose proof (lenZ_nonneg (latencies cb)). lia.
Qed.

(** The state a successful request leaves a closed breaker in. *)
Lemma record_closed cb dur now :
  wf cb -> state cb = StateClosed ->
  exists cb', RecordRequest cb dur true now = Done cb' /\
    latencies cb' = window cb dur /\
    state cb' =
      if (5 <=? lenZ (window cb dur)) && existsb (fun d => sloThreshold cb <? d) (window cb dur)
      then StateOpen else StateClosed.
Proof.
  intros Hwf Hst. pose proof (window_length cb dur Hwf) as Hlen.
  unfold RecordRequest. cbn [negb]. fold (window cb dur). cbn [state set_latencies].
  rewrite Hst. cbn [latencies set_latencies].
  destruct (5 <=? lenZ (window cb dur)) eqn:E; simpl; [|by eexists].
  destruct (calculateP99_spec (set_latencies cb (window cb dur)) Hlen) as (m & Hm & Hin & Hall).
  fold (set_latencies cb (window cb dur)). rewrite Hm. simpl in *.
  destruct (sloThreshold cb <? m) eqn:Hs; eexists; (split; [done|]); (split; [done|]).
  - rewrite (proj2 (existsb_exists _ _)); [done|]. exists m.
    by rewrite <- list_elem_of_In.
  - destruct (existsb _ _) eqn:Hex; [|done]. apply existsb_exists in Hex as (d & Hd & Hlt).
    rewrite Forall_forall in Hall. specialize (Hall d).
    rewrite list_elem_of_In in Hall. specialize (Hall Hd). breflect. lia.
Qed.

Lemma record_total cb dur success now :
  wf cb -> exists cb', RecordRequest cb dur success now = Done cb' /\ wf cb' /\
                       sloThreshold cb' = sloThreshold cb.
Proof.
  intros Hwf. pose proof (window_length cb dur Hwf) as Hlen.
  destruct success; [|by eexists].
  destruct (state cb) eqn:Hst.
  - unfold RecordRequest. cbn [negb]. fold (window cb dur). cbn [state set_latencies].
    rewrite Hst. cbn [latencies set_latencies].
    destruct (5 <=? _); [|eexists; split; [done|]; split; [|done]; unfold wf; simpl; lia].
    destruct (calculateP99_spec (set_latencies cb (window cb dur)) Hlen) as (m & Hm & _).
    fold (set_latencies cb (window cb dur)). rewrite Hm. simpl.
    destruct (_ <? m); eexists; (split; [done|]); (split; [|done]); unfold wf; simpl; lia.
  - unfold RecordRequest. cbn [negb]. fold (window cb dur). cbn [state set_latencies].
    rewrite Hst. eexists. split; [done|]. split; [|done]. unfold wf. simpl. lia.
  - unfold RecordRequest. cbn [negb]. fold (window cb dur). cbn [state set_latencies].
    rewrite Hst. cbn. repeat case_match; eexists; (split; [done|]); (split; [|done]);
      unfold wf; simpl; try lia; unfold lenZ; simpl; lia.
Qed.

(** ** Events, runs and reachability *)

Inductive event :=
| EAllow (now now' : Z)
| ERecord (dur : Z) (success : bool) (now : Z).

(** One event, and whether it admitted a request. *)
Inductive step : CircuitBreaker -> CircuitBreaker -> Prop :=
| step_allow cb now now' : step cb (snd (Allow cb now now'))
| step_record cb dur success now cb' :
    RecordRequest cb dur success now = Done cb' -> step cb cb'.

Lemma step_wf cb cb' : step cb cb' -> wf cb -> wf cb'.
Proof.
  destruct 1 as [cb now now'|cb dur success now cb' Hr]; intros Hwf.
  - unfold Allow. repeat case_match; done.
  - destruct (record_total cb dur success now Hwf) as (cb'' & Hr' & ? & _). congruence.
Qed.

Lemma reachable_wf slo cb : rtc step (NewCircuitBreaker slo) cb -> wf cb.
Proof.
  intros H. assert (wf (NewCircuitBreaker slo)) as Hw by (unfold wf; by vm_compute).
  revert Hw. induction H; eauto using step_wf.
Qed.

(** Feedback of several requests. *)
Fixpoint record_all (cb : CircuitBreaker) (rs : list (Z * bool * Z)) : exec CircuitBreaker :=
  match rs with
  | [] => Done cb
  | (dur, success, now) :: rs' =>
      let! cb' := RecordRequest cb dur success now in record_all cb' rs'
  end.

(** A trial request succeeds within the objective. *)
Definition good (slo : Z) (r : Z * bool * Z) : bool :=
  let '(dur, success, _) := r in success && (dur <=? slo).

Lemma record_open cb dur success now :
  state cb = StateOpen ->
  exists cb', RecordRequest cb dur success now = Done cb' /\ state cb' = StateOpen.
Proof.
  intros Hst. unfold RecordRequest. destruct success; simpl; [|by eexists].
  rewrite Hst. by eexists.
Qed.

Lemma record_all_open cb rs :
  state cb = StateOpen ->
  exists cb', record_all cb rs = Done cb' /\ state cb' = StateOpen.
Proof.
  revert cb. induction rs as [|[[dur success] now] rs IH]; intros cb Hst; simpl; [by eexists|].
  destruct (record_open cb dur success now Hst) as (cb' & -> & Hst'). simpl. by apply IH.
Qed.

Lemma record_half_open cb r :
  state cb = StateHalfOpen -> 0 <= successCount cb < 3 ->
  exists cb', RecordRequest cb (fst (fst r)) (snd (fst r)) (snd r) = Done cb' /\
    sloThreshold cb' = sloThreshold cb /\
    if good (sloThreshold cb) r
    then successCount cb' = successCount cb + 1 /\
         state cb' = (if successCount cb + 1 =? 3 then StateClosed else StateHalfOpen)
    else state cb' = StateOpen.
Proof.
  destruct r as [[dur success] now]. intros Hst Hc. unfold RecordRequest, good. simpl.
  destruct success; simpl; [|by eexists]. rewrite Hst. simpl.
  rewrite i64_id by (unfold in_i64; lia).
  destruct (dur <=? sloThreshold cb) eqn:Hd; simpl; breflect.
  - destruct (3 <=? successCount cb + 1) eqn:H3, (successCount cb + 1 =? 3) eqn:H3';
      breflect; try lia; [by eexists|].
    rewrite (proj2 (Z.ltb_ge _ _)) by lia. by eexists.
  - rewrite (proj2 (Z.ltb_lt _ _)) by lia. by eexists.
Qed.

Lemma trial_run cb rs :
  state cb = StateHalfOpen -> 0 <= successCount cb ->
  successCount cb + lenZ rs <= 3 -> successCount cb < 3 ->
  exists cb', record_all cb rs = Done cb' /\
    state cb' = if forallb (good (sloThreshold cb)) rs
                then (if successCount cb + lenZ rs =? 3 then StateClosed else StateHalfOpen)
                else StateOpen.
Proof.
  revert cb. induction rs as [|r rs IH]; intros cb Hst H0 Hlen Hlt.
  - exists cb. split; [done|]. simpl. change (lenZ (@nil (Z * bool * Z))) with 0.
    rewrite (proj2 (Z.eqb_neq _ _)) by lia. done.
  - rewrite lenZ_cons in Hlen. pose proof (lenZ_nonneg rs).
    destruct (record_half_open cb r Hst ltac:(lia)) as (cb' & Hr & Hslo & Hcase).
    destruct r as [[dur success] now]. cbn [fst snd] in Hr. cbn [record_all forallb].
    rewrite Hr. cbn [ebind]. destruct (good _ _); cbn [andb].
    + destruct Hcase as [Hc Hs]. rewrite lenZ_cons.
      destruct (successCount cb + 1 =? 3) eqn:E3; breflect.
      * assert (rs = []) as -> by (apply lenZ_zero_inv; lia).
        exists cb'. change (lenZ []) with 0. rewrite (proj2 (Z.eqb_eq _ _)) by lia. done.
      * destruct (IH cb' Hs ltac:(lia) ltac:(lia) ltac:(lia)) as (cb'' & Hr' & Hs').
        exists cb''. split; [done|]. rewrite Hs', Hslo, Hc.
        by replace (successCount cb + (lenZ rs + 1)) with (successCount cb + 1 + lenZ rs) by lia.
    + by apply record_all_open.
Qed.

(** ** Properties *)

(** The "p99" that trips the breaker is the maximum of the last (at most
    50) successful durations: with so few samples the 0.99 quantile index is
    always the last one. *)
Theorem p99_is_window_maximum slo cb :
  rtc step (NewCircuitBreaker slo) cb -> latencies cb <> [] ->
  exists m, calculateP99 cb = Done m /\ is_max m (latencies cb).
Proof.
  intros Hr Hne. apply reachable_wf in Hr. unfold wf in Hr.
  apply calculateP99_spec. pose proof (lenZ_nonneg (latencies cb)).
  assert (lenZ (latencies cb) <> 0) by (intros ?; by apply Hne, lenZ_zero_inv). lia.
Qed.

(** Recording never panics on a breaker the program can reach: the window
    stays within 50 samples, so the quantile index is always in range, and the
    objective never changes. *)
Theorem record_request_total slo cb dur success now :
  rtc step (NewCircuitBreaker slo) cb ->
  exists cb', RecordRequest cb dur success now = Done cb' /\
    lenZ (latencies cb') <= 50 /\ sloThreshold cb' = sloThreshold cb.
Proof. intros Hr. apply record_total. by eapply reachable_wf. Qed.

(** C17. When a closed breaker trips: on any failure, and on a success exactly
    when the updated window has at least five samples of which one exceeds the
    objective. *)
Theorem closed_trip_condition slo cb dur success now :
  rtc step (NewCircuitBreaker slo) cb -> state cb = StateClosed ->
  exists cb', RecordRequest cb dur success now = Done cb' /\
    (state cb' = StateOpen <->
     success = false \/
     (5 <= lenZ (window cb dur) /\ Exists (fun d => sloThreshold cb < d) (window cb dur))) /\
    (state cb' = StateOpen \/ state cb' = StateClosed).
Proof.
  intros Hr Hst. apply reachable_wf in Hr. destruct success.
  - destruct (record_closed cb dur now Hr Hst) as (cb' & Hrec & _ & Hs). exists cb'.
    split; [done|]. rewrite Hs. destruct (_ && _) eqn:E.
    + split; [|by left]. split; [intros _|done]. right.
      apply andb_true_iff in E as [E1 (d & Hd & Hlt)%existsb_exists]. breflect.
      split; [done|]. apply Exists_exists. exists d. by rewrite list_elem_of_In.
    + split; [|by right]. split; [done|]. intros [?|[H5 Hex]]; [done|].
      apply Exists_exists in Hex as (d & Hd & Hlt). apply andb_false_iff in E as [E|E].
      * breflect. lia.
      * rewrite (proj2 (existsb_exists _ _)) in E; [done|].
        exists d. rewrite <- list_elem_of_In. split; [done|]. by apply Z.ltb_lt.
  - eexists. split; [done|]. simpl. split; [|by left]. by split; [left|].
Qed.

(** C16. Cooling and trial: an open breaker rejects until more than five
    seconds have passed since it opened, then admits and turns half-open; of
    the next (at most three) requests fed back, all within the objective and
    successful, the third closes it, and any other one reopens it. *)
Theorem cooling_and_trial cb now now' rs :
  state cb = StateOpen -> lenZ rs <= 3 ->
  let '(admitted, cb') := Allow cb now now' in
  admitted = (5 * second <? now - lastStateChange cb) /\
  (admitted = false -> cb' = cb) /\
  (admitted = true ->
     exists cb'', record_all cb' rs = Done cb'' /\
       state cb'' = if forallb (good (sloThreshold cb)) rs
                    then (if lenZ rs =? 3 then StateClosed else StateHalfOpen)
                    else StateOpen).
Proof.
  intros Hst Hlen. unfold Allow. rewrite Hst.
  destruct (5 * second <? _) eqn:E; (split; [done|]); (split; [done|]); [|done].
  intros _. by apply (trial_run (set_successCount (set_state cb StateHalfOpen now') 0)).
Qed.

(** ** Witnesses *)

Definition five_fast_one_slow : list (Z * bool * Z) :=
  [(1, true, 0); (1, true, 0); (1, true, 0); (1, true, 0)].

Definition sample_closed : CircuitBreaker :=
  match record_all (NewCircuitBreaker second) five_fast_one_slow with
  | Done cb => cb | Panic _ => NewCircuitBreaker second end.

Lemma sample_reachable : rtc step (NewCircuitBreaker second) sample_closed.
Proof.
  unfold sample_closed, five_fast_one_slow.
  do 4 (eapply rtc_l; [apply (step_record _ 1 true 0); reflexivity|]). apply rtc_refl.
Qed.

Lemma p99_is_window_maximum_witness :
  exists m, calculateP99 sample_closed = Done m /\ is_max m [1; 1; 1; 1].
Proof. apply (p99_is_window_maximum second); [apply sample_reachable|done]. Defined.

Lemma record_request_total_witness :
  exists cb', RecordRequest sample_closed (2 * second) true 7 = Done cb' /\
    lenZ (latencies cb') <= 50 /\ sloThreshold cb' = second.
Proof. apply (record_request_total second), sample_reachable. Defined.

Lemma closed_trip_condition_witness :
  exists cb', RecordRequest sample_closed (2 * second) true 7 = Done cb' /\
    state cb' = StateOpen.
Proof.
  destruct (closed_trip_condition second sample_closed (2 * second) true 7 sample_reachable
              ltac:(reflexivity)) as (cb' & H & [_ Hopen] & _).
  exists cb'. split; [exact H|]. apply Hopen. right. split; [by vm_compute|].
  apply Exists_exists. exists (2 * second). split; [|by vm_compute].
  apply list_elem_of_In. vm_compute. tauto.
Defined.

Definition sample_open : CircuitBreaker := set_state sample_closed StateOpen 0.

Lemma cooling_and_trial_witness :
  exists cb'', record_all (snd (Allow sample_open (6 * second) (6 * second)))
                 [(1, true, 0); (1, true, 0); (1, true, 0)] = Done cb'' /\
    state cb'' = StateClosed.
Proof.
  pose proof (cooling_and_trial sample_open (6 * second) (6 * second)
    [(1, true, 0); (1, true, 0); (1, true, 0)] eq_refl) as H.
  destruct H as (_ & _ & H); [by vm_compute|]. by apply H.
Defined.

End Breaker.
