(* ===== verification/Backpressure.v ===== *)
(** * Concurrency limiting and the bounded wait queue (pkg/proxy/handler.go)

    [BackpressureLimiter.Acquire] as a step relation over any number of
    concurrent requests: [sem] and [queue] are buffered channels of which only
    the number of tokens matters.  Each [select] and each channel receive is
    one atomic step. *)

From S2P Require Import Prelude GoStrings.
Open Scope Z_scope.

Module Backpressure.

(** [type BackpressureLimiter struct { sem, queue chan struct{}; timeout }]:
    token counts and capacities. *)
Record BackpressureLimiter := {
  sem : Z; semCap : Z;
  queue : Z; queueCap : Z;
  timeout : Z;
}.

(** [NewBackpressureLimiter]: [None] is the nil limiter; [make(chan, n)] panics
    on a negative [n]. *)
Definition NewBackpressureLimiter (maxConcurrent maxQueue timeoutMs : Z)
    : exec (option BackpressureLimiter) :=
  if maxConcurrent <=? 0 then Done None else
  let timeout :=
    if 0 <? timeoutMs then i64 (timeoutMs * millisecond) else 5000 * millisecond in
  if maxQueue <? 0 then Panic "makechan: size out of range" else
  Done (Some {| sem := 0; semCap := maxConcurrent; queue := 0; queueCap := maxQueue;
                timeout := timeout |}).

Definition set_sem (l : BackpressureLimiter) (n : Z) : BackpressureLimiter :=
  {| sem := n; semCap := semCap l; queue := queue l; queueCap := queueCap l;
     timeout := timeout l |}.

Definition set_queue (l : BackpressureLimiter) (n : Z) : BackpressureLimiter :=
  {| sem := sem l; semCap := semCap l; queue := n; queueCap := queueCap l;
     timeout := timeout l |}.

(** The channel operations: a send or a receive that would block is [None]. *)
Definition send_sem (l : BackpressureLimiter) : option BackpressureLimiter :=
  if sem l <? semCap l then Some (set_sem l (sem l + 1)) else None.
Definition recv_sem (l : BackpressureLimiter) : option BackpressureLimiter :=
  if 0 <? sem l then Some (set_sem l (sem l - 1)) else None.
Definition send_queue (l : BackpressureLimiter) : option BackpressureLimiter :=
  if queue l <? queueCap l then Some (set_queue l (queue l + 1)) else None.
Definition recv_queue (l : BackpressureLimiter) : option BackpressureLimiter :=
  if 0 <? queue l then Some (set_queue l (queue l - 1)) else None.

(** The results of [Acquire]. *)
Inductive outcome := Acquired | QueueTimeout | ContextDone.

(** Where a request stands in [Acquire] and after it. *)
Inductive pc :=
| Start                    (** before the first [select] *)
| Enqueueing               (** no free slot seen, before the second [select] *)
| Waiting                  (** holds a queue token, in the inner [select] *)
| Leaving (o : outcome)    (** inner [select] done, deferred [<-l.queue] pending *)
| Holding                  (** returned the release function *)
| Rejected (err : string)  (** returned an error *)
| Finished.                (** release function called *)

(** What the inner [select] may pick: a slot, the timer, the context. *)
Definition after_leaving (o : outcome) : pc :=
  match o with
  | Acquired => Holding
  | QueueTimeout => Rejected "queue timeout"
  | ContextDone => Rejected "context canceled"
  end.

(** One atomic step of one request. *)
Inductive req_step : BackpressureLimiter -> pc -> BackpressureLimiter -> pc -> Prop :=
| rs_fast l l' : send_sem l = Some l' -> req_step l Start l' Holding
| rs_busy l : send_sem l = None -> req_step l Start l Enqueueing
| rs_enqueue l l' : send_queue l = Some l' -> req_step l Enqueueing l' Waiting
| rs_full l : send_queue l = None -> req_step l Enqueueing l (Rejected "queue full")
| rs_slot l l' : send_sem l = Some l' -> req_step l Waiting l' (Leaving Acquired)
| rs_timer l : req_step l Waiting l (Leaving QueueTimeout)
| rs_cancel l : req_step l Waiting l (Leaving ContextDone)
| rs_leave l l' o : recv_queue l = Some l' -> req_step l (Leaving o) l' (after_leaving o)
| rs_release l l' : recv_sem l = Some l' -> req_step l Holding l' Finished.

(** The limiter and every request that ever reached it. *)
Record system := { limiter : BackpressureLimiter; reqs : list pc }.

Inductive sys_step : system -> system -> Prop :=
| ss_arrive l ps : sys_step {| limiter := l; reqs := ps |}
                            {| limiter := l; reqs := ps ++ [Start] |}
| ss_req l l' ps i p p' :
    ps !! i = Some p -> req_step l p l' p' ->
    sys_step {| limiter := l; reqs := ps |} {| limiter := l'; reqs := <[i := p']> ps |}.

(** ** Token accounting *)

Definition holds_slot (p : pc) : bool :=
  match p with Holding | Leaving Acquired => true | _ => false end.
Definition holds_queue (p : pc) : bool :=
  match p with Waiting | Leaving _ => true | _ => false end.

(** Every token of a channel belongs to exactly one request. *)
Definition inv (s : system) : Prop :=
  sem (limiter s) = countZ holds_slot (reqs s) /\
  queue (limiter s) = countZ holds_queue (reqs s) /\
  sem (limiter s) <= semCap (limiter s) /\
  queue (limiter s) <= queueCap (limiter s).

Definition b2Z (b : bool) : Z := if b then 1 else 0.

Lemma countZ_insert {A} (p : A -> bool) l i x y :
  l !! i = Some x -> countZ p (<[i := y]> l) = countZ p l - b2Z (p x) + b2Z (p y).
Proof.
  intros Hi. rewrite (insert_take_drop l i y) by by eapply lookup_lt_Some.
  rewrite <- (take_drop_middle l i x Hi) at 3.
  rewrite !countZ_app. unfold countZ at 2 4. simpl. unfold countZ.
  destruct (p x), (p y); simpl; lia.
Qed.

Lemma req_step_tokens l p l' p' :
  req_step l p l' p' ->
  sem l' - b2Z (holds_slot p') = sem l - b2Z (holds_slot p) /\
  queue l' - b2Z (holds_queue p') = queue l - b2Z (holds_queue p) /\
  semCap l' = semCap l /\ queueCap l' = queueCap l /\
  (sem l <= semCap l -> sem l' <= semCap l') /\
  (queue l <= queueCap l -> queue l' <= queueCap l').
Proof.
  destruct 1 as [l l' H|l H|l l' H|l H|l l' H|l|l|l l' o H|l l' H];
    unfold send_sem, recv_sem, send_queue, recv_queue in *; try bcase_in H; simplify_eq/=;
    try destruct o; simpl; lia.
Qed.

Lemma sys_step_inv s s' : sys_step s s' -> inv s -> inv s'.
Proof.
  unfold inv. destruct 1 as [l ps|l l' ps i p p' Hi Hstep]; simpl; intros (H1 & H2 & H3 & H4).
  - rewrite !countZ_app. change (countZ holds_slot [Start]) with 0.
    change (countZ holds_queue [Start]) with 0. lia.
  - apply req_step_tokens in Hstep as (T1 & T2 & T3 & T4 & T5 & T6).
    rewrite !(countZ_insert _ _ _ _ _ Hi). lia.
Qed.

(** The systems a new limiter can reach. *)
Definition reachable (mc mq tm : Z) (s : system) : Prop :=
  exists l, NewBackpressureLimiter mc mq tm = Done (Some l) /\
            rtc sys_step {| limiter := l; reqs := [] |} s.

Lemma rtc_caps s s' : rtc sys_step s s' ->
  semCap (limiter s') = semCap (limiter s) /\ queueCap (limiter s') = queueCap (limiter s).
Proof.
  induction 1 as [|s1 s2 s3 H _ IH]; [done|].
  destruct H as [l ps|l l' ps i p p' Hi Hstep]; simpl in *; [done|].
  apply req_step_tokens in Hstep as (_ & _ & ? & ? & _). simpl in *. destruct IH. lia.
Qed.

Lemma new_limiter_inv mc mq tm l :
  NewBackpressureLimiter mc mq tm = Done (Some l) ->
  sem l = 0 /\ queue l = 0 /\ semCap l = mc /\ queueCap l = mq /\ 0 < mc /\ 0 <= mq.
Proof.
  unfold NewBackpressureLimiter. intros H. repeat bcase_in H; simplify_eq/=; lia.
Qed.

Lemma reachable_inv mc mq tm s :
  reachable mc mq tm s ->
  inv s /\ semCap (limiter s) = mc /\ queueCap (limiter s) = mq.
Proof.
  intros (l & Hl & Hr). apply new_limiter_inv in Hl as (? & ? & ? & ? & ? & ?).
  pose proof (rtc_caps _ _ Hr) as [? ?]. simpl in *. split; [|lia].
  assert (inv {| limiter := l; reqs := [] |}) as Hinv by (unfold inv, countZ; simpl; lia).
  revert Hinv. clear -Hr. induction Hr; eauto using sys_step_inv.
Qed.

(** ** Properties *)

(** C18. Bounded concurrency under every interleaving: at most [maxConcurrent]
    requests hold a slot and at most [maxQueue] wait, whatever the order in
    which requests arrive, time out, are cancelled and finish. *)
Theorem bounded_concurrency mc mq tm s :
  reachable mc mq tm s ->
  countZ holds_slot (reqs s) <= mc /\ countZ holds_queue (reqs s) <= mq.
Proof. intros ((H1 & H2 & H3 & H4) & ? & ?)%reachable_inv. lia. Qed.

(** No token leaks: once every request has returned an error or has been
    released, both channels are empty, so the next [maxConcurrent] requests are
    admitted at once. *)
Theorem no_token_leak mc mq tm s :
  reachable mc mq tm s ->
  Forall (fun p => match p with Rejected _ | Finished => True | _ => False end) (reqs s) ->
  sem (limiter s) = 0 /\ queue (limiter s) = 0.
Proof.
  intros ((H1 & H2 & _) & _)%reachable_inv Hall. rewrite H1, H2. clear -Hall.
  induction Hall as [|p ps Hp _ IH]; [done|]. unfold countZ in *. by destruct p.
Qed.

(** C26. Progress: the deferred receive and the release function never block,
    and no request is stuck: a request that has neither failed nor finished can
    always take a step. *)
Theorem acquire_progress mc mq tm s i p :
  reachable mc mq tm s -> reqs s !! i = Some p ->
  (exists e, p = Rejected e) \/ p = Finished \/
  exists l' p', req_step (limiter s) p l' p'.
Proof.
  intros ((H1 & H2 & _) & _)%reachable_inv Hi.
  assert (Hcount : forall q : pc -> bool, q p = true -> 0 < countZ q (reqs s)).
  { intros q Hq. rewrite <- (take_drop_middle _ _ _ Hi), countZ_app.
    pose proof (countZ_nonneg q (take i (reqs s))). unfold countZ in *. simpl.
    rewrite Hq. simpl. lia. }
  destruct p; eauto; right; right.
  - destruct (send_sem (limiter s)) eqn:?; eauto using req_step.
  - destruct (send_queue (limiter s)) eqn:?; eauto using req_step.
  - eauto using req_step.
  - specialize (Hcount holds_queue eq_refl). do 2 eexists. apply rs_leave.
    unfold recv_queue. by rewrite (proj2 (Z.ltb_lt _ _)) by lia.
  - specialize (Hcount holds_slot eq_refl). do 2 eexists. apply rs_release.
    unfold recv_sem. by rewrite (proj2 (Z.ltb_lt _ _)) by lia.
Qed.

(** A route with a positive [max_concurrent_requests] and a negative
    [max_queue_size] panics in [make] instead of being rejected. *)
Example negative_queue_panics :
  NewBackpressureLimiter 10 (-1) 0 = Panic "makechan: size out of range".
Proof. reflexivity. Qed.

(** ** Witnesses *)

Definition one_slot : BackpressureLimiter :=
  {| sem := 0; semCap := 1; queue := 0; queueCap := 1; timeout := 5 * second |}.

Definition busy_system : system :=
  {| limiter := set_queue (set_sem one_slot 1) 1;
     reqs := [Holding; Waiting; Rejected "queue full"] |}.

Ltac run_req i r := eapply rtc_l; [eapply (ss_req _ _ _ i); [done|by eapply r]|].

Lemma busy_reachable : reachable 1 1 0 busy_system.
Proof.
  exists one_slot. split; [reflexivity|].
  eapply rtc_l; [apply ss_arrive|].
  run_req 0%nat rs_fast.
  eapply rtc_l; [apply ss_arrive|].
  run_req 1%nat rs_busy.
  run_req 1%nat rs_enqueue.
  eapply rtc_l; [apply ss_arrive|].
  run_req 2%nat rs_busy.
  run_req 2%nat rs_full.
  apply rtc_refl.
Qed.

Lemma bounded_concurrency_witness :
  countZ holds_slot (reqs busy_system) <= 1 /\ countZ holds_queue (reqs busy_system) <= 1.
Proof. apply (bounded_concurrency 1 1 0), busy_reachable. Defined.

Definition drained_system : system :=
  {| limiter := one_slot;
     reqs := [Finished; Rejected "queue timeout"; Rejected "queue full"] |}.

Lemma drained_reachable : reachable 1 1 0 drained_system.
Proof.
  destruct busy_reachable as (l & Hl & Hr). exists l. split; [done|].
  etrans; [apply Hr|].
  run_req 1%nat rs_timer.
  run_req 1%nat rs_leave.
  run_req 0%nat rs_release.
  apply rtc_refl.
Qed.

Lemma no_token_leak_witness :
  sem (limiter drained_system) = 0 /\ queue (limiter drained_system) = 0.
Proof. apply (no_token_leak 1 1 0); [apply drained_reachable|repeat constructor]. Defined.

Lemma acquire_progress_witness :
  (exists e, Waiting = Rejected e) \/ Waiting = Finished \/
  exists l' p', req_step (limiter busy_system) Waiting l' p'.
Proof. apply (acquire_progress 1 1 0 busy_system 1%nat); [apply busy_reachable|done]. Defined.

End Backpressure.
