(* ===== verification/Cache.v ===== *)
(** * The response cache (pkg/proxy/cache.go, [InvalidateCache] of handler.go)

    The map of entries with absolute expiry instants, its operations with their
    clock readings as arguments, alone and as critical sections that interleave,
    the cache key, and the answers a history of stores and invalidations
    determines. *)

From stdpp Require Import sorting.
From S2P Require Import Prelude GoStrings Encoding Hash.
Open Scope Z_scope.

Module Cache.

(** [http.Header]. *)
Abbreviation Header := (gmap string (list string)).

Record HTTPCacheEntry := {
  Body : string;
  StatusCode : Z;
  Headers : Header;
  ExpiresAt : Z;
}.

Record ResponseCache := {
  entries : gmap string HTTPCacheEntry;
  ttl : Z;
}.

Definition NewResponseCache (ttl : Z) : ResponseCache := {| entries := ∅; ttl := ttl |}.

Definition set_entries (m : gmap string HTTPCacheEntry) (rc : ResponseCache) : ResponseCache :=
  {| entries := m; ttl := ttl rc |}.

(** [now.After(entry.ExpiresAt)]. *)
Definition expired (now : Z) (e : HTTPCacheEntry) : bool := ExpiresAt e <? now.

(** [Get] is two critical sections: the lookup, and the removal of an entry
    that was found expired. *)
Definition get_lookup (rc : ResponseCache) (key : string) : option HTTPCacheEntry :=
  entries rc !! key.

Definition get_remove (rc : ResponseCache) (key : string) : ResponseCache :=
  set_entries (delete key (entries rc)) rc.

Definition Get (rc : ResponseCache) (key : string) (now : Z)
  : option HTTPCacheEntry * ResponseCache :=
  match get_lookup rc key with
  | None => (None, rc)
  | Some entry =>
      if expired now entry then (None, get_remove rc key) else (Some entry, rc)
  end.

(** Every value list is copied. *)
Definition cloneHeaders (src : Header) : Header := (fun vs => [] ++ vs) <$> src.

(** [Set] makes the entry with a clock reading, then stores it under the lock. *)
Definition new_entry (rc : ResponseCache) (body : string) (statusCode : Z) (headers : Header)
    (now : Z) : HTTPCacheEntry :=
  {| Body := body; StatusCode := statusCode; Headers := cloneHeaders headers;
     ExpiresAt := now + ttl rc |}.

Definition store (rc : ResponseCache) (key : string) (e : HTTPCacheEntry) : ResponseCache :=
  set_entries (<[key := e]> (entries rc)) rc.

Definition Set_ (rc : ResponseCache) (key body : string) (statusCode : Z) (headers : Header)
    (now : Z) : ResponseCache :=
  store rc key (new_entry rc body statusCode headers now).

Definition Invalidate (rc : ResponseCache) (prefix : string) : Z * ResponseCache :=
  if String.eqb prefix "" then (Z.of_nat (size (entries rc)), set_entries ∅ rc)
  else
    let hit := filter (fun p => HasPrefix p.1 prefix = true) (entries rc) in
    (Z.of_nat (size hit),
     set_entries (filter (fun p => HasPrefix p.1 prefix <> true) (entries rc)) rc).

Definition Size (rc : ResponseCache) : Z := Z.of_nat (size (entries rc)).

Definition evictExpired (rc : ResponseCache) (now : Z) : ResponseCache :=
  set_entries (filter (fun p => expired now p.2 = false) (entries rc)) rc.

(** ** Keys *)

(** [sort.Strings]. *)
Definition sort_strings (l : list string) : list string := merge_sort String.le l.

(** The string that is hashed. *)
Definition cache_key_text (method path rawQuery : string) : string :=
  (method ++ ":" ++ path ++
   (if String.eqb rawQuery "" then ""
    else "?" ++ Join (sort_strings (Split "&" rawQuery)) "&"))%string.

Definition CacheKey (method path rawQuery : string) : string :=
  hex_of (bytes (sha256 (cache_key_text method path rawQuery))).

Definition IsCacheableMethod (method : string) (allowedMethods : list string) : bool :=
  match allowedMethods with
  | [] => String.eqb method "GET"
  | _ => existsb (EqualFold method) allowedMethods
  end.

(** [InvalidateCache] of the handler over the caches by route prefix.  The
    counts of the caches cleared in the [range] loop are added up. *)
Definition clear_matching (routePrefix : string) (caches : gmap string ResponseCache)
  : gmap string ResponseCache :=
  map_imap (fun rp c =>
    Some (if HasPrefix rp routePrefix || String.eqb routePrefix ""
          then snd (Invalidate c "") else c)) caches.

Definition InvalidateCache (caches : gmap string ResponseCache) (routePrefix keyPrefix : string)
  : Z * gmap string ResponseCache :=
  match caches !! routePrefix with
  | Some c =>
      let '(n, c') := Invalidate c keyPrefix in (n, <[routePrefix := c']> caches)
  | None =>
      (sumZ (map (fun p => fst (Invalidate (snd p) ""))
               (List.filter (fun p => HasPrefix (fst p) routePrefix || String.eqb routePrefix "")
                  (map_to_list caches))),
       clear_matching routePrefix caches)
  end.

(** ** Concurrent use

    What the callers of [Get] and [Set] and the other goroutines do to one
    cache, at the grain of the critical sections: [Get] looks up under the read
    lock, then reads the clock, then removes an entry found expired under the
    write lock; [Set] reads the clock to make the entry, then stores it;
    [Invalidate] and [evictExpired] hold the lock throughout. *)
Inductive section :=
| Found (key : string) (entry : option HTTPCacheEntry)
| Removing (key : string)
| Storing (key : string) (entry : HTTPCacheEntry).

Record shared := {
  cache : ResponseCache;
  inside : gmap nat section;  (** the calls of [Get] and [Set] under way *)
}.

Inductive cache_event :=
| LookUp (i : nat) (key : string)
| Decide (i : nat)
| Remove (i : nat)
| Prepare (i : nat) (key body : string) (status : Z) (headers : Header)
| Store (i : nat)
| Clear (prefix : string)
| Sweep.

(** One event at the instant [now]; [None] when the goroutine is not there.
    What a [Get] answers is settled when it reads the clock. *)
Definition cache_step (s : shared) (now : Z) (ev : cache_event)
  : option (option (option HTTPCacheEntry) * shared) :=
  let enter i sec c := {| cache := c; inside := <[i := sec]> (inside s) |} in
  let leave i c := {| cache := c; inside := delete i (inside s) |} in
  match ev with
  | LookUp i k =>
      match inside s !! i with
      | None => Some (None, enter i (Found k (get_lookup (cache s) k)) (cache s))
      | Some _ => None
      end
  | Decide i =>
      match inside s !! i with
      | Some (Found k (Some e)) =>
          if expired now e then Some (Some None, enter i (Removing k) (cache s))
          else Some (Some (Some e), leave i (cache s))
      | Some (Found k None) => Some (Some None, leave i (cache s))
      | _ => None
      end
  | Remove i =>
      match inside s !! i with
      | Some (Removing k) => Some (None, leave i (get_remove (cache s) k))
      | _ => None
      end
  | Prepare i k b st h =>
      match inside s !! i with
      | None => Some (None, enter i (Storing k (new_entry (cache s) b st h now)) (cache s))
      | Some _ => None
      end
  | Store i =>
      match inside s !! i with
      | Some (Storing k e) => Some (None, leave i (store (cache s) k e))
      | _ => None
      end
  | Clear p =>
      Some (None, {| cache := snd (Invalidate (cache s) p); inside := inside s |})
  | Sweep => Some (None, {| cache := evictExpired (cache s) now; inside := inside s |})
  end.

(** The answers of a run, one place per event, and the state it leaves. *)
Fixpoint run (s : shared) (evs : list (Z * cache_event))
  : option (list (option (option HTTPCacheEntry)) * shared) :=
  match evs with
  | [] => Some ([], s)
  | (now, ev) :: evs' =>
      '(r, s1) ← cache_step s now ev;
      '(rs, s2) ← run s1 evs';
      Some (r :: rs, s2)
  end.

Definition shared_cache (life : Z) : shared :=
  {| cache := NewResponseCache life; inside := ∅ |}.

(** Clock readings never go back. *)
Fixpoint monotone {A} (t : Z) (ops : list (Z * A)) : Prop :=
  match ops with [] => True | (now, _) :: ops' => t <= now /\ monotone now ops' end.

(** ** The specification: what the history says

    It has no table: it reads the events of the past, the latest first. *)
Abbreviation history := (list (Z * cache_event)).

(** The entry that call [i] is storing. *)
Fixpoint prepared (life : Z) (i : nat) (h : history) : option (string * HTTPCacheEntry) :=
  match h with
  | [] => None
  | (t, Prepare j k b st hd) :: h' =>
      if Nat.eqb i j
      then Some (k, {| Body := b; StatusCode := st; Headers := hd; ExpiresAt := t + life |})
      else prepared life i h'
  | _ :: h' => prepared life i h'
  end.

(** The key call [i] looked up, and the history at that moment. *)
Fixpoint looked (i : nat) (h : history) : option (string * history) :=
  match h with
  | [] => None
  | (_, LookUp j k) :: h' => if Nat.eqb i j then Some (k, h') else looked i h'
  | _ :: h' => looked i h'
  end.

(** The event stores an entry under [k]. *)
Definition stored (life : Z) (i : nat) (h : history) (k : string) : option HTTPCacheEntry :=
  match prepared life i h with
  | Some (k', e) => if String.eqb k k' then Some e else None
  | None => None
  end.

(** A cache that never evicts: the last entry stored under the key and not
    invalidated since. *)
Fixpoint latest (life : Z) (h : history) (k : string) : option HTTPCacheEntry :=
  match h with
  | [] => None
  | (_, Store i) :: h' =>
      match stored life i h' k with Some e => Some e | None => latest life h' k end
  | (_, Clear p) :: h' => if HasPrefix k p then None else latest life h' k
  | _ :: h' => latest life h' k
  end.

(** Call [i] has seen a store under [k] since it looked up. *)
Fixpoint overtaken (life : Z) (i : nat) (h : history) (k : string) : bool :=
  match h with
  | [] => false
  | (_, LookUp j _) :: h' => if Nat.eqb i j then false else overtaken life i h' k
  | (_, Store j) :: h' =>
      match stored life j h' k with Some _ => true | None => overtaken life i h' k end
  | (_, Clear p) :: h' => if HasPrefix k p then false else overtaken life i h' k
  | _ :: h' => overtaken life i h' k
  end.

(** The last entry under [k] fell to a [Get] that had looked up before it was
    stored. *)
Fixpoint lost (life : Z) (h : history) (k : string) : bool :=
  match h with
  | [] => false
  | (_, Remove i) :: h' =>
      match looked i h' with
      | Some (k', _) => if String.eqb k k' then overtaken life i h' k || lost life h' k
                        else lost life h' k
      | None => lost life h' k
      end
  | (_, Store i) :: h' =>
      match stored life i h' k with Some _ => false | None => lost life h' k end
  | (_, Clear p) :: h' => if HasPrefix k p then false else lost life h' k
  | _ :: h' => lost life h' k
  end.

(** What a lookup made after the history [h] and decided at [now] answers. *)
Definition answer (gone : bool) (life : Z) (h : history) (k : string) (now : Z)
  : option HTTPCacheEntry :=
  match latest life h k with
  | Some e => if gone then None else if now <=? ExpiresAt e then Some e else None
  | None => None
  end.

(** The answers of a run from the history [h], [gone] telling which entries are
    lost. *)
Fixpoint answers (gone : history -> string -> bool) (life : Z) (h : history)
    (evs : list (Z * cache_event)) : list (option (option HTTPCacheEntry)) :=
  match evs with
  | [] => []
  | (now, ev) :: evs' =>
      match ev with
      | Decide i =>
          match looked i h with
          | Some (k, h') => Some (answer (gone h' k) life h' k now)
          | None => None
          end
      | _ => None
      end :: answers gone life ((now, ev) :: h) evs'
  end.

(** No [Get] removes an entry that was stored after its lookup. *)
Fixpoint calm (life : Z) (h : history) (evs : list (Z * cache_event)) : Prop :=
  match evs with
  | [] => True
  | (now, ev) :: evs' =>
      match ev with
      | Remove i =>
          match looked i h with Some (k, _) => overtaken life i h k = false | None => True end
      | _ => True
      end /\ calm life ((now, ev) :: h) evs'
  end.

(** ** Lemmas *)

Lemma invalidate_lookup rc p k :
  entries (snd (Invalidate rc p)) !! k
  = if HasPrefix k p then None else entries rc !! k.
Proof.
  unfold Invalidate. destruct (String.eqb p "") eqn:E; simpl.
  - apply String.eqb_eq in E as ->. by rewrite HasPrefix_nil, lookup_empty.
  - destruct (HasPrefix k p) eqn:Hk.
    + apply map_lookup_filter_None_2. right. simpl. intros ? _ H. by apply H.
    + rewrite map_lookup_filter. destruct (entries rc !! k); simpl; [|done].
      rewrite option_guard_True; [done|]. by rewrite Hk.
Qed.

Lemma invalidate_ttl rc p : ttl (snd (Invalidate rc p)) = ttl rc.
Proof. unfold Invalidate. by case_match. Qed.

Lemma evict_lookup rc now k :
  entries (evictExpired rc now) !! k
  = match entries rc !! k with
    | Some e => if expired now e then None else Some e
    | None => None
    end.
Proof.
  unfold evictExpired. simpl. rewrite map_lookup_filter.
  destruct (entries rc !! k) as [e|]; simpl; [|done].
  destruct (expired now e) eqn:E.
  - rewrite option_guard_False; [done|]. simpl. congruence.
  - by rewrite option_guard_True.
Qed.

Lemma expired_mono t t' e : t <= t' -> expired t e = true -> expired t' e = true.
Proof. unfold expired. intros ? ?. breflect. apply Z.ltb_lt. lia. Qed.

Lemma expired_spec now e : expired now e = negb (now <=? ExpiresAt e).
Proof. unfold expired. by rewrite Z.leb_antisym, negb_involutive. Qed.

Lemma cloneHeaders_id h : cloneHeaders h = h.
Proof. apply map_fmap_id. Qed.

(** What was found under [k] after the history [h], at the latest at [t]. *)
Definition seen (life t : Z) (h : history) (k : string) (o : option HTTPCacheEntry) : Prop :=
  if lost life h k then o = None
  else o = latest life h k \/
       (o = None /\ exists e, latest life h k = Some e /\ expired t e = true).

Lemma seen_mono life t t' h k o : t <= t' -> seen life t h k o -> seen life t' h k o.
Proof.
  unfold seen. intros Ht. destruct (lost life h k); [done|].
  intros [?|(? & e & ? & ?)]; [by left|right]. eauto using expired_mono.
Qed.

(** Without a store since the lookup, the latest entry is the one looked up or
    has been invalidated. *)
Lemma latest_since life i h k k' h' :
  looked i h = Some (k', h') -> overtaken life i h k = false ->
  latest life h k = latest life h' k \/ latest life h k = None.
Proof.
  induction h as [|[t ev] h IH]; [done|]. destruct ev; simpl; auto.
  - destruct (Nat.eqb i i0); [|auto]. intros [= -> ->] _. by left.
  - destruct (stored life i0 h k); [done|auto].
  - case_match; auto.
Qed.

(** What a call under way knows of the history. *)
Definition knows (life t : Z) (h : history) (i : nat) (sec : section) : Prop :=
  match sec with
  | Found k o => exists h', looked i h = Some (k, h') /\ seen life t h' k o
  | Removing k => exists h' e, looked i h = Some (k, h') /\ latest life h' k = Some e /\
      expired t e = true
  | Storing k e => prepared life i h = Some (k, e)
  end.

Definition tracks (life t : Z) (h : history) (s : shared) : Prop :=
  ttl (cache s) = life /\
  (forall k, seen life t h k (entries (cache s) !! k)) /\
  (forall i sec, inside s !! i = Some sec -> knows life t h i sec).

Lemma tracks_mono life t t' h s : t <= t' -> tracks life t h s -> tracks life t' h s.
Proof.
  intros Ht (Hl & Hs & Hk). split; [done|]. split; [eauto using seen_mono|].
  intros i sec Hi. specialize (Hk i sec Hi). destruct sec; cbn [knows] in *; [| |done].
  - destruct Hk as (h' & ? & ?). eauto using seen_mono.
  - destruct Hk as (h' & e & ? & ? & ?). eauto 6 using expired_mono.
Qed.

(** The call an event belongs to. *)
Definition caller (ev : cache_event) : option nat :=
  match ev with
  | LookUp i _ | Decide i | Remove i | Prepare i _ _ _ _ | Store i => Some i
  | Clear _ | Sweep => None
  end.

Lemma knows_other life t h now ev i sec :
  caller ev <> Some i -> knows life t h i sec -> knows life t ((now, ev) :: h) i sec.
Proof.
  intros Hc. assert (Hl : looked i ((now, ev) :: h) = looked i h).
  { destruct ev; simpl in *; try done. by rewrite (proj2 (Nat.eqb_neq _ _)) by congruence. }
  assert (Hp : prepared life i ((now, ev) :: h) = prepared life i h).
  { destruct ev; simpl in *; try done. by rewrite (proj2 (Nat.eqb_neq _ _)) by congruence. }
  destruct sec; unfold knows; by rewrite ?Hl, ?Hp.
Qed.

(** The calls under way after an event: the one that moved, and the others. *)
Lemma knows_insert life t h now ev (m : gmap nat section) i sec :
  caller ev = Some i -> knows life t ((now, ev) :: h) i sec ->
  (forall j sec, m !! j = Some sec -> knows life t h j sec) ->
  forall j sec', <[i := sec]> m !! j = Some sec' -> knows life t ((now, ev) :: h) j sec'.
Proof.
  intros Hc Hi Hm j sec' Hj. apply lookup_insert_Some in Hj as [[<- <-]|[Hne Hj]]; [done|].
  apply knows_other; [congruence|auto].
Qed.

Lemma knows_delete life t h now ev (m : gmap nat section) i :
  caller ev = Some i ->
  (forall j sec, m !! j = Some sec -> knows life t h j sec) ->
  forall j sec, delete i m !! j = Some sec -> knows life t ((now, ev) :: h) j sec.
Proof.
  intros Hc Hm j sec Hj. apply lookup_delete_Some in Hj as [Hne Hj].
  apply knows_other; [congruence|auto].
Qed.

Lemma seen_remove life t h now i k h' e :
  looked i h = Some (k, h') -> latest life h' k = Some e -> expired t e = true ->
  seen life t ((now, Remove i) :: h) k None.
Proof.
  intros Hl He Hx. unfold seen. simpl. rewrite Hl, String.eqb_refl.
  destruct (overtaken life i h k) eqn:Ho; simpl; [done|]. destruct (lost life h k); [done|].
  destruct (latest_since life i h k k h' Hl Ho) as [E|E]; rewrite E; [|by left].
  right. eauto.
Qed.

Lemma seen_remove_other life t h now i k k' h' o :
  looked i h = Some (k, h') -> k' <> k -> seen life t h k' o ->
  seen life t ((now, Remove i) :: h) k' o.
Proof.
  intros Hl Hne. unfold seen. simpl. by rewrite Hl, (proj2 (String.eqb_neq _ _) Hne).
Qed.

(** One event answers as the history says and keeps track of it. *)
Lemma tracks_decide life t h s i r s' :
  tracks life t h s -> cache_step s t (Decide i) = Some (r, s') ->
  r = match looked i h with
      | Some (k, h') => Some (answer (lost life h' k) life h' k t)
      | None => None
      end /\ tracks life t ((t, Decide i) :: h) s'.
Proof.
  intros (Hl & Hs & Hk) H. simpl in H.
  destruct (inside s !! i) as [[k o| |]|] eqn:Hi; [|done..].
  destruct (Hk _ _ Hi) as (h' & El & Eo). rewrite El. unfold seen in Eo. unfold answer.
  destruct o as [e|].
  - destruct (lost life h' k); [done|]. destruct Eo as [Ee|[? _]]; [|done]. rewrite <- Ee.
    assert (Hx := expired_spec t e).
    destruct (expired t e) eqn:E; destruct (t <=? ExpiresAt e); try done; injection H as <- <-;
      (split; [done|]); (split; [done|]); (split; [apply Hs|]).
    + eapply knows_insert; [done| |done]. exists h', e. eauto.
    + by apply knows_delete.
  - injection H as <- <-. split.
    + destruct (lost life h' k); [by case_match|].
      destruct Eo as [<-|(_ & e & -> & Hx)]; [done|].
      rewrite expired_spec in Hx. by destruct (t <=? ExpiresAt e).
    + split; [done|]. split; [apply Hs|by apply knows_delete].
Qed.

Lemma tracks_write life t h s ev r s' :
  match ev with Remove _ | Store _ | Clear _ | Sweep => True | _ => False end ->
  tracks life t h s -> cache_step s t ev = Some (r, s') ->
  r = None /\ tracks life t ((t, ev) :: h) s'.
Proof.
  intros Hev (Hl & Hs & Hk) H. destruct ev; try done; simpl in H.
  - destruct (inside s !! i) as [[|k|]|] eqn:Hi; try done. injection H as <- <-.
    destruct (Hk _ _ Hi) as (h' & e & El & Ee & Hx).
    split; [done|]. split; [done|]. split; [|by apply knows_delete].
    intros k'. simpl. destruct (decide (k' = k)) as [->|Hne].
    + rewrite lookup_delete_eq. by eapply seen_remove.
    + rewrite lookup_delete_ne by done. by eapply seen_remove_other.
  - destruct (inside s !! i) as [[| |k e]|] eqn:Hi; try done. injection H as <- <-.
    pose proof (Hk _ _ Hi) as Ep. simpl in Ep.
    split; [done|]. split; [done|]. split; [|by apply knows_delete].
    intros k'. unfold seen. simpl. unfold stored. rewrite Ep.
    destruct (String.eqb_spec k' k) as [->|Hne].
    + rewrite lookup_insert_eq. by left.
    + rewrite lookup_insert_ne by done. apply Hs.
  - injection H as <- <-. split; [done|]. split; [cbn; by rewrite invalidate_ttl|]. split.
    + intros k. unfold seen. simpl. rewrite invalidate_lookup.
      destruct (HasPrefix k _); [by left|apply Hs].
    + intros i sec Hi. apply knows_other; [done|auto].
  - injection H as <- <-. split; [done|]. split; [done|]. split.
    + intros k. specialize (Hs k). unfold seen in *. simpl latest. simpl lost.
      cbn [cache]. rewrite evict_lookup.
      destruct (lost life h k); [by rewrite Hs|].
      destruct Hs as [Hs|(Hs & Hs')]; rewrite Hs; [|by right].
      destruct (latest life h k) as [e|]; [|by left].
      destruct (expired t e) eqn:E; [right; eauto|by left].
    + intros i sec Hi. apply knows_other; [done|auto].
Qed.

Lemma tracks_enter life t h s ev r s' :
  match ev with LookUp _ _ | Prepare _ _ _ _ _ => True | _ => False end ->
  tracks life t h s -> cache_step s t ev = Some (r, s') ->
  r = None /\ tracks life t ((t, ev) :: h) s'.
Proof.
  intros Hev (Hl & Hs & Hk) H. destruct ev; try done; simpl in H;
    (destruct (inside s !! i) eqn:Hi; [done|]); injection H as <- <-;
    (split; [done|]); (split; [done|]); (split; [apply Hs|]);
    (eapply knows_insert; [done| |done]); simpl; rewrite Nat.eqb_refl.
  - exists h. split; [done|apply Hs].
  - unfold new_entry. by rewrite cloneHeaders_id, Hl.
Qed.

Lemma run_tracks life t h s evs rs s2 :
  tracks life t h s -> monotone t evs -> run s evs = Some (rs, s2) ->
  rs = answers (lost life) life h evs.
Proof.
  revert t h s rs. induction evs as [|[now ev] evs IH]; intros t h s rs Ht Hm Hr.
  { by injection Hr as <- <-. }
  destruct Hm as [Hle Hm]. apply (tracks_mono _ _ now) in Ht; [|done]. cbn [run] in Hr.
  destruct (cache_step s now ev) as [[r s']|] eqn:E; [|done]. cbn [mbind option_bind] in Hr.
  destruct (run s' evs) as [[rs' s3]|] eqn:Er; [|done]. injection Hr as <- <-. cbn [answers].
  assert (r = match ev with
              | Decide i => match looked i h with
                            | Some (k, h') => Some (answer (lost life h' k) life h' k now)
                            | None => None
                            end
              | _ => None
              end /\ tracks life now ((now, ev) :: h) s') as [-> Ht'].
  { destruct ev; first [by apply (tracks_decide life now h s)
      |by apply (tracks_enter life now h s)|by apply (tracks_write life now h s)]. }
  f_equal. by eapply IH.
Qed.

(** Nothing is lost while no [Get] is overtaken. *)
Lemma looked_suffix i h k h' : looked i h = Some (k, h') -> exists n, h' = drop n h.
Proof.
  induction h as [|[t ev] h IH]; [done|].
  assert (Hs : looked i h = Some (k, h') -> exists n, h' = drop n ((t, ev) :: h))
    by (intros (n & ->)%IH; by exists (S n)).
  destruct ev; simpl; auto. destruct (Nat.eqb i i0); [|auto]. intros [= -> ->]. by exists 1%nat.
Qed.

Lemma answers_calm life h evs :
  (forall n k, lost life (drop n h) k = false) -> calm life h evs ->
  answers (lost life) life h evs = answers (fun _ _ => false) life h evs.
Proof.
  revert h. induction evs as [|[now ev] evs IH]; intros h Hn; [done|]. intros [Hc Hr].
  cbn [answers]. f_equal.
  - destruct ev; try done. destruct (looked i h) as [[k h']|] eqn:E; [|done].
    destruct (looked_suffix _ _ _ _ E) as [n ->]. by rewrite Hn.
  - apply IH; [|done]. intros [|n] k; [|apply Hn]. pose proof (Hn O k) as H. simpl in *.
    destruct ev; try done.
    + destruct (looked i h) as [[k' h']|]; [|done].
      destruct (String.eqb_spec k k') as [->|]; [by rewrite Hc|done].
    + by case_match.
    + by case_match.
Qed.

(** A [Get] and a [Set] whose critical sections are not interrupted. *)
Lemma get_sections c m i k now :
  m !! i = None ->
  exists evs rs,
    run {| cache := c; inside := m |} evs
    = Some (rs, {| cache := snd (Get c k now); inside := m |}) /\
    Forall (fun p => fst p = now) evs /\ omap id rs = [fst (Get c k now)].
Proof.
  intros Hm. unfold Get. destruct (get_lookup c k) as [e|] eqn:E; [destruct (expired now e) eqn:Hx|].
  - exists [(now, LookUp i k); (now, Decide i); (now, Remove i)]. eexists.
    cbn. rewrite Hm. cbn. rewrite lookup_insert_eq. cbn. rewrite E, Hx. cbn.
    rewrite insert_insert_eq, lookup_insert_eq. cbn. rewrite delete_insert_id by done.
    repeat constructor.
  - exists [(now, LookUp i k); (now, Decide i)]. eexists.
    cbn. rewrite Hm. cbn. rewrite lookup_insert_eq. cbn. rewrite E, Hx. cbn.
    rewrite delete_insert_id by done. repeat constructor.
  - exists [(now, LookUp i k); (now, Decide i)]. eexists.
    cbn. rewrite Hm. cbn. rewrite lookup_insert_eq. cbn. rewrite E. cbn.
    rewrite delete_insert_id by done. repeat constructor.
Qed.

Lemma set_sections c m i k b st h now :
  m !! i = None ->
  run {| cache := c; inside := m |} [(now, Prepare i k b st h); (now, Store i)]
  = Some ([None; None], {| cache := Set_ c k b st h now; inside := m |}).
Proof.
  intros Hm. cbn. rewrite Hm. cbn. rewrite lookup_insert_eq. cbn.
  by rewrite delete_insert_id.
Qed.

(** Sorting forgets the order. *)
Lemma sort_strings_perm l l' : l ≡ₚ l' -> sort_strings l = sort_strings l'.
Proof.
  intros H. unfold sort_strings.
  apply (StronglySorted_unique String.le); try apply (StronglySorted_merge_sort _).
  by rewrite !merge_sort_Permutation.
Qed.

(** Every character of a hexadecimal string is a digit or one of [a-f]. *)
Definition is_hex (c : ascii) : bool := in_range 48 57 c || in_range 97 102 c.

Lemma hex_digit_hex x : 0 <= x < 16 -> is_hex (hex_digit x) = true.
Proof.
  intros Hx. assert (forallb (fun n => is_hex (hex_digit (Z.of_nat n))) (seq 0 16) = true)
    as H by by vm_compute.
  rewrite forallb_forall in H. specialize (H (Z.to_nat x) ltac:(apply in_seq; lia)).
  by rewrite Z2Nat.id in H by lia.
Qed.

Lemma hex_of_hex l : Forall is_byte l -> sforall is_hex (hex_of l) = true.
Proof.
  induction 1 as [|x l Hx _ IH]; [done|]. unfold is_byte in Hx.
  cbn -[Z.div Z.modulo is_hex]. rewrite !hex_digit_hex, IH; [done|..];
    Z.to_euclidean_division_equations; lia.
Qed.

Lemma CacheKey_hex m p q : sforall is_hex (CacheKey m p q) = true.
Proof. apply hex_of_hex, bytes_are_bytes. Qed.

(** ** Properties *)

(** C8. Under every interleaving of the critical sections of [Get], [Set],
    [Invalidate] and the sweeper, on a clock that does not go back, what each
    [Get] answers is determined by the history of stores and invalidations: the
    last entry stored under the key and not invalidated since when it looked
    up, while at most the time to live has passed since that entry was made -
    sweeps and lazy removals are not observable - except that an entry stored
    after another [Get] of the key looked up and before that [Get] removed what
    it had found expired is lost: then the answer is a miss.  Without such a
    [Get] every answer is that of the cache that never evicts. *)
Theorem cache_refines_spec t life evs rs s :
  monotone t evs -> run (shared_cache life) evs = Some (rs, s) ->
  rs = answers (lost life) life [] evs /\
  (calm life [] evs -> rs = answers (fun _ _ => false) life [] evs).
Proof.
  intros Hm Hr.
  assert (rs = answers (lost life) life [] evs) as ->.
  { eapply run_tracks; [|done|done]. split; [done|]. split; [intros k; by left|].
    intros i sec Hi. simpl in Hi. by rewrite lookup_empty in Hi. }
  split; [done|]. intros Hc. apply answers_calm; [|done]. by intros [|n] k.
Qed.

(** The key ignores the order of the query parameters. *)
Theorem cache_key_order_insensitive method path ps ps' :
  ps ≡ₚ ps' -> ps <> [] -> Forall (fun p => free_of "&" p = true) ps ->
  Join ps "&" <> ""%string -> Join ps' "&" <> ""%string ->
  CacheKey method path (Join ps "&") = CacheKey method path (Join ps' "&").
Proof.
  intros Hp Hne Hfree H1 H2. unfold CacheKey, cache_key_text.
  rewrite (proj2 (String.eqb_neq _ _) H1), (proj2 (String.eqb_neq _ _) H2).
  rewrite (Split_Join "&" ps), (Split_Join "&" ps').
  - by rewrite (sort_strings_perm _ _ Hp).
  - intros ->. by apply Permutation_nil_r in Hp.
  - by rewrite <- Hp.
  - done.
  - done.
Qed.

(** Two different requests share a key: the path is stored decoded, so
    [/p%3Fq] without a query and [/p] with the query [q] collide. *)
Theorem cache_key_collision method path q :
  q <> ""%string -> free_of "&" q = true ->
  CacheKey method (path ++ "?" ++ q) "" = CacheKey method path q.
Proof.
  intros Hq Hf. unfold CacheKey, cache_key_text. simpl.
  rewrite (proj2 (String.eqb_neq _ _) Hq), Split_free by done.
  do 3 f_equal. cbn. by rewrite sapp_nil_r.
Qed.

(** Invalidation by a key prefix has no effect on a route with a cache
    unless the prefix is empty or hexadecimal: keys are hashes, so no path or
    method prefix matches one. *)
Theorem prefix_invalidation_misses_hashed_keys caches rp rc c p :
  caches !! rp = Some rc ->
  map_Forall (fun k _ => exists m u q, k = CacheKey m u q) (entries rc) ->
  is_hex c = false ->
  InvalidateCache caches rp (String c p) = (0, caches).
Proof.
  intros Hrp Hkeys Hc. unfold InvalidateCache. rewrite Hrp.
  assert (Hno : forall k e, entries rc !! k = Some e -> HasPrefix k (String c p) = false).
  { intros k e Hk. destruct (Hkeys k e Hk) as (m & u & q & ->).
    destruct (HasPrefix _ _) eqn:E; [|done]. apply HasPrefix_spec in E as [t Ht].
    pose proof (CacheKey_hex m u q) as Hx. rewrite Ht in Hx. simpl in Hx.
    by rewrite Hc in Hx. }
  unfold Invalidate. cbn [String.eqb].
  rewrite map_empty_filter_2; [|intros k e Hk; simpl; by rewrite (Hno k e Hk)].
  rewrite map_filter_id; [|intros k e Hk; simpl; by rewrite (Hno k e Hk)].
  rewrite map_size_empty. f_equal. apply insert_id. rewrite Hrp. by destruct rc.
Qed.

(** ** Witnesses *)

(** Goroutine 1 looks up before and after the expiry, across a sweep and an
    invalidation, while goroutine 2 stores. *)
Definition sample_events : list (Z * cache_event) :=
  [(0, Prepare 2 "k" "body" 200 ∅); (1, LookUp 1 "k"); (1, Store 2); (1, Decide 1);
   (5, LookUp 1 "k"); (10, Decide 1);
   (10, LookUp 1 "k"); (11, Decide 1); (12, Sweep); (12, Remove 1);
   (13, Prepare 2 "k" "new" 200 ∅); (13, Store 2); (14, LookUp 1 "k"); (15, Clear "");
   (16, Decide 1); (16, LookUp 1 "k"); (17, Decide 1)].

(** Goroutine 1 finds the entry expired and removes the one stored meanwhile. *)
Definition racing_events : list (Z * cache_event) :=
  [(0, Prepare 2 "k" "old" 200 ∅); (0, Store 2); (20, LookUp 1 "k"); (20, Decide 1);
   (20, Prepare 2 "k" "fresh" 200 ∅); (20, Store 2); (20, LookUp 3 "k"); (21, Remove 1);
   (21, Decide 3); (21, LookUp 3 "k"); (21, Decide 3)].

(** The bodies answered. *)
Definition bodies (rs : list (option (option HTTPCacheEntry))) : list (option string) :=
  map (fmap Body) (omap id rs).

Lemma cache_refines_spec_witness :
  (exists rs s, run (shared_cache 10) sample_events = Some (rs, s) /\
     rs = answers (fun _ _ => false) 10 [] sample_events /\
     bodies rs = [None; Some "body"; None; Some "new"; None]%string) /\
  (exists rs s, run (shared_cache 10) racing_events = Some (rs, s) /\
     rs = answers (lost 10) 10 [] racing_events /\
     bodies rs = [None; Some "fresh"; None]%string).
Proof.
  split.
  - do 2 eexists. split; [vm_compute; reflexivity|]. split; [|vm_compute; reflexivity].
    eapply (cache_refines_spec 0 10 sample_events).
    + vm_compute. repeat split; discriminate.
    + vm_compute. reflexivity.
    + vm_compute. repeat split.
  - do 2 eexists. split; [vm_compute; reflexivity|]. split; [|vm_compute; reflexivity].
    eapply (cache_refines_spec 0 10 racing_events).
    + vm_compute. repeat split; discriminate.
    + vm_compute. reflexivity.
Defined.

Lemma cache_key_order_insensitive_witness :
  CacheKey "GET" "/a" (Join ["x=1"; "y=2"]%string "&")
  = CacheKey "GET" "/a" (Join ["y=2"; "x=1"]%string "&").
Proof.
  apply (cache_key_order_insensitive "GET" "/a" ["x=1"; "y=2"]%string ["y=2"; "x=1"]%string).
  - apply perm_swap.
  - discriminate.
  - repeat constructor.
  - discriminate.
  - discriminate.
Defined.

Lemma cache_key_collision_witness :
  CacheKey "GET" ("/a" ++ "?" ++ "x=1") "" = CacheKey "GET" "/a" "x=1".
Proof. apply (cache_key_collision "GET" "/a" "x=1"); [discriminate|reflexivity]. Defined.

Definition one_entry : ResponseCache :=
  Set_ (NewResponseCache 10) (CacheKey "GET" "/a" "") "body" 200 ∅ 0.

Lemma prefix_invalidation_misses_hashed_keys_witness :
  InvalidateCache {[ "/api"%string := one_entry ]} "/api" "/a"
  = (0, {[ "/api"%string := one_entry ]}).
Proof.
  apply (prefix_invalidation_misses_hashed_keys _ "/api" one_entry "/"%char "a").
  - apply lookup_singleton_eq.
  - intros k e Hk. unfold one_entry, Set_, store in Hk. cbn [entries set_entries NewResponseCache] in Hk.
    apply lookup_insert_Some in Hk as [[<- _]|[_ Hk]].
    + exists "GET"%string, "/a"%string, ""%string. reflexivity.
    + rewrite lookup_empty in Hk. discriminate.
  - reflexivity.
Defined.

(** The lazy removal is a second critical section: a value stored between the
    two is lost although it is fresh. *)
Example lazy_removal_loses_fresh_entry :
  let rc := Set_ (NewResponseCache 10) "k" "old" 200 ∅ 0 in
  let rc' := Set_ rc "k" "fresh" 200 ∅ 20 in
  (expired 20 <$> get_lookup rc "k") = Some true /\
  fst (Get rc' "k" 21) <> None /\ fst (Get (get_remove rc' "k") "k" 21) = None.
Proof. vm_compute. repeat split; discriminate. Qed.

End Cache.
