(* ===== verification/Token.v ===== *)
(** * JSON web tokens and session revocation (pkg/proxy/handler.go)

    [ValidateJWT], [ValidateJWTWithPolicy], [RevokeUserSession] and
    [base64UrlDecode].  Instants are nanoseconds of Unix time, [now] the
    reading of the clock. *)

From S2P Require Import Prelude GoStrings GoFloat Encoding Hash Json.
Open Scope Z_scope.

Module Token.

(** [base64UrlDecode]: padding is added to a multiple of four and the URL
    alphabet is mapped to the standard one, which is accepted as well. *)
Definition base64UrlDecode (s : string) : option string :=
  let l := slen s mod 4 in
  let s := if 0 <? l then (s ++ Repeat "=" (Z.to_nat (4 - l)))%string else s in
  b64_decode false (replace_byte "_" "/" (replace_byte "-" "+" s)).

(** The entries of a claims object; a payload that is not an object (or null)
    is an error of [json.Unmarshal]. *)
Definition claim_entries (payload : string) : option (list (string * json)) :=
  match json_parse payload with Some v => obj_entries v | None => None end.

Definition signing_input (headerPart payloadPart : string) : string :=
  (headerPart ++ "." ++ payloadPart)%string.

(** The checks of [ValidateJWT] on the decoded payload. *)
Definition check_claims (payload : string) (now : Z) : option string :=
  match claim_entries payload with
  | None => None
  | Some es =>
      match field dec_string "username" ""%string es, field dec_int "exp" 0 es with
      | Some username, Some exp =>
          if (0 <? exp) && (exp <? now / second) then None else Some username
      | _, _ => None
      end
  end.

(** [ValidateJWT]: the user name of an accepted token. *)
Definition ValidateJWT (tokenStr secret : string) (now : Z) : option string :=
  match Split "." tokenStr with
  | [headerPart; payloadPart; signaturePart] =>
      match base64UrlDecode signaturePart with
      | Some sig =>
          if String.eqb sig (hmac_sha256 secret (signing_input headerPart payloadPart)) then
            match base64UrlDecode payloadPart with
            | Some payload => check_claims payload now
            | None => None
            end
          else None
      | None => None
      end
  | _ => None
  end.

(** [time.Unix(iat, 0).Before(rev)]: seconds are counted from year 1 in an
    [int64], which wraps. *)
Definition unixToInternal : Z := 62135596800.
Definition unix_before (iat rev : Z) : bool :=
  let s1 := i64 (iat + unixToInternal) in
  let s2 := rev / second + unixToInternal in
  (s1 <? s2) || ((s1 =? s2) && (0 <? rev mod second)).

(** The revocation check: tokens whose claims do not decode, or without a
    positive [iat], pass. *)
Definition revoked (revokedSessions : gmap string Z) (username payload : string) : bool :=
  match claim_entries payload with
  | None => false
  | Some es =>
      match field dec_int "iat" 0 es, field dec_int "policy_ver" 0 es with
      | Some iat, Some _ =>
          match revokedSessions !! username with
          | Some revTime => (0 <? iat) && unix_before iat revTime
          | None => false
          end
      | _, _ => false
      end
  end.

Definition ValidateJWTWithPolicy (revokedSessions : gmap string Z) (tokenStr secret : string)
    (now : Z) : option string :=
  match ValidateJWT tokenStr secret now with
  | None => None
  | Some username =>
      match Split "." tokenStr with
      | [_; payloadPart; _] =>
          match base64UrlDecode payloadPart with
          | Some payload =>
              if revoked revokedSessions username payload then None else Some username
          | None => Some username
          end
      | _ => Some username
      end
  end.

Definition RevokeUserSession (revokedSessions : gmap string Z) (username : string) (now : Z)
  : gmap string Z := <[username := now]> revokedSessions.

(** The reply header [X-Token-Refresh] of [ServeHTTP]: the token carries an
    older policy version than the gateway. *)
Definition needs_refresh (tokenStr : string) (curVer : Z) : bool :=
  match Split "." tokenStr with
  | [_; payloadPart; _] =>
      match base64UrlDecode payloadPart with
      | Some payload =>
          match claim_entries payload with
          | Some es =>
              match field dec_int "policy_ver" 0 es with
              | Some v => v <? curVer
              | None => false
              end
          | None => false
          end
      | None => false
      end
  | _ => false
  end.

(** ** The issuer's side: tokens as an HS256 signer produces them *)

Definition raw_url (s : string) : string := b64_encode true false s.

Definition mint (secret header : string) (claims : list (string * json)) : string :=
  let h := raw_url header in
  let p := raw_url (render (JObj claims)) in
  (h ++ "." ++ p ++ "." ++ raw_url (hmac_sha256 secret (signing_input h p)))%string.

(** Claims of the usual shape. *)
Definition user_claims (username : string) (exp iat : Z) : list (string * json) :=
  [("username"%string, JStr username); ("exp"%string, JNum (Itoa exp));
   ("iat"%string, JNum (Itoa iat))].

(** ** Lemmas *)

(** Translating the alphabet turns a URL encoding into a standard one. *)
Lemma b64_char_translate x : 0 <= x < 64 ->
  (fun c => if Ascii.eqb c "_" then "/"%char else c)
    ((fun c => if Ascii.eqb c "-" then "+"%char else c) (b64_char true x)) = b64_char false x.
Proof.
  intros Hx.
  assert (forallb (fun n => Ascii.eqb ((fun c => if Ascii.eqb c "_" then "/"%char else c)
    ((fun c => if Ascii.eqb c "-" then "+"%char else c) (b64_char true (Z.of_nat n))))
    (b64_char false (Z.of_nat n))) (seq 0 64) = true) as H by by vm_compute.
  rewrite forallb_forall in H. specialize (H (Z.to_nat x) ltac:(apply in_seq; lia)).
  rewrite Z2Nat.id in H by lia. by apply Ascii.eqb_eq.
Qed.

Lemma replace_byte_app a b s t :
  replace_byte a b (s ++ t) = (replace_byte a b s ++ replace_byte a b t)%string.
Proof. unfold replace_byte. induction s; simpl; congruence. Qed.

Definition translate (s : string) : string := replace_byte "_" "/" (replace_byte "-" "+" s).

Lemma translate_cons x s : 0 <= x < 64 ->
  translate (String (b64_char true x) s) = String (b64_char false x) (translate s).
Proof. intros Hx. unfold translate, replace_byte. simpl. by rewrite b64_char_translate. Qed.

(** Padding a raw encoding gives the padded one. *)
Lemma pad_raw_encoding l :
  Forall is_byte l ->
  let s := b64_encode_bytes true false l in
  translate (if 0 <? slen s mod 4 then (s ++ Repeat "=" (Z.to_nat (4 - slen s mod 4)))%string else s)
  = b64_encode_bytes false true l.
Proof.
  induction l as [|a|a b|a b c l IH] using list_ind3; intros H; [done|..].
  - apply Forall_inv in H as Ha. pose proof (sextet_bounds a 0 0 Ha is_byte_0 is_byte_0).
    cbn -[Z.div Z.modulo Z.mul b64_char translate]. change (slen _ mod 4) with 2.
    cbn -[Z.div Z.modulo Z.mul b64_char translate]. by rewrite !translate_cons by lia.
  - apply Forall_cons_1 in H as [Ha [Hb _]%Forall_cons_1].
    pose proof (sextet_bounds a b 0 Ha Hb is_byte_0).
    cbn -[Z.div Z.modulo Z.mul b64_char translate]. change (slen _ mod 4) with 3.
    cbn -[Z.div Z.modulo Z.mul b64_char translate]. by rewrite !translate_cons by lia.
  - apply Forall_cons_1 in H as [Ha [Hb [Hc H]%Forall_cons_1]%Forall_cons_1].
    pose proof (sextet_bounds a b c Ha Hb Hc). specialize (IH H).
    cbn [b64_encode_bytes]. cbv zeta in IH |- *.
    set (s := b64_encode_bytes true false l) in *.
    match goal with |- context [slen ?t mod 4] =>
      replace (slen t mod 4) with (slen s mod 4) end.
    2: { unfold slen. cbn [String.length]. rewrite !Nat2Z.inj_succ.
         rewrite <- (Z_mod_plus_full (Z.of_nat (String.length s)) 1 4). f_equal. lia. }
    destruct (0 <? slen s mod 4); cbn [String.append]; rewrite !translate_cons by lia;
      by rewrite IH.
Qed.

Lemma base64UrlDecode_raw s : base64UrlDecode (raw_url s) = Some s.
Proof.
  unfold base64UrlDecode, raw_url, b64_encode. cbv zeta.
  pose proof (pad_raw_encoding (bytes s) (bytes_are_bytes s)) as H. cbv zeta in H.
  unfold translate in H. rewrite H. apply b64_decode_encode.
Qed.

Lemma raw_url_no_dot s : free_of "." (raw_url s) = true.
Proof.
  unfold raw_url, b64_encode. pose proof (b64_encode_plain true false _ (bytes_are_bytes s)) as H.
  revert H. generalize (b64_encode_bytes true false (bytes s)) as t.
  induction t as [|c t IH]; [done|]. unfold free_of in *. simpl. intros [H1 H2]%andb_true_iff.
  rewrite IH by done. unfold is_plain in H1. apply andb_true_iff in H1 as [_ H1].
  apply negb_true_iff in H1. rewrite andb_true_r. apply negb_true_iff.
  destruct (Ascii.eqb c ".") eqn:E; [|done]. apply Ascii.eqb_eq in E as ->. done.
Qed.

(** The three parts of a minted token. *)
Lemma Split_mint secret header claims :
  let h := raw_url header in
  let p := raw_url (render (JObj claims)) in
  Split "." (mint secret header claims) = [h; p; raw_url (hmac_sha256 secret (signing_input h p))].
Proof.
  cbv zeta. unfold mint. cbv zeta. cbn [String.append].
  rewrite Split_app by apply raw_url_no_dot. cbn [String.append].
  rewrite Split_app by apply raw_url_no_dot. by rewrite Split_free by apply raw_url_no_dot.
Qed.

Lemma ValidateJWT_mint secret header claims now :
  ValidateJWT (mint secret header claims) secret now
  = check_claims (render (JObj claims)) now.
Proof.
  unfold ValidateJWT. rewrite Split_mint. rewrite !base64UrlDecode_raw.
  by rewrite String.eqb_refl.
Qed.

Lemma claims_parse claims :
  json_wf (JObj claims) = true -> json_depth (JObj claims) <= maxNestingDepth ->
  claim_entries (render (JObj claims)) = Some claims.
Proof. intros H1 H2. unfold claim_entries. by rewrite json_parse_render. Qed.

Lemma user_claims_ok username exp iat :
  utf8_valid username = true ->
  claim_entries (render (JObj (user_claims username exp iat))) = Some (user_claims username exp iat).
Proof.
  intros H. apply claims_parse; [|done]. cbn [json_wf forallb user_claims fst snd].
  by rewrite H, !Itoa_lit.
Qed.

Lemma check_user_claims username exp iat now :
  utf8_valid username = true -> in_i64 exp ->
  check_claims (render (JObj (user_claims username exp iat))) now
  = if (0 <? exp) && (exp <? now / second) then None else Some username.
Proof.
  intros Hu He. unfold check_claims. rewrite user_claims_ok by done.
  assert (field dec_string "username" ""%string (user_claims username exp iat) = Some username) as ->
    by done.
  assert (field dec_int "exp" 0 (user_claims username exp iat) = Some exp) as ->; [|done].
  transitivity (match parse_int64 (Itoa exp) with Some x => Some x | None => None end);
    [reflexivity|by rewrite parse_int64_Itoa].
Qed.

Lemma revoked_user_claims m username exp iat :
  utf8_valid username = true -> in_i64 iat ->
  revoked m username (render (JObj (user_claims username exp iat)))
  = match m !! username with
    | Some rev => (0 <? iat) && unix_before iat rev
    | None => false
    end.
Proof.
  intros Hu Hi. unfold revoked. rewrite user_claims_ok by done.
  assert (field dec_int "policy_ver" 0 (user_claims username exp iat) = Some 0) as -> by done.
  assert (field dec_int "iat" 0 (user_claims username exp iat) = Some iat) as ->; [|done].
  transitivity (match parse_int64 (Itoa iat) with Some x => Some x | None => None end);
    [reflexivity|by rewrite parse_int64_Itoa].
Qed.

(** For instants the 64-bit seconds can represent, [Before] is [<]. *)
Lemma unix_before_spec iat rev :
  0 <= iat < 2 ^ 62 -> unix_before iat rev = (iat * second <? rev).
Proof.
  intros Hi. unfold unix_before, unixToInternal. rewrite i64_id by (unfold in_i64; lia).
  apply Bool.eq_true_iff_eq. rewrite orb_true_iff, andb_true_iff, !Z.ltb_lt, Z.eqb_eq.
  unfold second. Z.to_euclidean_division_equations. lia.
Qed.

(** ** Properties *)

(** C3. Soundness and completeness of the signature check: every accepted
    token consists of three parts whose third decodes to the HMAC, under the
    gateway's secret, of the first two; and a token minted with that secret is
    accepted for its user exactly until its expiry (for ever without one). *)
Theorem jwt_authentic secret now :
  (forall tok u, ValidateJWT tok secret now = Some u ->
     exists h p s, tok = (h ++ "." ++ p ++ "." ++ s)%string /\
       base64UrlDecode s = Some (hmac_sha256 secret (signing_input h p))) /\
  (forall header username exp iat, utf8_valid username = true -> in_i64 exp ->
     ValidateJWT (mint secret header (user_claims username exp iat)) secret now
     = if (0 <? exp) && (exp <? now / second) then None else Some username).
Proof.
  split.
  - intros tok u. unfold ValidateJWT.
    destruct (Split "." tok) as [|h [|p [|s [|]]]] eqn:Hs; try done.
    destruct (base64UrlDecode s) as [sig|] eqn:Hd; [|done].
    destruct (String.eqb sig _) eqn:He; [|done]. apply String.eqb_eq in He as ->.
    intros _. exists h, p, s. split; [|done].
    rewrite <- (Join_Split "." tok), Hs. done.
  - intros header username exp iat Hu He. rewrite ValidateJWT_mint. by apply check_user_claims.
Qed.

(** C14. Revocation: after [RevokeUserSession u] at [t], a still valid token
    of [u] is refused exactly when it carries a positive issue time before
    [t]; in particular a token without one stays valid.  Tokens of other users
    are not affected. *)
Theorem revocation_exact secret header m u t now username exp iat :
  utf8_valid username = true -> in_i64 exp -> 0 <= iat < 2 ^ 62 ->
  (0 <? exp) && (exp <? now / second) = false ->
  let tok := mint secret header (user_claims username exp iat) in
  ValidateJWTWithPolicy (RevokeUserSession m u t) tok secret now
  = if String.eqb username u
    then (if (0 <? iat) && (iat * second <? t) then None else Some username)
    else ValidateJWTWithPolicy m tok secret now.
Proof.
  intros Hu He Hi Hexp. cbv zeta. unfold ValidateJWTWithPolicy.
  rewrite ValidateJWT_mint, check_user_claims, Hexp by done. rewrite Split_mint.
  rewrite base64UrlDecode_raw, !revoked_user_claims by (done || (unfold in_i64; lia)).
  unfold RevokeUserSession. destruct (String.eqb username u) eqn:E; breflect.
  - subst. rewrite lookup_insert_eq. by rewrite unix_before_spec.
  - by rewrite lookup_insert_ne by done.
Qed.

(** ** Witnesses *)

Lemma jwt_authentic_witness :
  ValidateJWT (mint "s3cret" "h" (user_claims "ann" 100 5)) "s3cret" (100 * second)
  = Some "ann"%string.
Proof.
  destruct (jwt_authentic "s3cret" (100 * second)) as [_ H].
  rewrite (H "h" "ann" 100 5)%string; [reflexivity|reflexivity|unfold in_i64; lia].
Defined.

Lemma revocation_exact_witness :
  ValidateJWTWithPolicy (RevokeUserSession ∅ "ann" (10 * second))
    (mint "s3cret" "h" (user_claims "ann" 100 5)) "s3cret" (20 * second) = None /\
  ValidateJWTWithPolicy (RevokeUserSession ∅ "ann" (10 * second))
    (mint "s3cret" "h" (user_claims "ann" 100 0)) "s3cret" (20 * second) = Some "ann"%string.
Proof.
  split.
  - rewrite (revocation_exact "s3cret" "h" ∅ "ann" (10 * second) (20 * second) "ann" 100 5)%string;
      [reflexivity|reflexivity|unfold in_i64; lia|lia|reflexivity].
  - rewrite (revocation_exact "s3cret" "h" ∅ "ann" (10 * second) (20 * second) "ann" 100 0)%string;
      [reflexivity|reflexivity|unfold in_i64; lia|lia|reflexivity].
Defined.

(** An issue time with a fraction fails to decode, and the token survives the
    revocation of its user. *)
Example fractional_iat_survives_revocation :
  let claims := [("username"%string, JStr "ann"); ("iat"%string, JNum "5.5")] in
  ValidateJWTWithPolicy (RevokeUserSession ∅ "ann" (10 * second))
    (mint "s3cret" "h" claims) "s3cret" (20 * second) = Some "ann"%string.
Proof. vm_compute. reflexivity. Qed.

(** A malformed token is refused. *)
Example two_parts_refused : ValidateJWT "a.b" "s3cret" 0 = None.
Proof. vm_compute. reflexivity. Qed.

End Token.
