(* ===== verification/Access.v ===== *)
(** * Client addresses and IP access lists (pkg/proxy/handler.go)

    [checkIPAccess] and the client address of [ServeHTTP], on executable
    versions of [net.ParseIP], [net.ParseCIDR], [net.SplitHostPort].  An
    address is its 16-byte form as a 128-bit number. *)

From S2P Require Import Prelude GoStrings GoFloat Encoding Json.
Open Scope Z_scope.

Module Access.

(** ** [net/netip] *)

(** One octet: digits, no leading zero, at most 255. *)
Definition parse_octet (s : string) : option Z :=
  if sforall is_digit s && negb (String.eqb s "") && (slen s <=? 3) then
    let v := digits_value 0 s in
    if (v <=? 255) && ((slen s =? 1) || negb (HasPrefix s "0")) then Some v else None
  else None.

(** Four octets separated by dots. *)
Definition parse_ipv4 (s : string) : option Z :=
  match map parse_octet (Split "." s) with
  | [Some a; Some b; Some c; Some d] => Some (((a * 256 + b) * 256 + c) * 256 + d)
  | _ => None
  end.

(** The longest run of hexadecimal digits, its value and what follows. *)
Fixpoint take_hex (acc : Z) (s : string) : Z * Z * string :=
  match s with
  | String c t =>
      match hex_value c with
      | Some v => let '(n, x, r) := take_hex (acc * 16 + v) t in (n + 1, x, r)
      | None => (0, acc, s)
      end
  | EmptyString => (0, acc, "")
  end.

(** The groups of an IPv6 address read so far, in order, with the position of
    the ellipsis; the loop runs while there is room for a group. *)
Fixpoint ipv6_groups (fuel : nat) (gs : list Z) (ellipsis : option nat) (s : string)
  : option (list Z * option nat) :=
  match fuel with
  | O => if String.eqb s "" then Some (gs, ellipsis) else None
  | S f =>
      let '(off, acc, r) := take_hex 0 s in
      if (off =? 0) || (4 <? off) then None
      else match r with
      | EmptyString => Some (gs ++ [acc], ellipsis)
      | String c t =>
          if byte_of c =? 46 then
            (* a trailing IPv4 address takes two groups *)
            if match ellipsis with None => negb (length gs =? 6)%nat | Some _ => (6 <? length gs)%nat end
            then None
            else match parse_ipv4 s with
                 | Some v => Some (gs ++ [v / 65536; v mod 65536], ellipsis)
                 | None => None
                 end
          else if negb (byte_of c =? 58) then None
          else
            let gs := gs ++ [acc] in
            match t with
            | EmptyString => None
            | String c' t' =>
                if byte_of c' =? 58 then
                  match ellipsis with
                  | Some _ => None
                  | None => if String.eqb t' "" then Some (gs, Some (length gs))
                            else ipv6_groups f gs (Some (length gs)) t'
                  end
                else ipv6_groups f gs ellipsis t
            end
      end
  end.

Definition groups_value (gs : list Z) : Z := fold_left (fun acc g => acc * 65536 + g) gs 0.

Definition parse_ipv6 (s : string) : option Z :=
  let start :=
    match s with
    | String a (String b t) =>
        if (byte_of a =? 58) && (byte_of b =? 58) then (Some O, t) else (None, s)
    | _ => (None, s)
    end in
  let '(ellipsis, t) := start in
  match ellipsis, t with
  | Some _, EmptyString => Some 0
  | _, _ =>
      match ipv6_groups 8 [] ellipsis t with
      | None => None
      | Some (gs, e) =>
          if (length gs <? 8)%nat then
            match e with
            | None => None
            | Some k => Some (groups_value (take k gs ++ repeat 0 (8 - length gs) ++ drop k gs))
            end
          else match e with None => Some (groups_value gs) | Some _ => None end
      end
  end.

Definition v4_prefix : Z := 65535.
Definition of_v4 (a : Z) : Z := v4_prefix * 2 ^ 32 + a.
Definition is_v4 (ip : Z) : bool := Z.shiftr ip 32 =? v4_prefix.

(** Which of the bytes ['.'], [':'], ['%'] comes first decides the syntax. *)
Fixpoint addr_kind (s : string) : Z :=
  match s with
  | EmptyString => 0
  | String c t =>
      if byte_of c =? 46 then 4 else if byte_of c =? 58 then 6
      else if byte_of c =? 37 then 0 else addr_kind t
  end.

(** [netip.ParseAddr]: the bit length and the 16-byte form; addresses with a
    zone are refused by its callers [net.ParseIP] and [net.ParseCIDR]. *)
Definition parse_addr (s : string) : option (Z * Z) :=
  if addr_kind s =? 4 then (fun a => (32, of_v4 a)) <$> parse_ipv4 s
  else if addr_kind s =? 6 then
    match index_byte s "%" with Some _ => None | None => (fun a => (128, a)) <$> parse_ipv6 s end
  else None.

Definition ParseIP (s : string) : option Z := snd <$> parse_addr s.

(** A network: its masked 16-byte address and its prefix length in 128 bits. *)
Record IPNet := { net_addr : Z; net_len : Z; net_v4 : bool }.

Definition mask_addr (a n : Z) : Z := Z.shiftl (Z.shiftr a (128 - n)) (128 - n).

Definition ParseCIDR (s : string) : option IPNet :=
  match index_byte s "/" with
  | None => None
  | Some i =>
      let mask := sdrop (S i) s in
      match parse_addr (stake i s) with
      | None => None
      | Some (bits, a) =>
          if sforall is_digit mask && negb (String.eqb mask "") && (digits_value 0 mask <=? bits)
          then
            let n := 128 - bits + digits_value 0 mask in
            let m := mask_addr a n in
            Some {| net_addr := m; net_len := n; net_v4 := (bits =? 32) || is_v4 m |}
          else None
      end
  end.

(** [IPNet.Contains]: same family and same network bits. *)
Definition net_contains (n : IPNet) (ip : Z) : bool :=
  Bool.eqb (is_v4 ip) (net_v4 n) &&
  (Z.shiftr ip (128 - net_len n) =? Z.shiftr (net_addr n) (128 - net_len n)).

(** [net.SplitHostPort]: the host; its errors leave the host empty. *)
Definition split_host (hostport : string) : option string :=
  match last_index_byte hostport ":" with
  | None => None
  | Some i =>
      if HasPrefix hostport "[" then
        match index_byte hostport "]" with
        | None => None
        | Some e =>
            if (S e =? i)%nat then
              match index_byte (sdrop 1 hostport) "[", index_byte (sdrop (S e) hostport) "]" with
              | None, None => Some (stake (e - 1) (sdrop 1 hostport))
              | _, _ => None
              end
            else None
        end
      else
        let host := stake i hostport in
        match index_byte host ":", index_byte hostport "[", index_byte hostport "]" with
        | None, None, None => Some host
        | _, _, _ => None
        end
  end.

(** ** The gateway's checks *)

(** The client address of [ServeHTTP]: the host of [RemoteAddr], or all of it
    without its brackets. *)
Definition client_ip (remoteAddr : string) : string :=
  let host := default ""%string (split_host remoteAddr) in
  if String.eqb host "" then
    if HasPrefix remoteAddr "[" && HasSuffix remoteAddr "]"
    then stake (String.length remoteAddr - 2) (sdrop 1 remoteAddr)
    else remoteAddr
  else host.

Definition ipMatches (ip : Z) (pattern : string) : bool :=
  let exact := match ParseIP pattern with Some p => p =? ip | None => false end in
  if Contains pattern "/" then
    match ParseCIDR pattern with
    | Some subnet => net_contains subnet ip
    | None => exact
    end
  else exact.

Definition checkIPAccess (clientIP : string) (allowlist blocklist : list string) : bool :=
  match ParseIP clientIP with
  | None => true
  | Some parsedIP =>
      if existsb (ipMatches parsedIP) blocklist then false
      else match allowlist with
           | [] => true
           | _ => existsb (ipMatches parsedIP) allowlist
           end
  end.

Example parse_ip_examples :
  map ParseIP ["10.0.0.1"; "10.0.0.01"; "::1"; "::ffff:10.0.0.1"; "1:2:3:4:5:6:7:8"; "1::8";
               "fe80::1%eth0"; "1:2:3:4:5:6:7::8"; "256.0.0.1"; "::"; "1:2:3:4:5:6:1.2.3.4"]%string
  = [Some (of_v4 167772161); None; Some 1; Some (of_v4 167772161);
     Some 5192455318486707404433266433261576; Some (2 ^ 112 + 8); None; None; None; Some 0;
     Some 5192455318486707404433266449711876].
Proof. by vm_compute. Qed.

Example client_ip_examples :
  map client_ip ["10.0.0.1:5000"; "[::1]:80"; "[::1]"; "10.0.0.1"; "::1"; "[fe80::1%eth0]:80"]%string
  = ["10.0.0.1"; "::1"; "::1"; "10.0.0.1"; "::1"; "fe80::1%eth0"]%string.
Proof. by vm_compute. Qed.

(** ** Lemmas *)

(** The dotted form of an IPv4 address. *)
Definition octets (a : Z) : list Z :=
  [a / 16777216; a / 65536 mod 256; a / 256 mod 256; a mod 256].

Definition dotted (a : Z) : string := Join (map Itoa (octets a)) ".".

Definition is_ipv4 (a : Z) : Prop := 0 <= a < 2 ^ 32.

Lemma octets_bounds a : is_ipv4 a -> Forall (fun x => 0 <= x < 256) (octets a).
Proof.
  unfold is_ipv4, octets. intros Ha. repeat constructor; Z.to_euclidean_division_equations; lia.
Qed.

Lemma octet_ok x : 0 <= x < 256 ->
  parse_octet (Itoa x) = Some x /\ free_of "." (Itoa x) = true /\ free_of "/" (Itoa x) = true /\
  sforall is_digit (Itoa x) = true.
Proof.
  intros Hx.
  assert (forallb (fun n => let s := Itoa (Z.of_nat n) in
    bool_decide (parse_octet s = Some (Z.of_nat n)) && free_of "." s && free_of "/" s
    && sforall is_digit s) (seq 0 256) = true) as H by by vm_compute.
  rewrite forallb_forall in H. specialize (H (Z.to_nat x) ltac:(apply in_seq; lia)).
  cbv zeta in H. rewrite Z2Nat.id in H by lia. breflect. done.
Qed.

Lemma sforall_Join (p : ascii -> bool) ws sep :
  Forall (fun w => sforall p w = true) ws -> sforall p sep = true -> sforall p (Join ws sep) = true.
Proof.
  intros H Hs. induction H as [|w ws Hw Hws IH]; [done|]. destruct ws as [|w' ws]; [done|].
  rewrite Join_cons by done. by rewrite !sforall_app, Hw, Hs, IH.
Qed.

Lemma addr_kind_digits s t : sforall is_digit s = true -> addr_kind (s ++ String "." t) = 4.
Proof.
  induction s as [|c s IH]; [done|]. simpl. intros [Hc Hs]%andb_true_iff.
  unfold is_digit, in_range in Hc. breflect.
  rewrite !(proj2 (Z.eqb_neq _ _)) by lia. by apply IH.
Qed.

Lemma parse_ipv4_dotted a : is_ipv4 a -> parse_ipv4 (dotted a) = Some a.
Proof.
  intros Ha. pose proof (octets_bounds a Ha) as Ho. unfold parse_ipv4, dotted.
  rewrite Split_Join; [|done|].
  - rewrite map_map. rewrite (map_ext_in _ Some).
    + simpl. f_equal. unfold is_ipv4 in Ha. Z.to_euclidean_division_equations. lia.
    + intros x Hx. rewrite List.Forall_forall in Ho. by apply octet_ok, Ho.
  - apply List.Forall_map. eapply List.Forall_impl; [|exact Ho]. intros x Hx. by apply octet_ok.
Qed.

Lemma parse_addr_dotted a : is_ipv4 a -> parse_addr (dotted a) = Some (32, of_v4 a).
Proof.
  intros Ha. unfold parse_addr.
  assert (addr_kind (dotted a) = 4) as ->.
  { apply addr_kind_digits. pose proof (octets_bounds a Ha) as Ho. inversion Ho; subst.
    by apply octet_ok. }
  simpl. by rewrite parse_ipv4_dotted.
Qed.

Lemma index_byte_app c s t : free_of c s = true -> index_byte (s ++ String c t) c = Some (String.length s).
Proof.
  unfold free_of. induction s as [|a s IH]; simpl.
  - by rewrite Ascii.eqb_refl.
  - intros [H1 H2]%andb_true_iff. apply negb_true_iff in H1. rewrite H1. by rewrite IH.
Qed.

Lemma dotted_no_slash a : is_ipv4 a -> free_of "/" (dotted a) = true.
Proof.
  intros Ha. apply sforall_Join; [|done]. pose proof (octets_bounds a Ha) as Ho.
  apply List.Forall_map. eapply List.Forall_impl; [|exact Ho]. intros x Hx. by apply octet_ok.
Qed.

Lemma Itoa_digits n : 0 <= n ->
  sforall is_digit (Itoa n) = true /\ Itoa n <> ""%string /\ digits_value 0 (Itoa n) = n.
Proof.
  intros Hn. unfold Itoa. rewrite (proj2 (Z.ltb_ge _ _)) by done.
  destruct (digits_numeral n Hn) as (? & ? & ? & _). done.
Qed.

Lemma ParseCIDR_dotted a n :
  is_ipv4 a -> 0 <= n <= 32 ->
  ParseCIDR (dotted a ++ "/" ++ Itoa n)
  = Some {| net_addr := mask_addr (of_v4 a) (96 + n); net_len := 96 + n; net_v4 := true |}.
Proof.
  intros Ha Hn. destruct (Itoa_digits n) as (H1 & H2 & H3); [lia|].
  unfold ParseCIDR. cbn [String.append]. rewrite index_byte_app by by apply dotted_no_slash.
  assert (sdrop (S (String.length (dotted a))) (dotted a ++ String "/" (Itoa n)) = Itoa n) as ->.
  { generalize (dotted a) as s. induction s as [|c s IH]; [done|]. simpl. exact IH. }
  rewrite stake_app, parse_addr_dotted by done. rewrite H1, H3.
  rewrite (proj2 (String.eqb_neq _ _) H2). simpl. by rewrite (proj2 (Z.leb_le _ _)) by lia.
Qed.

(** A network address keeps the network bits. *)
Lemma mask_addr_shiftr a n : n <= 128 ->
  Z.shiftr (mask_addr a n) (128 - n) = Z.shiftr a (128 - n).
Proof. intros Hn. unfold mask_addr. by rewrite Z.shiftr_shiftl_l, Z.sub_diag, Z.shiftl_0_r by lia. Qed.

Lemma of_v4_bits a n : is_ipv4 a -> 0 <= n <= 32 ->
  Z.shiftr (of_v4 a) (32 - n) = v4_prefix * 2 ^ n + a / 2 ^ (32 - n).
Proof.
  intros Ha Hn. unfold of_v4. rewrite Z.shiftr_div_pow2 by lia.
  replace (2 ^ 32) with (2 ^ n * 2 ^ (32 - n)) by (rewrite <- Z.pow_add_r by lia; f_equal; lia).
  rewrite Z.mul_assoc. by rewrite Z.div_add_l by (apply Z.pow_nonzero; lia).
Qed.

Lemma of_v4_is_v4 a : is_ipv4 a -> is_v4 (of_v4 a) = true.
Proof.
  intros Ha. unfold is_v4. pose proof (of_v4_bits a 0 Ha ltac:(lia)) as H.
  change (32 - 0) with 32 in H. rewrite H. unfold is_ipv4 in Ha. by rewrite Z.div_small by lia.
Qed.

Lemma net_contains_v4 a b n :
  is_ipv4 a -> is_ipv4 b -> 0 <= n <= 32 ->
  net_contains {| net_addr := mask_addr (of_v4 b) (96 + n); net_len := 96 + n; net_v4 := true |}
    (of_v4 a)
  = (a / 2 ^ (32 - n) =? b / 2 ^ (32 - n)).
Proof.
  intros Ha Hb Hn. unfold net_contains. cbn [net_addr net_len net_v4].
  rewrite of_v4_is_v4, mask_addr_shiftr by (done || lia). simpl Bool.eqb. rewrite andb_true_l.
  replace (128 - (96 + n)) with (32 - n) by lia. rewrite !of_v4_bits by done.
  apply Bool.eq_true_iff_eq. rewrite !Z.eqb_eq. lia.
Qed.

Lemma ipMatches_cidr a b n :
  is_ipv4 a -> is_ipv4 b -> 0 <= n <= 32 ->
  ipMatches (of_v4 a) (dotted b ++ "/" ++ Itoa n) = (a / 2 ^ (32 - n) =? b / 2 ^ (32 - n)).
Proof.
  intros Ha Hb Hn. unfold ipMatches.
  rewrite (proj2 (Contains_spec _ "/")) by (exists (dotted b), (Itoa n); done).
  by rewrite ParseCIDR_dotted, net_contains_v4 by done.
Qed.

(** ** Properties *)

(** C29. IP access on IPv4 networks is exact: a blocked network refuses
    precisely the clients that share its prefix, whatever the allow list; and
    when no blocked network matches, a non-empty allow list admits precisely
    the clients of its networks. *)
Theorem ip_access_exact a allow block :
  is_ipv4 a ->
  Forall (fun bn => is_ipv4 (fst bn) /\ 0 <= snd bn <= 32) (allow ++ block) ->
  let pattern bn := (dotted (fst bn) ++ "/" ++ Itoa (snd bn))%string in
  let inside bn := a / 2 ^ (32 - snd bn) = fst bn / 2 ^ (32 - snd bn) in
  checkIPAccess (dotted a) (map pattern allow) (map pattern block) = true <->
  Forall (fun bn => ~ inside bn) block /\ (allow = [] \/ Exists inside allow).
Proof.
  intros Ha [Hal Hbl]%Forall_app pattern inside. unfold checkIPAccess, ParseIP.
  rewrite parse_addr_dotted by done. simpl.
  assert (Hm : forall l, Forall (fun bn => is_ipv4 (fst bn) /\ 0 <= snd bn <= 32) l ->
    existsb (ipMatches (of_v4 a)) (map pattern l) = true <-> Exists inside l).
  { intros l Hl. induction Hl as [|bn l [H1 H2] _ IH]; simpl; [by rewrite Exists_nil|].
    rewrite orb_true_iff, Exists_cons, IH. unfold pattern at 1.
    by rewrite ipMatches_cidr, Z.eqb_eq by done. }
  destruct (existsb (ipMatches (of_v4 a)) (map pattern block)) eqn:Eb.
  - split; [done|]. intros [Hno _]. apply Hm in Eb; [|done].
    apply Exists_exists in Eb as (bn & Hin & Hi). rewrite Forall_forall in Hno. by destruct (Hno bn).
  - assert (Hno : Forall (fun bn => ~ inside bn) block).
    { apply Forall_Exists_neg. intros H. apply Hm in H; [congruence|done]. }
    destruct allow as [|bn allow]; [by intuition|].
    specialize (Hm (bn :: allow) Hal). simpl in Hm |- *. rewrite Hm. intuition. done.
Qed.

(** ** Witnesses *)

Lemma ip_access_exact_witness :
  checkIPAccess "10.1.2.3" ["10.0.0.0/8"] ["10.2.0.0/16"]%string = true.
Proof.
  apply (ip_access_exact 167838211 [(167772160, 8)] [(167903232, 16)]).
  - unfold is_ipv4. lia.
  - repeat constructor; unfold is_ipv4; simpl; lia.
  - split; [repeat constructor; simpl; discriminate|]. right. constructor. reflexivity.
Defined.

(** A client address that does not parse, such as a link-local one with its
    zone, passes every list. *)
Example zoned_client_passes :
  checkIPAccess (client_ip "[fe80::1%eth0]:4711") ["10.0.0.0/8"] ["fe80::/10"]%string = true /\
  checkIPAccess "fe80::1" [] ["fe80::/10"]%string = false.
Proof. by vm_compute. Qed.

End Access.
