(* ===== verification/Policy.v ===== *)
(** * The policy engine (ServShared/pkg/policy/policy.go, handler.go)

    [EvaluatePolicy] and [matchPath], the parser of policy documents, and the
    roles and headers [extractUserRolesAndHeaders] feeds them. *)

From S2P Require Import Prelude GoStrings GoFloat Encoding Json Token.
Open Scope Z_scope.

Module Policy.

Record PolicyRule := {
  ID : string;
  Action : string;
  Methods : list string;
  Path : string;
  Roles : list string;
  RuleHeaders : gmap string string;
  RuleRateLimitRPM : Z;
  RedactFields : list string;
}.

Record PolicySchema := { Version : Z; Rules : list PolicyRule }.

Definition zero_rule : PolicyRule :=
  {| ID := ""; Action := ""; Methods := []; Path := ""; Roles := []; RuleHeaders := ∅;
     RuleRateLimitRPM := 0; RedactFields := [] |}.

(** [ParsePolicySchema]. *)
Definition decode_rule (cur : PolicyRule) (v : json) : option PolicyRule :=
  es ← obj_entries v;
  id ← field dec_string "id" (ID cur) es;
  action ← field dec_string "action" (Action cur) es;
  methods ← field (dec_slice dec_string "") "methods" (Methods cur) es;
  path ← field dec_string "path" (Path cur) es;
  roles ← field (dec_slice dec_string "") "roles" (Roles cur) es;
  headers ← field (dec_map dec_string "") "headers" (RuleHeaders cur) es;
  limit ← field dec_int "rate_limit_rpm" (RuleRateLimitRPM cur) es;
  redact ← field (dec_slice dec_string "") "redact_fields" (RedactFields cur) es;
  Some {| ID := id; Action := action; Methods := methods; Path := path; Roles := roles;
          RuleHeaders := headers; RuleRateLimitRPM := limit; RedactFields := redact |}.

Definition ParsePolicySchema (data : string) : option PolicySchema :=
  v ← json_parse data;
  es ← obj_entries v;
  version ← field dec_int "version" 0 es;
  rules ← field (dec_slice decode_rule zero_rule) "rules" [] es;
  Some {| Version := version; Rules := rules |}.

Definition matchPath (pattern path : string) : bool :=
  if String.eqb pattern "*" || String.eqb pattern "/*" then true
  else if String.eqb pattern path then true
  else if HasSuffix pattern "/*" then HasPrefix path (TrimSuffix pattern "/*")
  else false.

Definition method_match (rule : PolicyRule) (reqMethod : string) : bool :=
  existsb (fun m => String.eqb m "*" || EqualFold m reqMethod) (Methods rule).

(** The inner [break] only leaves the loop over the user's roles. *)
Definition role_match (rule : PolicyRule) (userRoles : list string) : bool :=
  existsb (fun reqRole => String.eqb reqRole "*" || existsb (fun r => EqualFold r reqRole) userRoles)
    (Roles rule).

Definition header_match_one (reqHeaders : gmap string string) (h : string * string) : bool :=
  let actualVal := default ""%string (reqHeaders !! ToLower (fst h)) in
  let actualVal :=
    if String.eqb actualVal "" then default ""%string (reqHeaders !! fst h) else actualVal in
  String.eqb actualVal (snd h).

(** [hs] is the order in which [range rule.Headers] visits the map. *)
Definition header_match (hs : list (string * string)) (reqHeaders : gmap string string) : bool :=
  forallb (header_match_one reqHeaders) hs.

Record verdict := {
  v_action : string; v_redact : list string; v_limit : Z; v_matched : bool;
}.

Definition default_verdict : verdict :=
  {| v_action := "allow"; v_redact := []; v_limit := 0; v_matched := false |}.

(** The tests of one rule, in order; [continue] at the first that fails. *)
Definition rule_applies (order : PolicyRule -> list (string * string)) (reqMethod reqPath : string)
    (reqHeaders : gmap string string) (userRoles : list string) (rule : PolicyRule) : bool :=
  if negb (method_match rule reqMethod) then false
  else if negb (matchPath (Path rule) reqPath) then false
  else if (0 <? lenZ (Roles rule)) && negb (role_match rule userRoles) then false
  else header_match (order rule) reqHeaders.

Fixpoint evaluate_rules (order : PolicyRule -> list (string * string)) (reqMethod reqPath : string)
    (reqHeaders : gmap string string) (userRoles : list string) (rules : list PolicyRule) : verdict :=
  match rules with
  | [] => default_verdict
  | rule :: rules' =>
      if rule_applies order reqMethod reqPath reqHeaders userRoles rule
      then {| v_action := Action rule; v_redact := RedactFields rule;
              v_limit := RuleRateLimitRPM rule; v_matched := true |}
      else evaluate_rules order reqMethod reqPath reqHeaders userRoles rules'
  end.

Definition EvaluatePolicy (order : PolicyRule -> list (string * string)) (reqMethod reqPath : string)
    (reqHeaders : gmap string string) (userRoles : list string) (schema : option PolicySchema)
  : verdict :=
  match schema with
  | None => default_verdict
  | Some s => evaluate_rules order reqMethod reqPath reqHeaders userRoles (Rules s)
  end.

(** The orders a Go map may be visited in. *)
Definition map_order (order : PolicyRule -> list (string * string)) : Prop :=
  forall rule, order rule ≡ₚ map_to_list (RuleHeaders rule).

(** ** Roles and headers of a request *)

(** The roles claimed by a bearer token; its signature is not looked at. *)
Definition token_roles (authHeader : string) : list string :=
  let anonymous := ["anonymous"%string] in
  if HasPrefix authHeader "Bearer " then
    match Split "." (TrimPrefix authHeader "Bearer ") with
    | [_; p; _] =>
        match Token.base64UrlDecode p with
        | None => anonymous
        | Some payload =>
            match Token.claim_entries payload with
            | None => anonymous
            | Some es =>
                match field (dec_slice dec_string "") "roles" [] es with
                | Some (r :: rs) => r :: rs
                | _ => anonymous
                end
            end
        end
    | _ => anonymous
    end
  else anonymous.

(** The first value of each header, by lower-case name. *)
Definition first_values (header : gmap string (list string)) : gmap string string :=
  list_to_map (omap (fun kv => match snd kv with
                               | v :: _ => Some (ToLower (fst kv), v)
                               | [] => None
                               end) (map_to_list header)).

(** [extractUserRolesAndHeaders]; [header.Get] is the first value of the
    canonical key. *)
Definition extractUserRolesAndHeaders (header : gmap string (list string))
  : list string * gmap string string :=
  let auth := match header !! "Authorization"%string with Some (v :: _) => v | _ => ""%string end in
  (token_roles auth, first_values header).

(** ** The contract of a rule *)

Definition path_covered (pattern path : string) : Prop :=
  pattern = "*"%string \/ pattern = path \/
  exists p rest, pattern = (p ++ "/*")%string /\ path = (p ++ rest)%string.

Definition satisfies (reqMethod reqPath : string) (reqHeaders : gmap string string)
    (userRoles : list string) (rule : PolicyRule) : Prop :=
  (exists m, m ∈ Methods rule /\ (m = "*"%string \/ EqualFold m reqMethod = true)) /\
  path_covered (Path rule) reqPath /\
  (Roles rule = [] \/ exists q, q ∈ Roles rule /\
     (q = "*"%string \/ exists r, r ∈ userRoles /\ EqualFold r q = true)) /\
  map_Forall (fun h v => header_match_one reqHeaders (h, v) = true) (RuleHeaders rule).

(** ** Lemmas *)

Lemma matchPath_spec pattern path : matchPath pattern path = true <-> path_covered pattern path.
Proof.
  unfold matchPath, path_covered. split.
  - destruct (String.eqb pattern "*") eqn:E1; [apply String.eqb_eq in E1; by left|].
    destruct (String.eqb pattern "/*") eqn:E2.
    { apply String.eqb_eq in E2 as ->. intros _. right; right. by exists ""%string, path. }
    simpl. destruct (String.eqb pattern path) eqn:E3; [apply String.eqb_eq in E3; intros _; auto|].
    destruct (HasSuffix pattern "/*") eqn:E4; [|done].
    apply HasSuffix_spec in E4 as [p ->]. rewrite TrimSuffix_app.
    intros [rest ->]%HasPrefix_spec. right; right. by exists p, rest.
  - intros [->|[->|(p & rest & -> & ->)]]; [done| |].
    + destruct (_ || _); [done|]. by rewrite String.eqb_refl.
    + destruct (_ || _); [done|]. destruct (String.eqb _ _); [done|].
      by rewrite HasSuffix_app, TrimSuffix_app, HasPrefix_app.
Qed.

Lemma existsb_elem {A} (f : A -> bool) l : existsb f l = true <-> exists x, x ∈ l /\ f x = true.
Proof.
  rewrite existsb_exists.
  split; intros (x & Hx & H); exists x; (split; [by apply list_elem_of_In|done]).
Qed.

Lemma rule_applies_spec order reqMethod reqPath reqHeaders userRoles rule :
  map_order order ->
  rule_applies order reqMethod reqPath reqHeaders userRoles rule = true
  <-> satisfies reqMethod reqPath reqHeaders userRoles rule.
Proof.
  intros Hord. unfold rule_applies, satisfies.
  assert (Hm : method_match rule reqMethod = true <->
    exists m, m ∈ Methods rule /\ (m = "*"%string \/ EqualFold m reqMethod = true)).
  { unfold method_match. rewrite existsb_elem. setoid_rewrite orb_true_iff.
    by setoid_rewrite String.eqb_eq. }
  assert (Hr : role_match rule userRoles = true <-> exists q, q ∈ Roles rule /\
     (q = "*"%string \/ exists r, r ∈ userRoles /\ EqualFold r q = true)).
  { unfold role_match. rewrite existsb_elem.
    split; intros (q & Hq & H); exists q; (split; [done|]).
    - apply orb_true_iff in H as [H|H]; [left; by apply String.eqb_eq|right; by apply existsb_elem].
    - apply orb_true_iff. destruct H as [->|H]; [by left|right; by apply existsb_elem]. }
  assert (Hh : header_match (order rule) reqHeaders = true <->
    map_Forall (fun h v => header_match_one reqHeaders (h, v) = true) (RuleHeaders rule)).
  { unfold header_match. rewrite forallb_forall. split.
    - intros H h v Hin. apply H. rewrite <- list_elem_of_In, (Hord rule).
      by apply elem_of_map_to_list.
    - intros H [h v] Hin. rewrite <- list_elem_of_In, (Hord rule) in Hin.
      apply elem_of_map_to_list in Hin. by apply H. }
  rewrite <- Hm, <- Hh, <- matchPath_spec, <- Hr.
  destruct (method_match rule reqMethod), (matchPath (Path rule) reqPath); simpl; try intuition done.
  destruct (Roles rule) as [|q qs] eqn:Eq; [simpl; intuition|].
  assert (0 <? lenZ (q :: qs) = true) as ->.
  { apply Z.ltb_lt. rewrite lenZ_cons. pose proof (lenZ_nonneg qs). lia. }
  destruct (role_match rule userRoles); simpl; intuition done.
Qed.

Lemma evaluate_rules_spec order m p hs roles rules :
  map_order order ->
  (exists pre rule post, rules = pre ++ rule :: post /\
     Forall (fun r => ~ satisfies m p hs roles r) pre /\ satisfies m p hs roles rule /\
     evaluate_rules order m p hs roles rules
     = {| v_action := Action rule; v_redact := RedactFields rule;
          v_limit := RuleRateLimitRPM rule; v_matched := true |}) \/
  (Forall (fun r => ~ satisfies m p hs roles r) rules /\
   evaluate_rules order m p hs roles rules = default_verdict).
Proof.
  intros Hord. induction rules as [|rule rules IH]; simpl; [by right|].
  destruct (rule_applies order m p hs roles rule) eqn:E.
  - left. apply rule_applies_spec in E; [|done]. by exists [], rule, rules.
  - assert (Hno : ~ satisfies m p hs roles rule).
    { intros H. apply (rule_applies_spec order) in H; [congruence|done]. }
    destruct IH as [(pre & r & post & -> & Hpre & Hr & ->)|[Hall ->]].
    + left. exists (rule :: pre), r, post. split; [done|]. split; [by constructor|done].
    + right. split; [by constructor|done].
Qed.

(** ** Properties *)

(** C30. First match wins, whatever the iteration order of the header maps:
    the verdict is that of the first rule the request satisfies (method, path
    pattern, role, all headers), and to allow unmatched when there is none. *)
Theorem policy_first_match order m p hs roles schema :
  map_order order ->
  (exists pre rule post, Rules schema = pre ++ rule :: post /\
     Forall (fun r => ~ satisfies m p hs roles r) pre /\ satisfies m p hs roles rule /\
     EvaluatePolicy order m p hs roles (Some schema)
     = {| v_action := Action rule; v_redact := RedactFields rule;
          v_limit := RuleRateLimitRPM rule; v_matched := true |}) \/
  (Forall (fun r => ~ satisfies m p hs roles r) (Rules schema) /\
   EvaluatePolicy order m p hs roles (Some schema) = default_verdict).
Proof. apply evaluate_rules_spec. Qed.

(** Roles are whatever the client writes into its token: for any list of
    roles, any header part and any signature part, the bearer token carrying
    them yields exactly those roles. *)
Theorem roles_are_forgeable hd sg r rs :
  free_of "." hd = true -> free_of "." sg = true ->
  Forall (fun x => utf8_valid x = true) (r :: rs) ->
  let payload := render (JObj [("roles"%string, JArr (map JStr (r :: rs)))]) in
  fst (extractUserRolesAndHeaders
         {[ "Authorization"%string :=
              ["Bearer " ++ hd ++ "." ++ Token.raw_url payload ++ "." ++ sg]%string ]})
  = r :: rs.
Proof.
  intros Hh Hs Hu payload. unfold extractUserRolesAndHeaders. rewrite lookup_singleton_eq.
  cbn [fst]. unfold token_roles. rewrite HasPrefix_app, TrimPrefix_app.
  cbn [String.append]. rewrite Split_app by done. cbn [String.append].
  rewrite Split_app by apply Token.raw_url_no_dot. rewrite Split_free by done.
  rewrite Token.base64UrlDecode_raw. unfold payload.
  rewrite Token.claims_parse.
  - assert (Hd : dec_elems dec_string ""%string [] (map JStr (r :: rs)) = Some (r :: rs)).
    { generalize (r :: rs) as l. induction l as [|x l IH]; simpl; [done|]. by rewrite IH. }
    assert (field (dec_slice dec_string ""%string) "roles" []
      [("roles"%string, JArr (map JStr (r :: rs)))] = Some (r :: rs)) as ->; [|done].
    change (match dec_elems dec_string ""%string [] (map JStr (r :: rs)) with
            | Some x => Some x | None => None end = Some (r :: rs)).
    by rewrite Hd.
  - assert (Hwf : forallb json_wf (map JStr (r :: rs)) = true).
    { clear -Hu. induction Hu as [|x l Hx _ IH]; [done|]. simpl. by rewrite Hx. }
    transitivity (forallb json_wf (map JStr (r :: rs)) && true); [reflexivity|by rewrite Hwf].
  - assert (Hd : foldr Z.max 0 (map json_depth (map JStr (r :: rs))) = 0).
    { generalize (r :: rs) as l. induction l as [|x l IH]; [done|]. simpl in *. by rewrite IH. }
    transitivity (1 + Z.max (1 + foldr Z.max 0 (map json_depth (map JStr (r :: rs)))) 0).
    + reflexivity.
    + by rewrite Hd.
Qed.

(** ** Witnesses *)

Definition admin_rule : PolicyRule :=
  {| ID := "1"; Action := "deny"; Methods := ["GET"]; Path := "/admin/*"; Roles := [];
     RuleHeaders := ∅; RuleRateLimitRPM := 0; RedactFields := [] |}%string.

Definition by_map (rule : PolicyRule) : list (string * string) := map_to_list (RuleHeaders rule).

Lemma policy_first_match_witness :
  (exists pre rule post, [admin_rule] = pre ++ rule :: post /\
     Forall (fun r => ~ satisfies "GET" "/admin/x" ∅ [] r) pre /\
     satisfies "GET" "/admin/x" ∅ [] rule /\
     EvaluatePolicy by_map "GET" "/admin/x" ∅ [] (Some {| Version := 1; Rules := [admin_rule] |})
     = {| v_action := Action rule; v_redact := RedactFields rule;
          v_limit := RuleRateLimitRPM rule; v_matched := true |}) \/
  (Forall (fun r => ~ satisfies "GET" "/admin/x" ∅ [] r) [admin_rule] /\
   EvaluatePolicy by_map "GET" "/admin/x" ∅ [] (Some {| Version := 1; Rules := [admin_rule] |})
   = default_verdict).
Proof.
  apply (policy_first_match by_map "GET" "/admin/x" ∅ [] {| Version := 1; Rules := [admin_rule] |}).
  intros rule. reflexivity.
Defined.

Lemma roles_are_forgeable_witness :
  fst (extractUserRolesAndHeaders
         {[ "Authorization"%string :=
              ["Bearer " ++ "h" ++ "." ++
               Token.raw_url (render (JObj [("roles", JArr (map JStr ["admin"]))]))
               ++ "." ++ "forged"] ]})%string
  = ["admin"%string].
Proof.
  apply (roles_are_forgeable "h" "forged" "admin" []); [reflexivity|reflexivity|].
  repeat constructor.
Defined.

(** The pattern [/admin/*] also covers paths that only share the prefix. *)
Example wildcard_crosses_segment : matchPath "/admin/*" "/administrator" = true.
Proof. by vm_compute. Qed.

End Policy.
