(* ===== verification/Validation.v ===== *)
(** * Request validation (pkg/proxy/validation.go)

    [ValidateRequest]; the schema is visited in the order the map iteration
    happens to choose, an argument of the model. *)

From S2P Require Import Prelude GoStrings GoFloat Encoding Json.
Open Scope Z_scope.

Module Validation.

(** A rule is a comma-separated list of a type and [required]; the last type
    counts. *)
Definition parse_rule (rule : string) : bool * string :=
  fold_left (fun '(required, expectedType) p =>
      let p := TrimSpace p in
      if String.eqb p "required" then (true, expectedType)
      else if String.eqb p "" then (required, expectedType)
      else (required, p))
    (Split "," rule) (false, ""%string).

Definition field_error (field what : string) : option string :=
  Some ("Validation failed: field '" ++ field ++ "' " ++ what)%string.

(** [numVal != float64(int(numVal))]. *)
Definition integral (x : float64) : bool := feqb x (of_int (to_int x)).

(** The type switch. *)
Definition check_type (field expectedType : string) (val : any) : option string :=
  if String.eqb expectedType "string" then
    match val with AStr _ => None | _ => field_error field "must be a string" end
  else if String.eqb expectedType "email" then
    match val with
    | AStr s => if negb (Contains s "@") || negb (Contains s ".")
                then field_error field "must be a valid email" else None
    | _ => field_error field "must be a string"
    end
  else if String.eqb expectedType "int" || String.eqb expectedType "integer" then
    match val with
    | AFloat x => if integral x then None else field_error field "must be an integer"
    | _ => field_error field "must be an integer"
    end
  else if String.eqb expectedType "float" || String.eqb expectedType "number"
          || String.eqb expectedType "double" then
    match val with AFloat _ => None | _ => field_error field "must be a number" end
  else if String.eqb expectedType "bool" || String.eqb expectedType "boolean" then
    match val with ABool _ => None | _ => field_error field "must be a boolean" end
  else None.

(** One iteration of the loop: the error it returns, if any. *)
Definition check_field (data : list (string * any)) (fr : string * string) : option string :=
  let '(field, rule) := fr in
  let '(required, expectedType) := parse_rule rule in
  match assoc field data with
  | None | Some Nil => if required then field_error field "is required" else None
  | Some val => check_type field expectedType val
  end.

Fixpoint check_fields (data : list (string * any)) (schema : list (string * string))
  : option string :=
  match schema with
  | [] => None
  | fr :: schema' =>
      match check_field data fr with
      | Some e => Some e
      | None => check_fields data schema'
      end
  end.

(** [schema] lists the entries of the map in iteration order; the result is the
    error, if any. *)
Definition ValidateRequest (bodyBytes : string) (schema : list (string * string)) : option string :=
  match schema with
  | [] => None
  | _ =>
      if String.eqb bodyBytes "" then check_fields [] schema
      else match unmarshal_map bodyBytes with
           | None => Some "Validation failed: request body is not valid JSON"%string
           | Some data => check_fields data schema
           end
  end.

(** ** The contract of a schema

    The parts of a rule, whether one of them is [required], and the last of the
    others, which is the type. *)
Definition rule_parts (rule : string) : list string := map TrimSpace (Split "," rule).
Definition rule_required (rule : string) : bool := existsb (String.eqb "required") (rule_parts rule).
Definition rule_type (rule : string) : string :=
  default ""%string
    (list.last (List.filter (fun p => negb (String.eqb p "required") && negb (String.eqb p "")) (rule_parts rule))).

Definition has_type (expectedType : string) (val : any) : Prop :=
  match val with
  | AStr s => (expectedType = "email" -> Contains s "@" = true /\ Contains s "." = true) /\
              expectedType ∉ ["int"; "integer"; "float"; "number"; "double"; "bool"; "boolean"]
  | AFloat x => (expectedType ∈ ["int"; "integer"] -> integral x = true) /\
                expectedType ∉ ["string"; "email"; "bool"; "boolean"]
  | ABool _ => expectedType ∉ ["string"; "email"; "int"; "integer"; "float"; "number"; "double"]
  | _ => expectedType ∉ ["string"; "email"; "int"; "integer"; "float"; "number"; "double";
                         "bool"; "boolean"]
  end%string.

(** What the schema demands of a document's entries. *)
Definition conforms (data : list (string * any)) (fr : string * string) : Prop :=
  match assoc (fst fr) data with
  | None | Some Nil => rule_required (snd fr) = false
  | Some val => has_type (rule_type (snd fr)) val
  end.

(** What is said of a field that breaks its rule. *)
Definition complaint (field what : string) : string := ("Validation failed: field '" ++ field ++ "' " ++ what)%string.

Inductive violation (data : list (string * any)) (f rule : string) : string -> Prop :=
| vi_required :
    assoc f data = None \/ assoc f data = Some Nil -> rule_required rule = true ->
    violation data f rule (complaint f "is required")
| vi_string val :
    assoc f data = Some val -> val <> Nil -> rule_type rule ∈ ["string"; "email"]%string ->
    (forall s, val <> AStr s) -> violation data f rule (complaint f "must be a string")
| vi_email s :
    assoc f data = Some (AStr s) -> rule_type rule = "email"%string ->
    Contains s "@" = false \/ Contains s "." = false ->
    violation data f rule (complaint f "must be a valid email")
| vi_int val :
    assoc f data = Some val -> val <> Nil -> rule_type rule ∈ ["int"; "integer"]%string ->
    (forall x, val = AFloat x -> integral x = false) ->
    violation data f rule (complaint f "must be an integer")
| vi_number val :
    assoc f data = Some val -> val <> Nil -> rule_type rule ∈ ["float"; "number"; "double"]%string ->
    (forall x, val <> AFloat x) -> violation data f rule (complaint f "must be a number")
| vi_bool val :
    assoc f data = Some val -> val <> Nil -> rule_type rule ∈ ["bool"; "boolean"]%string ->
    (forall b, val <> ABool b) -> violation data f rule (complaint f "must be a boolean").

(** The document a body stands for. *)
Definition document (body : string) : option (list (string * any)) :=
  if String.eqb body "" then Some [] else unmarshal_map body.

(** ** Lemmas *)

Lemma parse_rule_spec rule : parse_rule rule = (rule_required rule, rule_type rule).
Proof.
  unfold parse_rule, rule_required, rule_type, rule_parts.
  assert (Hg : forall l r t, fold_left (fun '(required, expectedType) p =>
      let p := TrimSpace p in
      if String.eqb p "required" then (true, expectedType)
      else if String.eqb p "" then (required, expectedType) else (required, p)) l (r, t)
    = (r || existsb (String.eqb "required") (map TrimSpace l),
       default t (list.last (List.filter (fun p => negb (String.eqb p "required") && negb (String.eqb p ""))
                          (map TrimSpace l))))).
  { induction l as [|p l IH]; intros r t; [by rewrite orb_false_r|]. cbn [fold_left map existsb List.filter].
    cbv zeta. rewrite (String.eqb_sym "required").
    destruct (String.eqb (TrimSpace p) "required") eqn:E1; cbn [orb negb andb].
    { rewrite IH. by rewrite orb_true_r. }
    destruct (String.eqb (TrimSpace p) "") eqn:E2; cbn [negb]; rewrite IH; [done|]. f_equal.
    rewrite last_cons. by destruct (list.last _). }
  by rewrite Hg.
Qed.

Lemma check_type_spec field ty val :
  val <> Nil -> check_type field ty val = None <-> has_type ty val.
Proof.
  intros Hnil. unfold check_type, has_type, field_error.
  destruct (String.eqb ty "string") eqn:E1; [apply String.eqb_eq in E1 as ->; destruct val; split; set_solver|].
  destruct (String.eqb ty "email") eqn:E2.
  { apply String.eqb_eq in E2 as ->. destruct val as [| | |s| |]; try (split; set_solver).
    destruct (Contains s "@") eqn:A, (Contains s ".") eqn:B; simpl; split; set_solver. }
  destruct (String.eqb ty "int" || String.eqb ty "integer") eqn:E3.
  { rewrite !orb_true_iff, !String.eqb_eq in E3. destruct_or!; subst;
      (destruct val as [| |x| | |]; try (split; set_solver);
       destruct (integral x) eqn:I; split; set_solver). }
  destruct (String.eqb ty "float" || String.eqb ty "number" || String.eqb ty "double") eqn:E4.
  { rewrite !orb_true_iff, !String.eqb_eq in E4. destruct_or!; subst;
      destruct val; split; set_solver. }
  destruct (String.eqb ty "bool" || String.eqb ty "boolean") eqn:E5.
  { rewrite !orb_true_iff, !String.eqb_eq in E5. destruct_or!; subst;
      destruct val; split; set_solver. }
  breflect. split; [intros _|done]. destruct val; set_solver.
Qed.

Lemma check_field_spec data fr : check_field data fr = None <-> conforms data fr.
Proof.
  destruct fr as [f rule]. unfold check_field, conforms. simpl. rewrite parse_rule_spec.
  destruct (assoc f data) as [val|]; [|by destruct (rule_required rule)].
  destruct val; try (by destruct (rule_required rule)); by apply check_type_spec.
Qed.

(** The error of a type is the complaint about it. *)
Lemma check_type_complaint data f rule val e :
  assoc f data = Some val -> val <> Nil ->
  check_type f (rule_type rule) val = Some e -> violation data f rule e.
Proof.
  intros Ha Hn. unfold check_type, field_error.
  destruct (String.eqb (rule_type rule) "string") eqn:E1.
  { apply String.eqb_eq in E1. destruct val; intros [= <-]; (eapply vi_string; [exact Ha|done|set_solver|done]). }
  destruct (String.eqb (rule_type rule) "email") eqn:E2.
  { apply String.eqb_eq in E2.
    destruct val as [| | |s| |]; try (intros [= <-]; eapply vi_string; [exact Ha|done|set_solver|done]).
    destruct (negb _ || negb _) eqn:Ee; intros [= <-]. eapply vi_email; [exact Ha|done|].
    rewrite orb_true_iff, !negb_true_iff in Ee. exact Ee. }
  destruct (String.eqb (rule_type rule) "int" || String.eqb (rule_type rule) "integer") eqn:E3.
  { rewrite !orb_true_iff, !String.eqb_eq in E3.
    destruct val as [| |x| | |]; try (intros [= <-]; eapply vi_int; [exact Ha|done|set_solver|done]).
    destruct (integral x) eqn:Ei; intros [= <-]. eapply vi_int; [exact Ha|done|set_solver|].
    by intros ? [= <-]. }
  destruct (String.eqb (rule_type rule) "float" || String.eqb (rule_type rule) "number"
            || String.eqb (rule_type rule) "double") eqn:E4.
  { rewrite !orb_true_iff, !String.eqb_eq in E4.
    destruct val; intros [= <-]; (eapply vi_number; [exact Ha|done|set_solver|done]). }
  destruct (String.eqb (rule_type rule) "bool" || String.eqb (rule_type rule) "boolean") eqn:E5; [|done].
  rewrite !orb_true_iff, !String.eqb_eq in E5.
  destruct val; intros [= <-]; (eapply vi_bool; [exact Ha|done|set_solver|done]).
Qed.

Lemma check_field_complaint data f rule e : check_field data (f, rule) = Some e -> violation data f rule e.
Proof.
  unfold check_field. rewrite parse_rule_spec.
  destruct (assoc f data) as [val|] eqn:Ha.
  - destruct val; try (by eapply check_type_complaint).
    destruct (rule_required rule) eqn:Er; intros [= <-]. apply vi_required; auto.
  - destruct (rule_required rule) eqn:Er; intros [= <-]. apply vi_required; auto.
Qed.

(** A field has at most one complaint, and none when it conforms. *)
Lemma violation_check data f rule e : violation data f rule e -> check_field data (f, rule) = Some e.
Proof.
  unfold check_field. rewrite parse_rule_spec. intros [Ha Hr|val Ha Hn Ht Hv|s Ha Ht Hv|val Ha Hn Ht Hv|val Ha Hn Ht Hv|val Ha Hn Ht Hv].
  - rewrite Hr. by destruct Ha as [-> | ->].
  - rewrite Ha. unfold check_type.
    apply elem_of_cons in Ht as [->|[->|[]%not_elem_of_nil]%elem_of_cons];
      destruct val; try done; by destruct (Hv s).
  - rewrite Ha, Ht. unfold check_type. cbn. by destruct Hv as [-> | ->]; rewrite ?orb_true_r.
  - rewrite Ha. unfold check_type.
    apply elem_of_cons in Ht as [->|[->|[]%not_elem_of_nil]%elem_of_cons];
      destruct val as [| |x| | |]; try done; cbn; by rewrite (Hv x eq_refl).
  - rewrite Ha. unfold check_type.
    apply elem_of_cons in Ht as [->|[->|[->|[]%not_elem_of_nil]%elem_of_cons]%elem_of_cons];
      destruct val as [| |x| | |]; try done; by destruct (Hv x).
  - rewrite Ha. unfold check_type.
    apply elem_of_cons in Ht as [->|[->|[]%not_elem_of_nil]%elem_of_cons];
      destruct val as [|b| | | |]; try done; by destruct (Hv b).
Qed.

Lemma check_fields_spec data schema :
  check_fields data schema = None <-> Forall (conforms data) schema.
Proof.
  induction schema as [|fr schema IH]; simpl; [split; [constructor|done]|].
  destruct (check_field data fr) eqn:E.
  - split; [done|]. intros H%Forall_inv. apply check_field_spec in H. congruence.
  - apply check_field_spec in E. rewrite IH.
    split; [by constructor|]. by intros [_ H]%Forall_cons_1.
Qed.

(** The error is that of the first field that does not conform. *)
Lemma check_fields_first data schema e :
  check_fields data schema = Some e <->
  exists pre f rule post, schema = pre ++ (f, rule) :: post /\ Forall (conforms data) pre /\ violation data f rule e.
Proof.
  induction schema as [|[f rule] schema IH]; cbn [check_fields].
  { split; [done|]. by intros ([|? ?] & ? & ? & ? & ? & _). }
  destruct (check_field data (f, rule)) as [e'|] eqn:E.
  - split.
    + intros [= <-]. exists [], f, rule, schema. split; [done|]. split; [constructor|]. by apply check_field_complaint.
    + intros ([|fr pre] & f' & rule' & post & Hs & Hpre & Hv); injection Hs; intros; subst.
      * apply violation_check in Hv. congruence.
      * apply Forall_inv, check_field_spec in Hpre. congruence.
  - rewrite IH. split.
    + intros (pre & f' & rule' & post & -> & Hpre & Hv). exists ((f, rule) :: pre), f', rule', post.
      split; [done|]. split; [|done]. constructor; [by apply check_field_spec|done].
    + intros ([|fr pre] & f' & rule' & post & Hs & Hpre & Hv); injection Hs; intros; subst.
      * apply violation_check in Hv. congruence.
      * apply Forall_cons_1 in Hpre as [_ Hpre]. eauto 10.
Qed.

Lemma ValidateRequest_document body schema : schema <> [] ->
  ValidateRequest body schema =
  match document body with
  | Some data => check_fields data schema
  | None => Some "Validation failed: request body is not valid JSON"%string
  end.
Proof.
  intros Hne. unfold ValidateRequest, document. destruct schema; [done|].
  destruct (String.eqb body ""); [done|]. by destruct (unmarshal_map body).
Qed.

(** ** Properties *)

(** C31. Validation accepts exactly the conforming bodies and says what is
    wrong with the others.  With an empty schema every body is accepted.
    Otherwise an empty body stands for an empty object and any other body must
    be a JSON object (or null): it is accepted iff every rule holds of its
    field, in whatever order the schema map is visited; the error is that the
    body is not JSON, or the complaint about the first field, in the order of
    the visit, that breaks its rule. *)
Theorem validation_exact body schema order :
  order ≡ₚ schema ->
  (schema = [] -> ValidateRequest body order = None) /\
  (schema <> [] ->
   (ValidateRequest body order = None <->
      exists data, document body = Some data /\ Forall (conforms data) schema) /\
   forall e, ValidateRequest body order = Some e <->
     (document body = None /\ e = "Validation failed: request body is not valid JSON"%string) \/
     exists data pre f rule post, document body = Some data /\ order = pre ++ (f, rule) :: post /\
       Forall (conforms data) pre /\ violation data f rule e).
Proof.
  intros Hp. split; [intros ->; by apply Permutation_nil_r in Hp as ->|]. intros Hne.
  assert (Hne' : order <> []) by (intros ->; by apply Permutation_nil_l in Hp).
  rewrite ValidateRequest_document by done. destruct (document body) as [data|].
  - split; [rewrite check_fields_spec, Hp; split; [eauto|by intros (? & [= <-] & ?)]|].
    intros e. rewrite check_fields_first. split.
    + intros (pre & f & rule & post & ? & ? & ?). right. eauto 10.
    + intros [[? _]|(data' & pre & f & rule & post & [= <-] & ? & ? & ?)]; [done|eauto 10].
  - split; [split; [done|by intros (? & ? & _)]|]. intros e. split; [intros [= <-]; by left|].
    intros [[_ ->]|(? & ? & ? & ? & ? & ? & _)]; done.
Qed.

(** ** Witnesses *)

Definition sample_schema : list (string * string) :=
  [("age", "required, int"); ("mail", "email")]%string.

Lemma validation_exact_witness :
  let order := [("mail", "email"); ("age", "required, int")]%string in
  ValidateRequest ("{" ++ quote "age" ++ ":41.0}") order = None /\
  ValidateRequest ("{" ++ quote "mail" ++ ":" ++ quote "me" ++ "}") order
  = Some "Validation failed: field 'mail' must be a valid email"%string.
Proof.
  assert (Hp : [("mail", "email"); ("age", "required, int")]%string ≡ₚ sample_schema) by apply perm_swap.
  split.
  - apply (validation_exact _ sample_schema _ Hp); [discriminate|].
    exists [("age"%string, AFloat (of_int 41))]. split; [vm_compute; reflexivity|].
    repeat constructor; try (vm_compute; reflexivity).
    simpl. apply (bool_decide_unpack _). vm_compute. exact I.
  - apply (validation_exact _ sample_schema _ Hp); [discriminate|]. right.
    exists [("mail"%string, AStr "me")], [], "mail"%string, "email"%string, [("age", "required, int")%string].
    split; [vm_compute; reflexivity|]. split; [reflexivity|]. split; [constructor|].
    refine (vi_email _ "mail" "email" "me" _ _ _); vm_compute; auto.
Defined.

Example validation_errors :
  map (fun b => ValidateRequest b sample_schema)
    [""; "[]"; "{" ++ quote "age" ++ ":1.5}"; "{" ++ quote "age" ++ ":1e3}"]%string
  = [Some "Validation failed: field 'age' is required";
     Some "Validation failed: request body is not valid JSON";
     Some "Validation failed: field 'age' must be an integer"; None]%string.
Proof. vm_compute. reflexivity. Qed.

End Validation.
