(* ===== verification/Transform.v ===== *)
(** * Body transformations (pkg/proxy/handler.go)

    [transformJSON] and [transformValue], the redaction of policy rules, and
    the gRPC framing of the transpiler.  Go visits the entries of a map in an
    order of its own: [ord] is that order, an argument. *)

From stdpp Require Import sorting.
From S2P Require Import Prelude GoStrings GoFloat Encoding Json.
Open Scope Z_scope.

Module Transform.

(** ** Key mapping *)

Definition rename (mapping : gmap string string) (key : string) : string :=
  default key (mapping !! key).

Fixpoint transformValue (ord : list (string * any) -> list (string * any))
    (mapping : gmap string string) (v : any) : any :=
  match v with
  | AMap m =>
      AMap (from_entries (ord (map (fun kv =>
        (rename mapping (fst kv), transformValue ord mapping (snd kv))) m)))
  | ASlice l => ASlice (map (transformValue ord mapping) l)
  | _ => v
  end.

Definition transformJSON (ord : list (string * any) -> list (string * any))
    (body : string) (mapping : gmap string string) : result string string :=
  if String.eqb body "" || bool_decide (mapping = ∅) then Ok body
  else match unmarshal_any body with
       | None => Err "failed to unmarshal JSON"%string
       | Some data => Ok (marshal (transformValue ord mapping data))
       end.

(** ** Redaction of response fields

    The body is printed again when it is an object or [null]; anything else
    passes untouched. *)
Definition redact_field (data : list (string * any)) (f : string) : list (string * any) :=
  match assoc f data with
  | Some _ => put f (AStr "[REDACTED]") data
  | None => data
  end.

Definition redact_body (redactFields : list string) (body : string) : string :=
  match json_parse body with
  | Some JNull => "null"%string
  | Some (JObj l) =>
      match to_any (JObj l) with
      | Some (AMap data) => marshal (AMap (fold_left redact_field redactFields data))
      | _ => body
      end
  | _ => body
  end.

(** ** gRPC framing

    A compression flag, the length in four big-endian bytes, the message.  The
    length is a [uint32] and [5+payloadLen] wraps. *)
Definition grpc_pack (bodyBytes : string) : string :=
  (String (of_byte 0) (be32 (u32 (slen bodyBytes))) ++ bodyBytes)%string.

Definition grpc_payload_len (bodyBytes : string) : Z := of_be (bytes (stake 4 (sdrop 1 bodyBytes))).

(** The message of a complete frame; [None] leaves the body alone. *)
Definition grpc_unpack (bodyBytes : string) : exec (option string) :=
  if 5 <=? slen bodyBytes then
    let stop := u32 (5 + grpc_payload_len bodyBytes) in
    if stop <=? slen bodyBytes then
      if 5 <=? stop then Done (Some (stake (Z.to_nat (stop - 5)) (sdrop 5 bodyBytes)))
      else Panic "slice bounds out of range"
    else Done None
  else Done None.

(** ** Lemmas *)

(** *** Entries in key order *)

Definition key_le {A} (p q : string * A) : Prop := String.le (fst p) (fst q).

Lemma compare_le s t : String.compare s t <> Gt -> String.le s t.
Proof. unfold String.le, String.leb. by destruct (String.compare s t). Qed.

Lemma put_sorted {A} k (v : A) m :
  StronglySorted key_le m -> StronglySorted key_le (put k v m) /\
  (forall p, p ∈ put k v m -> p = (k, v) \/ p ∈ m).
Proof.
  induction 1 as [|[k' v'] m Hs [IH1 IH2] Hall]; simpl.
  - split; [repeat constructor|]. set_solver.
  - destruct (String.compare k k') eqn:E.
    + apply String.compare_eq_iff in E as ->. split; [|set_solver]. by constructor.
    + assert (String.le k k') as Hle by (apply compare_le; congruence).
      split; [|set_solver]. constructor; [by constructor|]. constructor; [done|].
      eapply List.Forall_impl; [|exact Hall]. intros q Hq. unfold key_le in *. by etrans.
    + assert (String.le k' k) as Hle.
      { destruct (total String.le k' k) as [?|H]; [done|]. unfold String.le, String.leb in H.
        by rewrite E in H. }
      split; [|set_solver]. constructor; [done|]. apply List.Forall_forall.
      intros q Hq%list_elem_of_In. apply IH2 in Hq as [->|Hq]; [done|].
      rewrite List.Forall_forall in Hall. apply Hall. by apply list_elem_of_In.
Qed.

Lemma from_entries_sorted {A} (l : list (string * A)) : StronglySorted key_le (from_entries l).
Proof.
  unfold from_entries. assert (H : StronglySorted key_le ([] : list (string * A))) by constructor.
  revert H. generalize ([] : list (string * A)) as acc.
  induction l as [|[k v] l IH]; intros acc H; simpl; [done|]. apply IH. by apply put_sorted.
Qed.

(** With distinct keys the order of insertion does not matter. *)
Lemma from_entries_order {A} (l l' : list (string * A)) :
  NoDup (map fst l) -> l ≡ₚ l' -> from_entries l = from_entries l'.
Proof.
  intros Hnd Hp.
  assert (Hnd' : NoDup (map fst l')).
  { pose proof (fmap_Permutation fst _ _ Hp) as Hf. by rewrite <- (Hf : map fst l ≡ₚ map fst l'). }
  assert (H1 : from_entries l ≡ₚ l).
  { unfold from_entries. rewrite from_entries_perm; rewrite app_nil_r; done. }
  assert (H2 : from_entries l' ≡ₚ l').
  { unfold from_entries. rewrite from_entries_perm; rewrite app_nil_r; done. }
  apply (StronglySorted_unique_strong key_le); try apply from_entries_sorted.
  - intros [k v] [k' v'] Hin Hin' Hle Hle'. rewrite H1 in Hin. rewrite H2, <- Hp in Hin'.
    assert (k = k') as -> by (by apply (anti_symm String.le)). f_equal.
    clear -Hnd Hin Hin'. induction l as [|[k v0] l IH]; [by apply not_elem_of_nil in Hin|].
    simpl in Hnd. apply list.NoDup_cons in Hnd as [Hk Hnd].
    assert (Hkey : forall w, (k', w) ∈ l -> k' ∈ map fst l).
    { intros w Hw. apply list_elem_of_In, in_map_iff. exists (k', w). split; [done|].
      by apply list_elem_of_In. }
    apply elem_of_cons in Hin as [Hin|Hin]; apply elem_of_cons in Hin' as [Hin'|Hin'];
      simplify_eq; try done; try (exfalso; eauto; fail). by apply IH.
  - by rewrite H1, H2.
Qed.

Section any_induction.
Context (P : any -> Prop).
Context (HNil : P Nil) (HBool : forall b, P (ABool b)) (HFloat : forall x, P (AFloat x)).
Context (HStr : forall s, P (AStr s)) (HSlice : forall l, Forall P l -> P (ASlice l)).
Context (HMap : forall m, Forall (fun kv => P (snd kv)) m -> P (AMap m)).

Fixpoint any_induction (v : any) : P v :=
  match v with
  | Nil => HNil
  | ABool b => HBool b
  | AFloat x => HFloat x
  | AStr s => HStr s
  | ASlice l =>
      HSlice l ((fix go (l : list any) : Forall P l :=
        match l with [] => @Forall_nil _ P | v :: l' => @Forall_cons _ P v l' (any_induction v) (go l') end) l)
  | AMap m =>
      HMap m ((fix go (l : list (string * any)) : Forall (fun kv => P (snd kv)) l :=
        match l with
        | [] => @Forall_nil _ _
        | kv :: l' => @Forall_cons _ (fun kv => P (snd kv)) kv l' (any_induction (snd kv)) (go l')
        end) m)
  end.
End any_induction.

(** In every object of the value the mapped keys are distinct. *)
Fixpoint collision_free (mapping : gmap string string) (v : any) : Prop :=
  match v with
  | AMap m =>
      NoDup (map (fun kv => rename mapping (fst kv)) m) /\
      foldr (fun kv acc => collision_free mapping (snd kv) /\ acc) True m
  | ASlice l => foldr (fun v acc => collision_free mapping v /\ acc) True l
  | _ => True
  end.

Lemma Forall_foldr {A} (P Q : A -> Prop) l :
  Forall (fun x => P x -> Q x) l -> foldr (fun x acc => P x /\ acc) True l -> Forall Q l.
Proof. induction 1; simpl; [constructor|]. intros [? ?]. constructor; auto. Qed.

Lemma transform_order ord ord' mapping v :
  (forall l, ord l ≡ₚ l) -> (forall l, ord' l ≡ₚ l) -> collision_free mapping v ->
  transformValue ord mapping v = transformValue ord' mapping v.
Proof.
  intros Ho Ho'. induction v as [|b|x|s|l IH|m IH] using any_induction; try done; simpl.
  - intros H. f_equal. apply map_ext_Forall. by apply (Forall_foldr (collision_free mapping)).
  - intros [Hnd H]. f_equal.
    apply (Forall_foldr (fun kv => collision_free mapping (snd kv))
      (fun kv => transformValue ord mapping (snd kv) = transformValue ord' mapping (snd kv)))
      in H; [|done].
    assert (map (fun kv => (rename mapping (fst kv), transformValue ord mapping (snd kv))) m
      = map (fun kv => (rename mapping (fst kv), transformValue ord' mapping (snd kv))) m) as ->.
    { apply map_ext_Forall. eapply List.Forall_impl; [|exact H]. simpl. by intros kv ->. }
    apply from_entries_order; [|by rewrite Ho, Ho'].
    assert (Hf : forall l : list (string * any), map fst (ord l) ≡ₚ map fst l).
    { intros l. apply (fmap_Permutation fst), Ho. }
    by rewrite Hf, map_map.
Qed.

(** *** Framing *)

Lemma grpc_payload_len_bound s : 0 <= grpc_payload_len s < 2 ^ 32.
Proof.
  unfold grpc_payload_len.
  assert (H : forall l, Forall is_byte l -> 0 <= of_be l < 256 ^ Z.of_nat (length l)).
  { intros l. unfold of_be. cut (forall acc n, Forall is_byte l -> 0 <= acc < 256 ^ n -> 0 <= n ->
      0 <= fold_left (fun acc b => acc * 256 + b) l acc < 256 ^ (n + Z.of_nat (length l))).
    { intros H Hl. apply (H 0 0 Hl); simpl; lia. }
    induction l as [|b l IH]; intros acc n Hl Ha Hn; simpl fold_left.
    - simpl. by rewrite Z.add_0_r.
    - apply Forall_cons_1 in Hl as [Hb Hl]. unfold is_byte in Hb.
      replace (n + Z.of_nat (length (b :: l))) with ((n + 1) + Z.of_nat (length l)) by (simpl; lia).
      apply IH; [done| |lia]. rewrite Z.pow_add_r by lia. lia. }
  specialize (H (bytes (stake 4 (sdrop 1 s))) (bytes_are_bytes _)).
  assert (Z.of_nat (length (bytes (stake 4 (sdrop 1 s)))) <= 4) as Hlen.
  { rewrite length_bytes, length_stake. lia. }
  pose proof (Z.pow_le_mono_r 256 _ 4 ltac:(lia) Hlen). lia.
Qed.

Lemma grpc_payload_len_pack s : grpc_payload_len (grpc_pack s) = u32 (slen s).
Proof.
  unfold grpc_payload_len, grpc_pack. cbn [String.append sdrop].
  replace (stake 4 (be32 (u32 (slen s)) ++ s)) with (be32 (u32 (slen s))).
  - apply of_be_be32, u32_range.
  - symmetry. apply (stake_app (be32 (u32 (slen s)))).
Qed.

Lemma grpc_pack_parts s :
  slen (grpc_pack s) = 5 + slen s /\ sdrop 5 (grpc_pack s) = s.
Proof.
  unfold grpc_pack, slen. cbn [String.append]. split; [|done].
  simpl. lia.
Qed.

(** ** Properties *)

(** C32. Where no two keys of an object are mapped to the same name, the
    transformed body does not depend on the order Go visits the maps in. *)
Theorem transform_order_independent ord ord' body mapping data :
  (forall l, ord l ≡ₚ l) -> (forall l, ord' l ≡ₚ l) ->
  unmarshal_any body = Some data -> collision_free mapping data ->
  transformJSON ord body mapping = transformJSON ord' body mapping.
Proof.
  intros Ho Ho' Hd Hc. unfold transformJSON. destruct (_ || _); [done|].
  rewrite Hd. by rewrite (transform_order ord ord').
Qed.

(** C33. gRPC framing: unpacking a packed body gives it back, up to the largest
    message whose frame length fits a [uint32]; and unpacking any body crashes
    exactly when it has a header and announces one of the five largest lengths,
    whose sum with the header size wraps around. *)
Theorem grpc_framing :
  (forall b, slen b < 2 ^ 32 - 5 -> grpc_unpack (grpc_pack b) = Done (Some b)) /\
  (forall b, (exists w, grpc_unpack b = Panic w) <->
     5 <= slen b /\ 2 ^ 32 - 5 <= grpc_payload_len b).
Proof.
  split; intros b.
  - intros Hb. destruct (grpc_pack_parts b) as [Hl Hd]. unfold grpc_unpack.
    assert (0 <= slen b) by (unfold slen; lia).
    rewrite Hl, Hd, grpc_payload_len_pack. rewrite (u32_id (slen b)) by (unfold in_u32; lia).
    rewrite u32_id by (unfold in_u32; lia).
    rewrite !(proj2 (Z.leb_le _ _)) by lia.
    replace (Z.to_nat (5 + slen b - 5)) with (String.length b) by (unfold slen; lia).
    rewrite <- (sapp_nil_r b) at 2. by rewrite stake_app.
  - pose proof (grpc_payload_len_bound b). unfold grpc_unpack.
    destruct (5 <=? slen b) eqn:E1; breflect; [|split; [by intros [? ?]|lia]].
    assert (Hu : u32 (5 + grpc_payload_len b)
      = if 2 ^ 32 - 5 <=? grpc_payload_len b then 5 + grpc_payload_len b - 2 ^ 32
        else 5 + grpc_payload_len b).
    { unfold u32. destruct (_ <=? _) eqn:E; breflect; Z.to_euclidean_division_equations; lia. }
    rewrite Hu. destruct (2 ^ 32 - 5 <=? _) eqn:E2; breflect.
    + rewrite (proj2 (Z.leb_le _ _)) by lia. rewrite (proj2 (Z.leb_gt _ _)) by lia.
      split; [lia|]. by eexists.
    + destruct (_ <=? slen b); [|split; [by intros [? ?]|lia]].
      rewrite (proj2 (Z.leb_le _ _)) by lia. split; [by intros [? ?]|lia].
Qed.

(** ** Witnesses *)

Definition by_key (l : list (string * any)) : list (string * any) := l.

Lemma transform_order_independent_witness :
  let body := ("{" ++ quote "a" ++ ":[{" ++ quote "b" ++ ":1}]}")%string in
  transformJSON by_key body {[ "a" := "z" ]}%string = transformJSON (@rev _) body {[ "a" := "z" ]}%string.
Proof.
  cbv zeta. eapply (transform_order_independent by_key (@rev _)).
  - reflexivity.
  - intros l. symmetry. apply Permutation_rev.
  - vm_compute. reflexivity.
  - simpl. repeat split; try exact I; apply (bool_decide_unpack _); vm_compute; exact I.
Defined.

Lemma grpc_framing_witness :
  grpc_unpack (grpc_pack "{}") = Done (Some "{}"%string) /\
  exists w, grpc_unpack (String (of_byte 0) (be32 (2 ^ 32 - 1))) = Panic w.
Proof.
  split.
  - apply (proj1 grpc_framing). reflexivity.
  - apply (proj2 grpc_framing). vm_compute. split; discriminate.
Defined.

(** Mapping a key onto an existing one makes the result depend on the order. *)
Example colliding_keys :
  let body := ("{" ++ quote "a" ++ ":1," ++ quote "b" ++ ":2}")%string in
  transformJSON by_key body {[ "a" := "b" ]}%string = Ok ("{" ++ quote "b" ++ ":2}")%string /\
  transformJSON (@rev _) body {[ "a" := "b" ]}%string = Ok ("{" ++ quote "b" ++ ":1}")%string.
Proof. vm_compute. split; reflexivity. Qed.

(** Integers beyond 2^53 do not survive a transformation. *)
Example large_integer_changed :
  transformJSON by_key ("{" ++ quote "id" ++ ":9007199254740993}") {[ "a" := "b" ]}%string
  = Ok ("{" ++ quote "id" ++ ":9007199254740992}")%string.
Proof. vm_compute. reflexivity. Qed.

(** Redaction looks at the top level of an object only. *)
Example redaction_depth :
  redact_body ["ssn"]%string ("{" ++ quote "ssn" ++ ":1}") =
    ("{" ++ quote "ssn" ++ ":" ++ quote "[REDACTED]" ++ "}")%string /\
  redact_body ["ssn"]%string ("[{" ++ quote "ssn" ++ ":1}]") = ("[{" ++ quote "ssn" ++ ":1}]")%string.
Proof. vm_compute. split; reflexivity. Qed.

End Transform.
