(* ===== verification/Codec.v ===== *)
(** * JSON codecs of the configuration (pkg/proxy/handler.go, provider.go)

    The struct tags of the configuration types as an encoder and a decoder per
    type, behind an interface that promises the round trip.  A nil slice or map
    is identified with the empty one. *)

From S2P Require Import Prelude GoStrings GoFloat Encoding Json Types.
Open Scope Z_scope.

Module Codec.

(** ** The interface *)

(** [encode] is what [json.Marshal] prints for a value, [decode] what
    [json.Unmarshal] stores over a current value; [empty] is the test of
    [omitempty].  Decoding the encoding of a [valid] value into a zero value
    gives it back; encodings are printable and at most [depth] deep. *)
Class Codec (A : Type) := {
  zero : A;
  empty : A -> bool;
  encode : A -> json;
  decode : A -> json -> option A;
  valid : A -> Prop;
  depth : Z;
  decode_encode a : valid a -> decode zero (encode a) = Some a;
  empty_zero a : valid a -> empty a = true -> a = zero;
  encode_wf a : valid a -> json_wf (encode a) = true;
  encode_depth a : json_depth (encode a) <= depth;
}.

(** Values that never print as [null]: what a pointer can point to. *)
Class NotNull (A : Type) `{Codec A} := not_null : forall a : A, encode a <> JNull.

(** ** Basic types *)

#[export, refine] Instance string_codec : Codec string := {|
  zero := ""%string; empty s := String.eqb s ""; encode := JStr; decode := dec_string;
  valid s := utf8_valid s = true; depth := 0;
|}.
Proof. all: try done. intros a _ H. by apply String.eqb_eq in H. Defined.

#[export, refine] Instance int_codec : Codec Z := {|
  zero := 0; empty n := n =? 0; encode n := JNum (Itoa n); decode := dec_int;
  valid := in_i64; depth := 0;
|}.
Proof.
  - intros a H. by apply parse_int64_Itoa.
  - intros a _ H. by apply Z.eqb_eq in H.
  - intros a _. apply Itoa_lit.
  - done.
Defined.

#[export, refine] Instance bool_codec : Codec bool := {|
  zero := false; empty := negb; encode := JBool; decode := dec_bool; valid _ := True; depth := 0;
|}.
Proof. all: try done. by intros []. Defined.

(** A float whose printed form reads back: every finite one but the negative
    zero, which [omitempty] drops. *)
Definition float_ok (x : float64) : bool :=
  number_lit (fmt_float x) &&
  bool_decide (parse_float (fmt_float x) = Some x) &&
  negb (feqb x (S754_zero false) && negb (bool_decide (x = S754_zero false))).

#[export, refine] Instance float_codec : Codec float64 := {|
  zero := S754_zero false; empty x := feqb x (S754_zero false);
  encode x := JNum (fmt_float x); decode := dec_float; valid x := float_ok x = true; depth := 0;
|}.
Proof.
  - intros a [[_ H]%andb_true_iff _]%andb_true_iff. by apply bool_decide_eq_true in H.
  - intros a [_ H]%andb_true_iff He. rewrite He in H. simpl in H.
    apply negb_true_iff, negb_false_iff, bool_decide_eq_true in H. done.
  - intros a [[H _]%andb_true_iff _]%andb_true_iff. done.
  - done.
Defined.

(** ** Slices *)

Lemma dec_elems_encode `{Codec A} l :
  Forall valid l -> dec_elems decode zero [] (map encode l) = Some l.
Proof. induction 1 as [|a l Ha _ IH]; simpl; [done|]. by rewrite decode_encode, IH. Qed.

Lemma json_depth_arr l d : Forall (fun v => json_depth v <= d) l -> 0 <= d ->
  foldr Z.max 0 (map json_depth l) <= d.
Proof. induction 1; simpl; lia. Qed.

Lemma codec_depth_nonneg `{Codec A} : 0 <= depth.
Proof.
  pose proof (encode_depth zero). assert (0 <= json_depth (encode zero)); [|lia].
  destruct (encode zero); simpl; try lia.
  - pose proof (depth_nonneg (map json_depth l)). lia.
  - pose proof (depth_nonneg (map (fun kv => json_depth (snd kv)) l)). lia.
Qed.

#[export, refine] Instance slice_codec `{Codec A} : Codec (list A) := {|
  zero := []; empty l := match l with [] => true | _ => false end;
  encode l := JArr (map encode l); decode := dec_slice decode zero;
  valid := Forall valid; depth := 1 + depth;
|}.
Proof.
  - intros l Hl. simpl. by apply dec_elems_encode.
  - by intros [].
  - intros l Hl. simpl. apply forallb_forall. intros v (a & <- & Ha)%in_map_iff.
    apply encode_wf. rewrite List.Forall_forall in Hl. by apply Hl.
  - intros l. simpl. apply Z.add_le_mono_l, json_depth_arr; [|apply codec_depth_nonneg].
    apply List.Forall_map, Forall_true. intros a. apply encode_depth.
Defined.

(** ** Maps *)

Definition sorted_entries {A} (m : gmap string A) : list (string * A) :=
  from_entries (map_to_list m).

Lemma sorted_entries_perm {A} (m : gmap string A) : sorted_entries m ≡ₚ map_to_list m.
Proof.
  unfold sorted_entries, from_entries. rewrite from_entries_perm; rewrite app_nil_r; [done|].
  apply NoDup_fst_map_to_list.
Qed.

Definition enc_entries `{Codec A} (l : list (string * A)) : list (string * json) :=
  map (fun kv => (fst kv, encode (snd kv))) l.

Lemma dec_entries_encode `{Codec A} l m :
  Forall (fun kv => valid (snd kv)) l ->
  dec_entries decode zero m (enc_entries l)
  = Some (fold_left (fun m kv => <[fst kv := snd kv]> m) l m).
Proof.
  intros Hl. revert m. induction Hl as [|[k v] l Hv _ IH]; intros m; simpl; [done|].
  simpl in Hv. by rewrite decode_encode, IH.
Qed.

Lemma fold_insert_list_to_map {A} (l : list (string * A)) (m : gmap string A) :
  NoDup (l.*1) -> (forall k, k ∈ l.*1 -> m !! k = None) ->
  fold_left (fun m kv => <[fst kv := snd kv]> m) l m = list_to_map l ∪ m.
Proof.
  revert m. induction l as [|[k v] l IH]; intros m Hnd Hm; simpl; [by rewrite map_empty_union|].
  simpl in Hnd. apply list.NoDup_cons in Hnd as [Hk Hnd]. rewrite IH; [|done|].
  - rewrite <- insert_union_r; [by rewrite insert_union_l|]. by apply not_elem_of_list_to_map_1.
  - intros k' Hk'. rewrite lookup_insert_ne by (by intros ->). apply Hm. simpl. by right.
Qed.

Lemma dec_map_encode `{Codec A} (m : gmap string A) :
  map_Forall (fun _ => valid) m ->
  dec_entries decode zero ∅ (enc_entries (sorted_entries m)) = Some m.
Proof.
  intros Hv. pose proof (sorted_entries_perm m) as Hp.
  assert (Hnd : NoDup (sorted_entries m).*1) by (rewrite Hp; apply NoDup_fst_map_to_list).
  rewrite dec_entries_encode.
  - rewrite fold_insert_list_to_map; [|done|by intros; apply lookup_empty].
    rewrite map_union_empty. by rewrite (list_to_map_proper _ _ Hnd Hp), list_to_map_to_list.
  - rewrite Hp. apply List.Forall_forall. intros [k v] Hin%list_elem_of_In.
    apply elem_of_map_to_list in Hin. by apply (Hv k).
Qed.

#[export, refine] Instance map_codec `{Codec A} : Codec (gmap string A) := {|
  zero := ∅; empty m := bool_decide (m = ∅);
  encode m := JObj (enc_entries (sorted_entries m)); decode := dec_map decode zero;
  valid := map_Forall (fun k v => utf8_valid k = true /\ valid v); depth := 1 + depth;
|}.
Proof.
  - intros m Hm. apply dec_map_encode. intros k v Hk. by apply (Hm k v).
  - intros m _ Hm. by apply bool_decide_eq_true in Hm.
  - intros m Hm. simpl. apply forallb_forall. intros [k j] ([k' v] & [= <- <-] & Hin)%in_map_iff.
    apply list_elem_of_In in Hin. rewrite sorted_entries_perm in Hin.
    apply elem_of_map_to_list, Hm in Hin as [Hk Hv]. simpl. by rewrite Hk, encode_wf.
  - intros m. simpl. apply Z.add_le_mono_l. unfold enc_entries. rewrite map_map. simpl.
    rewrite <- (map_map (fun kv => encode (snd kv)) json_depth).
    apply json_depth_arr; [|apply codec_depth_nonneg].
    apply List.Forall_map, Forall_true. intros a. apply encode_depth.
Defined.

(** ** Pointers *)

#[export, refine] Instance ptr_codec `{NotNull A} : Codec (option A) := {|
  zero := None; empty o := match o with None => true | _ => false end;
  encode o := match o with None => JNull | Some a => encode a end; decode := dec_ptr decode zero;
  valid o := match o with None => True | Some a => valid a end; depth := depth;
|}.
Proof.
  - intros [a|] Ha; [|done]. pose proof (not_null a). simpl.
    pose proof (decode_encode a Ha) as Hd. destruct (encode a); [done|..]; simpl; by rewrite Hd.
  - by intros [].
  - intros [a|] Ha; [by apply encode_wf|done].
  - intros [a|]; [apply encode_depth|apply codec_depth_nonneg].
Defined.

(** ** Structs *)

(** The fields of a struct, in order; [None] is an omitted one. *)
Definition keep `{Codec A} (a : A) : option json := Some (encode a).
Definition omitempty `{Codec A} (a : A) : option json := if empty a then None else Some (encode a).

Fixpoint obj_of (gs : list (string * option json)) : list (string * json) :=
  match gs with
  | [] => []
  | (k, Some v) :: gs' => (k, v) :: obj_of gs'
  | (_, None) :: gs' => obj_of gs'
  end.

(** No two field names match the same key. *)
Definition distinct (gs : list (string * option json)) : Prop :=
  NoDup (map (fun g => ToLower (fst g)) gs).

Lemma field_absent `{Codec A} name cur gs :
  ToLower name ∉ map (fun g => ToLower (fst g)) gs -> field decode name cur (obj_of gs) = Some cur.
Proof.
  induction gs as [|[k [v|]] gs IH]; simpl; intros Hn; [done|..].
  - unfold EqualFold. rewrite (proj2 (String.eqb_neq _ _)); [apply IH|]; set_solver.
  - apply IH. set_solver.
Qed.

Lemma field_obj_of `{Codec A} name cur gs g a :
  distinct gs -> assoc name gs = Some g -> g = keep a \/ g = omitempty a -> valid a ->
  cur = zero -> field decode name cur (obj_of gs) = Some a.
Proof.
  intros Hdist Hassoc Hor Hvalid ->. revert Hdist Hassoc Hvalid Hor. unfold distinct. induction gs as [|[k o] gs IH]; [done|]. cbn [map fst assoc].
  intros [Hk Hnd]%list.NoDup_cons Ha Hv Hg. destruct (String.eqb name k) eqn:E.
  - apply String.eqb_eq in E as ->. injection Ha as ->.
    destruct Hg as [->| ->]; unfold keep, omitempty; [|destruct (empty a) eqn:He]; cbn [obj_of field].
    + unfold EqualFold. rewrite String.eqb_refl, decode_encode by done. by apply field_absent.
    + rewrite (empty_zero a) by done. by apply field_absent.
    + unfold EqualFold. rewrite String.eqb_refl, decode_encode by done. by apply field_absent.
  - assert (EqualFold k name = false) as Hf.
    { unfold EqualFold. apply String.eqb_neq. intros Hkn. apply Hk. rewrite Hkn.
      clear -Ha. induction gs as [|[k' o'] gs IH]; [done|]. cbn [assoc] in Ha. simpl.
      destruct (String.eqb name k') eqn:E; [|set_solver].
      apply String.eqb_eq in E as ->. by left. }
    destruct o as [v|]; cbn [obj_of field]; [rewrite Hf|]; by apply IH.
Qed.

(** What a group contributes to well-formedness and depth. *)
Definition group_ok (d : Z) (g : string * option json) : Prop :=
  utf8_valid (fst g) = true /\
  match snd g with None => True | Some v => json_wf v = true /\ json_depth v <= d end.

Lemma obj_of_wf d gs : Forall (group_ok d) gs -> json_wf (JObj (obj_of gs)) = true.
Proof.
  induction 1 as [|[k [v|]] gs [Hk Hv] _ IH]; [done|..]; simpl in *; [|done].
  destruct Hv as [Hv _]. by rewrite Hk, Hv, IH.
Qed.

Lemma group_keep `{Codec A} d k (a : A) :
  utf8_valid k = true -> valid a -> depth <= d -> group_ok d (k, keep a).
Proof.
  intros Hk Ha Hd. split; [done|]. simpl. pose proof (encode_depth a).
  split; [by apply encode_wf|lia].
Qed.

Lemma group_omit `{Codec A} d k (a : A) :
  utf8_valid k = true -> valid a -> depth <= d -> group_ok d (k, omitempty a).
Proof.
  intros Hk Ha Hd. split; [done|]. simpl. unfold omitempty. destruct (empty a); [done|].
  pose proof (encode_depth a). split; [by apply encode_wf|lia].
Qed.

Lemma obj_of_depth (d : Z) gs :
  Forall (fun g => match snd g with None => True | Some v => json_depth v <= d end) gs -> 0 <= d ->
  json_depth (JObj (obj_of gs)) <= 1 + d.
Proof.
  intros Hall Hd. simpl. apply Z.add_le_mono_l.
  induction Hall as [|[k [v|]] gs Hv _ IH]; simpl in *; [done|lia|done].
Qed.

Lemma depth_keep `{Codec A} d (a : A) : depth <= d ->
  match keep a with None => True | Some v => json_depth v <= d end.
Proof. intros. simpl. pose proof (encode_depth a). lia. Qed.

Lemma depth_omit `{Codec A} d (a : A) : depth <= d ->
  match omitempty a with None => True | Some v => json_depth v <= d end.
Proof. intros. unfold omitempty. destruct (empty a); [done|]. pose proof (encode_depth a). lia. Qed.

Lemma bind_Some_eq {A B} (o : option A) (k : A -> option B) a r :
  o = Some a -> k a = r -> o ≫= k = r.
Proof. by intros -> <-. Qed.

(** The obligations of a struct codec, by computation on the field names. *)
Ltac solve_distinct :=
  match goal with |- distinct ?gs =>
    let names := eval lazy beta iota delta [map fst] in (map fst gs) in
    cut (NoDup (map ToLower names));
      [exact (fun H => H) | by apply (bool_decide_unpack _); vm_compute]
  end.

Ltac solve_fields Hd :=
  repeat (eapply bind_Some_eq;
    [ eapply field_obj_of;
      [ exact Hd
      | lazy beta iota delta [assoc String.eqb Ascii.eqb Bool.eqb]; reflexivity
      | (left; reflexivity) || (right; reflexivity)
      | assumption
      | reflexivity ]
    | cbv beta ]).

Ltac solve_groups :=
  repeat (apply List.Forall_cons;
    [ (apply group_keep || apply group_omit); [reflexivity|assumption|vm_compute; discriminate] | ]);
  apply List.Forall_nil.

Ltac solve_depths d :=
  apply (obj_of_depth d); [|done];
  repeat (apply List.Forall_cons; [(apply depth_keep || apply depth_omit); vm_compute; discriminate|]);
  apply List.Forall_nil.

(** ** The configuration types *)

#[export, refine] Instance wt_codec : Codec WeightedTarget := {|
  zero := {| URL := ""; Weight := 0 |}; empty _ := false;
  encode t := JObj (obj_of [("url", keep (URL t)); ("weight", keep (Weight t))])%string;
  decode cur v :=
    es ← obj_entries v;
    u ← field decode "url" (URL cur) es;
    w ← field decode "weight" (Weight cur) es;
    Some {| URL := u; Weight := w |};
  valid t := valid (URL t) /\ valid (Weight t); depth := 1;
|}.
Proof.
  - intros t (H0 & H1).
    assert (Hd : distinct [("url", keep (URL t)); ("weight", keep (Weight t))]%string) by solve_distinct.
    eapply bind_Some_eq; [reflexivity|]. cbv beta. solve_fields Hd. by destruct t.
  - done.
  - intros t (H0 & H1). apply (obj_of_wf 0). solve_groups.
  - intros t. solve_depths 0.
Defined.

#[export, refine] Instance llm_target_codec : Codec LLMTarget := {|
  zero := {| LLM_URL := ""; LLM_Model := "" |}; empty _ := false;
  encode t := JObj (obj_of [("url", keep (LLM_URL t)); ("model", keep (LLM_Model t))])%string;
  decode cur v :=
    es ← obj_entries v;
    u ← field decode "url" (LLM_URL cur) es;
    m ← field decode "model" (LLM_Model cur) es;
    Some {| LLM_URL := u; LLM_Model := m |};
  valid t := valid (LLM_URL t) /\ valid (LLM_Model t); depth := 1;
|}.
Proof.
  - intros t (H0 & H1).
    assert (Hd : distinct [("url", keep (LLM_URL t)); ("model", keep (LLM_Model t))]%string) by solve_distinct.
    eapply bind_Some_eq; [reflexivity|]. cbv beta. solve_fields Hd. by destruct t.
  - done.
  - intros t (H0 & H1). apply (obj_of_wf 0). solve_groups.
  - intros t. solve_depths 0.
Defined.

#[export, refine] Instance llm_codec : Codec LLMRoutingConfig := {|
  zero := {|
    Primary := zero; Fallback := zero; ConfidenceHeader := ""; MinConfidence := zero |}; empty _ := false;
  encode t := JObj (obj_of [("primary", keep (Primary t)); ("fallback", keep (Fallback t)); ("confidence_header", keep (ConfidenceHeader t)); ("min_confidence", keep (MinConfidence t))])%string;
  decode cur v :=
    es ← obj_entries v;
    p ← field decode "primary" (Primary cur) es;
    f ← field decode "fallback" (Fallback cur) es;
    h ← field decode "confidence_header" (ConfidenceHeader cur) es;
    c ← field decode "min_confidence" (MinConfidence cur) es;
    Some {| Primary := p; Fallback := f; ConfidenceHeader := h; MinConfidence := c |};
  valid t := valid (Primary t) /\ valid (Fallback t) /\ valid (ConfidenceHeader t) /\ valid (MinConfidence t); depth := 2;
|}.
Proof.
  - intros t (H0 & H1 & H2 & H3).
    assert (Hd : distinct [("primary", keep (Primary t)); ("fallback", keep (Fallback t)); ("confidence_header", keep (ConfidenceHeader t)); ("min_confidence", keep (MinConfidence t))]%string) by solve_distinct.
    eapply bind_Some_eq; [reflexivity|]. cbv beta. solve_fields Hd. by destruct t.
  - done.
  - intros t (H0 & H1 & H2 & H3). apply (obj_of_wf 1). solve_groups.
  - intros t. solve_depths 1.
Defined.

#[export, refine] Instance wasm_target_codec : Codec WASMTarget := {|
  zero := {| MiddlewareName := ""; WASMWeight := 0 |}; empty _ := false;
  encode t := JObj (obj_of [("middleware_name", keep (MiddlewareName t)); ("weight", keep (WASMWeight t))])%string;
  decode cur v :=
    es ← obj_entries v;
    n ← field decode "middleware_name" (MiddlewareName cur) es;
    w ← field decode "weight" (WASMWeight cur) es;
    Some {| MiddlewareName := n; WASMWeight := w |};
  valid t := valid (MiddlewareName t) /\ valid (WASMWeight t); depth := 1;
|}.
Proof.
  - intros t (H0 & H1).
    assert (Hd : distinct [("middleware_name", keep (MiddlewareName t)); ("weight", keep (WASMWeight t))]%string) by solve_distinct.
    eapply bind_Some_eq; [reflexivity|]. cbv beta. solve_fields Hd. by destruct t.
  - done.
  - intros t (H0 & H1). apply (obj_of_wf 0). solve_groups.
  - intros t. solve_depths 0.
Defined.

#[export, refine] Instance wasm_codec : Codec WASMSplitConfig := {|
  zero := {| WASMTargets := [] |}; empty _ := false;
  encode t := JObj (obj_of [("targets", keep (WASMTargets t))])%string;
  decode cur v :=
    es ← obj_entries v;
    ts ← field decode "targets" (WASMTargets cur) es;
    Some {| WASMTargets := ts |};
  valid t := valid (WASMTargets t); depth := 3;
|}.
Proof.
  - intros t H0.
    assert (Hd : distinct [("targets", keep (WASMTargets t))]%string) by solve_distinct.
    eapply bind_Some_eq; [reflexivity|]. cbv beta. solve_fields Hd. by destruct t.
  - done.
  - intros t H0. apply (obj_of_wf 2). solve_groups.
  - intros t. solve_depths 2.
Defined.

#[export, refine] Instance abt_codec : Codec PromptABTest_t := {|
  zero := {| PromptName := ""; Versions := ∅; Weights := ∅ |}; empty _ := false;
  encode t := JObj (obj_of [("prompt_name", keep (PromptName t)); ("versions", keep (Versions t)); ("weights", keep (Weights t))])%string;
  decode cur v :=
    es ← obj_entries v;
    n ← field decode "prompt_name" (PromptName cur) es;
    vs ← field decode "versions" (Versions cur) es;
    ws ← field decode "weights" (Weights cur) es;
    Some {| PromptName := n; Versions := vs; Weights := ws |};
  valid t := valid (PromptName t) /\ valid (Versions t) /\ valid (Weights t); depth := 2;
|}.
Proof.
  - intros t (H0 & H1 & H2).
    assert (Hd : distinct [("prompt_name", keep (PromptName t)); ("versions", keep (Versions t)); ("weights", keep (Weights t))]%string) by solve_distinct.
    eapply bind_Some_eq; [reflexivity|]. cbv beta. solve_fields Hd. by destruct t.
  - done.
  - intros t (H0 & H1 & H2). apply (obj_of_wf 1). solve_groups.
  - intros t. solve_depths 1.
Defined.

#[export] Instance llm_not_null : NotNull LLMRoutingConfig.
Proof. by intros a. Qed.
#[export] Instance wasm_not_null : NotNull WASMSplitConfig.
Proof. by intros a. Qed.
#[export] Instance abt_not_null : NotNull PromptABTest_t.
Proof. by intros a. Qed.

(** The struct tags of [Route], in order. *)
Definition route_fields (r : Route) : list (string * option json) :=
  [("prefix", keep (Prefix r));
   ("schema", omitempty (SchemaName r));
   ("target", keep (Target r));
   ("targets", omitempty (Targets r));
   ("targets_weighted", omitempty (TargetsWeighted r));
   ("canary_auto_promote", omitempty (CanaryAutoPromote r));
   ("canary_promote_step", omitempty (CanaryPromoteStep r));
   ("canary_promote_sec", omitempty (CanaryPromoteSec r));
   ("canary_max_error_rate", omitempty (CanaryMaxErrorRate r));
   ("load_balancer", omitempty (LoadBalancer r));
   ("transpile_type", omitempty (TranspileType r));
   ("middleware", omitempty (Middleware r));
   ("response_middleware", omitempty (ResponseMiddleware r));
   ("rate_limit_rpm", omitempty (RateLimitRPM r));
   ("prompt_guard", omitempty (PromptGuard r));
   ("pii_redact", omitempty (PiiRedact r));
   ("semantic_cache", omitempty (SemanticCache r));
   ("validation_schema", omitempty (ValidationSchema r));
   ("ip_allowlist", omitempty (IPAllowlist r));
   ("ip_blocklist", omitempty (IPBlocklist r));
   ("access_log", omitempty (AccessLog r));
   ("access_log_path", omitempty (AccessLogPath r));
   ("cache_ttl_seconds", omitempty (CacheTTLSeconds r));
   ("cache_methods", omitempty (CacheMethods r));
   ("client_cert_path", omitempty (ClientCertPath r));
   ("client_key_path", omitempty (ClientKeyPath r));
   ("root_ca_path", omitempty (RootCAPath r));
   ("max_concurrent_requests", omitempty (MaxConcurrentRequests r));
   ("max_queue_size", omitempty (MaxQueueSize r));
   ("queue_timeout_ms", omitempty (QueueTimeoutMs r));
   ("go_middleware", omitempty (GoMiddleware r));
   ("require_api_key", omitempty (RequireAPIKey r));
   ("allowed_tenants", omitempty (AllowedTenants r));
   ("request_transform", omitempty (RequestTransform r));
   ("response_transform", omitempty (ResponseTransform r));
   ("graphql_federation", omitempty (GraphQLFederation r));
   ("mcp_enabled", omitempty (MCPEnabled r));
   ("llm_routing", omitempty (LLMRouting r));
   ("wasm_split", omitempty (WASMSplit r));
   ("max_body_size", omitempty (MaxBodySize r));
   ("prompt_ab_test", omitempty (PromptABTest r));
   ("response_quality_score", omitempty (ResponseQualityScore r));
   ("semantic_rate_limit", omitempty (SemanticRateLimit r));
   ("semantic_token_limit_per_min", omitempty (SemanticTokenLimitPerMin r));
   ("ai_waf_enabled", omitempty (AIWAFEnabled r))]%string.

Definition zero_route : Route := plain_route "" "".

Definition decode_route (cur : Route) (v : json) : option Route :=
  es ← obj_entries v;
  Prefix_ ← field decode "prefix" (Prefix cur) es;
  SchemaName_ ← field decode "schema" (SchemaName cur) es;
  Target_ ← field decode "target" (Target cur) es;
  Targets_ ← field decode "targets" (Targets cur) es;
  TargetsWeighted_ ← field decode "targets_weighted" (TargetsWeighted cur) es;
  CanaryAutoPromote_ ← field decode "canary_auto_promote" (CanaryAutoPromote cur) es;
  CanaryPromoteStep_ ← field decode "canary_promote_step" (CanaryPromoteStep cur) es;
  CanaryPromoteSec_ ← field decode "canary_promote_sec" (CanaryPromoteSec cur) es;
  CanaryMaxErrorRate_ ← field decode "canary_max_error_rate" (CanaryMaxErrorRate cur) es;
  LoadBalancer_ ← field decode "load_balancer" (LoadBalancer cur) es;
  TranspileType_ ← field decode "transpile_type" (TranspileType cur) es;
  Middleware_ ← field decode "middleware" (Middleware cur) es;
  ResponseMiddleware_ ← field decode "response_middleware" (ResponseMiddleware cur) es;
  RateLimitRPM_ ← field decode "rate_limit_rpm" (RateLimitRPM cur) es;
  PromptGuard_ ← field decode "prompt_guard" (PromptGuard cur) es;
  PiiRedact_ ← field decode "pii_redact" (PiiRedact cur) es;
  SemanticCache_ ← field decode "semantic_cache" (SemanticCache cur) es;
  ValidationSchema_ ← field decode "validation_schema" (ValidationSchema cur) es;
  IPAllowlist_ ← field decode "ip_allowlist" (IPAllowlist cur) es;
  IPBlocklist_ ← field decode "ip_blocklist" (IPBlocklist cur) es;
  AccessLog_ ← field decode "access_log" (AccessLog cur) es;
  AccessLogPath_ ← field decode "access_log_path" (AccessLogPath cur) es;
  CacheTTLSeconds_ ← field decode "cache_ttl_seconds" (CacheTTLSeconds cur) es;
  CacheMethods_ ← field decode "cache_methods" (CacheMethods cur) es;
  ClientCertPath_ ← field decode "client_cert_path" (ClientCertPath cur) es;
  ClientKeyPath_ ← field decode "client_key_path" (ClientKeyPath cur) es;
  RootCAPath_ ← field decode "root_ca_path" (RootCAPath cur) es;
  MaxConcurrentRequests_ ← field decode "max_concurrent_requests" (MaxConcurrentRequests cur) es;
  MaxQueueSize_ ← field decode "max_queue_size" (MaxQueueSize cur) es;
  QueueTimeoutMs_ ← field decode "queue_timeout_ms" (QueueTimeoutMs cur) es;
  GoMiddleware_ ← field decode "go_middleware" (GoMiddleware cur) es;
  RequireAPIKey_ ← field decode "require_api_key" (RequireAPIKey cur) es;
  AllowedTenants_ ← field decode "allowed_tenants" (AllowedTenants cur) es;
  RequestTransform_ ← field decode "request_transform" (RequestTransform cur) es;
  ResponseTransform_ ← field decode "response_transform" (ResponseTransform cur) es;
  GraphQLFederation_ ← field decode "graphql_federation" (GraphQLFederation cur) es;
  MCPEnabled_ ← field decode "mcp_enabled" (MCPEnabled cur) es;
  LLMRouting_ ← field decode "llm_routing" (LLMRouting cur) es;
  WASMSplit_ ← field decode "wasm_split" (WASMSplit cur) es;
  MaxBodySize_ ← field decode "max_body_size" (MaxBodySize cur) es;
  PromptABTest_ ← field decode "prompt_ab_test" (PromptABTest cur) es;
  ResponseQualityScore_ ← field decode "response_quality_score" (ResponseQualityScore cur) es;
  SemanticRateLimit_ ← field decode "semantic_rate_limit" (SemanticRateLimit cur) es;
  SemanticTokenLimitPerMin_ ← field decode "semantic_token_limit_per_min" (SemanticTokenLimitPerMin cur) es;
  AIWAFEnabled_ ← field decode "ai_waf_enabled" (AIWAFEnabled cur) es;
  Some {| Prefix := Prefix_; SchemaName := SchemaName_; Target := Target_;
          Targets := Targets_; TargetsWeighted := TargetsWeighted_;
          CanaryAutoPromote := CanaryAutoPromote_; CanaryPromoteStep := CanaryPromoteStep_;
          CanaryPromoteSec := CanaryPromoteSec_; CanaryMaxErrorRate := CanaryMaxErrorRate_;
          LoadBalancer := LoadBalancer_; TranspileType := TranspileType_;
          Middleware := Middleware_; ResponseMiddleware := ResponseMiddleware_;
          RateLimitRPM := RateLimitRPM_; PromptGuard := PromptGuard_;
          PiiRedact := PiiRedact_; SemanticCache := SemanticCache_;
          ValidationSchema := ValidationSchema_; IPAllowlist := IPAllowlist_;
          IPBlocklist := IPBlocklist_; AccessLog := AccessLog_;
          AccessLogPath := AccessLogPath_; CacheTTLSeconds := CacheTTLSeconds_;
          CacheMethods := CacheMethods_; ClientCertPath := ClientCertPath_;
          ClientKeyPath := ClientKeyPath_; RootCAPath := RootCAPath_;
          MaxConcurrentRequests := MaxConcurrentRequests_; MaxQueueSize := MaxQueueSize_;
          QueueTimeoutMs := QueueTimeoutMs_; GoMiddleware := GoMiddleware_;
          RequireAPIKey := RequireAPIKey_; AllowedTenants := AllowedTenants_;
          RequestTransform := RequestTransform_; ResponseTransform := ResponseTransform_;
          GraphQLFederation := GraphQLFederation_; MCPEnabled := MCPEnabled_;
          LLMRouting := LLMRouting_; WASMSplit := WASMSplit_; MaxBodySize := MaxBodySize_;
          PromptABTest := PromptABTest_; ResponseQualityScore := ResponseQualityScore_;
          SemanticRateLimit := SemanticRateLimit_;
          SemanticTokenLimitPerMin := SemanticTokenLimitPerMin_; AIWAFEnabled := AIWAFEnabled_ |}.

(** Strings are valid UTF-8, integers fit 64 bits, floats read back. *)
Definition route_valid (r : Route) : Prop :=
  valid (Prefix r) /\
  valid (SchemaName r) /\
  valid (Target r) /\
  valid (Targets r) /\
  valid (TargetsWeighted r) /\
  valid (CanaryAutoPromote r) /\
  valid (CanaryPromoteStep r) /\
  valid (CanaryPromoteSec r) /\
  valid (CanaryMaxErrorRate r) /\
  valid (LoadBalancer r) /\
  valid (TranspileType r) /\
  valid (Middleware r) /\
  valid (ResponseMiddleware r) /\
  valid (RateLimitRPM r) /\
  valid (PromptGuard r) /\
  valid (PiiRedact r) /\
  valid (SemanticCache r) /\
  valid (ValidationSchema r) /\
  valid (IPAllowlist r) /\
  valid (IPBlocklist r) /\
  valid (AccessLog r) /\
  valid (AccessLogPath r) /\
  valid (CacheTTLSeconds r) /\
  valid (CacheMethods r) /\
  valid (ClientCertPath r) /\
  valid (ClientKeyPath r) /\
  valid (RootCAPath r) /\
  valid (MaxConcurrentRequests r) /\
  valid (MaxQueueSize r) /\
  valid (QueueTimeoutMs r) /\
  valid (GoMiddleware r) /\
  valid (RequireAPIKey r) /\
  valid (AllowedTenants r) /\
  valid (RequestTransform r) /\
  valid (ResponseTransform r) /\
  valid (GraphQLFederation r) /\
  valid (MCPEnabled r) /\
  valid (LLMRouting r) /\
  valid (WASMSplit r) /\
  valid (MaxBodySize r) /\
  valid (PromptABTest r) /\
  valid (ResponseQualityScore r) /\
  valid (SemanticRateLimit r) /\
  valid (SemanticTokenLimitPerMin r) /\
  valid (AIWAFEnabled r).

Lemma route_distinct r : distinct (route_fields r).
Proof. unfold route_fields. solve_distinct. Qed.

Lemma decode_route_fields r :
  route_valid r -> decode_route zero_route (JObj (obj_of (route_fields r))) = Some r.
Proof.
  intros Hv. unfold route_valid in Hv. repeat (destruct Hv as [? Hv]).
  pose proof (route_distinct r) as Hd. unfold decode_route.
  eapply bind_Some_eq; [reflexivity|]. cbv beta. unfold route_fields in Hd |- *.
  solve_fields Hd. by destruct r.
Qed.

Lemma route_groups r : route_valid r -> Forall (group_ok 4) (route_fields r).
Proof.
  intros Hv. unfold route_valid in Hv. repeat (destruct Hv as [? Hv]). solve_groups.
Qed.

#[export, refine] Instance route_codec : Codec Route := {|
  zero := zero_route; empty _ := false;
  encode r := JObj (obj_of (route_fields r)); decode := decode_route;
  valid := route_valid; depth := 5;
|}.
Proof.
  - apply decode_route_fields.
  - done.
  - intros r Hr. apply (obj_of_wf 4). by apply route_groups.
  - intros r. solve_depths 4.
Defined.

#[export, refine] Instance apikey_codec : Codec APIKey := {|
  zero := {|
    Key := ""; Tenant := ""; KeyRateLimitRPM := 0; AllowedRoutes := []; MaxTokensPerDay := 0;
    MaxCostPerDay := zero |};
  empty _ := false;
  encode t := JObj (obj_of [("key", keep (Key t));
    ("tenant", keep (Tenant t));
    ("rate_limit_rpm", keep (KeyRateLimitRPM t));
    ("allowed_routes", keep (AllowedRoutes t));
    ("max_tokens_per_day", omitempty (MaxTokensPerDay t));
    ("max_cost_per_day", omitempty (MaxCostPerDay t))])%string;
  decode cur v :=
    es ← obj_entries v;
    k ← field decode "key" (Key cur) es;
    t_ ← field decode "tenant" (Tenant cur) es;
    l ← field decode "rate_limit_rpm" (KeyRateLimitRPM cur) es;
    rs ← field decode "allowed_routes" (AllowedRoutes cur) es;
    mt ← field decode "max_tokens_per_day" (MaxTokensPerDay cur) es;
    mc ← field decode "max_cost_per_day" (MaxCostPerDay cur) es;
    Some {| Key := k; Tenant := t_; KeyRateLimitRPM := l; AllowedRoutes := rs; MaxTokensPerDay := mt; MaxCostPerDay := mc |};
  valid t := valid (Key t) /\ valid (Tenant t) /\ valid (KeyRateLimitRPM t) /\ valid (AllowedRoutes t) /\ valid (MaxTokensPerDay t) /\ valid (MaxCostPerDay t);
  depth := 2;
|}.
Proof.
  - intros t (H0 & H1 & H2 & H3 & H4 & H5).
    assert (Hd : distinct [("key", keep (Key t));
    ("tenant", keep (Tenant t));
    ("rate_limit_rpm", keep (KeyRateLimitRPM t));
    ("allowed_routes", keep (AllowedRoutes t));
    ("max_tokens_per_day", omitempty (MaxTokensPerDay t));
    ("max_cost_per_day", omitempty (MaxCostPerDay t))]%string) by solve_distinct.
    eapply bind_Some_eq; [reflexivity|]. cbv beta. solve_fields Hd. by destruct t.
  - done.
  - intros t (H0 & H1 & H2 & H3 & H4 & H5). apply (obj_of_wf 1). solve_groups.
  - intros t. solve_depths 1.
Defined.

#[export, refine] Instance tenant_policy_codec : Codec TenantPolicy := {|
  zero := {|
    TenantID := ""; AllowedClusters := []; AllowedRegions := []; PolicyRateLimitRPM := 0 |};
  empty _ := false;
  encode t := JObj (obj_of [("tenant_id", keep (TenantID t));
    ("allowed_clusters", keep (AllowedClusters t));
    ("allowed_regions", keep (AllowedRegions t));
    ("rate_limit_rpm", keep (PolicyRateLimitRPM t))])%string;
  decode cur v :=
    es ← obj_entries v;
    i ← field decode "tenant_id" (TenantID cur) es;
    cs ← field decode "allowed_clusters" (AllowedClusters cur) es;
    rs ← field decode "allowed_regions" (AllowedRegions cur) es;
    l ← field decode "rate_limit_rpm" (PolicyRateLimitRPM cur) es;
    Some {| TenantID := i; AllowedClusters := cs; AllowedRegions := rs; PolicyRateLimitRPM := l |};
  valid t := valid (TenantID t) /\ valid (AllowedClusters t) /\ valid (AllowedRegions t) /\ valid (PolicyRateLimitRPM t);
  depth := 2;
|}.
Proof.
  - intros t (H0 & H1 & H2 & H3).
    assert (Hd : distinct [("tenant_id", keep (TenantID t));
    ("allowed_clusters", keep (AllowedClusters t));
    ("allowed_regions", keep (AllowedRegions t));
    ("rate_limit_rpm", keep (PolicyRateLimitRPM t))]%string) by solve_distinct.
    eapply bind_Some_eq; [reflexivity|]. cbv beta. solve_fields Hd. by destruct t.
  - done.
  - intros t (H0 & H1 & H2 & H3). apply (obj_of_wf 1). solve_groups.
  - intros t. solve_depths 1.
Defined.

#[export, refine] Instance config_codec : Codec GatewayConfig := {|
  zero := {|
    Addr := ""; AuthToken := ""; TlsCert := ""; TlsKey := ""; Routes := []; APIKeys := [];
    Signature := "" |};
  empty _ := false;
  encode t := JObj (obj_of [("addr", keep (Addr t));
    ("auth_token", keep (AuthToken t));
    ("tls_cert", keep (TlsCert t));
    ("tls_key", keep (TlsKey t));
    ("routes", keep (Routes t));
    ("api_keys", omitempty (APIKeys t));
    ("signature", omitempty (Signature t))])%string;
  decode cur v :=
    es ← obj_entries v;
    a ← field decode "addr" (Addr cur) es;
    tok ← field decode "auth_token" (AuthToken cur) es;
    c ← field decode "tls_cert" (TlsCert cur) es;
    k ← field decode "tls_key" (TlsKey cur) es;
    rs ← field decode "routes" (Routes cur) es;
    ks ← field decode "api_keys" (APIKeys cur) es;
    s ← field decode "signature" (Signature cur) es;
    Some {| Addr := a; AuthToken := tok; TlsCert := c; TlsKey := k; Routes := rs; APIKeys := ks; Signature := s |};
  valid t := valid (Addr t) /\ valid (AuthToken t) /\ valid (TlsCert t) /\ valid (TlsKey t) /\ valid (Routes t) /\ valid (APIKeys t) /\ valid (Signature t);
  depth := 7;
|}.
Proof.
  - intros t (H0 & H1 & H2 & H3 & H4 & H5 & H6).
    assert (Hd : distinct [("addr", keep (Addr t));
    ("auth_token", keep (AuthToken t));
    ("tls_cert", keep (TlsCert t));
    ("tls_key", keep (TlsKey t));
    ("routes", keep (Routes t));
    ("api_keys", omitempty (APIKeys t));
    ("signature", omitempty (Signature t))]%string) by solve_distinct.
    eapply bind_Some_eq; [reflexivity|]. cbv beta. solve_fields Hd. by destruct t.
  - done.
  - intros t (H0 & H1 & H2 & H3 & H4 & H5 & H6). apply (obj_of_wf 6). solve_groups.
  - intros t. solve_depths 6.
Defined.

End Codec.
