(* ===== verification/Config.v ===== *)
(** * Configuration providers and the signed configuration (pkg/proxy/provider.go)

    [signConfig], [verifyConfigSignature], and the [Load] and [Save] of the
    file and S3 providers.  The environment, the clock, the file and the HTTP
    client are arguments. *)

From S2P Require Import Prelude GoStrings GoFloat Encoding Hash Json Types Token Codec.
Export Codec.
Open Scope Z_scope.

Module Config.

(** [os.Getenv]: the empty string when unset. *)
Definition Getenv (env : gmap string string) (k : string) : string := default ""%string (env !! k).

(** [decodeBase64Url]: padding to a multiple of four, URL alphabet. *)
Definition decodeBase64Url (s : string) : option string :=
  let l := slen s mod 4 in
  b64_decode true (if 0 <? l then (s ++ Repeat "=" (Z.to_nat (4 - l)))%string else s).

(** [json.Marshal(cfg.Routes)] fails on floats that are not numbers. *)
Definition is_number (x : float64) : bool :=
  match x with S754_infinity _ | S754_nan => false | _ => true end.

Definition route_finite (r : Route) : bool :=
  is_number (CanaryMaxErrorRate r) &&
  match LLMRouting r with Some l => is_number (MinConfidence l) | None => true end.

Definition marshal_routes (rs : list Route) : option string :=
  if forallb route_finite rs
  then Some (render (encode rs)) else None.

Definition hash_text (text : string) : string := Token.raw_url (sha256 text).

Definition header_text : string :=
  render (JObj [("alg", JStr "HS256"); ("typ", JStr "JWT")])%string.

Definition config_claims (hash : string) (now : Z) : list (string * json) :=
  [("config_hash", JStr hash); ("exp", JNum (Itoa ((now + 24 * 60 * minute) / second)));
   ("iss", JStr "servconsole")]%string.

Definition signConfig (cfg : GatewayConfig) (secret : string) (now : Z) : option GatewayConfig :=
  match marshal_routes (Routes cfg) with
  | None => None
  | Some routesData =>
      let headerEnc := Token.raw_url header_text in
      let claimsEnc := Token.raw_url (render (JObj (config_claims (hash_text routesData) now))) in
      let sig := Token.raw_url (hmac_sha256 secret (Token.signing_input headerEnc claimsEnc)) in
      Some (with_Signature (headerEnc ++ "." ++ claimsEnc ++ "." ++ sig) cfg)
  end.

(** The checks on the decoded claims, in order. *)
Definition check_config_claims (cfg : GatewayConfig) (payload : string) (now : Z)
  : result string unit :=
  match Token.claim_entries payload with
  | None => Err "invalid signature claims JSON"%string
  | Some es =>
      match field dec_string "config_hash" ""%string es, field dec_int "exp" 0 es,
            field dec_string "iss" ""%string es with
      | Some hash, Some exp, Some iss =>
          if (0 <? exp) && (exp <? now / second) then Err "signature has expired"%string
          else if negb (String.eqb iss "servconsole")
          then Err ("invalid signature issuer: " ++ iss)%string
          else match marshal_routes (Routes cfg) with
               | None => Err "failed to serialize routes for verification"%string
               | Some routesData =>
                   if negb (String.eqb hash (hash_text routesData))
                   then Err "signature hash mismatch (possible configuration tampering)"%string
                   else Ok tt
               end
      | _, _, _ => Err "invalid signature claims JSON"%string
      end
  end.

Definition verifyConfigSignature (cfg : GatewayConfig) (secret : string) (now : Z)
  : result string unit :=
  if String.eqb (Signature cfg) "" then Err "missing configuration signature"%string
  else match Split "." (Signature cfg) with
  | [headerPart; payloadPart; signaturePart] =>
      match decodeBase64Url signaturePart with
      | Some sig =>
          if String.eqb sig (hmac_sha256 secret (Token.signing_input headerPart payloadPart)) then
            match decodeBase64Url payloadPart with
            | Some payload => check_config_claims cfg payload now
            | None => Err "failed to decode signature claims"%string
            end
          else Err "invalid signature"%string
      | None => Err "invalid signature"%string
      end
  | _ => Err "invalid signature format"%string
  end.

(** ** Providers *)

(** Both [Load]s end alike: decode, then verify when a secret is configured.
    The texts of decoding errors are those of [encoding/json]. *)
Definition load_body (env : gmap string string) (body : string) (now : Z)
  : result string GatewayConfig :=
  match json_decode body with
  | None => Err "invalid JSON"%string
  | Some v =>
      match decode zero v with
      | None => Err "invalid JSON"%string
      | Some cfg =>
          let secret := Getenv env "SERV_JWT_SECRET" in
          if String.eqb secret "" then Ok cfg
          else match verifyConfigSignature cfg secret now with
               | Err e => Err ("config signature verification failed: " ++ e)%string
               | Ok _ => Ok cfg
               end
      end
  end.

(** Both [Save]s begin alike: sign when a secret is configured.  [cfg] is a
    pointer: it is signed in place. *)
Definition sign_body (env : gmap string string) (cfg : GatewayConfig) (now : Z) : option GatewayConfig :=
  let secret := Getenv env "SERV_JWT_SECRET" in
  if String.eqb secret "" then Some cfg else signConfig cfg secret now.

(** [json.MarshalIndent(cfg)] fails on floats that are not numbers. *)
Definition config_finite (cfg : GatewayConfig) : bool :=
  forallb route_finite (Routes cfg) && forallb (fun k => is_number (MaxCostPerDay k)) (APIKeys cfg).

Definition marshal_config (cfg : GatewayConfig) : option string :=
  if config_finite cfg then Some (render_indent (encode cfg)) else None.

(** Sign and print: the signed configuration and the text. *)
Definition save_body (env : gmap string string) (cfg : GatewayConfig) (now : Z)
  : result string (GatewayConfig * string) :=
  match sign_body env cfg now with
  | None => Err "failed to sign config"%string
  | Some cfg' =>
      match marshal_config cfg' with
      | None => Err "json: unsupported value"%string
      | Some data => Ok (cfg', data)
      end
  end.

(** [LocalFileProvider.Load] of the file's content, [None] when it cannot be
    opened. *)
Definition local_load (env : gmap string string) (file : option string) (now : Z)
  : result string GatewayConfig :=
  match file with
  | None => Err "open failed"%string
  | Some body => load_body env body now
  end.

(** [LocalFileProvider.Save] writes the whole file. *)
Definition local_save (env : gmap string string) (cfg : GatewayConfig) (now : Z)
  : result string (GatewayConfig * string) := save_body env cfg now.

Record S3ConfigProvider := {
  Endpoint : string; Bucket : string; ObjectKey : string;
  AccessKey : string; SecretKey : string; S3AuthToken : string;
}.

(** What discovery adds to an endpoint and a token that are not set. *)
Definition discover (raw : string) (endpoint authToken : string) : option (string * string) :=
  match json_parse raw with
  | Some v =>
      match obj_entries v with
      | Some es =>
          match field dec_string "store" ""%string es, field dec_string "auth_token" ""%string es with
          | Some store, Some tok =>
              Some (if String.eqb endpoint "" && negb (String.eqb store "") then store else endpoint,
                    if String.eqb authToken "" && negb (String.eqb tok "") then tok else authToken)
          | _, _ => None
          end
      | None => None
      end
  | None => None
  end.

Definition or_default (s d : string) : string := if String.eqb s "" then d else s.

(** [NewS3ConfigProvider]; [read_file] is [os.ReadFile]. *)
Definition NewS3ConfigProvider (env : gmap string string) (read_file : string -> option string)
  : S3ConfigProvider :=
  let endpoint := Getenv env "SERV_CONFIG_S3_ENDPOINT" in
  let bucket := Getenv env "SERV_CONFIG_S3_BUCKET" in
  let authToken := Getenv env "SERV_CONFIG_S3_AUTH_TOKEN" in
  let raw := Getenv env "SERVVERSE_DISCOVERY" in
  let '(endpoint, authToken) :=
    if (String.eqb endpoint "" || String.eqb bucket "" || String.eqb authToken "")
       && negb (String.eqb raw "") then
      match discover raw endpoint authToken with
      | Some r => r
      | None =>
          match read_file raw with
          | Some data => default (endpoint, authToken) (discover data endpoint authToken)
          | None => (endpoint, authToken)
          end
      end
    else (endpoint, authToken) in
  {| Endpoint := TrimSuffix (or_default endpoint "http://localhost:8081") "/";
     Bucket := or_default bucket "serv-config";
     ObjectKey := or_default (Getenv env "SERV_CONFIG_S3_KEY") "gate-config.json";
     AccessKey := Getenv env "SERV_CONFIG_S3_ACCESS_KEY";
     SecretKey := Getenv env "SERV_CONFIG_S3_SECRET_KEY";
     S3AuthToken := or_default authToken "gateway-secret-token" |}.

(** A request of the providers: method, URL, headers, body. *)
Record s3_request := {
  Verb : string; Url : string; ReqHeaders : list (string * string); Payload : string;
}.

Definition s3_auth (p : S3ConfigProvider) : list (string * string) :=
  if String.eqb (S3AuthToken p) "" then []
  else [("Authorization", "Bearer " ++ S3AuthToken p)]%string.

Definition object_url (p : S3ConfigProvider) : string :=
  (Endpoint p ++ "/" ++ Bucket p ++ "/" ++ ObjectKey p)%string.

Definition status_error (what : string) (status : Z) (body : string) : string :=
  (what ++ " (" ++ Itoa status ++ "): " ++ body)%string.

(** [ensureBucketExists] ignores the answer. *)
Definition ensureBucketExists (p : S3ConfigProvider) : s3_request :=
  {| Verb := "PUT"; Url := (Endpoint p ++ "/" ++ Bucket p)%string; ReqHeaders := s3_auth p;
     Payload := "" |}.

Section client.
(** [http.Client.Do]: status and body, or a transport error. *)
Context (do_request : s3_request -> option (Z * string)).

Definition s3_load (p : S3ConfigProvider) (env : gmap string string) (now : Z)
  : result string GatewayConfig :=
  match do_request {| Verb := "GET"; Url := object_url p; ReqHeaders := s3_auth p; Payload := "" |} with
  | None => Err "request failed"%string
  | Some (status, body) =>
      if status =? 404 then Err "file does not exist"%string
      else if negb (status =? 200)
      then Err (status_error "failed to fetch config from S3" status body)
      else load_body env body now
  end.

(** The requests [Save] makes, and its result. *)
Definition s3_save (p : S3ConfigProvider) (env : gmap string string) (cfg : GatewayConfig) (now : Z)
  : list s3_request * result string GatewayConfig :=
  match sign_body env cfg now with
  | None => ([], Err "failed to sign config"%string)
  | Some cfg' =>
      match marshal_config cfg' with
      | None => ([ensureBucketExists p], Err "json: unsupported value"%string)
      | Some data =>
          let put := {| Verb := "PUT"; Url := object_url p;
                        ReqHeaders := ("Content-Type", "application/json")%string :: s3_auth p;
                        Payload := data |} in
          ([ensureBucketExists p; put],
           match do_request put with
           | None => Err "request failed"%string
           | Some (status, body) =>
               if negb (status =? 200) && negb (status =? 201) && negb (status =? 204)
               then Err (status_error "failed to save config to S3" status body)
               else Ok cfg'
           end)
      end
  end.
End client.

(** ** Lemmas *)

Lemma decodeBase64Url_raw s : decodeBase64Url (Token.raw_url s) = Some s.
Proof.
  unfold decodeBase64Url, Token.raw_url, b64_encode. cbv zeta.
  rewrite pad_raw_url by apply bytes_are_bytes. apply b64_decode_encode.
Qed.

(** Printing is injective on valid values. *)
Lemma encode_inj `{Codec A} (a b : A) :
  valid a -> valid b -> depth <= maxNestingDepth -> render (encode a) = render (encode b) -> a = b.
Proof.
  intros Ha Hb Hd He.
  assert (Some (encode a) = Some (encode b)) as [= Hab].
  { rewrite <- (json_parse_render (encode a)), <- (json_parse_render (encode b)).
    - by rewrite He.
    - by apply encode_wf.
    - pose proof (encode_depth b). lia.
    - by apply encode_wf.
    - pose proof (encode_depth a). lia. }
  assert (Some a = Some b) as [= ?]; [|done].
  rewrite <- (decode_encode a Ha), <- (decode_encode b Hb). by rewrite Hab.
Qed.

Lemma raw_url_inj s t : Token.raw_url s = Token.raw_url t -> s = t.
Proof.
  intros H. assert (Some s = Some t) as [= ?]; [|done].
  by rewrite <- (decodeBase64Url_raw s), <- (decodeBase64Url_raw t), H.
Qed.

Definition low (c : ascii) : bool := byte_of c <? 128.

Lemma raw_url_low s : sforall low (Token.raw_url s) = true.
Proof.
  assert (Hchar : forall x, 0 <= x < 64 -> low (b64_char true x) = true).
  { intros x Hx.
    assert (forallb (fun n => low (b64_char true (Z.of_nat n))) (seq 0 64) = true) as H
      by by vm_compute.
    rewrite forallb_forall in H. specialize (H (Z.to_nat x) ltac:(apply in_seq; lia)).
    by rewrite Z2Nat.id in H by lia. }
  unfold Token.raw_url, b64_encode. pose proof (bytes_are_bytes s) as Hb. revert Hb.
  generalize (bytes s) as l. intros l.
  induction l as [|a|a b|a b c l IH] using list_ind3; intros H; [done|..].
  - apply Forall_inv in H as Ha. pose proof (sextet_bounds a 0 0 Ha is_byte_0 is_byte_0).
    cbn -[Z.div Z.modulo Z.mul b64_char low]. by rewrite !Hchar by lia.
  - apply Forall_cons_1 in H as [Ha [Hb _]%Forall_cons_1].
    pose proof (sextet_bounds a b 0 Ha Hb is_byte_0).
    cbn -[Z.div Z.modulo Z.mul b64_char low]. by rewrite !Hchar by lia.
  - apply Forall_cons_1 in H as [Ha [Hb [Hc H]%Forall_cons_1]%Forall_cons_1].
    pose proof (sextet_bounds a b c Ha Hb Hc).
    cbn -[Z.div Z.modulo Z.mul b64_char low]. by rewrite !Hchar, IH by (done || lia).
Qed.

Lemma low_utf8 t : sforall low t = true -> utf8_valid t = true.
Proof.
  unfold utf8_valid, low.
  induction t as [|c t IH]; [done|]. cbn [sforall String.length utf8_valid_fuel rune_len].
  intros [H1 H2]%andb_true_iff. rewrite H1. by apply IH.
Qed.

(** The claims of a signature, read back. *)
Lemma check_signed_claims cfg hash t now :
  utf8_valid hash = true -> in_i64 ((t + 24 * 60 * minute) / second) ->
  check_config_claims cfg (render (JObj (config_claims hash t))) now
  = let exp := (t + 24 * 60 * minute) / second in
    if (0 <? exp) && (exp <? now / second) then Err "signature has expired"%string
    else match marshal_routes (Routes cfg) with
         | None => Err "failed to serialize routes for verification"%string
         | Some routesData =>
             if negb (String.eqb hash (hash_text routesData))
             then Err "signature hash mismatch (possible configuration tampering)"%string
             else Ok tt
         end.
Proof.
  intros Hh He. unfold check_config_claims. rewrite Token.claims_parse.
  - assert (field dec_int "exp" 0 (config_claims hash t) = Some ((t + 24 * 60 * minute) / second))
      as ->; [|done].
    transitivity (match parse_int64 (Itoa ((t + 24 * 60 * minute) / second)) with
                  | Some x => Some x | None => None end);
      [reflexivity|by rewrite parse_int64_Itoa].
  - cbn [json_wf forallb config_claims fst snd]. by rewrite Hh, Itoa_lit.
  - done.
Qed.

(** Verifying a configuration that carries the signature [signConfig] makes for
    a routes text. *)
Definition signature_for (secret routesData : string) (t : Z) : string :=
  let h := Token.raw_url header_text in
  let p := Token.raw_url (render (JObj (config_claims (hash_text routesData) t))) in
  (h ++ "." ++ p ++ "." ++ Token.raw_url (hmac_sha256 secret (Token.signing_input h p)))%string.

Lemma signature_for_utf8 secret text t : utf8_valid (signature_for secret text t) = true.
Proof.
  apply low_utf8. unfold signature_for. cbv zeta. rewrite !sforall_app, !raw_url_low. done.
Qed.

Lemma verify_signed cfg secret routesData t now :
  Signature cfg = signature_for secret routesData t ->
  in_i64 ((t + 24 * 60 * minute) / second) ->
  verifyConfigSignature cfg secret now
  = check_config_claims cfg (render (JObj (config_claims (hash_text routesData) t))) now.
Proof.
  intros Hs He. unfold verifyConfigSignature.
  assert (Hsplit : Split "." (Signature cfg)
    = [Token.raw_url header_text;
       Token.raw_url (render (JObj (config_claims (hash_text routesData) t)));
       Token.raw_url (hmac_sha256 secret (Token.signing_input (Token.raw_url header_text)
         (Token.raw_url (render (JObj (config_claims (hash_text routesData) t))))))]).
  { rewrite Hs. apply (Token.Split_mint secret header_text). }
  assert (String.eqb (Signature cfg) "" = false) as ->.
  { apply String.eqb_neq. intros E. by rewrite E in Hsplit. }
  rewrite Hsplit, !decodeBase64Url_raw. by rewrite String.eqb_refl.
Qed.

Lemma signConfig_spec cfg secret t cfg' :
  signConfig cfg secret t = Some cfg' ->
  exists text, marshal_routes (Routes cfg) = Some text /\
    cfg' = with_Signature (signature_for secret text t) cfg.
Proof.
  unfold signConfig. destruct (marshal_routes (Routes cfg)) as [text|]; [|done].
  intros [= <-]. by exists text.
Qed.

Lemma marshal_routes_text rs text : marshal_routes rs = Some text -> text = render (encode rs).
Proof. unfold marshal_routes. case_match; congruence. Qed.

Lemma verify_signed_fresh cfg secret t cfg' now :
  signConfig cfg secret t = Some cfg' -> in_i64 ((t + 24 * 60 * minute) / second) ->
  verifyConfigSignature cfg' secret now
  = let exp := (t + 24 * 60 * minute) / second in
    if (0 <? exp) && (exp <? now / second) then Err "signature has expired"%string else Ok tt.
Proof.
  intros (text & Hm & ->)%signConfig_spec He.
  rewrite (verify_signed _ secret text t) by done.
  rewrite check_signed_claims by (done || apply low_utf8, raw_url_low). cbv zeta.
  destruct (_ && _); [done|]. simpl Routes. rewrite Hm. by rewrite String.eqb_refl.
Qed.

Lemma load_printed env cfg now :
  valid cfg ->
  load_body env (render_indent (encode cfg)) now
  = let secret := Getenv env "SERV_JWT_SECRET" in
    if String.eqb secret "" then Ok cfg
    else match verifyConfigSignature cfg secret now with
         | Err e => Err ("config signature verification failed: " ++ e)%string
         | Ok _ => Ok cfg
         end.
Proof.
  intros Hv. unfold load_body. rewrite json_decode_indent.
  - by rewrite decode_encode.
  - by apply encode_wf.
  - pose proof (encode_depth cfg). change (@depth GatewayConfig _) with 7 in *.
    unfold maxNestingDepth. lia.
Qed.

Lemma float_ok_number x : float_ok x = true -> is_number x = true.
Proof. destruct x as [|[]| |]; try done; intros H; exfalso; vm_compute in H; congruence. Qed.

Lemma route_valid_finite r : route_valid r -> route_finite r = true.
Proof.
  intros (_ & _ & _ & _ & _ & _ & _ & _ & Hf & Hv). unfold route_finite.
  rewrite float_ok_number by done. simpl.
  assert (valid (LLMRouting r)) as Hl.
  { do 28 (destruct Hv as [_ Hv]). by destruct Hv as [Hl _]. }
  destruct (LLMRouting r) as [l|]; [|done]. destruct Hl as (_ & _ & _ & Hm).
  by apply float_ok_number.
Qed.

Lemma valid_marshal_routes rs : valid rs -> exists text, marshal_routes rs = Some text.
Proof.
  intros Hv. unfold marshal_routes. rewrite (proj2 (forallb_forall _ _)); [by eexists|].
  intros r Hr. apply route_valid_finite. change (Forall route_valid rs) in Hv.
  rewrite List.Forall_forall in Hv. by apply Hv.
Qed.

(** A valid configuration prints, whatever its signature. *)
Lemma valid_marshal_config cfg : valid cfg -> marshal_config cfg = Some (render_indent (encode cfg)).
Proof.
  intros (_ & _ & _ & _ & Hr & Hk & _). unfold marshal_config, config_finite.
  rewrite !(proj2 (forallb_forall _ _)); [done|..].
  - intros k Hin. change (Forall valid (APIKeys cfg)) in Hk. rewrite List.Forall_forall in Hk.
    apply float_ok_number. by apply Hk.
  - intros r Hin. apply route_valid_finite. change (Forall route_valid (Routes cfg)) in Hr.
    rewrite List.Forall_forall in Hr. by apply Hr.
Qed.

(** What was saved loads until the signature expires. *)
Lemma local_save_load env cfg t now :
  valid cfg -> in_i64 ((t + 24 * 60 * minute) / second) -> 0 <= t ->
  let secret := Getenv env "SERV_JWT_SECRET" in
  exists cfg' data, local_save env cfg t = Ok (cfg', data) /\
    (cfg' = cfg \/ exists sig, cfg' = with_Signature sig cfg) /\
    local_load env (Some data) now
    = if negb (String.eqb secret "") && ((t + 24 * 60 * minute) / second <? now / second)
      then Err "config signature verification failed: signature has expired"%string
      else Ok cfg'.
Proof.
  intros Hv He Ht secret. unfold local_save, save_body, sign_body, local_load. fold secret.
  destruct (String.eqb secret "") eqn:Es.
  - rewrite valid_marshal_config by done.
    exists cfg, (render_indent (encode cfg)). split; [done|]. split; [by left|].
    rewrite load_printed by done. cbv zeta. fold secret. by rewrite Es.
  - destruct (valid_marshal_routes (Routes cfg)) as [text Hm].
    { by destruct Hv as (_ & _ & _ & _ & ? & _). }
    destruct (signConfig cfg secret t) as [cfg'|] eqn:Hsign.
    2: { unfold signConfig in Hsign. by rewrite Hm in Hsign. }
    pose proof (signConfig_spec _ _ _ _ Hsign) as (text' & Hm' & Hcfg').
    assert (Hv' : valid cfg').
    { subst cfg'. destruct Hv as (H1 & H2 & H3 & H4 & H5 & H6 & H7).
      exact (conj H1 (conj H2 (conj H3 (conj H4 (conj H5 (conj H6 (signature_for_utf8 _ _ _))))))). }
    rewrite valid_marshal_config by done.
    do 2 eexists. split; [done|]. split; [right; by eexists|].
    rewrite load_printed.
    + cbv zeta. fold secret. rewrite Es, (verify_signed_fresh _ _ _ _ now Hsign He). cbv zeta.
      rewrite (proj2 (Z.ltb_lt 0 _)) by (unfold minute, second; Z.to_euclidean_division_equations; lia).
      simpl negb. rewrite !andb_true_l. by destruct (_ <? _).
    + done.
Qed.

(** ** Properties *)

(** C6. Save, then load: the file a provider writes for a valid configuration
    loads back as that configuration (carrying its new signature when a secret
    is set), until the signature's day is over; after that the gateway refuses
    its own file. *)
Theorem save_load_roundtrip env cfg t now :
  valid cfg -> in_i64 ((t + 24 * 60 * minute) / second) -> 0 <= t ->
  let secret := Getenv env "SERV_JWT_SECRET" in
  exists cfg' data, local_save env cfg t = Ok (cfg', data) /\
    (cfg' = cfg \/ exists sig, cfg' = with_Signature sig cfg) /\
    local_load env (Some data) now
    = if negb (String.eqb secret "") && ((t + 24 * 60 * minute) / second <? now / second)
      then Err "config signature verification failed: signature has expired"%string
      else Ok cfg'.
Proof. apply local_save_load. Qed.

(** C7. The signature binds the routes: two valid configurations that both
    verify with the same signature string, even at different times, have equal
    routes, unless their route texts are a SHA-256 collision. *)
Theorem signature_binds_routes secret cfg1 cfg2 now1 now2 :
  valid cfg1 -> valid cfg2 -> Signature cfg1 = Signature cfg2 ->
  verifyConfigSignature cfg1 secret now1 = Ok tt ->
  verifyConfigSignature cfg2 secret now2 = Ok tt ->
  let text c := render (encode (Routes c)) in
  (sha256 (text cfg1) = sha256 (text cfg2) -> text cfg1 = text cfg2) ->
  Routes cfg1 = Routes cfg2.
Proof.
  intros Hv1 Hv2 Hsig. unfold verifyConfigSignature. rewrite <- Hsig.
  destruct (String.eqb _ ""); [done|].
  destruct (Split "." (Signature cfg1)) as [|h [|p [|s [|]]]]; try done.
  destruct (decodeBase64Url s); [|done]. destruct (String.eqb _ _); [|done].
  destruct (decodeBase64Url p) as [payload|]; [|done]. unfold check_config_claims.
  destruct (Token.claim_entries payload) as [es|]; [|done].
  destruct (field dec_string "config_hash" _ es) as [hash|]; [|done].
  destruct (field dec_int "exp" _ es) as [exp|]; [|done].
  destruct (field dec_string "iss" _ es) as [iss|]; [|done].
  destruct (_ && _); [done|]. destruct (_ && _) in |- *; [done|].
  destruct (negb (String.eqb iss _)); [done|].
  destruct (marshal_routes (Routes cfg1)) as [t1|] eqn:E1; [|done].
  destruct (marshal_routes (Routes cfg2)) as [t2|] eqn:E2; [|done].
  destruct (negb (String.eqb hash (hash_text t1))) eqn:H1; [done|].
  destruct (negb (String.eqb hash (hash_text t2))) eqn:H2; [done|]. intros _ _. cbv zeta.
  breflect. apply marshal_routes_text in E1, E2. subst t1 t2. intros Hcoll.
  apply encode_inj.
  - by destruct Hv1 as (_ & _ & _ & _ & ? & _).
  - by destruct Hv2 as (_ & _ & _ & _ & ? & _).
  - vm_compute. discriminate.
  - apply Hcoll, raw_url_inj. unfold hash_text in *. congruence.
Qed.

(** The signature covers nothing but the routes: replacing the listen
    address, the gateway's own auth token, the TLS files and every API key
    leaves a verified configuration verified. *)
Theorem signature_covers_only_routes secret cfg cfg' now :
  Routes cfg' = Routes cfg -> Signature cfg' = Signature cfg ->
  verifyConfigSignature cfg' secret now = verifyConfigSignature cfg secret now.
Proof.
  intros Hr Hs. unfold verifyConfigSignature, check_config_claims. by rewrite Hs, Hr.
Qed.

(** ** Witnesses *)

Lemma plain_route_valid p t :
  utf8_valid p = true -> utf8_valid t = true -> route_valid (plain_route p t).
Proof.
  intros Hp Ht. unfold route_valid.
  repeat match goal with
  | |- _ /\ _ => split
  | |- valid (A := string) _ => first [exact Hp | exact Ht | reflexivity]
  | |- valid (A := Z) _ => vm_compute; split; congruence
  | |- valid (A := bool) _ => exact I
  | |- valid (A := float64) _ => vm_compute; reflexivity
  | |- valid (A := gmap _ _) _ => apply map_Forall_empty
  | |- valid (A := list _) _ => apply List.Forall_nil
  | |- valid (A := option _) _ => exact I
  end.
Qed.

Definition sample_config : GatewayConfig := {|
  Addr := ":8080"; AuthToken := "t0ken"; TlsCert := ""; TlsKey := "";
  Routes := [plain_route "/api" "http://10.0.0.1:9000"]; APIKeys := []; Signature := "" |}.

Definition sample_env : gmap string string := {[ "SERV_JWT_SECRET" := "s3cret" ]}%string.

Lemma sample_config_valid s : utf8_valid s = true -> valid (with_Signature s sample_config).
Proof.
  intros Hs. repeat split; try exact Hs; try apply List.Forall_nil.
  apply List.Forall_cons; [|apply List.Forall_nil]. by apply plain_route_valid.
Qed.

Lemma save_load_roundtrip_witness :
  let t := 1700000000 * second in
  exists cfg' data, local_save sample_env sample_config t = Ok (cfg', data) /\
    (cfg' = sample_config \/ exists sig, cfg' = with_Signature sig sample_config) /\
    local_load sample_env (Some data) ((1700000000 + 1) * second) = Ok cfg'.
Proof.
  cbv zeta.
  destruct (save_load_roundtrip sample_env sample_config (1700000000 * second)
    ((1700000000 + 1) * second)) as (cfg' & data & H1 & H2 & H3).
  - exact (sample_config_valid ""%string eq_refl).
  - vm_compute. split; congruence.
  - vm_compute. congruence.
  - exists cfg', data. split; [exact H1|]. split; [exact H2|].
    assert (Hc : negb (String.eqb (Getenv sample_env "SERV_JWT_SECRET") "") &&
      ((1700000000 * second + 24 * 60 * minute) / second <? (1700000000 + 1) * second / second)
      = false) by (vm_compute; reflexivity).
    rewrite Hc in H3. exact H3.
Defined.

Definition signed_sample : GatewayConfig :=
  with_Signature
    (signature_for "s3cret" (render (encode (Routes sample_config))) (1700000000 * second))
    sample_config.

(** Another listen address and auth token under the same signature. *)
Definition hijacked_sample : GatewayConfig :=
  {| Addr := ":1"; AuthToken := ""; TlsCert := ""; TlsKey := "";
     Routes := Routes sample_config; APIKeys := []; Signature := Signature signed_sample |}.

Lemma signature_binds_routes_witness :
  verifyConfigSignature signed_sample "s3cret" (1700000000 * second) = Ok tt /\
  Routes signed_sample = Routes hijacked_sample.
Proof.
  assert (H : verifyConfigSignature signed_sample "s3cret" (1700000000 * second) = Ok tt)
    by (vm_compute; reflexivity).
  split; [exact H|].
  apply (signature_binds_routes "s3cret" signed_sample hijacked_sample
    (1700000000 * second) (1700000000 * second)).
  - apply sample_config_valid, signature_for_utf8.
  - repeat split; try apply signature_for_utf8; try apply List.Forall_nil.
    apply List.Forall_cons; [|apply List.Forall_nil].
    exact (plain_route_valid "/api" "http://10.0.0.1:9000" eq_refl eq_refl).
  - reflexivity.
  - exact H.
  - vm_compute. reflexivity.
  - intros _. reflexivity.
Defined.

Lemma signature_covers_only_routes_witness :
  verifyConfigSignature hijacked_sample "s3cret" (1700000000 * second) = Ok tt.
Proof.
  rewrite (signature_covers_only_routes "s3cret" signed_sample hijacked_sample
    (1700000000 * second)); [vm_compute; reflexivity|reflexivity|reflexivity].
Defined.

(** A changed route is detected. *)
Example tampered_route_detected :
  verifyConfigSignature (with_Routes [plain_route "/api" "http://evil"] signed_sample)
    "s3cret" (1700000000 * second)
  = Err "signature hash mismatch (possible configuration tampering)"%string.
Proof. vm_compute. reflexivity. Qed.

End Config.
