(* ===== verification/Http.v ===== *)
(** * HTTP as the handlers see it (pkg/proxy/errors.go, access_log.go)

    Headers, request bodies as readers, requests, the server's response writer
    and the recording wrapper around it, the JSON error reply, and the access
    log.  What the handlers use of [net/http] is written out here: canonical
    header keys, [MaxBytesReader], the latching of the first final status, the
    statuses that admit no body. *)

From S2P Require Import Prelude GoStrings Json Access.
Import Access.
Open Scope Z_scope.

Module Http.

(** ** Headers *)

Abbreviation Header := (gmap string (list string)).

(** The bytes of an HTTP token. *)
Definition is_token (c : ascii) : bool :=
  is_digit c || is_upper c || is_lower c || in_cutset "!#$%&'*+-.^_`|~" c.

Fixpoint canonical_from (up : bool) (s : string) : string :=
  match s with
  | "" => ""
  | String c s' =>
      String (if up then upper_byte c else lower_byte c) (canonical_from (Ascii.eqb c "-") s')
  end%string.

(** [http.CanonicalHeaderKey]. *)
Definition canonical (k : string) : string :=
  if sforall is_token k then canonical_from true k else k.

Definition hvalues (h : Header) (k : string) : list string := default [] (h !! canonical k).
Definition hget (h : Header) (k : string) : string :=
  match hvalues h k with v :: _ => v | [] => ""%string end.
Definition hset (k v : string) (h : Header) : Header := <[canonical k := [v]]> h.
Definition hadd (k v : string) (h : Header) : Header := <[canonical k := hvalues h k ++ [v]]> h.
Definition hdel (k : string) (h : Header) : Header := delete (canonical k) h.

(** [for k, vs := range src { for _, v := range vs { dst.Add(k, v) } }]. *)
Definition add_all (kvs : string * list string) (dst : Header) : Header :=
  fold_left (fun h v => hadd (fst kvs) v h) (snd kvs) dst.
Definition copyHeader (dst src : Header) : Header :=
  fold_left (fun h kvs => add_all kvs h) (map_to_list src) dst.

(** ** Bodies

    A reader is what is left to read and how the reading ends: [None] at end of
    file, or an error, which every later read returns again. [r_limit] tells
    that the error is that of a [MaxBytesReader]. *)
Record Reader := { r_data : string; r_err : option string; r_limit : bool }.

Definition string_reader (s : string) : Reader := {| r_data := s; r_err := None; r_limit := false |}.

(** [io.ReadAll]: everything there is, and the error. *)
Definition ReadAll (r : Reader) : string * option string * Reader :=
  (r_data r, r_err r, {| r_data := ""; r_err := r_err r; r_limit := r_limit r |}).

(** [http.MaxBytesReader]: at most [limit] bytes, then an error. *)
Definition MaxBytesReader (r : Reader) (limit : Z) : Reader :=
  if slen (r_data r) <=? limit then r
  else {| r_data := stake (Z.to_nat limit) (r_data r);
          r_err := Some "http: request body too large"%string; r_limit := true |}.

(** ** Requests *)

(** [url.URL], with [Path] decoded. *)
Record Url := { u_scheme : string; u_host : string; u_path : string; u_query : string }.

(** [ctx_tenant] and [ctx_redact] are the values stored in the context. *)
Record Request := {
  method : string;
  url : Url;
  host : string;
  header : Header;
  body : Reader;
  content_length : Z;
  remote : string;
  ctx_tenant : option string;
  ctx_redact : option (list string);
}.

Definition set_method (x : string) (r : Request) : Request :=
  {| method := x; url := url r; host := host r; header := header r; body := body r;
     content_length := content_length r; remote := remote r; ctx_tenant := ctx_tenant r;
     ctx_redact := ctx_redact r |}.
Definition set_url (x : Url) (r : Request) : Request :=
  {| method := method r; url := x; host := host r; header := header r; body := body r;
     content_length := content_length r; remote := remote r; ctx_tenant := ctx_tenant r;
     ctx_redact := ctx_redact r |}.
Definition set_host (x : string) (r : Request) : Request :=
  {| method := method r; url := url r; host := x; header := header r; body := body r;
     content_length := content_length r; remote := remote r; ctx_tenant := ctx_tenant r;
     ctx_redact := ctx_redact r |}.
Definition set_header (x : Header) (r : Request) : Request :=
  {| method := method r; url := url r; host := host r; header := x; body := body r;
     content_length := content_length r; remote := remote r; ctx_tenant := ctx_tenant r;
     ctx_redact := ctx_redact r |}.
Definition set_body (x : Reader) (r : Request) : Request :=
  {| method := method r; url := url r; host := host r; header := header r; body := x;
     content_length := content_length r; remote := remote r; ctx_tenant := ctx_tenant r;
     ctx_redact := ctx_redact r |}.
Definition set_content_length (x : Z) (r : Request) : Request :=
  {| method := method r; url := url r; host := host r; header := header r; body := body r;
     content_length := x; remote := remote r; ctx_tenant := ctx_tenant r;
     ctx_redact := ctx_redact r |}.
Definition set_tenant (x : string) (r : Request) : Request :=
  {| method := method r; url := url r; host := host r; header := header r; body := body r;
     content_length := content_length r; remote := remote r; ctx_tenant := Some x;
     ctx_redact := ctx_redact r |}.
Definition set_redact (x : list string) (r : Request) : Request :=
  {| method := method r; url := url r; host := host r; header := header r; body := body r;
     content_length := content_length r; remote := remote r; ctx_tenant := ctx_tenant r;
     ctx_redact := Some x |}.

Definition path (r : Request) : string := u_path (url r).
Definition set_path (p : string) (r : Request) : Request :=
  set_url {| u_scheme := u_scheme (url r); u_host := u_host (url r); u_path := p;
             u_query := u_query (url r) |} r.
Definition rget (r : Request) (k : string) : string := hget (header r) k.
Definition rset (k v : string) (r : Request) : Request := set_header (hset k v (header r)) r.

(** [r.Body = io.NopCloser(bytes.NewReader(b)); r.ContentLength = int64(len(b))]. *)
Definition replace_body (b : string) (r : Request) : Request :=
  set_content_length (slen b) (set_body (string_reader b) r).

(** ** Responses *)

(** A backend's response; [interim] are the 1xx responses it sent before. *)
Record Response := {
  status : Z;
  rheader : Header;
  rbody : Reader;
  interim : list (Z * Header);
}.

(** [http.ResponseWriter]: the header map, [WriteHeader] and [Write]. *)
Class ResponseWriter (W : Type) := {
  wheader : W -> Header;
  set_wheader : Header -> W -> W;
  WriteHeader : Z -> W -> exec W;
  Write : string -> W -> Z * W;
}.

Definition wset {W} `{ResponseWriter W} (k v : string) (w : W) : W :=
  set_wheader (hset k v (wheader w)) w.

(** The server's writer: the status and headers sent, the body sent, and the
    interim responses. *)
Record ServerWriter := {
  s_header : Header;
  s_sent : option (Z * Header);
  s_out : string;
  s_interim : list (Z * Header);
}.

Definition new_writer : ServerWriter :=
  {| s_header := ∅; s_sent := None; s_out := ""; s_interim := [] |}.

Definition is_interim (code : Z) : bool := (100 <=? code) && (code <=? 199) && negb (code =? 101).

Definition body_allowed (status : Z) : bool :=
  negb ((100 <=? status) && (status <=? 199)) && negb (status =? 204) && negb (status =? 304).

Definition send_header (code : Z) (w : ServerWriter) : ServerWriter :=
  {| s_header := s_header w; s_sent := Some (code, s_header w); s_out := s_out w;
     s_interim := s_interim w |}.

(** A second final status is ignored; a status that is not of three digits
    panics. *)
Definition server_WriteHeader (code : Z) (w : ServerWriter) : exec ServerWriter :=
  match s_sent w with
  | Some _ => Done w
  | None =>
      if (code <? 100) || (999 <? code) then Panic "invalid WriteHeader code"
      else if is_interim code then
        Done {| s_header := s_header w; s_sent := None; s_out := s_out w;
                s_interim := s_interim w ++ [(code, s_header w)] |}
      else Done (send_header code w)
  end.

Definition server_Write (b : string) (w : ServerWriter) : Z * ServerWriter :=
  let w := match s_sent w with Some _ => w | None => send_header 200 w end in
  let code := match s_sent w with Some (c, _) => c | None => 200 end in
  if body_allowed code then
    (slen b, {| s_header := s_header w; s_sent := s_sent w; s_out := (s_out w ++ b)%string;
                s_interim := s_interim w |})
  else (0, w).

#[export] Instance ServerWriter_writer : ResponseWriter ServerWriter := {
  wheader := s_header;
  set_wheader h w := {| s_header := h; s_sent := s_sent w; s_out := s_out w; s_interim := s_interim w |};
  WriteHeader := server_WriteHeader;
  Write := server_Write;
}.

(** What the client is answered: [200] when the handler wrote nothing. *)
Definition client_status (w : ServerWriter) : Z :=
  match s_sent w with Some (c, _) => c | None => 200 end.

(** ** StatusRecordingResponseWriter *)

Record Recorder := {
  inner : ServerWriter;
  StatusCode : Z;
  BytesWritten : Z;
  captured : string;
  captureBody : bool;
  wroteHeader : bool;
}.

Definition NewStatusRecordingResponseWriter (w : ServerWriter) (captureBody : bool) : Recorder :=
  {| inner := w; StatusCode := 200; BytesWritten := 0; captured := ""; captureBody := captureBody;
     wroteHeader := false |}.

Definition rec_WriteHeader (code : Z) (rw : Recorder) : exec Recorder :=
  if wroteHeader rw then Done rw
  else
    let! w := WriteHeader code (inner rw) in
    Done {| inner := w; StatusCode := code; BytesWritten := BytesWritten rw; captured := captured rw;
            captureBody := captureBody rw; wroteHeader := true |}.

(** [stake n] is [b[:n]]. *)
Definition rec_Write (b : string) (rw : Recorder) : Z * Recorder :=
  let '(n, w) := Write b (inner rw) in
  (n, {| inner := w; StatusCode := StatusCode rw; BytesWritten := BytesWritten rw + n;
         captured := if captureBody rw then (captured rw ++ stake (Z.to_nat n) b)%string else captured rw;
         captureBody := captureBody rw; wroteHeader := wroteHeader rw |}).

Definition set_inner (w : ServerWriter) (rw : Recorder) : Recorder :=
  {| inner := w; StatusCode := StatusCode rw; BytesWritten := BytesWritten rw; captured := captured rw;
     captureBody := captureBody rw; wroteHeader := wroteHeader rw |}.

#[export] Instance Recorder_writer : ResponseWriter Recorder := {
  wheader rw := wheader (inner rw);
  set_wheader h rw := set_inner (set_wheader h (inner rw)) rw;
  WriteHeader := rec_WriteHeader;
  Write := rec_Write;
}.

(** [CapturedHeaders]: a deep copy. *)
Definition CapturedHeaders (rw : Recorder) : Header := (fun vs => [] ++ vs) <$> wheader rw.

(** ** Error replies (errors.go) *)

Definition newline : string := String (of_byte 10) ""%string.

Record APIError := { Error : string; Code : string; TraceID : string }.

(** [json:"trace_id,omitempty"]. *)
Definition omit_empty (name v : string) : list (string * json) :=
  if String.eqb v "" then [] else [(name, JStr v)].

Definition encode_APIError (e : APIError) : json :=
  JObj ([("error"%string, JStr (Error e)); ("code"%string, JStr (Code e))] ++
        omit_empty "trace_id" (TraceID e)).

(** The second part of the [traceparent] header, if there is one. *)
Definition header_trace_id (r : Request) : string :=
  match Split "-" (rget r "traceparent") with
  | _ :: id :: _ => id
  | _ => ""%string
  end.

(** [json.NewEncoder(w).Encode(v)]: one write, with a final newline. *)
Definition encode_to {W} `{ResponseWriter W} (v : json) (w : W) : W :=
  snd (Write (render v ++ newline)%string w).

Definition WriteJSONError {W} `{ResponseWriter W} (w : W) (r : Request) (msg code : string) (status : Z)
  : exec W :=
  let w := wset "Content-Type" "application/json" w in
  let! w := WriteHeader status w in
  Done (encode_to (encode_APIError {| Error := msg; Code := code; TraceID := header_trace_id r |}) w).

(** [http.Error]. *)
Definition http_Error {W} `{ResponseWriter W} (w : W) (msg : string) (status : Z) : exec W :=
  let w := set_wheader (hdel "Content-Length" (wheader w)) w in
  let w := wset "Content-Type" "text/plain; charset=utf-8" w in
  let w := wset "X-Content-Type-Options" "nosniff" w in
  let! w := WriteHeader status w in
  Done (snd (Write (msg ++ newline)%string w)).

(** ** Timestamps: [t.UTC().Format(time.RFC3339)] of an instant in nanoseconds *)

(** Year, month and day of a day number counted from 1970-01-01. *)
Definition civil_of_days (days : Z) : Z * Z * Z :=
  let z := days + 719468 in
  let era := z / 146097 in
  let doe := z mod 146097 in
  let yoe := (doe - doe / 1460 + doe / 36524 - doe / 146096) / 365 in
  let doy := doe - (365 * yoe + yoe / 4 - yoe / 100) in
  let mp := (5 * doy + 2) / 153 in
  let d := doy - (153 * mp + 2) / 5 + 1 in
  let m := if mp <? 10 then mp + 3 else mp - 9 in
  (yoe + era * 400 + (if m <=? 2 then 1 else 0), m, d).

Definition pad2 (n : Z) : string := ((if (n <? 10)%Z then "0" else "") ++ Itoa n)%string.
Definition pad4 (n : Z) : string :=
  ((if (n <? 10)%Z then "000" else if (n <? 100)%Z then "00" else if (n <? 1000)%Z then "0" else "") ++ Itoa n)%string.

Definition rfc3339 (t : Z) : string :=
  let secs := t / second in
  let '(y, m, d) := civil_of_days (secs / 86400) in
  let sod := secs mod 86400 in
  (pad4 y ++ "-" ++ pad2 m ++ "-" ++ pad2 d ++ "T" ++ pad2 (sod / 3600)%Z ++ ":" ++
   pad2 (sod mod 3600 / 60)%Z ++ ":" ++ pad2 (sod mod 60)%Z ++ "Z")%string.

Example rfc3339_examples :
  rfc3339 0 = "1970-01-01T00:00:00Z"%string /\
  rfc3339 (1709210096 * second + 5) = "2024-02-29T12:34:56Z"%string /\
  rfc3339 (4102444799 * second) = "2099-12-31T23:59:59Z"%string.
Proof. vm_compute. split; [done|]. split; done. Qed.

(** ** Access log (access_log.go) *)

Record LogEntry := {
  Timestamp : string;
  Method : string;
  Path : string;
  RoutePrefix : string;
  ClientIP : string;
  Status : Z;
  LatencyMs : Z;
  RequestSize : Z;
  ResponseSize : Z;
  UserAgent : string;
  LogTraceID : string;
  LogTarget : string;
  LogError : string;
  Tenant : string;
}.

Definition encode_LogEntry (e : LogEntry) : json :=
  JObj ([("timestamp", JStr (Timestamp e)); ("method", JStr (Method e)); ("path", JStr (Path e));
         ("route", JStr (RoutePrefix e)); ("client_ip", JStr (ClientIP e));
         ("status", JNum (Itoa (Status e))); ("latency_ms", JNum (Itoa (LatencyMs e)));
         ("request_size", JNum (Itoa (RequestSize e))); ("response_size", JNum (Itoa (ResponseSize e)));
         ("user_agent", JStr (UserAgent e))]%string ++
        omit_empty "trace_id" (LogTraceID e) ++ [("target"%string, JStr (LogTarget e))] ++
        omit_empty "error" (LogError e) ++ omit_empty "tenant" (Tenant e)).

(** The log files by path: a logger appends whole lines to the file it was
    opened on, and flushes each of them; two loggers can share a file. *)
Abbreviation Files := (gmap string string).

Record AccessLogger := { al_path : string }.

(** [NewAccessLogger]: [opens] tells whether the directory and the file can be
    created. *)
Definition NewAccessLogger (opens : string -> bool) (path : string) : option AccessLogger :=
  if opens path then Some {| al_path := path |} else None.

Definition Log (al : AccessLogger) (entry : LogEntry) (fs : Files) : Files :=
  <[al_path al := (default "" (fs !! al_path al) ++ render (encode_LogEntry entry) ++ newline)%string]> fs.

Definition extractClientIP (r : Request) : string :=
  let xff := rget r "X-Forwarded-For" in
  if negb (String.eqb xff "") then
    match index_byte xff "," with
    | Some idx => TrimSpace (stake idx xff)
    | None => TrimSpace xff
    end
  else match split_host (remote r) with
       | Some h => h
       | None => remote r
       end.

Definition BuildLogEntry (r : Request) (rec : Recorder)
    (route target traceID : string) (start now : Z) (errMsg : string) : LogEntry :=
  {| Timestamp := rfc3339 start;
     Method := method r;
     Path := path r;
     RoutePrefix := route;
     ClientIP := extractClientIP r;
     Status := StatusCode rec;
     LatencyMs := Z.quot (now - start) millisecond;
     RequestSize := content_length r;
     ResponseSize := BytesWritten rec;
     UserAgent := rget r "User-Agent";
     LogTraceID := traceID;
     LogTarget := target;
     LogError := errMsg;
     Tenant := default ""%string (ctx_tenant r) |}.

(** [fmt.Sscanf(s, "%d", &x)]: blanks, a sign, digits; what follows is left
    unread. *)
Definition is_blank (c : ascii) : bool := (byte_of c =? 32) || (byte_of c =? 9) || (byte_of c =? 13).
Definition Sscanf_d (s : string) : option Z :=
  let s := trim_left is_blank s in
  let '(neg, s) := split_sign s in
  match fst (take_digits s) with
  | ""%string => None
  | d => let n := digits_value 0 d in
         let n := if neg : bool then - n else n in
         if (- 2 ^ 63 <=? n) && (n <? 2 ^ 63) then Some n else None
  end.

Example sscanf_examples :
  Sscanf_d "42" = Some 42 /\ Sscanf_d " -7%" = Some (-7) /\ Sscanf_d "x" = None /\
  Sscanf_d "99999999999999999999" = None.
Proof. vm_compute. split; [done|]. split; [done|]. split; done. Qed.

End Http.
