(* ===== verification/Url.v ===== *)
(** * Target URLs

    What the gateway uses of [net/url]: [url.Parse] of a route's target, up to
    its error messages, and the path that is left of a request once the prefix
    of its route is stripped. *)

From S2P Require Import Prelude GoStrings Json Http.
Open Scope Z_scope.

Module Url.
Import Http.

Definition is_ctl (c : ascii) : bool := (byte_of c <? 32) || (byte_of c =? 127).
Definition is_alnum (c : ascii) : bool := is_digit c || is_upper c || is_lower c.

(** [unescape]: percent-decoding; [ok] tells the bytes allowed unescaped. *)
Fixpoint unescape (n : nat) (host_mode : bool) (ok : ascii -> bool) (s : string) : option string :=
  match n, s with
  | _, ""%string => Some ""%string
  | O, _ => None
  | S n', String c s' =>
      if Ascii.eqb c "%" then
        match s' with
        | String a (String b s'') =>
            match hex_value a, hex_value b with
            | Some x, Some y =>
                let v := 16 * x + y in
                if host_mode && (x <? 8) && negb (v =? 37) then None
                else String (of_byte v) <$> unescape n' host_mode ok s''
            | _, _ => None
            end
        | _ => None
        end
      else if ok c then String c <$> unescape n' host_mode ok s' else None
  end.

Definition unescape_path (s : string) : option string :=
  unescape (String.length s) false (fun _ => true) s.

Definition host_byte (c : ascii) : bool :=
  (128 <=? byte_of c) || is_alnum c || in_cutset "!$&'()*+,;=:[]<>-_.~" c || (byte_of c =? 34).
Definition unescape_host (s : string) : option string :=
  unescape (String.length s) true host_byte s.

Definition userinfo_byte (c : ascii) : bool := is_alnum c || in_cutset "-._:~!$&'()*+,;=%@" c.

(** [getScheme]: the scheme and the rest; no scheme when a byte cannot be part
    of one. *)
Fixpoint get_scheme (first : bool) (acc s all : string) : option (string * string) :=
  match s with
  | ""%string => Some (""%string, all)
  | String c s' =>
      if is_upper c || is_lower c then get_scheme false (acc ++ String c "")%string s' all
      else if is_digit c || in_cutset "+-." c then
        if first then Some (""%string, all) else get_scheme false (acc ++ String c "")%string s' all
      else if Ascii.eqb c ":" then if first then None else Some (ToLower acc, s')
      else Some (""%string, all)
  end.

(** [validOptionalPort]. *)
Definition valid_port (s : string) : bool :=
  match s with
  | ""%string => true
  | String c d => Ascii.eqb c ":" && sforall is_digit d
  end.

Definition parse_host (h : string) : option string :=
  if HasPrefix h "[" then
    match last_index_byte h "]" with
    | Some i => if valid_port (sdrop (S i) h) then unescape_host h else None
    | None => None
    end
  else match last_index_byte h ":" with
       | Some i => if valid_port (sdrop i h) then unescape_host h else None
       | None => unescape_host h
       end.

Definition parse_authority (a : string) : option string :=
  match last_index_byte a "@" with
  | None => parse_host a
  | Some i =>
      let user := stake i a in
      if sforall userinfo_byte user && (if unescape_path user then true else false)
      then parse_host (sdrop (S i) a) else None
  end.

(** The part before the first [c], and the part after it if there is one. *)
Definition cut (s : string) (c : ascii) : string * option string :=
  match index_byte s c with
  | Some i => (stake i s, Some (sdrop (S i) s))
  | None => (s, None)
  end.

(** [url.Parse]; an opaque URL ([mailto:x]) has no host and no path. *)
Definition Parse (raw : string) : option Url :=
  let '(u, frag) := cut raw "#" in
  if negb (sforall (fun c => negb (is_ctl c)) u) then None
  else if negb (if unescape_path (default ""%string frag) then true else false) then None
  else if String.eqb u "*" then Some {| u_scheme := ""; u_host := ""; u_path := "*"; u_query := "" |}
  else match get_scheme true "" u u with
       | None => None
       | Some (scheme, rest) =>
           let '(rest, query) := cut rest "?" in
           let query := default ""%string query in
           if negb (HasPrefix rest "/") && negb (String.eqb scheme "") then
             Some {| u_scheme := scheme; u_host := ""; u_path := ""; u_query := query |}
           else if negb (HasPrefix rest "/") && Contains (fst (cut rest "/")) ":" then None
           else
             let '(authority, rest) :=
               if (negb (String.eqb scheme "") || negb (HasPrefix rest "///")) && HasPrefix rest "//"
               then let a := sdrop 2 rest in
                    match index_byte a "/" with
                    | Some i => (Some (stake i a), sdrop i a)
                    | None => (Some a, ""%string)
                    end
               else (None, rest) in
             match match authority with Some a => parse_authority a | None => Some ""%string end,
                   unescape_path rest with
             | Some h, Some p => Some {| u_scheme := scheme; u_host := h; u_path := p; u_query := query |}
             | _, _ => None
             end
       end.

Example parse_examples :
  Parse "http://10.0.0.1:8080/api%2Fv1?x=1#f"
    = Some {| u_scheme := "http"; u_host := "10.0.0.1:8080"; u_path := "/api/v1"; u_query := "x=1" |} /\
  Parse "HTTPS://user:pw@[::1]:443" = Some {| u_scheme := "https"; u_host := "[::1]:443"; u_path := ""; u_query := "" |} /\
  map Parse ["http://a b/"; "http://h:x/"; ":80"; "http://h/%zz"; "a:80/p:q"; "1.2.3.4:80"]%string
    = [None; None; None; None;
       Some {| u_scheme := "a"; u_host := ""; u_path := ""; u_query := "" |}; None]%string.
Proof. vm_compute. split; [done|]. split; done. Qed.

(** [singleJoiningSlash] of [httputil]. *)
Definition join_slash (a b : string) : string :=
  match HasSuffix a "/", HasPrefix b "/" with
  | true, true => (a ++ sdrop 1 b)%string
  | false, false => (a ++ "/" ++ b)%string
  | _, _ => (a ++ b)%string
  end.

(** The path a request keeps: the route's prefix and one slash are taken off,
    and a slash is put in front. *)
Definition strip_prefix (p prefix : string) : string :=
  ("/" ++ TrimPrefix (TrimPrefix p prefix) "/")%string.

End Url.
