(* ===== verification/Ai.v ===== *)
(** * AI request checks (pkg/proxy/ai.go, ai_extension_oss.go)

    The prompt of a request body, the prompt guard, the PII redactor with the
    regular expressions it uses, the bag-of-words semantic cache, and the cost
    estimate. *)

From S2P Require Import Prelude GoStrings GoFloat Json Http.
Open Scope Z_scope.

Module Ai.
Import Http.

(** ** The prompt *)

Definition extractPrompt (body : string) : string :=
  match unmarshal_map body with
  | None => ""%string
  | Some data =>
      match assoc "prompt" data with
      | Some (AStr prompt) => prompt
      | _ =>
          match assoc "messages" data with
          | Some (ASlice messages) =>
              match list.last messages with
              | Some (AMap lastMsg) =>
                  match assoc "content" lastMsg with Some (AStr content) => content | _ => ""%string end
              | _ => ""%string
              end
          | _ => ""%string
          end
      end
  end.

(** ** Regular expressions

    The operators the patterns use.  [One c] consumes one rune accepted by
    [c], which gives the rest of the text; matching is Go's leftmost-first:
    alternatives and repetitions are tried in order of preference. *)
Inductive re :=
| One (c : string -> option string)
| Many (c : string -> option string)      (** [c*], greedy *)
| Cat (a b : re)
| Opt (a : re)                            (** [(?:a)?], greedy *)
| Boundary                                (** [\b] *)
| Empty.

Definition is_word (c : ascii) : bool := is_digit c || is_upper c || is_lower c || Ascii.eqb c "_".
Definition word_at (s : string) : bool := match s with String c _ => is_word c | _ => false end.

(** [matches r prev s k]: match [r] at the front of [s], where [prev] tells
    whether a word byte is just before, then continue with [k]. *)
Fixpoint matches {A} (r : re) (prev : bool) (s : string) (k : bool -> string -> option A) : option A :=
  match r with
  | One c => match c s with Some rest => k (word_at s) rest | None => None end
  | Many c =>
      (fix loop (n : nat) (prev : bool) (s : string) : option A :=
         match n with
         | O => k prev s
         | S n' =>
             match c s with
             | Some rest => match loop n' (word_at s) rest with Some x => Some x | None => k prev s end
             | None => k prev s
             end
         end) (String.length s) prev s
  | Cat a b => matches a prev s (fun prev' s' => matches b prev' s' k)
  | Opt a => match matches a prev s k with Some x => Some x | None => k prev s end
  | Boundary => if Bool.eqb prev (word_at s) then None else k prev s
  | Empty => k prev s
  end.

Definition match_at (r : re) (prev : bool) (s : string) : option string :=
  matches r prev s (fun _ rest => Some rest).

(** [MatchString]: a match at any position. *)
Fixpoint search (r : re) (prev : bool) (s : string) : bool :=
  match match_at r prev s with
  | Some _ => true
  | None => match s with String c s' => search r (is_word c) s' | ""%string => false end
  end.
Definition MatchString (r : re) (s : string) : bool := search r false s.

(** [ReplaceAllString] for patterns that match no empty text. *)
Fixpoint replace_from (n : nat) (r : re) (repl : string) (prev : bool) (s : string) : string :=
  match n with
  | O => s
  | S n' =>
      match match_at r prev s with
      | Some rest =>
          let len := (String.length s - String.length rest)%nat in
          (repl ++ replace_from n' r repl (word_at (sdrop (len - 1) s)) rest)%string
      | None =>
          match s with
          | String c s' => String c (replace_from n' r repl (is_word c) s')
          | ""%string => ""%string
          end
      end
  end.
Definition ReplaceAllString (r : re) (repl s : string) : string :=
  replace_from (S (String.length s)) r repl false s.

Definition cls (p : ascii -> bool) (s : string) : option string :=
  match s with String c s' => if p c then Some s' else None | ""%string => None end.

(** A letter under [(?i)]: its two cases, and the long s and the Kelvin sign
    that fold to s and k. *)
Definition long_s : string := String (of_byte 197) (String (of_byte 191) ""%string).
Definition kelvin : string := String (of_byte 226) (String (of_byte 132) (String (of_byte 170) ""%string)).

Definition fold_one (p : ascii -> bool) (s : string) : option string :=
  match cls (fun c => p (lower_byte c)) s with
  | Some rest => Some rest
  | None =>
      if p "s"%char && HasPrefix s long_s then Some (TrimPrefix s long_s)
      else if p "k"%char && HasPrefix s kelvin then Some (TrimPrefix s kelvin)
      else None
  end.

(** [(?i)lit]. *)
Fixpoint fold_lit (lit : string) : re :=
  match lit with
  | ""%string => Empty
  | String c lit' => Cat (One (fold_one (Ascii.eqb c))) (fold_lit lit')
  end.

Fixpoint times (n : nat) (r : re) : re :=
  match n with O => Empty | S n' => Cat r (times n' r) end.

(** ** Prompt guard *)

Definition injectionPatterns : list string :=
  ["ignore previous instructions"; "system prompt override"; "you are now in developer mode";
   "jailbreak"]%string.

Definition IsPromptInjection (prompt : string) : bool :=
  existsb (fun p => MatchString (fold_lit p) prompt) injectionPatterns.

(** ** PII redactor *)

Definition digit : re := One (cls is_digit).
Definition char (c : ascii) : re := One (cls (Ascii.eqb c)).
Definition sep : re := Opt (One (cls (in_cutset "- "))).

Definition email_re : re :=
  let user := fold_one (fun c => is_lower c || is_digit c || in_cutset "._%+-" c) in
  let domain := fold_one (fun c => is_lower c || is_digit c || in_cutset ".-" c) in
  let letter := fold_one is_lower in
  Cat (One user) (Cat (Many user) (Cat (char "@") (Cat (One domain) (Cat (Many domain)
    (Cat (char ".") (Cat (One letter) (Cat (One letter) (Many letter)))))))).

Definition phone_re : re :=
  Cat Boundary
    (Cat (Opt (Cat (char "+") (Cat digit (Cat (Opt (Cat digit (Opt digit))) sep))))
      (Cat (Opt (char "(")) (Cat (times 3 digit) (Cat (Opt (char ")")) (Cat sep
        (Cat (times 3 digit) (Cat sep (Cat (times 4 digit) Boundary)))))))).

Definition ssn_re : re :=
  Cat Boundary (Cat (times 3 digit) (Cat (char "-") (Cat (times 2 digit) (Cat (char "-")
    (Cat (times 4 digit) Boundary))))).

Definition card_re : re :=
  Cat Boundary (Cat (times 3 (Cat (times 4 digit) sep)) (Cat (times 4 digit) Boundary)).

Definition piiPatterns : list (string * re) :=
  [("[REDACTED_EMAIL]", email_re); ("[REDACTED_PHONE]", phone_re); ("[REDACTED_SSN]", ssn_re);
   ("[REDACTED_CARD]", card_re)]%string.

(** The loop over the map of patterns, visited in the order of the list. *)
Definition RedactPii (order : list (string * re)) (text : string) : string :=
  fold_left (fun text p => ReplaceAllString (snd p) (fst p) text) order text.

Example redact_examples :
  map (RedactPii piiPatterns)
    ["mail bob.x@a-b.co.uk now"; "+1 (555) 123-4567"; "(555) 123-4567"; "ssn 123-45-6789."; "4111 1111-11111111";
     "12345678901"; "no"]%string
  = ["mail [REDACTED_EMAIL] now"; "+1 ([REDACTED_PHONE]"; "([REDACTED_PHONE]"; "ssn [REDACTED_SSN]."; "[REDACTED_CARD]";
     "12345678901"; "no"]%string.
Proof. vm_compute. done. Qed.

(** The patterns are replaced in the order of a map iteration: an address that
    looks like a number can keep its domain. *)
Example pii_order_dependent :
  RedactPii piiPatterns "555-123-4567@x.com" = "[REDACTED_EMAIL]"%string /\
  RedactPii (reverse piiPatterns) "555-123-4567@x.com" = "[REDACTED_PHONE]@x.com"%string.
Proof. split; by vm_compute. Qed.

(** ** Semantic cache *)

Definition fzero : float64 := SpecFloat.S754_zero false.
Definition fone : float64 := of_int 1.
Definition fsqrt : float64 -> float64 := SpecFloat.SFsqrt 53 1024.

Definition word_cutset : string := (".,!?;:()" ++ dquote ++ "'")%string.

(** [tf[w]++]. *)
Definition count_word (tf : gmap string float64) (w : string) : gmap string float64 :=
  let w := Trim w word_cutset in
  if String.eqb w "" then tf else <[w := fadd (default fzero (tf !! w)) fone]> tf.

Definition tokenize (text : string) : gmap string float64 :=
  fold_left count_word (Fields (ToLower text)) ∅.

(** The maps are visited in the order of the lists. *)
Definition getMagnitude (tf : list (string * float64)) : float64 :=
  fsqrt (fold_left (fun sum p => fadd sum (fmul (snd p) (snd p))) tf fzero).

Definition cosineSimilarity (tf1 : list (string * float64)) (tf2 : gmap string float64)
    (mag1 mag2 : float64) : float64 :=
  if feqb mag1 fzero || feqb mag2 fzero then fzero
  else
    let dotProduct := fold_left (fun acc p =>
        match tf2 !! fst p with
        | Some v2 => fadd acc (fmul (snd p) v2)
        | None => acc
        end) tf1 fzero in
    fdiv dotProduct (fmul mag1 mag2).

Record CacheEntry := {
  Prompt : string;
  CachedResponse : string;
  TermFreq : gmap string float64;
  Magnitude : float64;
}.

Record SemanticCache := { sc_entries : list CacheEntry; threshold : float64 }.

Definition NewSemanticCache (threshold : float64) : SemanticCache :=
  {| sc_entries := [];
     threshold := if fleb threshold fzero then of_decimal false 85 (-2) else threshold |}.

(** The first entry that is similar enough answers. *)
Fixpoint first_similar (c : float64) (tf : list (string * float64)) (mag : float64)
    (es : list CacheEntry) : option string :=
  match es with
  | [] => None
  | e :: es' =>
      if fleb c (cosineSimilarity tf (TermFreq e) mag (Magnitude e)) then Some (CachedResponse e)
      else first_similar c tf mag es'
  end.

Definition semantic_Get (c : SemanticCache) (prompt : string) : option string :=
  let tf := map_to_list (tokenize prompt) in
  let mag := getMagnitude tf in
  if feqb mag fzero then None else first_similar (threshold c) tf mag (sc_entries c).

Definition semantic_Set (c : SemanticCache) (prompt response : string) : SemanticCache :=
  let tf := tokenize prompt in
  let mag := getMagnitude (map_to_list tf) in
  if feqb mag fzero then c
  else {| sc_entries := sc_entries c ++
            [{| Prompt := prompt; CachedResponse := response; TermFreq := tf; Magnitude := mag |}];
          threshold := threshold c |}.

(** ** Cost estimate ([applyAIRequestExtensions]) *)

Definition estTokens (reqBody : string) : Z :=
  let reqTokens := slen reqBody / 4 in
  (if reqTokens <? 1 then 1 else reqTokens) + 500.

Definition estCost (reqBody : string) : float64 :=
  let c := fmul (of_int (estTokens reqBody)) (of_decimal false 2 (-6)) in
  if fltb c (of_decimal false 3 (-3)) then of_decimal false 3 (-3) else c.

Definition dry_run (r : Request) : bool :=
  String.eqb (rget r "X-Dry-Run") "true" || String.eqb (rget r "X-Estimate-Only") "true".

Definition dry_run_reply (cost : float64) : string :=
  ("{" ++ dquote ++ "status" ++ dquote ++ ":" ++ dquote ++ "dry-run" ++ dquote ++ "," ++
   dquote ++ "estimated_cost_usd" ++ dquote ++ ":" ++ fmt_fixed 6 cost ++ "," ++
   dquote ++ "estimated_cost_str" ++ dquote ++ ":" ++ dquote ++ "$" ++ fmt_fixed 3 cost ++
   dquote ++ "}")%string.

(** The body, and whether the request goes on. *)
Definition applyAIRequestExtensions {W} `{ResponseWriter W} (w : W) (r : Request) (reqBody : string)
  : exec (W * string * bool) :=
  let cost := estCost reqBody in
  let w := wset "X-Estimated-Cost" ("$" ++ fmt_fixed 3 cost)%string w in
  if dry_run r then
    let w := wset "Content-Type" "application/json" w in
    let! w := WriteHeader 200 w in
    Done (snd (Write (dry_run_reply cost) w), reqBody, false)
  else Done (w, reqBody, true).

(** ** Lemmas *)

Definition ascii7 (c : ascii) : bool := byte_of c <? 128.

Lemma high_start c s t : byte_of c = 197 \/ byte_of c = 226 ->
  sforall ascii7 s = true -> HasPrefix s (String c t) = false.
Proof.
  intros Hc Hs. destruct s as [|d s]; [done|]. unfold HasPrefix. simpl.
  destruct (Ascii.ascii_dec c d) as [->|]; [|done].
  simpl in Hs. apply andb_true_iff in Hs as [Hd _]. unfold ascii7 in Hd. lia.
Qed.

Lemma fold_one_ascii c s : sforall ascii7 s = true ->
  fold_one (Ascii.eqb c) s = match s with
                             | String d s' => if Ascii.eqb c (lower_byte d) then Some s' else None
                             | ""%string => None
                             end.
Proof.
  intros Hs. unfold fold_one, cls, long_s, kelvin.
  rewrite (high_start (of_byte 197)), (high_start (of_byte 226)) by (auto; by vm_compute).
  rewrite !andb_false_r. destruct s as [|d s]; [done|]. by destruct (Ascii.eqb c _).
Qed.

Lemma matches_fold_lit {A} lit : forall prev s (f : string -> option A),
  sforall ascii7 s = true ->
  matches (fold_lit lit) prev s (fun _ rest => f rest)
  = if HasPrefix (ToLower s) lit then f (sdrop (String.length lit) s) else None.
Proof.
  induction lit as [|c lit IH]; intros prev s f Hs; [by destruct s|].
  cbn [fold_lit matches]. rewrite fold_one_ascii by done.
  destruct s as [|d s]; [done|]. simpl in Hs. apply andb_true_iff in Hs as [_ Hs].
  unfold HasPrefix. simpl. unfold ToLower in *.
  destruct (Ascii.ascii_dec c (lower_byte d)) as [->|Hne].
  - rewrite Ascii.eqb_refl. by rewrite (IH _ s f Hs).
  - by rewrite (proj2 (Ascii.eqb_neq _ _) Hne).
Qed.

Lemma search_fold_lit lit : forall prev s, sforall ascii7 s = true ->
  search (fold_lit lit) prev s = Contains (ToLower s) lit.
Proof.
  intros prev s. revert prev. induction s as [|c s IH]; intros prev Hs; cbn [search];
    unfold match_at; rewrite matches_fold_lit by done.
  - unfold ToLower. cbn [smap Contains]. by destruct (HasPrefix "" lit).
  - pose proof Hs as Hs'. simpl in Hs'. apply andb_true_iff in Hs' as [_ Hs'].
    rewrite (IH _ Hs'). unfold ToLower. cbn [smap Contains].
    by destruct (HasPrefix _ lit).
Qed.

Lemma replace_unmatched r repl : forall n prev s, search r prev s = false ->
  replace_from n r repl prev s = s.
Proof.
  induction n as [|n IH]; intros prev s Hs; [done|]. cbn [replace_from].
  destruct s as [|c s]; cbn [search] in Hs; destruct (match_at r prev _); try done.
  by rewrite IH.
Qed.

(** ** Properties *)

(** C28. The prompt guard on ASCII prompts: blocked are exactly the prompts in
    which one of the four phrases occurs, in any case. *)
Theorem prompt_guard_exact prompt :
  sforall ascii7 prompt = true ->
  IsPromptInjection prompt = true <->
  exists p, p ∈ injectionPatterns /\ Contains (ToLower prompt) p = true.
Proof.
  intros Ha. unfold IsPromptInjection. rewrite existsb_exists. unfold MatchString.
  split; intros (p & Hp & H); exists p; revert H; rewrite search_fold_lit by done; intros H;
    (split; [by apply list_elem_of_In|done]).
Qed.

Lemma prompt_guard_exact_witness :
  IsPromptInjection "please IGNORE previous Instructions!" = true /\
  (IsPromptInjection "hi" = true <->
   exists p, p ∈ injectionPatterns /\ Contains (ToLower "hi") p = true).
Proof. split; [by vm_compute|]. apply (prompt_guard_exact "hi"). by vm_compute. Defined.

(** The guard also folds the long s and the Kelvin sign, as Go's [(?i)] does. *)
Example prompt_guard_folds :
  IsPromptInjection ("a jailbrea" ++ kelvin) = true /\ IsPromptInjection "jail break" = false.
Proof. split; by vm_compute. Qed.

(** The optional country code of the phone pattern needs a word byte before
    its plus sign: in a text it is normally left in place. *)
Example phone_country_code_kept :
  RedactPii piiPatterns "call +1 555-123-4567" = "call +1 [REDACTED_PHONE]"%string.
Proof. by vm_compute. Qed.

End Ai.
