(* ===== verification/OpenApi.v ===== *)
(** * The generated OpenAPI document (pkg/proxy/handler.go: [serveOpenAPIDocs])

    One path item per route prefix, with five operations each; the operations
    with a body carry the schema derived from the route's validation rules. *)

From S2P Require Import Prelude GoStrings Json Types Http.
Open Scope Z_scope.

Module OpenApi.

(** A [map[string]interface{}] literal. *)
Definition amap (l : list (string * any)) : any := AMap (from_entries l).

(** The type and the required flag of one validation rule. *)
Definition rule_part (st : string * bool) (part : string) : string * bool :=
  let '(pType, req) := st in
  let p := TrimSpace part in
  if String.eqb p "required" then (pType, true)
  else if String.eqb p "int" || String.eqb p "integer" then ("integer"%string, req)
  else if String.eqb p "float" || String.eqb p "number" then ("number"%string, req)
  else if String.eqb p "bool" || String.eqb p "boolean" then ("boolean"%string, req)
  else if String.eqb p "string" then ("string"%string, req)
  else (pType, req).

Definition field_type (rule : string) : string * bool :=
  fold_left rule_part (Split "," rule) ("string"%string, false).

(** [schema] is the map of rules in the order it is visited. *)
Definition body_schema (schema : list (string * string)) : any :=
  let properties := amap (map (fun fr =>
    (fst fr, amap [("type"%string, AStr (fst (field_type (snd fr))))])) schema) in
  let required := map (fun fr => AStr (fst fr)) (List.filter (fun fr => snd (field_type (snd fr))) schema) in
  amap ([("type", AStr "object"); ("properties", properties)]%string ++
        match required with [] => [] | _ => [("required"%string, ASlice required)] end).

Definition operation (route : Route) (schema : list (string * string)) (m : string) : any :=
  amap ([("summary", AStr ("Proxy to " ++ Target route));
         ("description", AStr ("Proxies requests starting with " ++ Prefix route ++ " to target: " ++ Target route));
         ("responses", amap [("200", amap [("description", AStr "Successful proxy response")])])]%string ++
        if (String.eqb m "post" || String.eqb m "put") && (0 <? lenZ schema) then
          [("requestBody", amap [("required", ABool true);
             ("content", amap [("application/json", amap [("schema", body_schema schema)])])])]%string
        else []).

Definition path_key (prefix : string) : string :=
  ((if HasSuffix prefix "/" then prefix else prefix ++ "/") ++ "{path}")%string.

Definition methods : list string := ["get"; "post"; "put"; "delete"; "patch"]%string.

Definition path_item (order : gmap string string -> list (string * string)) (route : Route) : any :=
  let schema := order (ValidationSchema route) in
  amap (("parameters"%string, ASlice [amap
          [("name", AStr "path"); ("in", AStr "path"); ("required", ABool true);
           ("description", AStr "Sub-route path parameter");
           ("schema", amap [("type", AStr "string")])]%string])
        :: map (fun m => (m, operation route schema m)) methods).

(** [paths[pathKey] = pathItem]: a later route replaces an earlier one. *)
Definition paths order (routes : list Route) : list (string * any) :=
  from_entries (map (fun route => (path_key (Prefix route), path_item order route)) routes).

Definition openapi order (routes : list Route) : json :=
  of_any (amap
    [("openapi", AStr "3.1.0");
     ("info", amap [("title", AStr "ServGate API Gateway Discovery"); ("version", AStr "1.0.0");
                    ("description", AStr "Auto-discovered gateway proxy routes")]);
     ("paths", AMap (paths order routes));
     ("components", amap [("securitySchemes", amap [("BearerAuth",
        amap [("type", AStr "http"); ("scheme", AStr "bearer"); ("bearerFormat", AStr "JWT")])])]);
     ("security", ASlice [amap [("BearerAuth", ASlice [])]])]%string).

Definition serveOpenAPIDocs {W} `{Http.ResponseWriter W} order (routes : list Route) (w : W) : W :=
  Http.encode_to (openapi order routes) (Http.wset "Content-Type" "application/json" w).

(** ** Lemmas *)

Lemma string_compare_refl s : String.compare s s = Eq.
Proof.
  induction s as [|c s IH]; [done|]. simpl. rewrite IH.
  unfold Ascii.compare. by rewrite N.compare_refl.
Qed.

Lemma assoc_put {A} k k' (v : A) m :
  assoc k (put k' v m) = if String.eqb k k' then Some v else assoc k m.
Proof.
  induction m as [|[k2 v2] m IH]; simpl; [done|].
  destruct (String.compare k' k2) eqn:E; simpl.
  - apply String.compare_eq_iff in E as <-. by destruct (String.eqb k k').
  - done.
  - rewrite IH. destruct (String.eqb_spec k k2) as [->|]; [|done].
    destruct (String.eqb_spec k2 k') as [->|]; [|done].
    by rewrite string_compare_refl in E.
Qed.

(** A key holds the value of its last entry. *)
Lemma assoc_from_entries {A} k (l : list (string * A)) :
  assoc k (from_entries l) = snd <$> list.last (List.filter (fun kv => String.eqb k (fst kv)) l).
Proof.
  unfold from_entries. induction l as [|[k' v] l IH] using rev_ind; [done|].
  rewrite fold_left_app. cbn [fold_left fst snd]. rewrite assoc_put, IH, filter_app. simpl.
  destruct (String.eqb k k'); [by rewrite list.last_snoc|by rewrite app_nil_r].
Qed.

(** ** Properties *)

(** The document describes every route: a path of the document is the
    prefix of a route with [{path}] appended, and its item is that of the last
    route registered with that path, whatever else is registered. *)
Theorem openapi_paths_exact order routes key :
  assoc key (paths order routes)
  = path_item order <$>
      list.last (List.filter (fun r => String.eqb key (path_key (Prefix r))) routes).
Proof.
  unfold paths. rewrite assoc_from_entries.
  induction routes as [|r routes IH] using rev_ind; [done|].
  rewrite map_app, !filter_app. simpl. destruct (String.eqb key (path_key (Prefix r))).
  - by rewrite !list.last_snoc.
  - by rewrite !app_nil_r.
Qed.

(** The types of the document follow other names than the validator's: [double]
    is documented as a string. *)
Example documented_types :
  map field_type ["required, int"; "number"; "email"; "double,required"]%string
  = [("integer", true); ("number", false); ("string", false); ("string", true)]%string.
Proof. by vm_compute. Qed.

(** Two prefixes that differ by a final slash share one path. *)
Example shared_path : path_key "/a" = path_key "/a/".
Proof. done. Qed.

End OpenApi.
