(* ===== verification/Handler.v ===== *)
(** * The state of the gateway (pkg/proxy/handler.go: [GatewayHandler])

    The handler's record, its construction, the registration and replacement of
    routes with the resources they need (semantic and response caches, access
    loggers, mTLS transports, backpressure limiters), and the counters.  The
    file system and the environment are the arguments gathered in [Platform]. *)

From S2P Require Import Prelude GoStrings GoFloat Json Types RateLimit Balancer Canary Breaker.
From S2P Require Import Backpressure Cache Token Policy Config Http Ai.
Open Scope Z_scope.

Module Handler.

(** What the operating system answers: the environment, which log files can be
    opened, the certificates that load, the files that can be read. *)
Record Platform := {
  p_env : gmap string string;
  p_opens : string -> bool;
  p_load_key_pair : string -> string -> option string;
  p_read_file : string -> option string;
}.

(** ** Metrics *)

Record MetricsTracker := {
  totalRequests : Z;
  totalErrors : Z;
  lastRequests : Z;
  lastErrors : Z;
  reqRate : float64;
  errRate : float64;
}.

Definition new_tracker : MetricsTracker :=
  {| totalRequests := 0; totalErrors := 0; lastRequests := 0; lastErrors := 0;
     reqRate := Ai.fzero; errRate := Ai.fzero |}.

Definition IncRequest (m : MetricsTracker) : MetricsTracker :=
  {| totalRequests := u64 (totalRequests m + 1); totalErrors := totalErrors m;
     lastRequests := lastRequests m; lastErrors := lastErrors m; reqRate := reqRate m;
     errRate := errRate m |}.

Definition IncError (m : MetricsTracker) : MetricsTracker :=
  {| totalRequests := totalRequests m; totalErrors := u64 (totalErrors m + 1);
     lastRequests := lastRequests m; lastErrors := lastErrors m; reqRate := reqRate m;
     errRate := errRate m |}.

Definition Tick (m : MetricsTracker) : MetricsTracker :=
  {| totalRequests := totalRequests m; totalErrors := totalErrors m;
     lastRequests := totalRequests m; lastErrors := totalErrors m;
     reqRate := of_int (u64 (totalRequests m - lastRequests m));
     errRate := of_int (u64 (totalErrors m - lastErrors m)) |}.

Definition Snapshot (m : MetricsTracker) : Z * Z * float64 * float64 :=
  (totalRequests m, totalErrors m, reqRate m, errRate m).

(** ** mTLS transports *)

(** The client certificate and the root pool of a custom transport. *)
Record Transport := { t_cert : option string; t_roots : option string }.

Definition createMTLSTransport (p : Platform) (clientCertPath clientKeyPath rootCAPath : string)
  : result string Transport :=
  let? cert :=
    if negb (String.eqb clientCertPath "") && negb (String.eqb clientKeyPath "") then
      match p_load_key_pair p clientCertPath clientKeyPath with
      | Some c => Ok (Some c)
      | None => Err "failed to load client key pair"%string
      end
    else Ok None in
  let? roots :=
    if negb (String.eqb rootCAPath "") then
      match p_read_file p rootCAPath with
      | Some pem => Ok (Some pem)
      | None => Err "failed to read root CA file"%string
      end
    else Ok None in
  Ok {| t_cert := cert; t_roots := roots |}.

(** ** The resources of the routes, by route prefix *)

Record resources := {
  semanticCaches : gmap string Ai.SemanticCache;
  accessLoggers : gmap string Http.AccessLogger;
  responseCaches : gmap string Cache.ResponseCache;
  transports : gmap string Transport;
  limiters : gmap string (option Backpressure.BackpressureLimiter);
}.

Definition no_resources : resources :=
  {| semanticCaches := ∅; accessLoggers := ∅; responseCaches := ∅; transports := ∅; limiters := ∅ |}.

Definition set_semanticCaches m (s : resources) : resources :=
  {| semanticCaches := m; accessLoggers := accessLoggers s; responseCaches := responseCaches s;
     transports := transports s; limiters := limiters s |}.
Definition set_accessLoggers m (s : resources) : resources :=
  {| semanticCaches := semanticCaches s; accessLoggers := m; responseCaches := responseCaches s;
     transports := transports s; limiters := limiters s |}.
Definition set_responseCaches m (s : resources) : resources :=
  {| semanticCaches := semanticCaches s; accessLoggers := accessLoggers s; responseCaches := m;
     transports := transports s; limiters := limiters s |}.
Definition set_transports m (s : resources) : resources :=
  {| semanticCaches := semanticCaches s; accessLoggers := accessLoggers s;
     responseCaches := responseCaches s; transports := m; limiters := limiters s |}.
Definition set_limiters m (s : resources) : resources :=
  {| semanticCaches := semanticCaches s; accessLoggers := accessLoggers s;
     responseCaches := responseCaches s; transports := transports s; limiters := m |}.

Definition new_semantic_cache : Ai.SemanticCache := Ai.NewSemanticCache (of_decimal false 85 (-2)).

(** [time.Duration(route.CacheTTLSeconds) * time.Second]. *)
Definition new_response_cache (ttlSeconds : Z) : Cache.ResponseCache :=
  Cache.NewResponseCache (i64 (ttlSeconds * second)).

Definition log_path (route : Route) : string :=
  if String.eqb (AccessLogPath route) "" then "./logs/access.jsonl"%string else AccessLogPath route.

Definition wants_transport (route : Route) : bool :=
  negb (String.eqb (ClientCertPath route) "") || negb (String.eqb (RootCAPath route) "").

(** One entry of a map of resources: [add] is the code's guard, [mk] what it
    stores, if it can be created. *)
Definition install {A} (add : bool) (k : string) (mk : option A) (m : gmap string A) : gmap string A :=
  if add then match mk with Some x => <[k := x]> m | None => m end else m.

Definition transport_of (p : Platform) (route : Route) : option Transport :=
  match createMTLSTransport p (ClientCertPath route) (ClientKeyPath route) (RootCAPath route) with
  | Ok tr => Some tr
  | Err _ => None
  end.

(** The resources that are created without a panic.  [keep] is [true] where
    the code first looks whether the prefix has one already. *)
Definition install_plain (keep : bool) (p : Platform) (route : Route) (s : resources) : resources :=
  let k := Prefix route in
  let absent {A} (m : gmap string A) := negb keep || negb (bool_decide (is_Some (m !! k))) in
  let s := set_semanticCaches
    (install (SemanticCache route && absent (semanticCaches s)) k (Some new_semantic_cache)
       (semanticCaches s)) s in
  let s := set_accessLoggers
    (install (AccessLog route && absent (accessLoggers s)) k
       (Http.NewAccessLogger (p_opens p) (log_path route)) (accessLoggers s)) s in
  let s := set_responseCaches
    (install ((0 <? CacheTTLSeconds route) && absent (responseCaches s)) k
       (Some (new_response_cache (CacheTTLSeconds route))) (responseCaches s)) s in
  set_transports
    (install (wants_transport route && absent (transports s)) k (transport_of p route)
       (transports s)) s.

(** The resources of one route; [Some why] when [make(chan)] panics on a
    negative queue size. *)
Definition install_route (keep : bool) (p : Platform) (route : Route) (s : resources)
  : resources * option string :=
  let s := install_plain keep p route s in
  let k := Prefix route in
  if (0 <? MaxConcurrentRequests route) && (negb keep || negb (bool_decide (is_Some (limiters s !! k)))) then
    match Backpressure.NewBackpressureLimiter (MaxConcurrentRequests route) (MaxQueueSize route)
            (QueueTimeoutMs route) with
    | Done l => (set_limiters (<[k := l]> (limiters s)) s, None)
    | Panic why => (s, Some why)
    end
  else (s, None).

Fixpoint install_routes (keep : bool) (p : Platform) (rs : list Route) (s : resources)
  : resources * option string :=
  match rs with
  | [] => (s, None)
  | r :: rs' =>
      match install_route keep p r s with
      | (s', None) => install_routes keep p rs' s'
      | stopped => stopped
      end
  end.

(** ** The handler *)

Section Handler.
Context {R M : Type} `{RateLimit.Limiter.RedisZSet R}.

(** [limits] are [ratLimiters] and [redisClient], [bal] are [rrIndices],
    [activeConns] and [targetLoad]; [wasm] is the middleware manager. *)
Record GatewayHandler := {
  routes : list Route;
  wasm : M;
  authToken : string;
  limits : RateLimit.Limiter.state R;
  bal : balancer;
  res : resources;
  metricsTracker : MetricsTracker;
  apiKeys : gmap string APIKey;
  policyVersion : Z;
  revokedSessions : gmap string Z;
  canaryStats : gmap string canaryStatsRecord;
  policySchema : option Policy.PolicySchema;
  tenantPolicies : gmap string TenantPolicy;
  circuitBreakers : gmap string Breaker.CircuitBreaker;
  logs : Http.Files;
}.

(** *** Field updates *)

Definition set_routes (x : list Route) (h : GatewayHandler) : GatewayHandler :=
  {| routes := x; wasm := wasm h; authToken := authToken h; limits := limits h; bal := bal h;
     res := res h; metricsTracker := metricsTracker h; apiKeys := apiKeys h;
     policyVersion := policyVersion h; revokedSessions := revokedSessions h;
     canaryStats := canaryStats h; policySchema := policySchema h;
     tenantPolicies := tenantPolicies h; circuitBreakers := circuitBreakers h; logs := logs h |}.
Definition set_wasm (x : M) (h : GatewayHandler) : GatewayHandler :=
  {| routes := routes h; wasm := x; authToken := authToken h; limits := limits h;
     bal := bal h; res := res h; metricsTracker := metricsTracker h; apiKeys := apiKeys h;
     policyVersion := policyVersion h; revokedSessions := revokedSessions h;
     canaryStats := canaryStats h; policySchema := policySchema h;
     tenantPolicies := tenantPolicies h; circuitBreakers := circuitBreakers h; logs := logs h |}.
Definition set_limits (x : RateLimit.Limiter.state R) (h : GatewayHandler) : GatewayHandler :=
  {| routes := routes h; wasm := wasm h; authToken := authToken h; limits := x; bal := bal h;
     res := res h; metricsTracker := metricsTracker h; apiKeys := apiKeys h;
     policyVersion := policyVersion h; revokedSessions := revokedSessions h;
     canaryStats := canaryStats h; policySchema := policySchema h;
     tenantPolicies := tenantPolicies h; circuitBreakers := circuitBreakers h; logs := logs h |}.
Definition set_bal (x : balancer) (h : GatewayHandler) : GatewayHandler :=
  {| routes := routes h; wasm := wasm h; authToken := authToken h; limits := limits h;
     bal := x; res := res h; metricsTracker := metricsTracker h; apiKeys := apiKeys h;
     policyVersion := policyVersion h; revokedSessions := revokedSessions h;
     canaryStats := canaryStats h; policySchema := policySchema h;
     tenantPolicies := tenantPolicies h; circuitBreakers := circuitBreakers h; logs := logs h |}.
Definition set_res (x : resources) (h : GatewayHandler) : GatewayHandler :=
  {| routes := routes h; wasm := wasm h; authToken := authToken h; limits := limits h;
     bal := bal h; res := x; metricsTracker := metricsTracker h; apiKeys := apiKeys h;
     policyVersion := policyVersion h; revokedSessions := revokedSessions h;
     canaryStats := canaryStats h; policySchema := policySchema h;
     tenantPolicies := tenantPolicies h; circuitBreakers := circuitBreakers h; logs := logs h |}.
Definition set_metricsTracker (x : MetricsTracker) (h : GatewayHandler) : GatewayHandler :=
  {| routes := routes h; wasm := wasm h; authToken := authToken h; limits := limits h;
     bal := bal h; res := res h; metricsTracker := x; apiKeys := apiKeys h;
     policyVersion := policyVersion h; revokedSessions := revokedSessions h;
     canaryStats := canaryStats h; policySchema := policySchema h;
     tenantPolicies := tenantPolicies h; circuitBreakers := circuitBreakers h; logs := logs h |}.
Definition set_apiKeys (x : gmap string APIKey) (h : GatewayHandler) : GatewayHandler :=
  {| routes := routes h; wasm := wasm h; authToken := authToken h; limits := limits h;
     bal := bal h; res := res h; metricsTracker := metricsTracker h; apiKeys := x;
     policyVersion := policyVersion h; revokedSessions := revokedSessions h;
     canaryStats := canaryStats h; policySchema := policySchema h;
     tenantPolicies := tenantPolicies h; circuitBreakers := circuitBreakers h; logs := logs h |}.
Definition set_policyVersion (x : Z) (h : GatewayHandler) : GatewayHandler :=
  {| routes := routes h; wasm := wasm h; authToken := authToken h; limits := limits h;
     bal := bal h; res := res h; metricsTracker := metricsTracker h; apiKeys := apiKeys h;
     policyVersion := x; revokedSessions := revokedSessions h; canaryStats := canaryStats h;
     policySchema := policySchema h; tenantPolicies := tenantPolicies h;
     circuitBreakers := circuitBreakers h; logs := logs h |}.
Definition set_revokedSessions (x : gmap string Z) (h : GatewayHandler) : GatewayHandler :=
  {| routes := routes h; wasm := wasm h; authToken := authToken h; limits := limits h;
     bal := bal h; res := res h; metricsTracker := metricsTracker h; apiKeys := apiKeys h;
     policyVersion := policyVersion h; revokedSessions := x; canaryStats := canaryStats h;
     policySchema := policySchema h; tenantPolicies := tenantPolicies h;
     circuitBreakers := circuitBreakers h; logs := logs h |}.
Definition set_canaryStats (x : gmap string canaryStatsRecord) (h : GatewayHandler) : GatewayHandler :=
  {| routes := routes h; wasm := wasm h; authToken := authToken h; limits := limits h;
     bal := bal h; res := res h; metricsTracker := metricsTracker h; apiKeys := apiKeys h;
     policyVersion := policyVersion h; revokedSessions := revokedSessions h; canaryStats := x;
     policySchema := policySchema h; tenantPolicies := tenantPolicies h;
     circuitBreakers := circuitBreakers h; logs := logs h |}.
Definition set_policySchema (x : option Policy.PolicySchema) (h : GatewayHandler) : GatewayHandler :=
  {| routes := routes h; wasm := wasm h; authToken := authToken h; limits := limits h;
     bal := bal h; res := res h; metricsTracker := metricsTracker h; apiKeys := apiKeys h;
     policyVersion := policyVersion h; revokedSessions := revokedSessions h;
     canaryStats := canaryStats h; policySchema := x; tenantPolicies := tenantPolicies h;
     circuitBreakers := circuitBreakers h; logs := logs h |}.
Definition set_tenantPolicies (x : gmap string TenantPolicy) (h : GatewayHandler) : GatewayHandler :=
  {| routes := routes h; wasm := wasm h; authToken := authToken h; limits := limits h;
     bal := bal h; res := res h; metricsTracker := metricsTracker h; apiKeys := apiKeys h;
     policyVersion := policyVersion h; revokedSessions := revokedSessions h;
     canaryStats := canaryStats h; policySchema := policySchema h; tenantPolicies := x;
     circuitBreakers := circuitBreakers h; logs := logs h |}.
Definition set_circuitBreakers (x : gmap string Breaker.CircuitBreaker) (h : GatewayHandler) : GatewayHandler :=
  {| routes := routes h; wasm := wasm h; authToken := authToken h; limits := limits h;
     bal := bal h; res := res h; metricsTracker := metricsTracker h; apiKeys := apiKeys h;
     policyVersion := policyVersion h; revokedSessions := revokedSessions h;
     canaryStats := canaryStats h; policySchema := policySchema h;
     tenantPolicies := tenantPolicies h; circuitBreakers := x; logs := logs h |}.
Definition set_logs (x : Http.Files) (h : GatewayHandler) : GatewayHandler :=
  {| routes := routes h; wasm := wasm h; authToken := authToken h; limits := limits h;
     bal := bal h; res := res h; metricsTracker := metricsTracker h; apiKeys := apiKeys h;
     policyVersion := policyVersion h; revokedSessions := revokedSessions h;
     canaryStats := canaryStats h; policySchema := policySchema h;
     tenantPolicies := tenantPolicies h; circuitBreakers := circuitBreakers h; logs := x |}.

(** ** Construction and routes *)

(** [connect] is [redis.ParseURL] and [redis.NewClient]. *)
Definition redis_client (p : Platform) (connect : string -> option R) : option R :=
  let redisURL := Config.Getenv (p_env p) "SERV_GATE_LIMITS_REDIS_URL" in
  if String.eqb redisURL "" then None else connect redisURL.

(** A panic of [make(chan)] escapes before there is a handler. *)
Definition NewGatewayHandler (p : Platform) (connect : string -> option R) (rs : list Route)
    (wasm : M) (authToken : string) (fs : Http.Files) : exec GatewayHandler :=
  match install_routes false p rs no_resources with
  | (_, Some why) => Panic why
  | (s, None) =>
      Done {| routes := rs; wasm := wasm; authToken := authToken;
              limits := {| RateLimit.Limiter.ratLimiters := ∅;
                           RateLimit.Limiter.redis := redis_client p connect |};
              bal := {| rrIndices := ∅; activeConns := ∅; targetLoad := ∅ |};
              res := s; metricsTracker := new_tracker; apiKeys := ∅; policyVersion := 0;
              revokedSessions := ∅; canaryStats := ∅; policySchema := None; tenantPolicies := ∅;
              circuitBreakers := ∅; logs := fs |}
  end.

(** The last key with a given text wins. *)
Definition SetAPIKeys (keys : list APIKey) (h : GatewayHandler) : GatewayHandler :=
  set_apiKeys (fold_left (fun m k => <[Key k := k]> m) keys ∅) h.

(** The routes are replaced first; the handler is returned with the panic of
    the loop that follows, if there is one. *)
Definition UpdateRoutes (p : Platform) (newRoutes : list Route) (h : GatewayHandler)
  : GatewayHandler * option string :=
  let h := set_routes newRoutes h in
  let '(s, stopped) := install_routes true p newRoutes (res h) in
  (set_res s h, stopped).

(** The first route with the same prefix is overwritten. *)
Fixpoint put_route (route : Route) (rs : list Route) : option (list Route) :=
  match rs with
  | [] => None
  | r :: rs' =>
      if String.eqb (Prefix r) (Prefix route) then Some (route :: rs')
      else cons r <$> put_route route rs'
  end.

Definition RegisterRoute (p : Platform) (route : Route) (h : GatewayHandler)
  : GatewayHandler * option string :=
  let h := set_routes (default (routes h ++ [route]) (put_route route (routes h))) h in
  let '(s, stopped) := install_route true p route (res h) in
  (set_res s h, stopped).

Definition GetRoutes (h : GatewayHandler) : list Route := routes h.

Definition enable_cache (prefix : string) (ttlSeconds : Z) (r : Route) : Route :=
  if String.eqb (Prefix r) prefix
  then with_CacheMethods ["GET"%string; "POST"%string] (with_CacheTTLSeconds ttlSeconds r) else r.

Definition EnableCacheOnRoute (prefix : string) (ttlSeconds : Z) (h : GatewayHandler)
  : GatewayHandler :=
  let found := existsb (fun r => String.eqb (Prefix r) prefix) (routes h) in
  let caches := responseCaches (res h) in
  set_res (set_responseCaches
      (install (found && negb (bool_decide (is_Some (caches !! prefix)))) prefix
         (Some (new_response_cache ttlSeconds)) caches) (res h))
    (set_routes (map (enable_cache prefix ttlSeconds) (routes h)) h).

(** The first route, in registration order, whose prefix the path has. *)
Definition match_route (path : string) (rs : list Route) : option Route :=
  List.find (fun route => HasPrefix path (Prefix route)) rs.

(** ** Policies, sessions and caches *)

Definition IncrementPolicyVersion (h : GatewayHandler) : GatewayHandler :=
  set_policyVersion (i64 (policyVersion h + 1)) h.

Definition UpdatePolicySchema (schema : option Policy.PolicySchema) (h : GatewayHandler)
  : GatewayHandler := set_policySchema schema h.

Definition revoke_session (username : string) (now : Z) (h : GatewayHandler) : GatewayHandler :=
  set_revokedSessions (Token.Token.RevokeUserSession (revokedSessions h) username now) h.

Definition invalidate_cache (routePrefix keyPrefix : string) (h : GatewayHandler)
  : Z * GatewayHandler :=
  let '(n, caches) := Cache.InvalidateCache (responseCaches (res h)) routePrefix keyPrefix in
  (n, set_res (set_responseCaches caches (res h)) h).

(** ** Metrics *)

Record GatewayMetricsSnapshot := {
  TotalRequests : Z;
  TotalErrors : Z;
  RequestRate : float64;
  ErrorRate : float64;
  ActiveConnections : gmap string Z;
  SnapshotTime : Z;
}.

(** [now] in nanoseconds; [time.Now().Unix()]. *)
Definition GetMetricsSnapshot (h : GatewayHandler) (now : Z) : GatewayMetricsSnapshot :=
  let '(totalReq, totalErr, rr, er) := Snapshot (metricsTracker h) in
  {| TotalRequests := totalReq; TotalErrors := totalErr; RequestRate := rr; ErrorRate := er;
     ActiveConnections := GetActiveConnections (bal h); SnapshotTime := now / second |}.

(** ** Governance check *)

Definition route_score (st : Z * list string) (route : Route) : Z * list string :=
  let '(score, warnings) := st in
  let '(score, warnings) :=
    if RequireAPIKey route then (score, warnings)
    else (score - 10, warnings ++ [("Route prefix " ++ Prefix route ++ " does not require API key")%string]) in
  if MaxBodySize route <=? 0
  then (score - 5, warnings ++ [("Route prefix " ++ Prefix route ++ " has default unlimited max body size")%string])
  else (score, warnings).

(** The community build's [EvaluateEEGovernanceRules] adds nothing. *)
Definition EvaluateEEGovernanceRules (baseScore : Z) (warnings : list string) : Z * list string :=
  (baseScore, warnings).

Definition governance (h : GatewayHandler) : Z * list string :=
  let start : Z * list string :=
    if String.eqb (authToken h) ""
    then (80, ["Gateway authToken is disabled (no global auth token)"%string]) else (100, []) in
  let '(score, warnings) := fold_left route_score (routes h) start in
  let '(score, warnings) := EvaluateEEGovernanceRules score warnings in
  (if score <? 0 then 0 else score, warnings).

(** A nil slice is encoded as [null]. *)
Definition string_slice (l : list string) : json :=
  match l with [] => JNull | _ => JArr (map JStr l) end.

Definition handleGovernanceCheck {W} `{Http.ResponseWriter W} (h : GatewayHandler) (w : W)
    (r : Http.Request) : exec W :=
  if negb (String.eqb (Http.method r) "GET") then
    Http.WriteJSONError w r "Method not allowed" "ERR_METHOD_NOT_ALLOWED" 405
  else
    let '(score, warnings) := governance h in
    let w := Http.wset "Content-Type" "application/json" w in
    let! w := Http.WriteHeader 200 w in
    Done (Http.encode_to (JObj [("compliance_score", JNum (Itoa score));
                                ("status", JStr "evaluated");
                                ("warnings", string_slice warnings)]%string) w).

End Handler.
Arguments GatewayHandler : clear implicits.

(** ** Lemmas *)

Lemma install_mono {A} add k (mk : option A) m k' :
  is_Some (m !! k') -> is_Some (install add k mk m !! k').
Proof.
  intros Hm. unfold install. destruct add; [|done]. destruct mk as [x|]; [|done].
  destruct (decide (k = k')) as [->|]; [rewrite lookup_insert_eq; eauto|by rewrite lookup_insert_ne].
Qed.

Lemma install_has {A} keep k (mk : option A) (wants : bool) m :
  wants = true ->
  is_Some (install (wants && (negb keep || negb (bool_decide (is_Some (m !! k))))) k mk m !! k)
  \/ mk = None.
Proof.
  intros ->. unfold install. destruct mk as [x|]; [left|by right]. simpl.
  case_bool_decide as Hk.
  - destruct keep; simpl; [done|]. rewrite lookup_insert_eq. eauto.
  - rewrite orb_true_r. rewrite lookup_insert_eq. eauto.
Qed.

(** The resources only grow, and an existing limiter stays a limiter. *)
Record res_le (s s' : resources) : Prop := {
  le_semantic k : is_Some (semanticCaches s !! k) -> is_Some (semanticCaches s' !! k);
  le_loggers k : is_Some (accessLoggers s !! k) -> is_Some (accessLoggers s' !! k);
  le_caches k : is_Some (responseCaches s !! k) -> is_Some (responseCaches s' !! k);
  le_transports k : is_Some (transports s !! k) -> is_Some (transports s' !! k);
  le_limiters k : is_Some (limiters s !! k) -> is_Some (limiters s' !! k);
}.

#[export] Instance res_le_preorder : PreOrder res_le.
Proof. split; [by constructor|]. intros a b c [] []; constructor; auto. Qed.

Definition live_limiters (s : resources) : Prop :=
  map_Forall (fun _ o => is_Some o) (limiters s).

(** What a route needs is there, or could not be created. *)
Record serves (p : Platform) (s : resources) (r : Route) : Prop := {
  sv_semantic : SemanticCache r = true -> is_Some (semanticCaches s !! Prefix r);
  sv_logger : AccessLog r = true ->
    is_Some (accessLoggers s !! Prefix r) \/ p_opens p (log_path r) = false;
  sv_cache : 0 < CacheTTLSeconds r -> is_Some (responseCaches s !! Prefix r);
  sv_transport : wants_transport r = true ->
    is_Some (transports s !! Prefix r) \/ transport_of p r = None;
  sv_limiter : 0 < MaxConcurrentRequests r -> is_Some (limiters s !! Prefix r);
}.

Lemma serves_mono p s s' r : res_le s s' -> serves p s r -> serves p s' r.
Proof.
  intros [] []. constructor; auto.
  - intros Hr. destruct (sv_logger0 Hr); auto.
  - intros Hr. destruct (sv_transport0 Hr); auto.
Qed.

Lemma install_plain_le keep p r s : res_le s (install_plain keep p r s).
Proof. unfold install_plain. constructor; simpl; intros k Hk; try apply install_mono; done. Qed.

Lemma install_plain_limiters keep p r s : limiters (install_plain keep p r s) = limiters s.
Proof. done. Qed.

Lemma install_plain_serves keep p r s (s' := install_plain keep p r s) :
  (SemanticCache r = true -> is_Some (semanticCaches s' !! Prefix r)) /\
  (AccessLog r = true -> is_Some (accessLoggers s' !! Prefix r) \/ p_opens p (log_path r) = false) /\
  (0 < CacheTTLSeconds r -> is_Some (responseCaches s' !! Prefix r)) /\
  (wants_transport r = true -> is_Some (transports s' !! Prefix r) \/ transport_of p r = None).
Proof.
  subst s'. unfold install_plain. simpl.
  split; [|split; [|split]]; intros Hr.
  - by destruct (install_has keep (Prefix r) (Some new_semantic_cache) _ (semanticCaches s) Hr).
  - destruct (install_has keep (Prefix r) (Http.NewAccessLogger (p_opens p) (log_path r)) _
                (accessLoggers s) Hr) as [|Hn]; [by left|right].
    unfold Http.NewAccessLogger in Hn. by destruct (p_opens p (log_path r)).
  - apply Z.ltb_lt in Hr.
    by destruct (install_has keep (Prefix r) (Some (new_response_cache (CacheTTLSeconds r))) _
                   (responseCaches s) Hr).
  - by apply install_has.
Qed.

Lemma limiter_is_some mc mq tm l : 0 < mc ->
  Backpressure.NewBackpressureLimiter mc mq tm = Done l -> is_Some l.
Proof.
  unfold Backpressure.NewBackpressureLimiter. intros Hmc. destruct (mc <=? 0) eqn:E; [lia|].
  destruct (mq <? 0); [done|]. intros [= <-]. eauto.
Qed.

Lemma install_route_spec keep p r s s' o :
  live_limiters s -> install_route keep p r s = (s', o) ->
  res_le s s' /\ live_limiters s' /\ (o = None -> serves p s' r).
Proof.
  intros Hl. unfold install_route. set (s1 := install_plain keep p r s).
  pose proof (install_plain_le keep p r s) as Hle. fold s1 in Hle.
  pose proof (install_plain_serves keep p r s) as (H1 & H2 & H3 & H4). fold s1 in H1, H2, H3, H4.
  assert (Hl1 : live_limiters s1) by done.
  destruct (0 <? MaxConcurrentRequests r) eqn:Emc; cbn [andb].
  2: { intros [= <- <-]. split; [done|]. split; [done|]. intros _. constructor; auto. lia. }
  destruct (negb keep || _) eqn:Ek.
  2: { intros [= <- <-]. split; [done|]. split; [done|]. intros _. constructor; auto. intros _.
       apply orb_false_iff in Ek as [_ Ek]. apply negb_false_iff, bool_decide_eq_true in Ek. done. }
  destruct (Backpressure.NewBackpressureLimiter _ _ _) as [l|] eqn:Enew; intros [= <- <-];
    [|by split].
  apply limiter_is_some in Enew; [|lia].
  split; [|split].
  - etransitivity; [exact Hle|]. constructor; simpl; try done. intros k Hk.
    destruct (decide (Prefix r = k)) as [->|]; [rewrite lookup_insert_eq; eauto|by rewrite lookup_insert_ne].
  - by apply map_Forall_insert_2.
  - intros _. constructor; auto. intros _. simpl. rewrite lookup_insert_eq. eauto.
Qed.

Lemma install_routes_spec keep p : forall rs s s' o,
  live_limiters s -> install_routes keep p rs s = (s', o) ->
  res_le s s' /\ live_limiters s' /\ (o = None -> Forall (serves p s') rs).
Proof.
  induction rs as [|r rs IH]; intros s s' o Hl; simpl; [by intros [= <- <-]|].
  destruct (install_route keep p r s) as [s1 [why|]] eqn:E1;
    apply install_route_spec in E1 as (Hle1 & Hl1 & Hs1); auto; [intros [= <- <-]; by split|].
  intros (Hle & Hl2 & Hs)%IH; [|done]. split; [by etransitivity|]. split; [done|].
  intros Ho. constructor; [by eapply serves_mono, Hs1|by apply Hs].
Qed.

Section Wired.
Context {R M : Type} (p : Platform) (connect : string -> option R).
Abbreviation handler := (GatewayHandler R M).

(** What an update that panics does not get to, by the prefixes that have a
    limiter: from the first route on whose limiter would be made with a negative
    queue size. *)
Fixpoint unreached (limited : string -> bool) (rs : list Route) : list Route :=
  match rs with
  | [] => []
  | r :: rs' =>
      if (0 <? MaxConcurrentRequests r) && negb (limited (Prefix r)) then
        if MaxQueueSize r <? 0 then r :: rs'
        else unreached (fun k => String.eqb k (Prefix r) || limited k) rs'
      else unreached limited rs'
  end.

Definition has_limiter (s : resources) (k : string) : bool := bool_decide (is_Some (limiters s !! k)).

Lemma unreached_ext f g rs : (forall k, f k = g k) -> unreached f rs = unreached g rs.
Proof.
  revert f g. induction rs as [|r rs IH]; intros f g Hfg; simpl; [done|]. rewrite Hfg.
  destruct (_ && _); [|by apply IH]. destruct (_ <? 0); [done|]. apply IH. intros k. by rewrite Hfg.
Qed.

Lemma install_route_reach r s s' o : install_route true p r s = (s', o) ->
  (o = None <-> (0 <? MaxConcurrentRequests r) && negb (has_limiter s (Prefix r)) && (MaxQueueSize r <? 0) = false) /\
  (o = None -> forall k, has_limiter s' k
     = (0 <? MaxConcurrentRequests r) && String.eqb k (Prefix r) || has_limiter s k).
Proof.
  unfold install_route. set (s1 := install_plain true p r s). cbn [negb orb].
  assert (E1 : limiters s1 = limiters s) by done. unfold has_limiter. rewrite E1. clearbody s1.
  destruct (0 <? MaxConcurrentRequests r) eqn:Emc; cbn [andb].
  2: { intros [= <- <-]. split; [done|]. intros _ k. by rewrite E1. }
  destruct (bool_decide (is_Some (limiters s !! Prefix r))) eqn:Ek; cbn [negb andb].
  { intros [= <- <-]. split; [done|]. intros _ k. rewrite E1.
    destruct (String.eqb_spec k (Prefix r)) as [->|]; [by rewrite Ek|done]. }
  unfold Backpressure.NewBackpressureLimiter. rewrite (proj2 (Z.leb_gt _ _)) by lia.
  destruct (MaxQueueSize r <? 0); intros [= <- <-]; (split; [done|]); [done|]. intros _ k. simpl.
  destruct (String.eqb_spec k (Prefix r)) as [->|Hne].
  - rewrite lookup_insert_eq. by rewrite bool_decide_eq_true_2.
  - by rewrite lookup_insert_ne.
Qed.

(** The update stops where [unreached] says, having served what is before. *)
Lemma install_routes_reach : forall rs s s' o, install_routes true p rs s = (s', o) ->
  (o = None <-> unreached (has_limiter s) rs = []) /\
  (live_limiters s -> forall r, r ∈ rs -> r ∈ unreached (has_limiter s) rs \/ serves p s' r).
Proof.
  induction rs as [|r rs IH]; intros s s' o; cbn [install_routes unreached].
  { intros [= <- <-]. split; [done|]. intros _ r Hr. by apply not_elem_of_nil in Hr. }
  destruct (install_route true p r s) as [s1 o1] eqn:E1.
  pose proof (install_route_reach _ _ _ _ E1) as [Ho Hk].
  destruct o1 as [why|].
  - intros [= <- <-].
    assert (Hp : (0 <? MaxConcurrentRequests r) && negb (has_limiter s (Prefix r)) && (MaxQueueSize r <? 0) = true).
    { destruct (_ && _ && _); [done|]. discriminate (proj2 Ho eq_refl). }
    apply andb_true_iff in Hp as [-> ->].
    split; [done|]. auto.
  - intros E2. specialize (Hk eq_refl). apply proj1 in Ho. specialize (Ho eq_refl).
    pose proof (IH _ _ _ E2) as [IHo IHs].
    assert (Hu : unreached (has_limiter s1) rs
      = if (0 <? MaxConcurrentRequests r) && negb (has_limiter s (Prefix r)) then
          if MaxQueueSize r <? 0 then r :: rs
          else unreached (fun k => String.eqb k (Prefix r) || has_limiter s k) rs
        else unreached (has_limiter s) rs).
    { destruct (0 <? MaxConcurrentRequests r); cbn [andb] in *; [|apply unreached_ext, Hk].
      destruct (has_limiter s (Prefix r)) eqn:Er; cbn [negb andb] in *.
      - apply unreached_ext. intros k. rewrite Hk. destruct (String.eqb_spec k (Prefix r)) as [->|]; [by rewrite Er|done].
      - rewrite Ho. apply unreached_ext, Hk. }
    rewrite <- Hu. split; [done|]. intros Hl x [->|Hx]%elem_of_cons.
    + right. pose proof (install_route_spec _ _ _ _ _ _ Hl E1) as (_ & Hl1 & Hs1).
      eapply serves_mono; [|by apply Hs1]. by apply (install_routes_spec _ _ _ _ _ _ Hl1) in E2 as [? _].
    + pose proof (install_route_spec _ _ _ _ _ _ Hl E1) as (_ & Hl1 & _). by apply IHs.
Qed.

(** The handler after its construction and any operations, net/http catching
    the panics, with the routes an operation did not get to. *)
Inductive history : (Route -> Prop) -> handler -> Prop :=
| hs_new rs wasm tok fs h :
    NewGatewayHandler p connect rs wasm tok fs = Done h -> history (fun _ => False) h
| hs_update missed rs h h' :
    history missed h -> UpdateRoutes p rs h = (h', None) -> history (fun _ => False) h'
| hs_update_panics missed rs h h' why :
    history missed h -> UpdateRoutes p rs h = (h', Some why) ->
    history (fun r => r ∈ unreached (has_limiter (res h)) rs) h'
| hs_register missed r h h' :
    history missed h -> RegisterRoute p r h = (h', None) -> history (fun r' => missed r' /\ r' <> r) h'
| hs_register_panics missed r h h' why :
    history missed h -> RegisterRoute p r h = (h', Some why) -> history (fun r' => missed r' \/ r' = r) h'
| hs_enable missed prefix ttl h :
    history missed h ->
    history (fun r => exists r', missed r' /\ r = enable_cache prefix ttl r') (EnableCacheOnRoute prefix ttl h)
| hs_keys missed ks h : history missed h -> history missed (SetAPIKeys ks h)
| hs_invalidate missed rp kp h : history missed h -> history missed (snd (invalidate_cache rp kp h))
| hs_schema missed s h : history missed h -> history missed (UpdatePolicySchema s (IncrementPolicyVersion h))
| hs_revoke missed u now h : history missed h -> history missed (revoke_session u now h).

(** All but the missed routes are served. *)
Definition wired_but (missed : Route -> Prop) (h : handler) : Prop :=
  live_limiters (res h) /\ Forall (fun r => missed r \/ serves p (res h) r) (routes h).

Definition wired : handler -> Prop := wired_but (fun _ => False).

Lemma wired_serves h : wired h -> forall r, r ∈ GetRoutes h -> serves p (res h) r.
Proof.
  intros [_ Hs] r Hr%list_elem_of_In. by destruct (proj1 (List.Forall_forall _ _) Hs r Hr).
Qed.

Lemma put_route_elem route : forall rs rs', put_route route rs = Some rs' ->
  forall (P : Route -> Prop), Forall P rs -> P route -> Forall P rs'.
Proof.
  induction rs as [|r rs IH]; intros rs'; simpl; [done|].
  destruct (String.eqb _ _); [intros [= <-] P [_ H]%Forall_cons_1 Hr; by constructor|].
  destruct (put_route route rs) as [l|] eqn:E; simpl; [|done].
  intros [= <-] P [Hr H]%Forall_cons_1 Hroute. constructor; [done|]. by eapply IH.
Qed.

Lemma register_elem route rs (P : Route -> Prop) :
  Forall P rs -> P route -> Forall P (default (rs ++ [route]) (put_route route rs)).
Proof.
  intros Hrs Hr. destruct (put_route route rs) as [l|] eqn:E; simpl.
  - by eapply put_route_elem.
  - apply Forall_app. split; [done|]. by constructor.
Qed.

Lemma serves_enable_cache prefix ttl s r :
  serves p s r -> (Prefix r = prefix -> is_Some (responseCaches s !! prefix)) ->
  serves p s (enable_cache prefix ttl r).
Proof.
  intros [] Hc. unfold enable_cache. destruct (String.eqb_spec (Prefix r) prefix) as [<-|];
    constructor; auto.
Qed.

Lemma invalidate_caches_some caches rp kp k :
  is_Some (caches !! k) -> is_Some (snd (Cache.InvalidateCache caches rp kp) !! k).
Proof.
  intros [c Hc]. unfold Cache.InvalidateCache. destruct (caches !! rp) as [c'|] eqn:E.
  - destruct (Cache.Invalidate c' kp) as [n c'']. simpl.
    destruct (decide (rp = k)) as [->|]; [rewrite lookup_insert_eq; eauto|].
    rewrite lookup_insert_ne by done. eauto.
  - simpl. unfold Cache.clear_matching. rewrite map_lookup_imap, Hc. simpl. eauto.
Qed.

Lemma le_add_cache s caches :
  (forall k, is_Some (responseCaches s !! k) -> is_Some (caches !! k)) ->
  res_le s (set_responseCaches caches s).
Proof. intros H. by constructor. Qed.

Lemma wired_but_mono (X Y : Route -> Prop) s' rs (h : handler) :
  res_le (res h) s' -> (forall r, X r -> Y r) ->
  Forall (fun r => X r \/ serves p (res h) r) rs -> Forall (fun r => Y r \/ serves p s' r) rs.
Proof.
  intros Hle HXY Hs. eapply List.Forall_impl; [|exact Hs].
  intros r [?|?]; [auto|right; by eapply serves_mono].
Qed.

(** An update serves its routes up to where it panics. *)
Lemma update_wired rs (h h' : handler) o X :
  wired_but X h -> UpdateRoutes p rs h = (h', o) ->
  wired_but (fun r => r ∈ unreached (has_limiter (res h)) rs) h' /\ (o = None -> wired h').
Proof.
  intros [Hl _] Hu. unfold UpdateRoutes in Hu. simpl in Hu.
  destruct (install_routes true p rs (res h)) as [s o'] eqn:E. injection Hu as <- ->.
  pose proof (install_routes_spec _ _ _ _ _ _ Hl E) as (_ & Hl' & Hs').
  apply install_routes_reach in E as [Ho Hr]. split; [|split; [done|]].
  - split; [done|]. apply List.Forall_forall. intros r Hin%list_elem_of_In. by apply Hr.
  - simpl. eapply List.Forall_impl; [|by apply Hs']. by right.
Qed.

(** A registration serves its route unless it panics, and keeps the others. *)
Lemma register_wired r (h h' : handler) o X :
  wired_but X h -> RegisterRoute p r h = (h', o) ->
  wired_but (fun r' => match o with None => X r' /\ r' <> r | Some _ => X r' \/ r' = r end) h'.
Proof.
  intros [Hl Hs] Hu. unfold RegisterRoute in Hu. simpl in Hu.
  destruct (install_route true p r (res h)) as [s o'] eqn:E. injection Hu as <- ->.
  apply install_route_spec in E as (Hle & Hl' & Hs'); [|done]. split; [done|]. simpl.
  apply register_elem.
  - eapply List.Forall_impl; [|exact Hs]. intros x [Hx|Hx]; [|right; by eapply serves_mono].
    destruct o; [by left; left|].
    destruct (decide (x = r)) as [->|Hne]; [right; auto|by left].
  - destruct o; [left; by right|right; auto].
Qed.

(** What panicked asked for a limit with a negative queue size. *)
Definition broken_limit (r : Route) : Prop := 0 < MaxConcurrentRequests r /\ MaxQueueSize r < 0.

Lemma unreached_broken f rs : unreached f rs <> [] -> exists r, r ∈ rs /\ broken_limit r.
Proof.
  revert f. induction rs as [|r rs IH]; intros f; simpl; [done|].
  assert (Hrec : forall g, unreached g rs <> [] -> exists r', r' ∈ r :: rs /\ broken_limit r').
  { intros g (r' & ? & ?)%IH. exists r'. split; [by apply elem_of_cons; right|done]. }
  destruct (0 <? MaxConcurrentRequests r) eqn:E1; cbn [andb]; [|apply Hrec].
  destruct (negb _); [|apply Hrec]. destruct (MaxQueueSize r <? 0) eqn:E2; [|apply Hrec].
  intros _. exists r. split; [by apply elem_of_cons; left|]. unfold broken_limit. lia.
Qed.

Lemma update_broken rs (h h' : handler) why : UpdateRoutes p rs h = (h', Some why) ->
  exists r, r ∈ GetRoutes h' /\ broken_limit r.
Proof.
  unfold UpdateRoutes. simpl. destruct (install_routes true p rs (res h)) as [s o] eqn:E. intros [= <- ->].
  apply install_routes_reach in E as [Ho _]. apply (unreached_broken (has_limiter (res h))).
  intros Hu. discriminate (proj2 Ho Hu).
Qed.

Lemma put_route_in route rs : route ∈ default (rs ++ [route]) (put_route route rs).
Proof.
  induction rs as [|r rs IH]; simpl; [by apply elem_of_cons; left|].
  destruct (String.eqb _ _); simpl; [by apply elem_of_cons; left|].
  destruct (put_route route rs); simpl in *; by apply elem_of_cons; right.
Qed.

Lemma register_broken r (h h' : handler) why : RegisterRoute p r h = (h', Some why) ->
  exists r', r' ∈ GetRoutes h' /\ broken_limit r'.
Proof.
  unfold RegisterRoute. simpl. destruct (install_route true p r (res h)) as [s o] eqn:E. intros [= <- ->].
  exists r. split; [apply put_route_in|]. apply install_route_reach in E as [Ho _].
  unfold broken_limit. destruct (0 <? MaxConcurrentRequests r) eqn:E1; [|discriminate (proj2 Ho eq_refl)].
  destruct (MaxQueueSize r <? 0) eqn:E2; [lia|].
  rewrite andb_false_r in Ho. discriminate (proj2 Ho eq_refl).
Qed.

Lemma enable_wired prefix ttl h X :
  wired_but X h ->
  wired_but (fun r => exists r', X r' /\ r = enable_cache prefix ttl r') (EnableCacheOnRoute prefix ttl h).
Proof.
  intros [Hl Hs]. assert (Hle : res_le (res h) (res (EnableCacheOnRoute prefix ttl h))).
  { apply le_add_cache. intros k Hk. by apply install_mono. }
  split; [done|]. simpl. apply List.Forall_map, List.Forall_forall. intros r Hr.
  rewrite List.Forall_forall in Hs. destruct (Hs r Hr) as [Hx|Hx]; [left; eauto|right].
  apply serves_enable_cache; [by eapply serves_mono|]. intros <-. simpl.
  destruct (install_has true (Prefix r) (Some (new_response_cache ttl))
              (existsb (fun r' => String.eqb (Prefix r') (Prefix r)) (routes h))
              (responseCaches (res h))); [|done|done].
  apply existsb_exists. exists r. by rewrite String.eqb_refl.
Qed.

Lemma invalidate_wired rp kp h X : wired_but X h -> wired_but X (snd (invalidate_cache rp kp h)).
Proof.
  intros [Hl Hs]. unfold invalidate_cache. destruct (Cache.InvalidateCache _ rp kp) as [n caches] eqn:E. simpl.
  assert (Hle : res_le (res h) (set_responseCaches caches (res h))).
  { apply le_add_cache. intros k Hk.
    pose proof (invalidate_caches_some _ rp kp k Hk) as Hi. by rewrite E in Hi. }
  split; [done|]. simpl. by eapply wired_but_mono.
Qed.

Lemma new_handler_wired rs wasm tok fs (h : handler) :
  NewGatewayHandler p connect rs wasm tok fs = Done h -> wired h.
Proof.
  unfold NewGatewayHandler. destruct (install_routes false p rs no_resources) as [s [why|]] eqn:E;
    [done|]. intros [= <-]. apply install_routes_spec in E as (_ & Hl & Hs); [|done].
  split; simpl; [done|]. eapply List.Forall_impl; [|by apply Hs]. by right.
Qed.

Lemma history_wired missed h : history missed h -> wired_but missed h.
Proof.
  induction 1 as [? ? ? ? ? Hn| ? ? ? ? _ IH Hu| ? ? ? ? ? _ IH Hu| ? ? ? ? _ IH Hu| ? ? ? ? ? _ IH Hu
                 | ? ? ? ? _ IH|?|? ? ? ? _ IH|?|?]; try done.
  - by apply new_handler_wired in Hn.
  - apply (update_wired _ _ _ _ _ IH) in Hu as [_ Hu]. exact (Hu eq_refl).
  - apply (update_wired _ _ _ _ _ IH) in Hu as [Hu _]. exact Hu.
  - by apply (register_wired _ _ _ _ _ IH) in Hu.
  - by apply (register_wired _ _ _ _ _ IH) in Hu.
  - by apply enable_wired.
  - by apply invalidate_wired.
Qed.

Lemma install_keeps {A} k (mk : option A) (wants : bool) m k' (x : A) :
  m !! k' = Some x ->
  install (wants && (negb true || negb (bool_decide (is_Some (m !! k))))) k mk m !! k' = Some x.
Proof.
  intros Hx. unfold install. destruct wants; [|done]. simpl. case_bool_decide as Hk; simpl; [done|].
  destruct mk; [|done]. destruct (decide (k = k')) as [->|]; [|by rewrite lookup_insert_ne].
  rewrite Hx in Hk. by destruct Hk.
Qed.

(** The entries of one prefix that exist are kept. *)
Record same_entries (s s' : resources) (k : string) : Prop := {
  se_loggers x : accessLoggers s !! k = Some x -> accessLoggers s' !! k = Some x;
  se_caches x : responseCaches s !! k = Some x -> responseCaches s' !! k = Some x;
  se_transports x : transports s !! k = Some x -> transports s' !! k = Some x;
  se_limiters x : limiters s !! k = Some x -> limiters s' !! k = Some x;
}.

Lemma install_route_keeps r s s' o k :
  install_route true p r s = (s', o) -> same_entries s s' k.
Proof.
  unfold install_route. set (s1 := install_plain true p r s).
  assert (H1 : same_entries s s1 k).
  { constructor; intros x Hx; try (by apply install_keeps). done. }
  destruct (_ && _) eqn:Ek; [|by intros [= <- <-]].
  destruct (Backpressure.NewBackpressureLimiter _ _ _); intros [= <- <-]; [|done].
  destruct H1. constructor; simpl; auto. intros x Hx.
  apply andb_true_iff in Ek as [_ Ek]. simpl in Ek. case_bool_decide as Hn; [done|].
  rewrite lookup_insert_ne; [done|]. intros <-. rewrite Hx in Hn. by destruct Hn.
Qed.

Lemma install_routes_keeps k : forall rs s s' o,
  install_routes true p rs s = (s', o) -> same_entries s s' k.
Proof.
  induction rs as [|r rs IH]; intros s s' o; simpl; [by intros [= <- <-]|].
  destruct (install_route true p r s) as [s1 [why|]] eqn:E1;
    apply (install_route_keeps _ _ _ _ k) in E1; [by intros [= <- <-]|].
  intros E2%IH. destruct E1, E2. constructor; auto.
Qed.

Definition lookup_route (q : string) (rs : list Route) : option Route :=
  List.find (fun r => String.eqb (Prefix r) q) rs.

(** ** Properties *)

(** C22. Every route has its resources, under any history of the handler -
    its construction, route updates and registrations, panicking or not, cache
    activations and invalidations, keys, schemas and revocations.  A registered
    route that asks for a semantic cache, a response cache or a concurrency
    limit has one, and it has its access logger and its mTLS transport unless
    the log cannot be opened or the certificates cannot be loaded; the only
    routes left out are those that an update did not get to because it
    panicked.  An update panics exactly when a route asks for a limit, under a
    prefix that has none yet, with a negative queue size, and then it does not
    get to that route and the ones after it. *)
Theorem routes_are_wired missed (h : handler) :
  history missed h ->
  (forall r, r ∈ GetRoutes h -> missed r \/ serves p (res h) r) /\
  forall rs, snd (UpdateRoutes p rs h) = None <-> unreached (has_limiter (res h)) rs = [].
Proof.
  intros Hh. pose proof (history_wired _ _ Hh) as [Hl Hs]. split.
  - intros r Hr%list_elem_of_In. by apply (proj1 (List.Forall_forall _ _) Hs).
  - intros rs. unfold UpdateRoutes. simpl.
    destruct (install_routes true p rs (res h)) as [s o] eqn:E. simpl.
    apply install_routes_reach in E as [Ho _]. exact Ho.
Qed.

(** Registering a route: afterwards its prefix resolves to it, every
    other prefix resolves as before, and the order in which prefixes are tried
    is unchanged, a new prefix coming last. *)
Theorem register_route_exact r (h h' : handler) o :
  RegisterRoute p r h = (h', o) ->
  lookup_route (Prefix r) (GetRoutes h') = Some r /\
  (forall q, q <> Prefix r -> lookup_route q (GetRoutes h') = lookup_route q (GetRoutes h)) /\
  map Prefix (GetRoutes h')
  = map Prefix (GetRoutes h) ++ (if lookup_route (Prefix r) (GetRoutes h) then [] else [Prefix r]).
Proof.
  intros Hr. assert (Hh : routes h' = default (routes h ++ [r]) (put_route r (routes h))).
  { unfold RegisterRoute in Hr. destruct (install_route true p r _) as [s w]. by injection Hr as <- _. }
  unfold GetRoutes. rewrite Hh. clear. induction (routes h) as [|x rs IH].
  - unfold lookup_route. simpl. rewrite String.eqb_refl. split; [done|]. split; [|done].
    intros q Hq. by rewrite (proj2 (String.eqb_neq _ _)).
  - unfold lookup_route in *. cbn [put_route List.find map].
    destruct (String.eqb_spec (Prefix x) (Prefix r)) as [Heq|Hne].
    + simpl. rewrite String.eqb_refl. split; [done|]. split; [|by rewrite Heq, app_nil_r].
      intros q Hq. by rewrite Heq, (proj2 (String.eqb_neq _ _)).
    + destruct IH as (I1 & I2 & I3). destruct (put_route r rs) as [l|]; simpl in *;
        rewrite (proj2 (String.eqb_neq _ _) Hne); (split; [done|]; split; [|by f_equal]);
        intros q Hq; destruct (String.eqb _ _); auto.
Qed.

(** Resources are never replaced: whatever routes a reload or a
    registration brings, the response caches, limiters, loggers and transports
    of the prefixes that have one stay as they are. *)
Theorem reload_keeps_resources r rs (h h1 h2 : handler) o1 o2 k :
  UpdateRoutes p rs h = (h1, o1) -> RegisterRoute p r h = (h2, o2) ->
  same_entries (res h) (res h1) k /\ same_entries (res h) (res h2) k.
Proof.
  unfold UpdateRoutes, RegisterRoute. simpl.
  destruct (install_routes true p rs (res h)) as [s w] eqn:E1.
  destruct (install_route true p r (res h)) as [s' w'] eqn:E2.
  intros [= <- <-] [= <- <-]. simpl. split; [by eapply install_routes_keeps|by eapply install_route_keeps].
Qed.

End Wired.

(** *** Witnesses *)

Definition sample_platform : Platform :=
  {| p_env := ∅; p_opens _ := true; p_load_key_pair _ _ := None; p_read_file _ := None |}.
Definition no_redis (url : string) : option unit := None.

Definition limited_route : Route :=
  with_MaxConcurrentRequests 4 (with_CacheTTLSeconds 30 (plain_route "/api" "http://a")).
Definition plain_b : Route := plain_route "/b" "http://b".

Definition sample_start : exec (GatewayHandler unit unit) :=
  NewGatewayHandler sample_platform no_redis [limited_route; plain_b] tt "" ∅.

(** A limit with a negative queue size: the update panics before [/c]. *)
Definition broken_route : Route :=
  with_MaxQueueSize (-1) (with_MaxConcurrentRequests 4 (plain_route "/broken" "http://a")).
Definition cached_c : Route := with_CacheTTLSeconds 30 (plain_route "/c" "http://c").

(** An update that panics, then a registration: [/b] is served throughout, and
    [/c] once it is registered again. *)
Lemma routes_are_wired_witness :
  match sample_start with
  | Done h =>
      let h1 := fst (UpdateRoutes sample_platform [with_CacheTTLSeconds 5 plain_b; broken_route; cached_c] h) in
      let h2 := fst (RegisterRoute sample_platform cached_c h1) in
      responseCaches (res h1) !! "/c"%string = None /\
      serves sample_platform (res h1) (with_CacheTTLSeconds 5 plain_b) /\
      serves sample_platform (res h2) cached_c
  | Panic _ => False
  end.
Proof.
  destruct sample_start as [h|why] eqn:E; [|vm_compute in E; discriminate].
  assert (Hh : h = match sample_start with Done h => h | Panic _ => h end) by (by rewrite E).
  pose proof (hs_new sample_platform no_redis _ _ _ _ h E) as H0.
  destruct (UpdateRoutes sample_platform [with_CacheTTLSeconds 5 plain_b; broken_route; cached_c] h)
    as [h1 [why|]] eqn:E1; [|exfalso; rewrite Hh in E1; vm_compute in E1; discriminate].
  pose proof (hs_update_panics sample_platform no_redis _ _ _ _ _ H0 E1) as H1.
  destruct (RegisterRoute sample_platform cached_c h1) as [h2 [why2|]] eqn:E2;
    [exfalso; rewrite Hh in E1; vm_compute in E1; injection E1 as <- _; vm_compute in E2; discriminate|].
  pose proof (hs_register sample_platform no_redis _ _ _ _ H1 E2) as H2. cbn [fst]. split; [|split].
  - rewrite Hh in E1. vm_compute in E1. by injection E1 as <- _.
  - destruct (proj1 (routes_are_wired sample_platform no_redis _ h1 H1) (with_CacheTTLSeconds 5 plain_b))
      as [Hm|Hs]; [| |exact Hs].
    + rewrite Hh in E1. vm_compute in E1. injection E1 as <- _. apply elem_of_cons. by left.
    + assert (Hu : unreached (has_limiter (res h)) [with_CacheTTLSeconds 5 plain_b; broken_route; cached_c]
                   = [broken_route; cached_c]) by (rewrite Hh; reflexivity).
      rewrite Hu in Hm. apply elem_of_cons in Hm as [Hm|Hm]; [discriminate|].
      apply elem_of_cons in Hm as [Hm|Hm]; [discriminate|]. by apply not_elem_of_nil in Hm.
  - destruct (proj1 (routes_are_wired sample_platform no_redis _ h2 H2) cached_c) as [[_ Hm]|Hs]; [| |by rewrite E2].
    + rewrite Hh in E1. vm_compute in E1. injection E1 as <- _. vm_compute in E2. injection E2 as <-.
      do 3 (apply elem_of_cons; try (by left); right).
    + by destruct Hm.
Defined.

Lemma register_route_exact_witness :
  match sample_start with
  | Done h => let r := with_MaxBodySize 5 plain_b in
              lookup_route "/b" (GetRoutes (fst (RegisterRoute sample_platform r h))) = Some r
  | Panic _ => False
  end.
Proof.
  destruct sample_start as [h|why] eqn:E; [|vm_compute in E; discriminate]. cbn [fst].
  destruct (RegisterRoute sample_platform (with_MaxBodySize 5 plain_b) h) as [h' o] eqn:Er.
  apply (register_route_exact sample_platform _ h h' o Er).
Defined.

Lemma reload_keeps_resources_witness :
  match sample_start with
  | Done h => forall h1 h2 o1 o2,
      UpdateRoutes sample_platform [with_MaxConcurrentRequests 100 limited_route] h = (h1, o1) ->
      RegisterRoute sample_platform (with_CacheTTLSeconds 5 limited_route) h = (h2, o2) ->
      same_entries (res h) (res h1) "/api" /\ same_entries (res h) (res h2) "/api"
  | Panic _ => False
  end.
Proof.
  destruct sample_start as [h|why] eqn:E; [|vm_compute in E; discriminate].
  intros h1 h2 o1 o2 H1 H2.
  exact (reload_keeps_resources sample_platform _ _ h h1 h2 o1 o2 "/api" H1 H2).
Defined.

(** A certificate that does not load leaves the route without a custom
    transport: its requests use the default one. *)
Example failed_certificate_falls_back :
  createMTLSTransport sample_platform "c.pem" "k.pem" "" = Err "failed to load client key pair"%string.
Proof. done. Qed.

(** A governance score per route: -10 without an API key, -5 without a body
    limit, never below zero. *)
Example governance_example :
  match sample_start with
  | Done h => governance h
  | Panic _ => (0, [])
  end = (50, ["Gateway authToken is disabled (no global auth token)";
              "Route prefix /api does not require API key";
              "Route prefix /api has default unlimited max body size";
              "Route prefix /b does not require API key";
              "Route prefix /b has default unlimited max body size"]%string).
Proof. by vm_compute. Qed.

End Handler.
