(* ===== verification/Lifecycle.v ===== *)
(** * Log files, eviction goroutines and shutdown (pkg/proxy/access_log.go,
    cache.go, handler.go: [GatewayHandler.Close])

    Http.v takes a log file for its text.  Here is what stands behind it: a
    file opened for appending, a [bufio.Writer] of 4096 bytes with its sticky
    error, a disk that may refuse a part of what is written.  The detailed
    logger refines the text while the disk accepts everything, and never writes
    anything but a prefix of it.  [Close] ends the loggers and the eviction
    goroutines of the caches. *)

From S2P Require Import Prelude GoStrings Json Types Http Cache Handler.
Open Scope Z_scope.

Module Lifecycle.

(** ** Files and buffered writers *)

Definition bufsize : nat := 4096.

(** [werr] is the error the writer keeps; [is_open] belongs to the file. *)
Record AccessLogger := { path : string; is_open : bool; buf : string; werr : option string }.

Section Disk.
(** How many bytes of a write the disk takes, by file and current content. *)
Context (takes : string -> string -> string -> nat).

(** [File.Write] in append mode. *)
Definition file_write (al : AccessLogger) (p : string) (fs : Http.Files) : option string * Http.Files :=
  if is_open al then
    let text := default ""%string (fs !! path al) in
    let n := Nat.min (takes (path al) text p) (String.length p) in
    (if (n <? String.length p)%nat then Some "no space left on device"%string else None,
     <[path al := (text ++ stake n p)%string]> fs)
  else (Some "file already closed"%string, fs).

Definition with_buf (b : string) (al : AccessLogger) : AccessLogger :=
  {| path := path al; is_open := is_open al; buf := b; werr := werr al |}.
Definition with_err (e : option string) (al : AccessLogger) : AccessLogger :=
  {| path := path al; is_open := is_open al; buf := buf al; werr := e |}.

(** [bufio.Writer.Flush]; what a failed write leaves in the buffer is never
    written, since the error stays. *)
Definition Flush (al : AccessLogger) (fs : Http.Files) : AccessLogger * Http.Files :=
  match werr al with
  | Some _ => (al, fs)
  | None =>
      if String.eqb (buf al) "" then (al, fs)
      else match file_write al (buf al) fs with
           | (None, fs) => (with_buf "" al, fs)
           | (Some e, fs) => (with_err (Some e) al, fs)
           end
  end.

Definition available (al : AccessLogger) : nat := bufsize - String.length (buf al).

(** [bufio.Writer.Write]: a write that does not fit goes directly to the
    file when nothing is buffered, and otherwise fills the buffer and flushes
    it.  The second pass finds the buffer empty or an error, so three are
    enough. *)
Fixpoint Write (n : nat) (p : string) (al : AccessLogger) (fs : Http.Files) : AccessLogger * Http.Files :=
  if werr al is Some _ then (al, fs)
  else if (String.length p <=? available al)%nat then (with_buf (buf al ++ p) al, fs)
  else match n with
       | O => (al, fs)
       | S n' =>
           if String.eqb (buf al) "" then
             match file_write al p fs with
             | (None, fs) => (al, fs)
             | (Some e, fs) => (with_err (Some e) al, fs)
             end
           else
             let k := available al in
             let '(al, fs) := Flush (with_buf (buf al ++ stake k p) al) fs in
             Write n' (sdrop k p) al fs
       end.

Definition WriteByte (c : string) (al : AccessLogger) (fs : Http.Files) : AccessLogger * Http.Files :=
  if werr al is Some _ then (al, fs)
  else let '(al, fs) := if (available al =? 0)%nat then Flush al fs else (al, fs) in
       if werr al is Some _ then (al, fs) else (with_buf (buf al ++ c) al, fs).

(** ** The access logger *)

Definition NewAccessLogger (opens : string -> bool) (p : string) : option AccessLogger :=
  if opens p then Some {| path := p; is_open := true; buf := ""; werr := None |} else None.

(** [Log]: none of the errors is looked at. *)
Definition Log (entry : Http.LogEntry) (al : AccessLogger) (fs : Http.Files) : AccessLogger * Http.Files :=
  let '(al, fs) := Write 3 (render (Http.encode_LogEntry entry)) al fs in
  let '(al, fs) := WriteByte Http.newline al fs in
  Flush al fs.

(** [Close]: a file whose last flush fails stays open. *)
Definition Close (al : AccessLogger) (fs : Http.Files) : option string * AccessLogger * Http.Files :=
  let '(al, fs) := Flush al fs in
  match werr al with
  | Some e => (Some e, al, fs)
  | None =>
      if is_open al
      then (None, {| path := path al; is_open := false; buf := buf al; werr := None |}, fs)
      else (Some "file already closed"%string, al, fs)
  end.

(** A history of one logger. *)
Fixpoint log_all (es : list Http.LogEntry) (al : AccessLogger) (fs : Http.Files) : AccessLogger * Http.Files :=
  match es with
  | [] => (al, fs)
  | e :: es' => let '(al, fs) := Log e al fs in log_all es' al fs
  end.

End Disk.

(** ** What is in the file *)

Definition content (p : string) (fs : Http.Files) : string := default ""%string (fs !! p).
Definition line (e : Http.LogEntry) : string := (render (Http.encode_LogEntry e) ++ Http.newline)%string.
Definition log_text (es : list Http.LogEntry) : string := foldr (fun e s => line e ++ s)%string ""%string es.

(** A logger between two calls: ready, or silenced by an error. *)
Definition ready (al : AccessLogger) : Prop := is_open al = true /\ werr al = None /\ buf al = ""%string.

Section Facts.
Context (takes : string -> string -> string -> nat).

Lemma content_insert p t fs : content p (<[p := t]> fs) = t.
Proof. unfold content. by rewrite lookup_insert_eq. Qed.

Lemma stake_length s : stake (String.length s) s = s.
Proof. rewrite <- (sapp_nil_r s) at 2. apply stake_app. Qed.

Lemma stake_app_le n s t : (n <= String.length s)%nat -> stake n (s ++ t) = stake n s.
Proof. revert s. induction n as [|n IH]; intros [|c s] Hn; simpl in *; try done; [lia|]. by rewrite IH by lia. Qed.

Lemma stake_app_add n s t : stake (String.length s + n) (s ++ t) = (s ++ stake n t)%string.
Proof. induction s as [|c s IH]; simpl; [done|]. by rewrite IH. Qed.

(** A write appends a part of its bytes, all of them unless there is an
    error. *)
Lemma file_write_spec al p fs e fs' : is_open al = true -> file_write takes al p fs = (e, fs') ->
  exists n, (n <= String.length p)%nat /\ fs' = <[path al := (content (path al) fs ++ stake n p)%string]> fs /\
    match e with None => n = String.length p | Some _ => (n < String.length p)%nat end.
Proof.
  unfold file_write. intros -> [= <- <-]. set (n := Nat.min _ _). exists n.
  split; [unfold n; lia|]. split; [done|]. destruct (n <? String.length p)%nat eqn:E.
  - by apply Nat.ltb_lt.
  - apply Nat.ltb_ge in E. unfold n in *. lia.
Qed.

(** Nothing but a part of the bytes reaches the file, and only an error leaves
    some out. *)
Definition wrote (p : string) (al al' : AccessLogger) (fs fs' : Http.Files) : Prop :=
  path al' = path al /\
  exists n, (n <= String.length p)%nat /\ content (path al) fs' = (content (path al) fs ++ stake n p)%string /\
    (forall q, q <> path al -> fs' !! q = fs !! q) /\
    (ready al' /\ n = String.length p \/ is_Some (werr al')).

Lemma flush_wrote al p fs : is_open al = true -> werr al = None -> buf al = p -> p <> ""%string ->
  wrote p al (fst (Flush takes al fs)) fs (snd (Flush takes al fs)).
Proof.
  intros Ho He Hb Hp. unfold Flush. rewrite He, Hb. rewrite (proj2 (String.eqb_neq _ _) Hp).
  destruct (file_write takes al p fs) as [e fs'] eqn:Ew.
  apply file_write_spec in Ew as (n & Hn & -> & Hx); [|done].
  destruct e as [e|]; simpl; (split; [done|]; exists n; split; [done|]); rewrite content_insert;
    (split; [done|]; split; [intros q Hq; by rewrite lookup_insert_ne|]).
  - right. by eexists.
  - by left.
Qed.

(** A short line is one write; a long one is two. *)
Lemma log_short e al fs : ready al -> (String.length (render (Http.encode_LogEntry e)) < bufsize)%nat ->
  Log takes e al fs = Flush takes (with_buf (line e) al) fs.
Proof.
  destruct al as [p op b we]. intros (Ho & He & Hb) Hl. simpl in Ho, He, Hb. subst op b we.
  unfold Log, line. set (d := render _) in *. unfold bufsize in Hl.
  cbn [Write werr]. unfold available. cbn [buf String.length]. unfold bufsize.
  rewrite (proj2 (Nat.leb_le _ _)) by lia. unfold with_buf. cbn [path is_open buf werr String.append].
  unfold WriteByte, available. cbn [werr buf]. unfold bufsize.
  rewrite (proj2 (Nat.eqb_neq _ _)) by lia. done.
Qed.

Lemma log_long e al fs (d := render (Http.encode_LogEntry e)) : ready al -> (bufsize <= String.length d)%nat ->
  let '(err, fs1) := file_write takes al d fs in
  match err with
  | None => Log takes e al fs = Flush takes (with_buf Http.newline al) fs1
  | Some m => exists al', path al' = path al /\ werr al' = Some m /\ Log takes e al fs = (al', fs1)
  end.
Proof.
  destruct al as [p op b we]. intros (Ho & He & Hb) Hl. simpl in Ho, He, Hb. subst op b we.
  unfold Log. fold d. assert (Hd : String.eqb d "" = false).
  { apply String.eqb_neq. intros Hd. rewrite Hd in Hl. unfold bufsize in Hl. simpl in Hl. lia. }
  cbn [Write werr]. unfold available. cbn [buf String.length].
  destruct (String.length d <=? bufsize - 0)%nat eqn:El.
  - apply Nat.leb_le in El. unfold with_buf. cbn [path is_open buf werr String.append].
    unfold WriteByte, available. cbn [werr buf].
    rewrite (proj2 (Nat.eqb_eq _ _)) by lia.
    assert (HF : forall fs, Flush takes {| path := p; is_open := true; buf := d; werr := None |} fs
      = match file_write takes {| path := p; is_open := true; buf := d; werr := None |} d fs with
        | (None, fs) => ({| path := p; is_open := true; buf := ""; werr := None |}, fs)
        | (Some e, fs) => ({| path := p; is_open := true; buf := d; werr := Some e |}, fs)
        end) by (intros; unfold Flush; cbn [werr buf]; by rewrite Hd).
    rewrite HF. unfold file_write. cbn [is_open path]. destruct (_ <? _)%nat; cbn [werr with_err with_buf path is_open buf].
    + eexists. split; [|split; [|unfold Flush; cbn [werr]; reflexivity]]; done.
    + done.
  - cbn [String.eqb]. unfold file_write. cbn [is_open path]. destruct (_ <? _)%nat; cbn [with_err path is_open buf werr].
    + eexists. split; [|split; [|unfold WriteByte, Flush; cbn [werr]; reflexivity]]; done.
    + unfold WriteByte, available. cbn [werr buf String.length].
      by rewrite (proj2 (Nat.eqb_neq _ _)) by (unfold bufsize; lia).
Qed.

Lemma log_wrote e al fs : ready al ->
  wrote (line e) al (fst (Log takes e al fs)) fs (snd (Log takes e al fs)).
Proof.
  intros Hr. pose proof Hr as (Ho & He & Hb).
  destruct (Nat.lt_ge_cases (String.length (render (Http.encode_LogEntry e))) bufsize) as [Hl|Hl].
  { rewrite (log_short _ _ _ Hr Hl). apply (flush_wrote (with_buf (line e) al)); [done..|].
    unfold line. by destruct (render _). }
  pose proof (log_long e al fs Hr Hl) as Hlog. simpl in Hlog.
  destruct (file_write takes al _ fs) as [err fs1] eqn:Ew.
  apply file_write_spec in Ew as (n & Hn & -> & Hx); [|done].
  destruct err as [m|].
  - destruct Hlog as (al' & Hp & Hm & ->). simpl. split; [done|]. exists n. rewrite content_insert.
    split; [unfold line; rewrite slength_app; lia|]. split; [unfold line; by rewrite stake_app_le|].
    split; [intros q Hq; by rewrite lookup_insert_ne|]. right. rewrite Hm. by eexists.
  - rewrite Hlog. subst n. rewrite stake_length.
    destruct (flush_wrote (with_buf Http.newline al) Http.newline
                (<[path al := (content (path al) fs ++ render (Http.encode_LogEntry e))%string]> fs))
      as (Hp & n2 & Hn2 & Hc & Hq & Hend); [done..|].
    split; [done|]. exists (String.length (render (Http.encode_LogEntry e)) + n2)%nat.
    cbn [path with_buf] in Hc, Hq. unfold line. rewrite slength_app, stake_app_add.
    split; [lia|]. split; [by rewrite Hc, content_insert, sapp_assoc|].
    split; [intros q Hne; by rewrite Hq, lookup_insert_ne|].
    destruct Hend as [[Hr' ->]|Hd]; [by left|by right].
Qed.

Lemma log_dead e al fs : is_Some (werr al) -> Log takes e al fs = (al, fs).
Proof.
  intros [m Hm]. unfold Log. cbn [Write]. rewrite Hm. unfold WriteByte. rewrite Hm. unfold Flush. by rewrite Hm.
Qed.

Lemma log_all_dead es al fs : is_Some (werr al) -> log_all takes es al fs = (al, fs).
Proof. intros Hd. induction es as [|e es IH]; simpl; [done|]. by rewrite log_dead. Qed.

Lemma log_all_wrote es al fs : ready al ->
  wrote (log_text es) al (fst (log_all takes es al fs)) fs (snd (log_all takes es al fs)).
Proof.
  revert al fs. induction es as [|e es IH]; intros al fs Hr.
  { split; [done|]. exists 0%nat. simpl. rewrite sapp_nil_r. split; [lia|]. split; [done|].
    split; [done|]. by left. }
  cbn [log_all]. pose proof (log_wrote e al fs Hr) as (Hp & n & Hn & Hc & Hq & Hend).
  destruct (Log takes e al fs) as [al1 fs1]. cbn [fst snd] in *.
  change (log_text (e :: es)) with (line e ++ log_text es)%string. destruct Hend as [[Hr1 ->]|Hd].
  - destruct (IH al1 fs1 Hr1) as (Hp2 & n2 & Hn2 & Hc2 & Hq2 & Hend2). rewrite Hp in *.
    split; [done|]. exists (String.length (line e) + n2)%nat. rewrite slength_app, stake_app_add.
    split; [lia|]. split; [by rewrite Hc2, Hc, stake_length, sapp_assoc|].
    split; [intros q Hne; by rewrite Hq2, Hq|]. destruct Hend2 as [[? ->]|?]; [by left|by right].
  - rewrite log_all_dead by done. cbn [fst snd]. split; [done|]. exists n. rewrite slength_app.
    split; [lia|]. split; [by rewrite stake_app_le|]. split; [done|]. by right.
Qed.

(** A disk that takes everything. *)
Lemma log_all_takes es al fs : ready al -> (forall p t s, (String.length s <= takes p t s)%nat) ->
  log_all takes es al fs = (al, fold_left (fun fs e => Http.Log {| Http.al_path := path al |} e fs) es fs).
Proof.
  intros Hr Ht. assert (Hw : forall al fs p, is_open al = true ->
    file_write takes al p fs = (None, <[path al := (content (path al) fs ++ p)%string]> fs)).
  { intros al0 fs0 p Ho. destruct (file_write takes al0 p fs0) as [err fs1] eqn:E.
    unfold file_write in E. rewrite Ho in E. rewrite Nat.min_r in E by apply Ht.
    rewrite Nat.ltb_irrefl, stake_length in E. by injection E as <- <-. }
  assert (Hf : forall al fs p, is_open al = true -> werr al = None -> p <> ""%string ->
    Flush takes (with_buf p al) fs = (with_buf "" al, <[path al := (content (path al) fs ++ p)%string]> fs)).
  { intros al0 fs0 p Ho He Hp. unfold Flush. cbn [werr buf with_buf]. rewrite He.
    rewrite (proj2 (String.eqb_neq _ _) Hp). by rewrite Hw. }
  pose proof Hr as (Ho & He & Hb).
  assert (Hal : with_buf "" al = al) by (destruct al; simpl in *; by subst).
  revert fs. induction es as [|e es IH]; intros fs; [done|]. cbn [log_all fold_left].
  assert (Hone : Log takes e al fs = (al, Http.Log {| Http.al_path := path al |} e fs)).
  { destruct (Nat.lt_ge_cases (String.length (render (Http.encode_LogEntry e))) bufsize) as [Hl|Hl].
    - rewrite (log_short _ _ _ Hr Hl), Hf; [by rewrite Hal|done..|]. unfold line. by destruct (render _).
    - pose proof (log_long e al fs Hr Hl) as Hlog. simpl in Hlog. rewrite Hw in Hlog by done.
      rewrite Hlog, Hf by done. rewrite Hal, content_insert, insert_insert_eq, sapp_assoc. done. }
  by rewrite Hone, IH.
Qed.

End Facts.

(** ** Eviction goroutines

    A cache with the channel its goroutine watches.  The select of the
    goroutine takes either case when both are ready: [ev_stop] is enabled once
    the channel is closed, [ev_tick] at every tick until the goroutine has
    ended. *)
Record Evictor := { cache : Cache.ResponseCache; stop_closed : bool; alive : bool }.

Definition start_evictor (rc : Cache.ResponseCache) : Evictor :=
  {| cache := rc; stop_closed := false; alive := true |}.

Inductive ev_step : Evictor -> Evictor -> Prop :=
| ev_tick rc c now : ev_step {| cache := rc; stop_closed := c; alive := true |}
                             {| cache := Cache.evictExpired rc now; stop_closed := c; alive := true |}
| ev_stop rc : ev_step {| cache := rc; stop_closed := true; alive := true |}
                       {| cache := rc; stop_closed := true; alive := false |}.

(** [Stop] closes the channel, which panics the second time. *)
Definition Stop (ev : Evictor) : exec Evictor :=
  if stop_closed ev then Panic "close of closed channel"
  else Done {| cache := cache ev; stop_closed := true; alive := alive ev |}.

(** ** [GatewayHandler.Close] *)

Record resources := { loggers : list AccessLogger; evictors : list Evictor; files : Http.Files }.

(** What the resources of a gateway stand for; the lists are in the order the
    iterations of the two maps take. *)
Definition resources_of {R M} (h : Handler.GatewayHandler R M) : resources :=
  {| loggers := map (fun kv => {| path := Http.al_path (snd kv); is_open := true; buf := ""; werr := None |})
                  (map_to_list (Handler.accessLoggers (Handler.res h)));
     evictors := map (fun kv => start_evictor (snd kv)) (map_to_list (Handler.responseCaches (Handler.res h)));
     files := Handler.logs h |}.

Section Close.
Context (takes : string -> string -> string -> nat).

Fixpoint close_loggers (ls : list AccessLogger) (fs : Http.Files) : list AccessLogger * Http.Files :=
  match ls with
  | [] => ([], fs)
  | al :: ls' =>
      let '(_, al, fs) := Close takes al fs in
      let '(ls', fs) := close_loggers ls' fs in (al :: ls', fs)
  end.

Fixpoint stop_all (evs : list Evictor) : exec (list Evictor) :=
  match evs with
  | [] => Done []
  | ev :: evs' => let! ev := Stop ev in let! evs' := stop_all evs' in Done (ev :: evs')
  end.

Definition CloseHandler (s : resources) : exec resources :=
  let '(ls, fs) := close_loggers (loggers s) (files s) in
  let! evs := stop_all (evictors s) in
  Done {| loggers := ls; evictors := evs; files := fs |}.

Lemma close_ready al fs : ready al ->
  Close takes al fs = (None, {| path := path al; is_open := false; buf := ""; werr := None |}, fs).
Proof. destruct al as [p o b w]. intros (Ho & He & Hb). simpl in *. by subst. Qed.

Lemma close_loggers_ready ls fs : Forall ready ls ->
  close_loggers ls fs = (map (fun al => {| path := path al; is_open := false; buf := ""; werr := None |}) ls, fs).
Proof. induction 1 as [|al ls Ha _ IH]; simpl; [done|]. rewrite close_ready by done. by rewrite IH. Qed.

Lemma stop_all_once evs : Forall (fun ev => stop_closed ev = false) evs ->
  stop_all evs = Done (map (fun ev => {| cache := cache ev; stop_closed := true; alive := alive ev |}) evs).
Proof. induction 1 as [|ev evs He _ IH]; simpl; [done|]. unfold Stop. rewrite He. simpl. by rewrite IH. Qed.

End Close.

(** The steps of one goroutine after another never change whether the channel
    is closed, and end it for good. *)
Lemma ev_step_closed ev ev' : ev_step ev ev' -> stop_closed ev' = stop_closed ev.
Proof. by destruct 1. Qed.

(** ** Properties *)

(** C39. The access log is a prefix of what was logged: whatever parts of its
    writes the disk refuses, the file of a logger holds what it held before
    followed by the first bytes of the lines in order, and no other file
    changes; unless all of them are there the logger is silent for good.  On a
    disk that takes everything the detailed logger is the one of Http.v. *)
Theorem access_log_prefix takes es al (fs : Http.Files) : ready al ->
  let '(al', fs') := log_all takes es al fs in
  (exists n, (n <= String.length (log_text es))%nat /\
     content (path al) fs' = (content (path al) fs ++ stake n (log_text es))%string /\
     (forall q, q <> path al -> fs' !! q = fs !! q) /\
     (n = String.length (log_text es) \/
      forall es2, log_all takes es2 al' fs' = (al', fs'))) /\
  ((forall p t s, (String.length s <= takes p t s)%nat) ->
   al' = al /\ fs' = fold_left (fun fs e => Http.Log {| Http.al_path := path al |} e fs) es fs).
Proof.
  intros Hr. destruct (log_all takes es al fs) as [al' fs'] eqn:E.
  pose proof (log_all_wrote takes es al fs Hr) as (_ & n & Hn & Hc & Hq & Hend). rewrite E in *.
  split.
  - exists n. split_and!; [done..|]. destruct Hend as [[_ ->]|Hd]; [by left|].
    right. intros es2. by apply log_all_dead.
  - intros Ht. rewrite (log_all_takes takes es al fs Hr Ht) in E. by injection E as <- <-.
Qed.

(** Closing a gateway once ends everything: no file changes, every log
    file is closed so that later lines are lost, and every eviction goroutine
    can end at once; closing it a second time panics exactly when it has a
    response cache. *)
Theorem close_once {R M} takes (h : Handler.GatewayHandler R M) :
  exists s, CloseHandler takes (resources_of h) = Done s /\ files s = Handler.logs h /\
    Forall (fun al => is_open al = false) (loggers s) /\
    Forall (fun ev => exists ev', ev_step ev ev' /\ alive ev' = false /\ cache ev' = cache ev) (evictors s) /\
    (CloseHandler takes s = Panic "close of closed channel" <-> Handler.responseCaches (Handler.res h) <> ∅).
Proof.
  set (r := resources_of h).
  assert (Hl : Forall ready (loggers r)) by (apply List.Forall_map, Forall_true; done).
  assert (He : Forall (fun ev => stop_closed ev = false) (evictors r)) by (apply List.Forall_map, Forall_true; done).
  unfold CloseHandler at 1. rewrite (close_loggers_ready takes _ _ Hl), (stop_all_once _ He).
  eexists. split; [done|]. cbn [files loggers evictors]. split; [done|].
  split; [apply List.Forall_map, Forall_true; done|]. split.
  - unfold r. cbn [evictors resources_of]. rewrite map_map. apply List.Forall_map, Forall_true. intros [k rc].
    eexists. split; [apply ev_stop|]. done.
  - unfold CloseHandler. destruct (close_loggers _ _ _) as [ls fs]. cbn [evictors].
    assert (Hnil : evictors r = [] <-> Handler.responseCaches (Handler.res h) = ∅).
    { unfold r. cbn [evictors resources_of]. split.
      - intros Hm. apply map_eq_nil in Hm. by apply map_to_list_empty_iff in Hm.
      - intros ->. by rewrite map_to_list_empty. }
    destruct (evictors r) as [|ev evs]; simpl; split; try done.
    + intros Hne. by destruct Hne; apply Hnil.
    + intros _ Hemp. by apply Hnil in Hemp.
Qed.

(** ** Logs at work *)

Definition entry_for (p agent : string) : Http.LogEntry := {|
  Http.Timestamp := "2024-01-01T00:00:00Z"; Http.Method := "GET"; Http.Path := p; Http.RoutePrefix := "/api";
  Http.ClientIP := "10.0.0.9"; Http.Status := 200; Http.LatencyMs := 3; Http.RequestSize := 0;
  Http.ResponseSize := 2; Http.UserAgent := agent; Http.LogTraceID := ""; Http.LogTarget := "http://be:80";
  Http.LogError := ""; Http.Tenant := "" |}.

Definition a_logger (p : string) : AccessLogger :=
  {| path := p; is_open := true; buf := ""; werr := None |}.

(** A disk that has room for [n] bytes in each file. *)
Definition room (n : nat) (p text s : string) : nat := n - String.length text.
Definition ample (p text s : string) : nat := String.length s.

Fixpoint repeated (n : nat) (s : string) : string :=
  match n with O => "" | S n' => s ++ repeated n' s end.

(** A disk that is full for a moment silences the log of a route: the next
    lines are lost although there is room for them. *)
Example full_disk_silences_log :
  let '(al, fs) := log_all (room 300) [entry_for "/api/a" ""; entry_for "/api/b" ""] (a_logger "x.log") ∅ in
  String.length (content "x.log" fs) = 300%nat /\ is_Some (werr al) /\
  log_all ample [entry_for "/api/c" ""] al (<["x.log" := ""%string]> fs) = (al, <["x.log" := ""%string]> fs).
Proof. vm_compute. split; [done|]. split; [by eexists|done]. Qed.

Lemma access_log_prefix_witness :
  ready (a_logger "x.log") /\
  (exists n, (n <= String.length (log_text [entry_for "/api/a" ""; entry_for "/api/b" ""]))%nat /\
     content "x.log" (snd (log_all (room 300) [entry_for "/api/a" ""; entry_for "/api/b" ""] (a_logger "x.log") ∅))
     = stake n (log_text [entry_for "/api/a" ""; entry_for "/api/b" ""])) /\
  snd (log_all ample [entry_for "/api/a" ""] (a_logger "x.log") ∅)
  = Http.Log {| Http.al_path := "x.log" |} (entry_for "/api/a" "") ∅.
Proof.
  assert (Hr : ready (a_logger "x.log")) by done.
  pose proof (access_log_prefix (room 300) [entry_for "/api/a" ""; entry_for "/api/b" ""] _ ∅ Hr) as H1.
  pose proof (access_log_prefix ample [entry_for "/api/a" ""] _ ∅ Hr) as H2.
  destruct (log_all (room 300) _ _ _) as [al1 fs1]. destruct (log_all ample _ _ _) as [al2 fs2].
  destruct H1 as [(n & Hn & Hc & _) _]. destruct H2 as [_ H2]. split; [done|]. split.
  - exists n. split; [done|]. exact Hc.
  - destruct H2 as [_ Hfs]; [intros; unfold ample; lia|]. exact Hfs.
Defined.

(** Two loggers of one file: a line longer than the buffer is two writes, and
    the line of another logger can come between them. *)
Example long_lines_interleave :
  let e := entry_for "/api/a" (repeated 4096 "x") in
  let '(al, fs) := Write ample 3 (render (Http.encode_LogEntry e)) (a_logger "x.log") ∅ in
  let '(_, fs) := Log ample (entry_for "/api/b" "") (a_logger "x.log") fs in
  HasPrefix (content "x.log" fs) (render (Http.encode_LogEntry e) ++ render (Http.encode_LogEntry (entry_for "/api/b" "")))
  = true.
Proof. vm_compute. done. Qed.

End Lifecycle.
