(* ===== verification/Proxy.v ===== *)
(** * Forwarding (pkg/proxy/handler.go: [RetryingTransport]; [httputil.ReverseProxy])

    What the reverse proxy of the standard library does to a request and to a
    response (target URL, hop-by-hop headers, forwarding headers), the checks
    of [http.Transport] on the body it sends, and the retrying transport. *)

From S2P Require Import Prelude GoStrings Access Http Url.
Open Scope Z_scope.

Module Proxy.
Import Http.

(** ** Hop-by-hop headers *)

Definition hop_headers : list string :=
  ["Connection"; "Proxy-Connection"; "Keep-Alive"; "Proxy-Authenticate"; "Proxy-Authorization";
   "Te"; "Trailer"; "Transfer-Encoding"; "Upgrade"]%string.

Definition ows (c : ascii) : bool := (byte_of c =? 32) || (byte_of c =? 9).

(** The comma-separated elements of some header values. *)
Definition elements (vs : list string) : list string :=
  List.filter (fun s => negb (String.eqb s "")) (map (trim ows) (List.concat (map (Split ",") vs))).

Definition has_token (vs : list string) (token : string) : bool :=
  existsb (fun s => EqualFold s token) (elements vs).

Definition removeHopByHopHeaders (h : Header) : Header :=
  let h := fold_left (fun h k => hdel k h) (elements (hvalues h "Connection")) h in
  fold_left (fun h k => hdel k h) hop_headers h.

Definition upgradeType (h : Header) : string :=
  if has_token (hvalues h "Connection") "Upgrade" then hget h "Upgrade" else ""%string.

Definition printable (s : string) : bool :=
  sforall (fun c => (32 <=? byte_of c) && (byte_of c <=? 126)) s.

(** ** The outgoing request *)

Definition join_query (a b : string) : string :=
  if String.eqb a "" || String.eqb b "" then (a ++ b)%string else (a ++ "&" ++ b)%string.

(** The director of [NewSingleHostReverseProxy]. *)
Definition rewriteRequestURL (target : Url) (u : Url) : Url :=
  {| u_scheme := u_scheme target; u_host := u_host target;
     u_path := Url.join_slash (u_path target) (u_path u);
     u_query := join_query (u_query target) (u_query u) |}.

Definition forwarded_for (remote : string) (h : Header) : Header :=
  match Access.split_host remote with
  | None => h
  | Some ip =>
      let prior := hvalues h "X-Forwarded-For" in
      hset "X-Forwarded-For"
        (match prior with [] => ip | _ => (Join prior ", " ++ ", " ++ ip)%string end) h
  end.

Definition out_header (remote : string) (h : Header) : Header :=
  let up := upgradeType h in
  let te := has_token (hvalues h "Te") "trailers" in
  let h := removeHopByHopHeaders h in
  let h := if te then hset "Te" "trailers" h else h in
  let h := if String.eqb up "" then h else hset "Upgrade" up (hset "Connection" "Upgrade" h) in
  let h := forwarded_for remote h in
  match h !! canonical "User-Agent" with Some _ => h | None => hset "User-Agent" "" h end.

(** A request whose [ContentLength] is zero is sent without its body. *)
Definition out_request (target : Url) (r : Request) : Request :=
  let r := if content_length r =? 0 then set_body (string_reader "") r else r in
  set_header (out_header (remote r) (header r)) (set_url (rewriteRequestURL target (url r)) r).

(** ** The transport *)

(** [http.Transport] fails when the body does, or when it has not the announced
    length; only then the bytes are a request for the backend. *)
Definition sendable (r : Request) : option string :=
  match r_err (body r) with
  | Some e => Some e
  | None =>
      if (0 <? content_length r) && negb (content_length r =? slen (r_data (body r)))
      then Some "http: ContentLength does not match Body length"%string else None
  end.

(** What [RetryingTransport.RoundTrip] hands to its base: the body is read and
    its reading error is dropped; a body that yields nothing is left as it is. *)
Definition with_bytes (bodyBytes : string) (r : Request) : Request :=
  if 0 <? slen bodyBytes then set_body (string_reader bodyBytes) r else r.
Definition rewind (r : Request) : Request :=
  let '(bodyBytes, _, rest) := ReadAll (body r) in with_bytes bodyBytes (set_body rest r).

Definition maxRetries : nat := 3.

Definition acceptable (x : result string Response) : bool :=
  match x with Ok resp => status resp <? 500 | Err _ => false end.

(** [base] reads the body it is given: what it leaves of it is its second
    result. *)
Section Retry.
Context {S : Type} (base : Request -> S -> result string Response * Reader * S).

(** The loop: the body is put back before every attempt; the first answer below
    500 is returned, otherwise the last. *)
Fixpoint attempts (n : nat) (bodyBytes : string) (req : Request) (last : result string Response) (s : S)
  : result string Response * S :=
  match n with
  | O => (last, s)
  | Datatypes.S n' =>
      let req := with_bytes bodyBytes req in
      let '(x, rest, s) := base req s in
      if acceptable x then (x, s) else attempts n' bodyBytes (set_body rest req) x s
  end.

Definition RoundTrip (req : Request) (s : S) : result string Response * S :=
  let '(bodyBytes, _, rest) := ReadAll (body req) in
  attempts maxRetries bodyBytes (set_body rest req) (Err ""%string) s.
End Retry.

(** ** Lemmas *)

Section RetrySpec.
Context (wire : nat -> result string Response).

(** A backend that answers its [i]-th request with [wire i], counts, and leaves
    nothing of a body but its error. *)
Definition scripted (req : Request) (st : nat * list Request)
  : result string Response * Reader * (nat * list Request) :=
  (wire (fst st), snd (ReadAll (body req)), (Datatypes.S (fst st), snd st ++ [req])).

(** The body that was read before the loop is whole again after an attempt that
    has consumed it. *)
Lemma rewound req0 : let sent := rewind req0 in
  with_bytes (r_data (body req0)) (set_body (snd (ReadAll (body sent))) sent) = sent.
Proof. unfold rewind, ReadAll, with_bytes. cbn [snd]. by destruct (0 <? slen (r_data (body req0))). Qed.

Lemma attempts_spec req0 : forall n req last k seen x st,
  with_bytes (r_data (body req0)) req = rewind req0 ->
  attempts scripted n (r_data (body req0)) req last (k, seen) = (x, st) ->
  exists m, (m <= n)%nat /\ st = ((k + m)%nat, seen ++ replicate m (rewind req0)) /\
    (forall i, (i < m - 1)%nat -> acceptable (wire (k + i)) = false) /\
    ((m = 0)%nat /\ n = 0%nat /\ x = last \/
     (0 < m)%nat /\ x = wire (k + (m - 1)) /\ (acceptable x = true \/ m = n)).
Proof.
  induction n as [|n IH]; intros req last k seen x st Hreq; cbn [attempts].
  - intros [= <- <-]. exists 0%nat. rewrite Nat.add_0_r, app_nil_r. split; [lia|]. split; [done|].
    split; [lia|]. by left.
  - rewrite Hreq. cbn [scripted fst snd]. destruct (acceptable (wire k)) eqn:Ea.
    + intros [= <- <-]. exists 1%nat. rewrite Nat.add_1_r. split; [lia|]. split; [done|].
      split; [lia|]. right. replace (k + (1 - 1))%nat with k by lia. split; [lia|]. auto.
    + intros H. apply IH in H as (m & Hm & -> & Hrej & Hx); [|apply rewound]. exists (Datatypes.S m).
      split; [lia|]. split; [f_equal; [lia|by rewrite <- app_assoc]|]. split.
      * intros i Hi. destruct i as [|i]; [by rewrite Nat.add_0_r|].
        replace (k + Datatypes.S i)%nat with (Datatypes.S k + i)%nat by lia. apply Hrej. lia.
      * right. split; [lia|]. destruct Hx as [(-> & -> & ->)|(Hm0 & -> & Hx)].
        -- rewrite Nat.add_0_r. split; [done|by right].
        -- replace (Datatypes.S k + (m - 1))%nat with (k + (Datatypes.S m - 1))%nat in * by lia.
           split; [done|]. destruct Hx; [by left|right; lia].
Qed.
End RetrySpec.

(** ** Properties *)

(** C23. Retries: a request is sent one to three times, always the same request
    with the same body; every answer but the last was an error or a 5xx; the
    last answer is the result, and it is below 500 unless all three attempts
    were used. *)
Theorem retry_exact wire req x st :
  RoundTrip (scripted wire) req (0%nat, []) = (x, st) ->
  exists m, (1 <= m <= 3)%nat /\ st = (m, replicate m (rewind req)) /\ x = wire (m - 1)%nat /\
    (forall i, (i < m - 1)%nat -> acceptable (wire i) = false) /\
    (acceptable x = true \/ m = 3%nat).
Proof.
  intros H. apply (attempts_spec wire req) in H as (m & Hm & -> & Hrej & Hx); [|done]. unfold maxRetries in *.
  exists m. destruct Hx as [(-> & ? & _)|(Hm0 & -> & Hx)]; [done|].
  split; [lia|]. split; [done|]. split; [done|]. split; [done|].
  destruct Hx; [by left|right; lia].
Qed.

Definition reply (code : Z) (b : string) : Response :=
  {| status := code; rheader := ∅; rbody := string_reader b; interim := [] |}.

Definition sample_request (meth path : string) : Request :=
  {| method := meth; url := {| u_scheme := ""; u_host := ""; u_path := path; u_query := "" |};
     host := "gw"; header := ∅; body := string_reader ""; content_length := 0;
     remote := "10.0.0.9:4711"; ctx_tenant := None; ctx_redact := None |}.

Definition flaky (i : nat) : result string Response :=
  match i with
  | O => Err "connection reset"%string
  | 1%nat => Ok (reply 503 "")
  | _ => Ok (reply 200 "done")
  end.

(** A POST that was answered 503 is sent again. *)
Lemma retry_exact_witness :
  exists m, (1 <= m <= 3)%nat /\
    (3%nat, replicate 3 (rewind (sample_request "POST" "/pay"))) = (m, replicate m (rewind (sample_request "POST" "/pay"))) /\
    Ok (reply 200 "done") = flaky (m - 1)%nat /\
    (forall i, (i < m - 1)%nat -> acceptable (flaky i) = false) /\
    (acceptable (Ok (reply 200 "done")) = true \/ m = 3%nat).
Proof. exact (retry_exact flaky (sample_request "POST" "/pay") _ _ eq_refl). Defined.

(** A body cut by the size limit is forwarded as if it were complete when the
    client announced no length, and refused by the transport when it did. *)
Example truncated_chunked_body_is_sent :
  let cut n := set_content_length n
                 (set_body (MaxBytesReader (string_reader "0123456789") 4) (sample_request "POST" "/")) in
  r_data (body (rewind (cut (-1)))) = "0123"%string /\ sendable (rewind (cut (-1))) = None /\
  sendable (rewind (cut 10)) = Some "http: ContentLength does not match Body length"%string.
Proof. split; [done|]. split; done. Qed.

Example out_request_example :
  let r := set_header (hset "Connection" "close, X-Hop" (hset "X-Hop" "1" (hset "X-A" "2" ∅)))
             (sample_request "GET" "/v1") in
  match Url.Parse "http://be:80/base?k=1" with
  | Some t => let o := out_request t r in
              (path o, u_query (url o), hget (header o) "X-Forwarded-For", hvalues (header o) "X-Hop",
               hvalues (header o) "X-A", hvalues (header o) "User-Agent")
              = ("/base/v1", "k=1", "10.0.0.9", [], ["2"], [""])%string
  | None => False
  end.
Proof. by vm_compute. Qed.

End Proxy.
