(* ===== verification/Wasm.v ===== *)
(** * The WASM middleware manager (pkg/wasm/runner.go)

    Compiled modules by name, a pool of reusable instances per module, and the
    two operations [Register] and [Run].  The wazero runtime is the interface
    [Engine]; channels are values of a heap, because a request that is running
    keeps the pool it found when another request registers a new module under
    the same name.  [Run] is first a function, for one request at a time, and
    then a step relation over any number of concurrent requests, built from
    the same stages and sharing the mutex, which is held while a module is
    instantiated.  A call of a guest is one step, taken when the guest
    returns. *)

From S2P Require Import Prelude GoStrings.
Open Scope Z_scope.

Module Wasm.

(** How [InstantiateModule] fails: the guest called [exit], or anything
    else. *)
Inductive inst_error := ExitError (code : Z) | OtherError (msg : string).

(** ** The runtime

    [C] are compiled modules, [I] module instances.  A call answers with its
    results or an error, with what the guest printed and with the changed
    instance. *)
Class Engine (C I : Type) := {
  CompileModule : string -> result string C;
  InstantiateModule : C -> string -> option I * option inst_error * string * string;
  ExportedFunction : I -> string -> bool;
  Call : I -> string -> list Z -> result string (list Z) * string * I;
  has_memory : I -> bool;
  MemoryWrite : I -> Z -> string -> bool * I;
  MemoryRead : I -> Z -> Z -> option string;
}.

(** What the runtime guarantees: an instance stays an instance of the module
    it was made from. *)
Class EngineLaws (C I : Type) `{Engine C I} := {
  module_of : I -> C;
  module_of_instance c stdin i err out errout :
    InstantiateModule c stdin = (Some i, err, out, errout) -> module_of i = c;
  module_of_call i f args res out i' : Call i f args = (res, out, i') -> module_of i' = module_of i;
  module_of_write i p s ok i' : MemoryWrite i p s = (ok, i') -> module_of i' = module_of i;
}.

Definition DefaultMemLimitMB : Z := 64.
Definition wasmPageBytes : Z := 65536.
Definition memLimitPages : Z := u32 (Z.quot (u64 (DefaultMemLimitMB * 1024 * 1024)) wasmPageBytes).

(** ** The manager *)

(** A buffered channel of instances. *)
Record pool (I : Type) := { buf : list I; closed : bool }.
Arguments buf {I} _.
Arguments closed {I} _.

Definition pool_cap : Z := 10.

(** [chans] is the heap of channels, [pools] names those in use; [retired] are
    the compiled modules that are closed five seconds after they were
    replaced, [opened] counts the instances that were not closed. *)
Record MiddlewareManager (C I : Type) := {
  cache : gmap string C;
  pools : gmap string nat;
  chans : list (pool I);
  retired : list C;
  opened : Z;
}.
Arguments cache {C I} _.
Arguments pools {C I} _.
Arguments chans {C I} _.
Arguments retired {C I} _.
Arguments opened {C I} _.

Section Manager.
Context {C I : Type} `{Engine C I}.
Abbreviation manager := (MiddlewareManager C I).

Definition new_manager : manager :=
  {| cache := ∅; pools := ∅; chans := []; retired := []; opened := 0 |}.

Definition set_chan (p : nat) (ch : pool I) (m : manager) : manager :=
  {| cache := cache m; pools := pools m; chans := <[p := ch]> (chans m); retired := retired m;
     opened := opened m |}.
Definition count_open (n : Z) (m : manager) : manager :=
  {| cache := cache m; pools := pools m; chans := chans m; retired := retired m;
     opened := opened m + n |}.

(** [mod.Close(ctx)]. *)
Definition close_instance (m : manager) : manager := count_open (-1) m.

(** [close(oldPool); for mod := range oldPool { mod.Close(ctx) }]. *)
Definition drain (p : nat) (m : manager) : manager :=
  match chans m !! p with
  | Some ch => set_chan p {| buf := []; closed := true |} (count_open (- lenZ (buf ch)) m)
  | None => m
  end.

Definition Register (name wasmBytes : string) (m : manager) : result string manager :=
  match CompileModule wasmBytes with
  | Err e => Err ("wasm: compilation failed: " ++ e)%string
  | Ok compiled =>
      let m1 := match pools m !! name with Some old => drain old m | None => m end in
      Ok {| cache := <[name := compiled]> (cache m1);
            pools := <[name := length (chans m1)]> (pools m1);
            chans := chans m1 ++ [{| buf := []; closed := false |}];
            retired := match cache m !! name with Some c => retired m1 ++ [c] | None => retired m1 end;
            opened := opened m1 |}
  end.

(** ** The stages of [Run] *)

(** The first critical section: the module and the pool. *)
Definition run_lookup (name : string) (m : manager) : option (C * option nat) :=
  match cache m !! name with
  | Some c => Some (c, pools m !! name)
  | None => None
  end.

(** [select { case inst, ok := <-pool: ... default: }]: a closed and empty
    channel answers at once, with [ok] false. *)
Definition run_take (po : option nat) (m : manager) : option I * manager :=
  match po with
  | None => (None, m)
  | Some p =>
      match chans m !! p with
      | Some {| buf := i :: rest; closed := cl |} =>
          (Some i, set_chan p {| buf := rest; closed := cl |} m)
      | _ => (None, m)
      end
  end.

(** The second critical section.  [Ok (None, _)] is a guest that exited with
    code zero and left no instance; the runtime closes the instance of a start
    that fails. *)
Definition run_instantiate (c : C) (input : string) (m : manager)
  : result string (option I * string) * manager :=
  let '(mod_, err, out, errout) := InstantiateModule c input in
  let kept := count_open (if mod_ is Some _ then 1 else 0) m in
  match err with
  | None => (Ok (mod_, out), kept)
  | Some (ExitError code) =>
      if negb (code =? 0)
      then (Err ("wasm: exited with code " ++ Itoa code ++ ": " ++ errout)%string, m)
      else (Ok (mod_, out), kept)
  | Some (OtherError e) => (Err ("wasm: execution failed: " ++ e)%string, m)
  end.

Definition first_export (i : I) (f g : string) : option string :=
  if ExportedFunction i f then Some f
  else if ExportedFunction i g then Some g else None.

(** The direct memory path: allocate, copy the input in, transform, copy the
    output out; [None] where the code falls through.  The printed text is that
    of the calls, and [Panic] the use of the nil memory of a module without
    one. *)
Definition run_direct (i : I) (input : string) : exec (option string * string * I) :=
  match first_export i "allocate" "malloc", first_export i "transform" "process" with
  | Some allocFn, Some transformFn =>
      let size := u64 (slen input) in
      let '(results, out1, i) := Call i allocFn [size] in
      match results with
      | Ok (ptr :: _) =>
          if negb (has_memory i) then Panic "nil memory" else
          let '(written, i) := MemoryWrite i (u32 ptr) input in
          if negb written then Done (None, out1, i) else
          let '(resResults, out2, i) := Call i transformFn [ptr; size] in
          match resResults with
          | Ok (resPtr :: _) =>
              Done (MemoryRead i (u32 (Z.shiftr resPtr 32)) (u32 resPtr), (out1 ++ out2)%string, i)
          | _ => Done (None, (out1 ++ out2)%string, i)
          end
      | _ => Done (None, out1, i)
      end
  | _, _ => Done (None, ""%string, i)
  end.

(** [select { case pool <- mod: ... default: }], and [mod.Close] when the pool
    is full or absent; sending on a closed channel panics. *)
Definition run_return (po : option nat) (i : I) (m : manager) : exec manager :=
  match po with
  | None => Done (close_instance m)
  | Some p =>
      match chans m !! p with
      | Some ch =>
          if closed ch then Panic "send on closed channel"
          else if lenZ (buf ch) <? pool_cap
          then Done (set_chan p {| buf := buf ch ++ [i]; closed := false |} m)
          else Done (close_instance m)
      | None => Done (close_instance m)
      end
  end.

(** The instance a request works on: one of the pool, with [reused] set, or a
    new one.  What a reused instance prints goes to the buffer of the request
    it was made for. *)
Definition run_obtain (c : C) (po : option nat) (input : string) (m : manager)
  : result string (option I * bool * string) * manager :=
  match run_take po m with
  | (Some i, m) => (Ok (Some i, true, ""%string), m)
  | (None, m) =>
      match run_instantiate c input m with
      | (Ok (mod_, out), m) => (Ok (mod_, false, out), m)
      | (Err e, m) => (Err e, m)
      end
  end.

(** One request at a time. *)
Definition Run (name input : string) (m : manager) : exec (result string string * manager) :=
  match run_lookup name m with
  | None => Done (Err ("wasm: middleware " ++ name ++ " not registered")%string, m)
  | Some (c, po) =>
      match run_obtain c po input m with
      | (Err e, m) => Done (Err e, m)
      | (Ok (None, _, stdout), m) => Done (Ok stdout, m)
      | (Ok (Some i, reused, stdout), m) =>
          let! st := run_direct i input in
          let '(out, printed, i) := st in
          match out with
          | Some outCopy => let! m := run_return po i m in Done (Ok outCopy, m)
          | None =>
              Done (Ok (if reused : bool then stdout else (stdout ++ printed)%string), close_instance m)
          end
      end
  end.

(** ** The manager of the process

    [init] is what the creation of the runtime and of WASI answers; the error
    is that of the first call only. *)
Record global := { once_done : bool; globalManager : option manager }.

Definition GetMiddlewareManager (init : result string unit) (g : global)
  : option manager * option string * global :=
  if once_done g then (globalManager g, None, g)
  else match init with
       | Err e => (globalManager g, Some ("wasm: failed to instantiate WASI: " ++ e)%string,
                   {| once_done := true; globalManager := globalManager g |})
       | Ok _ => (Some new_manager, None, {| once_done := true; globalManager := Some new_manager |})
       end.

(** ** Concurrent requests

    Where a request stands in [Run]; [WInst] is one inside [InstantiateModule],
    holding the mutex, and [WLost] one that panicked with its instance in
    hand. *)
Inductive wpc :=
| WStart (name input : string)
| WGot (c : C) (po : option nat) (input : string)
| WNew (c : C) (po : option nat) (input : string)
| WInst (c : C) (po : option nat) (input : string)
| WHave (i : I) (po : option nat) (reused : bool) (stdout input : string)
| WPut (i : I) (po : option nat) (out : string)
| WDone (r : result string string)
| WLost (why : string).

(** One step of one request: the request, the mutex and the manager after it;
    [None] when it has ended or waits for the mutex.  A guest takes as long as
    it likes between the step that calls it and the step that has its answer:
    the mutex is held from the one to the other when it is started. *)
Definition wstep (held : bool) (t : wpc) (m : manager) : option (wpc * bool * manager) :=
  match t with
  | WStart name input =>
      if held then None else
      Some (match run_lookup name m with
            | None => WDone (Err ("wasm: middleware " ++ name ++ " not registered")%string)
            | Some (c, po) => WGot c po input
            end, false, m)
  | WGot c po input =>
      Some (match run_take po m with
            | (Some i, m) => (WHave i po true "" input, held, m)
            | (None, m) => (WNew c po input, held, m)
            end)
  | WNew c po input => if held then None else Some (WInst c po input, true, m)
  | WInst c po input =>
      Some (match run_instantiate c input m with
            | (Ok (Some i, out), m) => (WHave i po false out input, false, m)
            | (Ok (None, out), m) => (WDone (Ok out), false, m)
            | (Err e, m) => (WDone (Err e), false, m)
            end)
  | WHave i po reused stdout input =>
      Some (match run_direct i input with
            | Done (Some out, _, i) => (WPut i po out, held, m)
            | Done (None, printed, _) =>
                (WDone (Ok (if reused then stdout else (stdout ++ printed)%string)), held, close_instance m)
            | Panic why => (WLost why, held, m)
            end)
  | WPut i po out =>
      Some (match run_return po i m with
            | Done m => (WDone (Ok out), held, m)
            | Panic why => (WLost why, held, m)
            end)
  | WDone _ | WLost _ => None
  end.

(** The manager, its mutex, and the requests inside [Run]. *)
Record system := { mgr : manager; held : bool; threads : list wpc }.

(** A request arrives, a request takes a step, or a module is registered, which
    needs the mutex. *)
Inductive label :=
| LArrive (name input : string)
| LStep (k : nat)
| LRegister (name wasmBytes : string).

#[export] Instance label_eq_dec : EqDecision label.
Proof. solve_decision. Defined.

Definition sys_do (l : label) (s : system) : option system :=
  match l with
  | LArrive name input =>
      Some {| mgr := mgr s; held := held s; threads := threads s ++ [WStart name input] |}
  | LStep k =>
      t ← threads s !! k;
      '(t', held', m') ← wstep (held s) t (mgr s);
      Some {| mgr := m'; held := held'; threads := <[k := t']> (threads s) |}
  | LRegister name wasmBytes =>
      if held s then None
      else Some (match Register name wasmBytes (mgr s) with
                 | Ok m' => {| mgr := m'; held := false; threads := threads s |}
                 | Err _ => s
                 end)
  end.

Definition sys_step (s s' : system) : Prop := exists l, sys_do l s = Some s'.

Definition start : system := {| mgr := new_manager; held := false; threads := [] |}.

Fixpoint sys_run (ls : list label) (s : system) : option system :=
  match ls with
  | [] => Some s
  | l :: ls' => sys_do l s ≫= sys_run ls'
  end.

(** Instances waiting in pools, in the hands of requests, and left behind by
    requests that panicked. *)
Definition pooled (m : manager) : Z := sumZ (map (fun ch => lenZ (buf ch)) (chans m)).
Definition holds (t : wpc) : bool :=
  match t with WHave _ _ _ _ _ | WPut _ _ _ => true | _ => false end.
Definition leaked (t : wpc) : bool := if t is WLost _ then true else false.

(** *** Who waits, who has ended *)

Definition starting (t : wpc) : bool := if t is WInst _ _ _ then true else false.



(** ** The specification of the answers

    The module each name was last registered with. *)
Definition register_label (reg : gmap string C) (l : label) : gmap string C :=
  match l with
  | LRegister name wasmBytes =>
      match CompileModule wasmBytes with Ok c => <[name := c]> reg | Err _ => reg end
  | _ => reg
  end.



End Manager.
Arguments MiddlewareManager : clear implicits.

(** ** The invariant of the manager *)

Section Laws.
Context {C I : Type} `{EngineLaws C I}.
Abbreviation manager := (MiddlewareManager C I).


(** What may wait in a channel whose instances come from [c]. *)
Definition chan_ok (c : C) (ch : pool I) : Prop :=
  lenZ (buf ch) <= pool_cap /\ (closed ch = true -> buf ch = []) /\
  Forall (fun i => module_of i = c) (buf ch).

(** [ow] names the module of each channel. *)
Record minv (ow : list C) (m : manager) : Prop := {
  mi_chans : Forall2 chan_ok ow (chans m);
  mi_pools name p : pools m !! name = Some p ->
    exists c ch, cache m !! name = Some c /\ ow !! p = Some c /\
                 chans m !! p = Some ch /\ closed ch = false;
  mi_cache name c : cache m !! name = Some c -> is_Some (pools m !! name);
  mi_inj name name' p : pools m !! name = Some p -> pools m !! name' = Some p -> name = name';
}.

Lemma minv_new : minv [] new_manager.
Proof. by constructor. Qed.

Lemma minv_chan ow m p ch : minv ow m -> chans m !! p = Some ch ->
  exists c, ow !! p = Some c /\ chan_ok c ch.
Proof.
  intros [Hc _ _ _] Hp. destruct (Forall2_lookup_r _ _ _ _ _ Hc Hp) as (c & ? & ?). eauto.
Qed.

(** Counting does not matter to the invariant, and a channel can be exchanged
    for another of the same module as long as it stays open. *)
Lemma minv_count ow n m : minv ow m -> minv ow (count_open n m).
Proof. intros []. by constructor. Qed.

Lemma Forall2_set {A B} (R : A -> B -> Prop) l k p x y :
  Forall2 R l k -> l !! p = Some x -> R x y -> Forall2 R l (<[p := y]> k).
Proof.
  intros Hf Hp Hr. rewrite <- (list_insert_id l p x Hp). by apply Forall2_insert.
Qed.

Lemma minv_set ow m p ch ch' c :
  minv ow m -> chans m !! p = Some ch -> ow !! p = Some c -> chan_ok c ch' ->
  closed ch' = closed ch -> minv ow (set_chan p ch' m).
Proof.
  intros [Hc Hp Hca Hi] Hch Ho Hok Hcl. constructor; simpl; auto.
  - by eapply Forall2_set.
  - intros name q Hq. destruct (Hp name q Hq) as (c0 & ch0 & ? & ? & Hch0 & ?).
    exists c0. destruct (decide (p = q)) as [<-|].
    + exists ch'. rewrite list_lookup_insert_eq by (by eapply lookup_lt_Some).
      simplify_eq. rewrite Hcl. done.
    + exists ch0. by rewrite list_lookup_insert_ne.
Qed.

Lemma sum_set (g : pool I -> Z) l p ch ch' :
  l !! p = Some ch -> sumZ (map g (<[p := ch']> l)) = sumZ (map g l) - g ch + g ch'.
Proof.
  revert p. induction l as [|x l IH]; intros [|p]; simpl; try done.
  - intros [= <-]. lia.
  - intros Hp. rewrite (IH p Hp). lia.
Qed.

Lemma pooled_set (m : manager) p ch ch' : chans m !! p = Some ch ->
  pooled (set_chan p ch' m) = pooled m - lenZ (buf ch) + lenZ (buf ch').
Proof. intros Hp. unfold pooled. simpl. by rewrite (sum_set _ _ _ ch). Qed.

Lemma pooled_count n (m : manager) : pooled (count_open n m) = pooled m.
Proof. done. Qed.

(** ** Every stage keeps the invariant *)

Lemma run_lookup_ok ow m name c po : minv ow m -> run_lookup name m = Some (c, po) ->
  match po with Some p => ow !! p = Some c | None => False end.
Proof.
  unfold run_lookup. intros Hm. destruct (cache m !! name) as [c0|] eqn:Ec; [|done].
  intros [= <- <-]. destruct (mi_cache _ _ Hm name c0 Ec) as [p Hp]. rewrite Hp.
  destruct (mi_pools _ _ Hm name p Hp) as (c1 & ch & Hc & Ho & _). congruence.
Qed.

Lemma run_take_ok ow m po oi m' c : minv ow m -> run_take po m = (oi, m') ->
  (forall p, po = Some p -> ow !! p = Some c) ->
  minv ow m' /\ pooled m' = pooled m - (if oi is Some _ then 1 else 0) /\ opened m' = opened m /\
  (forall i, oi = Some i -> module_of i = c) /\ cache m' = cache m.
Proof.
  intros Hm. unfold run_take. destruct po as [p|]; [|intros [= <- <-] Hc; split; [done|]; split; [lia|]; by split].
  destruct (chans m !! p) as [[[|i rest] cl]|] eqn:Ech;
    intros [= <- <-] Hc; try (split; [done|]; split; [lia|]; by split).
  destruct (minv_chan _ _ _ _ Hm Ech) as (c' & Ho & Hlen & Hcl & Hf). simpl in *.
  rewrite (Hc p eq_refl) in Ho. injection Ho as <-. apply Forall_cons_1 in Hf as [Hi Hf].
  rewrite lenZ_cons in Hlen.
  split; [|split; [|split; [|split]]]; try done.
  - eapply (minv_set _ _ _ _ _ c Hm Ech); [by apply Hc| |done]. split; [simpl; lia|].
    split; [|done]. simpl. intros Hx. by specialize (Hcl Hx).
  - rewrite (pooled_set _ _ _ _ Ech). simpl. rewrite lenZ_cons. lia.
  - by intros ? [= <-].
Qed.

Lemma run_instantiate_ok ow m c input r m' : minv ow m -> run_instantiate c input m = (r, m') ->
  minv ow m' /\ pooled m' = pooled m /\ cache m' = cache m /\
  match r with
  | Ok (Some i, _) => module_of i = c /\ opened m' = opened m + 1
  | _ => opened m' = opened m
  end.
Proof.
  intros Hm. unfold run_instantiate.
  destruct (InstantiateModule c input) as [[[oi err] out] eo] eqn:E.
  assert (Hkept : minv ow (count_open (if oi is Some _ then 1 else 0) m)) by (by apply minv_count).
  destruct err as [[code|e]|]; [destruct (negb _)| |]; intros [= <- <-]; split_and!; auto;
    (destruct oi as [i|]; simpl; [split; [by eapply module_of_instance|lia]|lia]).
Qed.

Lemma run_direct_module i input out printed i' :
  run_direct i input = Done (out, printed, i') -> module_of i' = module_of i.
Proof.
  unfold run_direct.
  destruct (first_export i "allocate" "malloc") as [f|]; [|by intros [= <- <- <-]].
  destruct (first_export i "transform" "process") as [g|]; [|by intros [= <- <- <-]].
  destruct (Call i f _) as [[r1 o1] i1] eqn:E1. apply module_of_call in E1.
  destruct r1 as [[|ptr l]|]; try (by intros [= <- <- <-]).
  destruct (negb (has_memory i1)); [done|].
  destruct (MemoryWrite i1 _ _) as [ok i2] eqn:E2. apply module_of_write in E2.
  destruct (negb ok); [intros [= <- <- <-]; congruence|].
  destruct (Call i2 g _) as [[r2 o2] i3] eqn:E3. apply module_of_call in E3.
  destruct r2 as [[|q l']|]; intros [= <- <- <-]; congruence.
Qed.

Lemma run_return_ok ow m p i c m' : minv ow m -> ow !! p = Some c -> module_of i = c ->
  run_return (Some p) i m = Done m' ->
  minv ow m' /\ opened m' - pooled m' = opened m - pooled m - 1 /\ cache m' = cache m.
Proof.
  intros Hm Ho Hi. unfold run_return. destruct (chans m !! p) as [ch|] eqn:Ech.
  2: { intros [= <-]. split_and!; [by apply minv_count| |done]. simpl. unfold close_instance.
       rewrite pooled_count. lia. }
  destruct (closed ch) eqn:Ecl; [done|].
  destruct (minv_chan _ _ _ _ Hm Ech) as (c' & Ho' & Hlen & _ & Hf). simplify_eq.
  destruct (lenZ (buf ch) <? pool_cap) eqn:El; intros [= <-]; breflect.
  2: { split_and!; [by apply minv_count| |done]. simpl. unfold close_instance.
       rewrite pooled_count. lia. }
  split_and!; [|rewrite (pooled_set _ _ _ _ Ech)|done].
  - eapply minv_set; eauto. split; [|split; [done|]]; simpl.
    + rewrite lenZ_app, lenZ_cons. unfold lenZ at 2. simpl. lia.
    + apply Forall_app. split; [done|]. by constructor.
  - simpl. rewrite lenZ_app. unfold lenZ at 3. simpl. lia.
Qed.

Lemma drain_spec ow m name p : minv ow m -> pools m !! name = Some p ->
  exists ch, chans m !! p = Some ch /\
    drain p m = set_chan p {| buf := []; closed := true |} (count_open (- lenZ (buf ch)) m).
Proof.
  intros Hm Hp. destruct (mi_pools _ _ Hm name p Hp) as (c & ch & _ & _ & Hch & _).
  exists ch. unfold drain. by rewrite Hch.
Qed.

Lemma pooled_snoc (l : list (pool I)) :
  sumZ (map (fun ch => lenZ (buf ch)) (l ++ [{| buf := []; closed := false |}]))
  = sumZ (map (fun ch => lenZ (buf ch)) l).
Proof. rewrite map_app, sumZ_app. simpl. unfold lenZ. simpl. lia. Qed.

(** A registration opens a new channel for the new module and closes the one
    of the module it replaces. *)
Lemma register_ok ow m name bytes m' : minv ow m -> Register name bytes m = Ok m' ->
  exists c, CompileModule bytes = Ok c /\ minv (ow ++ [c]) m' /\
    cache m' = <[name := c]> (cache m) /\ opened m' - pooled m' = opened m - pooled m.
Proof.
  intros Hm. unfold Register. destruct (CompileModule bytes) as [c|e]; [|done]. intros [= <-].
  exists c. split; [done|].
  set (m1 := match pools m !! name with Some old => drain old m | None => m end).
  assert (H1 : cache m1 = cache m /\ pools m1 = pools m /\ Forall2 chan_ok ow (chans m1) /\
               (forall p, pools m !! name <> Some p -> chans m1 !! p = chans m !! p) /\
               opened m1 - pooled m1 = opened m - pooled m).
  { subst m1. destruct (pools m !! name) as [old|] eqn:Ep; [|by destruct Hm].
    destruct (drain_spec _ _ _ _ Hm Ep) as (ch & Hch & ->).
    destruct (minv_chan _ _ _ _ Hm Hch) as (c' & Ho & _).
    split; [done|]. split; [done|]. split; [|split].
    - eapply Forall2_set; [apply Hm|exact Ho|]. split; [unfold lenZ, pool_cap; simpl; lia|done].
    - intros p Hne. simpl. apply list_lookup_insert_ne. congruence.
    - rewrite (pooled_set (count_open _ m) _ ch) by done. rewrite pooled_count. simpl.
      unfold lenZ. simpl. lia. }
  destruct H1 as (Hca & Hpo & Hf & Hother & Hcount). clearbody m1.
  split; [|split; [by rewrite <- Hca|]].
  - pose proof (Forall2_length Hf) as Hlen. constructor; simpl; rewrite ?Hca, ?Hpo.
    + apply Forall2_app; [done|]. constructor; [|done].
      split; [unfold lenZ, pool_cap; simpl; lia|]. by split.
    + intros n p. destruct (decide (name = n)) as [<-|Hne].
      * rewrite 2!lookup_insert_eq. intros [= <-]. exists c, {| buf := []; closed := false |}.
        split; [done|]. split; [by apply list_lookup_middle|]. split; [by apply list_lookup_middle|done].
      * rewrite !lookup_insert_ne by done. intros Hp.
        destruct (mi_pools _ _ Hm n p Hp) as (c0 & ch & Hc0 & Ho & Hch & Hcl). exists c0, ch.
        split; [done|]. split; [by apply lookup_app_l_Some|]. split; [|done].
        apply lookup_app_l_Some. rewrite Hother; [done|]. intros Hp'.
        by destruct Hne; eapply mi_inj.
    + intros n c0. destruct (decide (name = n)) as [<-|Hne]; [rewrite !lookup_insert_eq; eauto|].
      rewrite !lookup_insert_ne by done. apply (mi_cache _ _ Hm).
    + assert (Hold : forall n p, pools m !! n = Some p -> p <> length (chans m1)).
      { intros n p Hp ->. destruct (mi_pools _ _ Hm n _ Hp) as (? & ? & _ & Ho & _).
        apply lookup_lt_Some in Ho. lia. }
      intros n n' p. destruct (decide (name = n)) as [<-|], (decide (name = n')) as [<-|];
        rewrite ?lookup_insert_eq, ?lookup_insert_ne by done; try done.
      * intros [= <-] Hp. by destruct (Hold n' _ Hp).
      * intros Hp [= <-]. by destruct (Hold n _ Hp).
      * apply (mi_inj _ _ Hm).
  - simpl. unfold pooled. simpl. rewrite pooled_snoc. exact Hcount.
Qed.

(** ** The invariant of the system *)

Definition tinv (ow : list C) (t : wpc) : Prop :=
  match t with
  | WGot c (Some p) _ | WNew c (Some p) _ | WInst c (Some p) _ => ow !! p = Some c
  | WHave i (Some p) _ _ _ | WPut i (Some p) _ => ow !! p = Some (module_of i)
  | WGot _ None _ | WNew _ None _ | WInst _ None _ | WHave _ None _ _ _ | WPut _ None _ => False
  | _ => True
  end.

(** The instances a request owns, given back or not. *)
Definition owns (t : wpc (C := C) (I := I)) : bool := holds t || leaked t.

Lemma countZ_owns ts : countZ owns ts = countZ holds ts + countZ leaked ts.
Proof.
  induction ts as [|t ts IH]; [done|]. rewrite !countZ_cons, IH.
  destruct t; cbn [owns holds leaked orb]; lia.
Qed.

Record sinv (ow : list C) (s : system) : Prop := {
  si_mgr : minv ow (mgr s);
  si_threads : Forall (tinv ow) (threads s);
  si_count : opened (mgr s) = pooled (mgr s) + countZ owns (threads s);
  si_mutex : countZ starting (threads s) = if held s then 1 else 0;
}.

Lemma tinv_grow ow c t : tinv ow t -> tinv (ow ++ [c]) t.
Proof.
  destruct t; simpl; try done; destruct po; try done; intros ?; by apply lookup_app_l_Some.
Qed.

(** One step of a request keeps the invariant and moves at most one instance. *)
Lemma wstep_ok ow hd t m t' hd' m' : minv ow m -> tinv ow t -> wstep hd t m = Some (t', hd', m') ->
  minv ow m' /\ tinv ow t' /\ cache m' = cache m /\
  opened m' - pooled m' - (if owns t' then 1 else 0) = opened m - pooled m - (if owns t then 1 else 0).
Proof.
  intros Hm Ht. destruct t as [name input|c po input|c po input|c po input|i po reused out input|i po out|r|why];
    simpl; try done.
  - destruct hd; [done|]. intros [= <- _ <-]. split; [done|].
    destruct (run_lookup name m) as [[c po]|] eqn:E; [|done].
    apply (run_lookup_ok ow) in E; [|done]. by destruct po.
  - intros [= Hs]. destruct po as [p|]; [|done]. simpl in Ht.
    destruct (run_take (Some p) m) as [oi m1] eqn:E.
    apply (run_take_ok ow _ _ _ _ c) in E as (Hm1 & Hp & Ho & Hmod & Hc); [|done|by intros ? [= <-]].
    destruct oi as [i|]; injection Hs as <- _ <-; cbn [tinv owns holds leaked orb];
      (split; [done|]; split; [|split; [done|lia]]); [|done].
    by rewrite (Hmod i eq_refl).
  - destruct hd; [done|]. intros [= <- _ <-]. by destruct po.
  - intros [= Hs]. destruct po as [p|]; [|done]. simpl in Ht.
    destruct (run_instantiate c input m) as [r m1] eqn:E.
    apply (run_instantiate_ok ow) in E as (Hm1 & Hp & Hc & Hr); [|done].
    destruct r as [[[i|] o]|e]; injection Hs as <- _ <-; cbn [tinv owns holds leaked orb];
      (split; [done|]; split; [|split; [done|lia]]); try done.
    destruct Hr as [Hi _]. congruence.
  - intros [= Hs]. destruct po as [p|]; [|done]. simpl in Ht.
    destruct (run_direct i input) as [[[[o|] printed] i1]|] eqn:E; injection Hs as <- _ <-; simpl; try done.
    + apply run_direct_module in E. rewrite E. done.
    + split; [by apply minv_count|]. split; [done|]. split; [done|].
      unfold close_instance. rewrite pooled_count. simpl. lia.
  - intros [= Hs]. destruct po as [p|]; [|done]. simpl in Ht.
    destruct (run_return (Some p) i m) as [m1|] eqn:E; injection Hs as <- _ <-; simpl; [|done].
    apply (run_return_ok ow _ _ _ (module_of i)) in E as (Hm1 & Hc & Hca); [|done..].
    split; [done|]. split; [done|]. split; [done|]. cbn. lia.
Qed.

(** The mutex is taken and given back by the start of a guest. *)
Lemma wstep_mutex hd t m t' hd' m' : wstep hd t m = Some (t', hd', m') ->
  (starting t = true -> hd = true) ->
  (if starting t' then 1 else 0) - (if hd' then 1 else 0) = (if starting t then 1 else 0) - (if hd then 1 else 0).
Proof.
  destruct t as [name input|c po input|c po input|c po input|i po reused out input|i po out|r|why];
    cbn [wstep starting]; try done; intros Hs Hh.
  - destruct hd; [done|]. injection Hs as <- <- _. by destruct (run_lookup name m) as [[? ?]|].
  - by destruct (run_take po m) as [[?|] ?]; injection Hs as <- <- _.
  - destruct hd; [done|]. by injection Hs as <- <- _.
  - rewrite (Hh eq_refl). by destruct (run_instantiate c input m) as [[[[?|] ?]|?] ?]; injection Hs as <- <- _.
  - by destruct (run_direct i input) as [[[[?|] ?] ?]|]; injection Hs as <- <- _.
  - by destruct (run_return po i m); injection Hs as <- <- _.
Qed.

(** The step of one request, with the others around it. *)
Lemma step_split k (s s' : system) : sys_do (LStep k) s = Some s' ->
  exists ts1 t ts2 t', threads s = ts1 ++ t :: ts2 /\ length ts1 = k /\
    wstep (held s) t (mgr s) = Some (t', held s', mgr s') /\ threads s' = ts1 ++ t' :: ts2.
Proof.
  simpl. intros Hd. destruct (threads s !! k) as [t|] eqn:Ek; [|done]. cbn [mbind option_bind] in Hd.
  destruct (wstep (held s) t (mgr s)) as [[[t' hd'] m']|] eqn:Ew; [|done]. injection Hd as <-. simpl.
  pose proof (lookup_lt_Some _ _ _ Ek) as Hlt.
  exists (take k (threads s)), t, (drop (S k) (threads s)), t'.
  split; [by rewrite take_drop_middle|]. split; [rewrite length_take; lia|]. split; [done|].
  by apply insert_take_drop.
Qed.

Lemma countZ_pos {A} (f : A -> bool) l x : x ∈ l -> f x = true -> 1 <= countZ f l.
Proof.
  induction l as [|y l IH]; [by intros ?%not_elem_of_nil|].
  rewrite countZ_cons. pose proof (countZ_nonneg f l). intros [->|Hx]%elem_of_cons Hf.
  - rewrite Hf. lia.
  - specialize (IH Hx Hf). destruct (f y); lia.
Qed.

Lemma starting_held ow s t : sinv ow s -> t ∈ threads s -> starting t = true -> held s = true.
Proof.
  intros [_ _ _ Hx] Ht Hs. pose proof (countZ_pos _ _ _ Ht Hs). destruct (held s); [done|lia].
Qed.

(** A label keeps the invariant, and the modules are those registered. *)
Lemma sinv_do ow s l s' : sinv ow s -> sys_do l s = Some s' ->
  exists ow', sinv ow' s' /\ (forall p c, ow !! p = Some c -> ow' !! p = Some c) /\
    cache (mgr s') = register_label (cache (mgr s)) l.
Proof.
  intros Hi. pose proof Hi as [Hm Ht Hc Hx]. destruct l as [name input|k|name bytes].
  - intros [= <-]. exists ow. split; [|done]. split; simpl; [done|..].
    + apply Forall_app. split; [done|]. by constructor.
    + rewrite countZ_app. unfold countZ at 2. simpl. lia.
    + rewrite countZ_app. unfold countZ at 2. simpl. lia.
  - intros (ts1 & t & ts2 & t' & E & _ & Hs & E')%step_split. rewrite E in *.
    pose proof Ht as Hall. apply Forall_app in Hall as [Ht1 Ht2]. apply Forall_cons_1 in Ht2 as [Ht0 Ht2].
    destruct (wstep_ok _ _ _ _ _ _ _ Hm Ht0 Hs) as (Hm' & Ht' & Hca & Hd).
    assert (Hh : starting t = true -> held s = true).
    { apply (starting_held ow); [done|]. rewrite E. apply elem_of_app. right. by left. }
    pose proof (wstep_mutex _ _ _ _ _ _ Hs Hh) as Hmu.
    exists ow. split; [|done]. split; rewrite ?E'; [done|..].
    + apply Forall_app. split; [done|]. by constructor.
    + rewrite countZ_app, countZ_cons in *. lia.
    + rewrite countZ_app, countZ_cons in *. lia.
  - simpl. destruct (held s) eqn:Eh; [done|]. intros [= <-].
    destruct (Register name bytes (mgr s)) as [m'|e] eqn:Er.
    + destruct (register_ok _ _ _ _ _ Hm Er) as (c & Hcm & Hm' & Hca & Hd). exists (ow ++ [c]).
      rewrite Hcm. split; [|split; [|done]].
      * split; simpl; [done| |lia|done]. eapply List.Forall_impl; [|exact Ht]. intros t. apply tinv_grow.
      * intros p c' Hp. by apply lookup_app_l_Some.
    + exists ow. split; [done|]. split; [done|]. unfold Register in Er. by destruct (CompileModule bytes).
Qed.

Lemma sinv_start : sinv [] start.
Proof. split; [apply minv_new|constructor|done|done]. Qed.

Lemma sinv_reachable s : rtc sys_step start s -> exists ow, sinv ow s.
Proof.
  assert (Hgen : forall s0, (exists ow, sinv ow s0) -> forall s1, rtc sys_step s0 s1 -> exists ow, sinv ow s1).
  { intros s0 Hs0 s1 Hr. induction Hr as [|x y z [l Hxy] _ IH]; [done|]. apply IH.
    destruct Hs0 as [ow Ho]. destruct (sinv_do _ _ _ _ Ho Hxy) as (ow' & ? & _). eauto. }
  apply Hgen. exists []. apply sinv_start.
Qed.

(** ** One request at a time *)

Lemma run_obtain_ok ow m c p input r m' : minv ow m -> ow !! p = Some c ->
  run_obtain c (Some p) input m = (r, m') ->
  minv ow m' /\ cache m' = cache m /\ pools m' = pools m /\
  match r with Ok (Some i, _, _) => module_of i = c | _ => True end.
Proof.
  intros Hm Ho. unfold run_obtain. destruct (run_take (Some p) m) as [oi m1] eqn:E.
  assert (Hp1 : pools m1 = pools m).
  { unfold run_take in E. destruct (chans m !! p) as [[[|? ?] ?]|]; by injection E as <- <-. }
  apply (run_take_ok ow _ _ _ _ c) in E as (Hm1 & _ & _ & Hi & Hc); [|done|by intros ? [= <-]].
  destruct oi as [i|].
  - intros [= <- <-]. split; [done|]. split; [done|]. split; [done|]. by apply Hi.
  - destruct (run_instantiate c input m1) as [r1 m2] eqn:E2.
    assert (Hp2 : pools m2 = pools m1).
    { unfold run_instantiate in E2. destruct (InstantiateModule c input) as [[[? err] ?] ?].
      destruct err as [[?|?]|]; [destruct (negb _)| |]; by injection E2 as <- <-. }
    apply (run_instantiate_ok ow) in E2 as (Hm2 & _ & Hc2 & Hr); [|done].
    destruct r1 as [[[i|] o]|e]; intros [= <- <-];
      (split; [done|]; split; [congruence|]; split; [congruence|]); try done.
    apply Hr.
Qed.

Lemma return_total ow m name p i c : minv ow m -> pools m !! name = Some p -> ow !! p = Some c ->
  module_of i = c -> exists m', run_return (Some p) i m = Done m' /\ minv ow m' /\ cache m' = cache m.
Proof.
  intros Hm Hp Ho Hi. destruct (run_return (Some p) i m) as [m'|why] eqn:E.
  - exists m'. split; [done|]. by destruct (run_return_ok _ _ _ _ _ _ Hm Ho Hi E) as (? & _ & ?).
  - destruct (mi_pools _ _ Hm name p Hp) as (? & ch & _ & _ & Hch & Hcl).
    unfold run_return in E. rewrite Hch, Hcl in E. by destruct (_ <? _).
Qed.

Section Stateless.
Context (f : C -> string -> string).

(** The guests answer by direct memory, each a function of its input whatever
    it answered before, and start without an error. *)
Definition transforms : Prop := forall i input, exists printed i',
  run_direct i input = Done (Some (f (module_of i) input), printed, i').
Definition starts : Prop := forall c input, exists i out errout,
  InstantiateModule c input = (Some i, None, out, errout).

Definition answer (oc : option C) (name input : string) : result string string :=
  match oc with
  | Some c => Ok (f c input)
  | None => Err ("wasm: middleware " ++ name ++ " not registered")%string
  end.

Lemma run_answers ow m name input : transforms -> starts -> minv ow m ->
  exists m', Run name input m = Done (answer (cache m !! name) name input, m') /\
             minv ow m' /\ cache m' = cache m.
Proof.
  intros Ht Hs Hm. unfold Run. destruct (run_lookup name m) as [[c po]|] eqn:E.
  2: { unfold run_lookup in E. destruct (cache m !! name); [done|]. by exists m. }
  pose proof (run_lookup_ok _ _ _ _ _ Hm E) as Ho. unfold run_lookup in E.
  destruct (cache m !! name) as [c0|] eqn:Ec; [|done]. injection E as <- Epo.
  destruct po as [p|]; [|done].
  destruct (run_obtain c0 (Some p) input m) as [r m1] eqn:E1.
  pose proof (run_obtain_ok _ _ _ _ _ _ _ Hm Ho E1) as (Hm1 & Hc1 & Hp1 & Hr).
  assert (Hsome : exists i reused out, r = Ok (Some i, reused, out)).
  { unfold run_obtain in E1. destruct (run_take (Some p) m) as [[i|] m2]; [injection E1 as <- _; eauto|].
    unfold run_instantiate in E1. destruct (Hs c0 input) as (i & out & eo & Hi). rewrite Hi in E1.
    injection E1 as <- _. eauto. }
  destruct Hsome as (i & reused & out & ->).
  destruct (Ht i input) as (printed & i' & Hd). cbn beta iota. rewrite Hd. cbn [ebind]. cbn beta iota.
  apply run_direct_module in Hd. rewrite <- Hp1 in Epo.
  destruct (return_total _ _ name p i' c0 Hm1 Epo Ho) as (m2 & E2 & Hm2 & Hc2); [congruence|].
  rewrite E2. cbn [ebind]. exists m2. split; [simpl; by rewrite Hr|]. split; [done|congruence].
Qed.

End Stateless.


(** ** The answers *)














(** ** Progress *)









(** *** The function [Run] *)







(** ** Properties *)

(** C5. Pools are bounded and never mix modules: whatever requests and
    registrations interleave, the pool of a name holds at most ten instances,
    each an instance of the module now registered under that name, and no
    request that holds an instance will put it into the pool of another
    module. *)
Theorem pools_hold_registered_code s name p : rtc sys_step start s ->
  pools (mgr s) !! name = Some p ->
  exists c ch, cache (mgr s) !! name = Some c /\ chans (mgr s) !! p = Some ch /\
    lenZ (buf ch) <= pool_cap /\ Forall (fun i => module_of i = c) (buf ch) /\
    forall i out, WPut i (Some p) out ∈ threads s -> module_of i = c.
Proof.
  intros [ow [Hm Ht _]]%sinv_reachable Hp.
  destruct (mi_pools _ _ Hm name p Hp) as (c & ch & Hc & Ho & Hch & _).
  destruct (minv_chan _ _ _ _ Hm Hch) as (c' & Ho' & Hlen & _ & Hf).
  assert (c' = c) as -> by congruence.
  exists c, ch. split_and!; [done..|]. intros i out Hi%list_elem_of_In.
  apply (proj1 (List.Forall_forall _ _) Ht) in Hi. simpl in Hi. congruence.
Qed.

(** C34. Instances are accounted for: under every interleaving the instances
    that were created and not closed are those waiting in a pool, those in the
    hands of a request inside [Run], and one for each request that panicked -
    those are never closed or used again. *)
Theorem instances_accounted s : rtc sys_step start s ->
  opened (mgr s) = pooled (mgr s) + countZ holds (threads s) + countZ leaked (threads s).
Proof. intros [ow [_ _ Hc _]]%sinv_reachable. rewrite Hc, countZ_owns. lia. Qed.



(** C35. Which errors [Run] reports: that the name is not registered, and the
    failure of a new instance to start when the pool had none to reuse.  No
    error of a call into the guest is ever reported, and a request that fails
    leaves the manager as it was. *)
Theorem run_errors_exact name input m e m' :
  Run name input m = Done (Err e, m') <->
  m' = m /\
  ((cache m !! name = None /\ e = ("wasm: middleware " ++ name ++ " not registered")%string) \/
   exists c, cache m !! name = Some c /\ fst (run_take (pools m !! name) m) = None /\
     exists mod_ err out errout, InstantiateModule c input = (mod_, Some err, out, errout) /\
       match err with
       | ExitError code => code <> 0 /\ e = ("wasm: exited with code " ++ Itoa code ++ ": " ++ errout)%string
       | OtherError msg => e = ("wasm: execution failed: " ++ msg)%string
       end).
Proof.
  unfold Run, run_lookup. destruct (cache m !! name) as [c|] eqn:Ec.
  2: { split; [intros [= <- <-]; split; auto|]. intros [-> [[_ ->]|(c & ? & _)]]; done. }
  unfold run_obtain.
  assert (Htake : forall m1, run_take (pools m !! name) m = (None, m1) -> m1 = m).
  { unfold run_take. destruct (pools m !! name) as [p|]; [|by intros ? [= <-]].
    destruct (chans m !! p) as [[[|? ?] ?]|]; intros ? [= <-]; done. }
  destruct (run_take (pools m !! name) m) as [[i|] m1] eqn:E1; cbn [fst].
  { split; [|intros [_ [[? _]|(? & _ & ? & _)]]; done].
    destruct (run_direct i input) as [[[[o|] ?] i']|]; simpl; try done.
    by destruct (run_return _ _ _). }
  rewrite (Htake m1 eq_refl). clear E1 Htake. unfold run_instantiate.
  destruct (InstantiateModule c input) as [[[oi err] out] eo] eqn:Ei.
  assert (Hok : forall m2, (match oi with
      | Some i => let! st := run_direct i input in
          let '(out0, printed, i0) := st in
          match out0 with
          | Some outCopy => let! m3 := run_return (pools m !! name) i0 m2 in Done (Ok outCopy, m3)
          | None => Done (Ok (out ++ printed)%string, close_instance m2)
          end
      | None => Done (Ok out, m2) end) <> Done (Err e : result string string, m')).
  { intros m2. destruct oi as [i|]; [|done].
    destruct (run_direct i input) as [[[[o|] ?] i']|]; simpl; try done. by destruct (run_return _ _ _). }
  split.
  - destruct err as [[code|msg]|].
    + destruct (negb (code =? 0)) eqn:Ez.
      * intros [= <- <-]. split; [done|]. right. exists c. split; [done|]. split; [done|].
        exists oi, (ExitError code), out, eo. split; [done|]. split; [|done]. breflect. lia.
      * intros Hx. destruct (Hok (count_open (if oi is Some _ then 1 else 0) m)). by destruct oi.
    + intros [= <- <-]. split; [done|]. right. exists c. split; [done|]. split; [done|].
      by exists oi, (OtherError msg), out, eo.
    + intros Hx. destruct (Hok (count_open (if oi is Some _ then 1 else 0) m)). by destruct oi.
  - intros [-> [[? _]|(c' & Hc & _ & oi' & err' & out' & eo' & Hi & He)]]; [done|].
    assert (c' = c) as -> by congruence. rewrite Ei in Hi. injection Hi as <- -> <- <-.
    destruct err' as [code|msg]; [|by rewrite He].
    destruct He as [Hz ->]. by rewrite (proj2 (Z.eqb_neq _ _) Hz).
Qed.

End Laws.

(** *** Witnesses and examples *)

(** A runtime whose guests put their code in front of their input. *)
Record echo := { echo_code : string; echo_memory : string }.

#[export] Instance echo_engine : Engine string echo := {
  CompileModule bytes := if String.eqb bytes "" then Err "empty module"%string else Ok bytes;
  InstantiateModule c stdin := (Some {| echo_code := c; echo_memory := "" |}, None, ""%string, ""%string);
  ExportedFunction i f := String.eqb f "allocate" || String.eqb f "transform";
  Call i f args :=
    (Ok [0], ""%string,
     if String.eqb f "transform"
     then {| echo_code := echo_code i; echo_memory := (echo_code i ++ ":" ++ echo_memory i)%string |}
     else i);
  has_memory i := true;
  MemoryWrite i p s := (true, {| echo_code := echo_code i; echo_memory := s |});
  MemoryRead i p n := Some (echo_memory i);
}.

#[export] Program Instance echo_laws : EngineLaws string echo := { module_of := echo_code }.
Next Obligation. by intros c stdin i err out errout [= <- <- <- <-]. Qed.
Next Obligation. intros i f args res out i' [= <- <- <-]. by destruct (String.eqb f "transform"). Qed.
Next Obligation. by intros i p s ok i' [= <- <-]. Qed.

Definition echo_answer (c input : string) : string := (c ++ ":" ++ input)%string.

Lemma echo_transforms : transforms echo_answer.
Proof. intros i input. by repeat eexists. Qed.
Lemma echo_starts : @starts string echo _.
Proof. intros c input. by repeat eexists. Qed.

(** Two requests, and a new version registered while one of them still runs
    the old one. *)
Definition busy_schedule : list label :=
  [LRegister "auth" "v1"; LArrive "auth" "a"; LStep 0; LStep 0; LStep 0; LStep 0; LArrive "auth" "b"; LStep 1;
   LStep 0; LStep 0; LStep 1].

Definition after (ls : list label) : system (C := string) (I := echo) := default start (sys_run ls start).
Definition busy : system := after busy_schedule.

Lemma run_reachable ls (s s' : system (C := string) (I := echo)) : sys_run ls s = Some s' -> rtc sys_step s s'.
Proof.
  revert s. induction ls as [|l ls IH]; intros s; simpl; [by intros [= <-]|].
  destruct (sys_do l s) as [s1|] eqn:E; [|done]. intros Hr. eapply rtc_l; [by exists l|by apply IH].
Qed.

Lemma busy_runs_reachable : rtc sys_step start busy.
Proof. apply (run_reachable busy_schedule). vm_compute. reflexivity. Qed.

Lemma pools_hold_registered_code_witness :
  exists c ch, cache (mgr busy) !! "auth"%string = Some c /\ chans (mgr busy) !! 0%nat = Some ch /\
    lenZ (buf ch) <= pool_cap /\ Forall (fun i => module_of i = c) (buf ch) /\
    forall i out, WPut i (Some 0%nat) out ∈ threads busy -> module_of i = c.
Proof. apply (pools_hold_registered_code busy "auth" 0 busy_runs_reachable). vm_compute. reflexivity. Defined.



Lemma instances_accounted_witness :
  opened (mgr busy) = pooled (mgr busy) + countZ holds (threads busy) + countZ leaked (threads busy) /\
  opened (mgr busy) = 1.
Proof. split; [exact (instances_accounted busy busy_runs_reachable)|vm_compute; reflexivity]. Defined.



(** A registration closes the pool a running request will return its instance
    to: the request panics with its answer in hand, and the instance is never
    closed. *)
Example register_panics_running_request :
  let s := after [LRegister "auth" "v1"; LArrive "auth" "a"; LStep 0; LStep 0; LStep 0; LStep 0; LStep 0;
                  LRegister "auth" "v2"; LStep 0] in
  threads s = [WLost "send on closed channel"] /\ opened (mgr s) = 1 /\ pooled (mgr s) = 0.
Proof. vm_compute. split; [reflexivity|]. split; reflexivity. Qed.

(** A runtime of awkward guests: one traps in [transform], one has no memory,
    one exits with an error, and the others print what they read. *)
Record odd := { odd_code : string }.

#[export] Instance odd_engine : Engine string odd := {
  CompileModule bytes := Ok bytes;
  InstantiateModule c stdin :=
    if String.eqb c "exit" then (None, Some (ExitError 3), ""%string, "denied"%string)
    else (Some {| odd_code := c |}, None,
          if String.eqb c "print" then stdin else ""%string, ""%string);
  ExportedFunction i f := negb (String.eqb (odd_code i) "print");
  Call i f args :=
    (if String.eqb (odd_code i) "trap" && String.eqb f "transform"
     then Err "wasm error: unreachable"%string else Ok [0], ""%string, i);
  has_memory i := negb (String.eqb (odd_code i) "nomem");
  MemoryWrite i p s := (true, i);
  MemoryRead i p n := None;
}.

Definition odd_run (code input : string) : option (exec (result string string)) :=
  match Register "m" code (new_manager (I := odd)) with
  | Ok m => Some (let! st := Run "m" input m in Done (fst st))
  | Err _ => None
  end.

(** The trap of a guest is no error: its answer is empty, which a caller that
    waits for the word [deny] takes for a permission. *)
Example transform_trap_is_silent : odd_run "trap" "x" = Some (Done (Ok ""%string)).
Proof. vm_compute. reflexivity. Qed.

Example missing_memory_panics : odd_run "nomem" "x" = Some (Panic "nil memory").
Proof. vm_compute. reflexivity. Qed.

Example printed_output_is_returned :
  odd_run "print" "x" = Some (Done (Ok "x"%string)) /\
  odd_run "exit" "x" = Some (Done (Err "wasm: exited with code 3: denied"%string)).
Proof. vm_compute. split; reflexivity. Qed.

Lemma run_errors_exact_witness :
  match Register "m" "exit" (new_manager (I := odd)) with
  | Ok m => exists e, Run "m" "x" m = Done (Err e, m)
  | Err _ => False
  end.
Proof.
  cbn. exists "wasm: exited with code 3: denied"%string.
  apply run_errors_exact. split; [reflexivity|]. right. exists "exit"%string.
  split; [vm_compute; reflexivity|]. split; [vm_compute; reflexivity|].
  exists None, (ExitError 3), ""%string, "denied"%string. split; [reflexivity|]. split; [lia|].
  vm_compute. reflexivity.
Defined.

(** After a failed start of the runtime the next caller gets no manager and no
    error. *)
Example second_start_hides_failure :
  let g := {| once_done := false; globalManager := None |} in
  let '(m, e, g) := GetMiddlewareManager (C := string) (I := odd) (Err "no WASI"%string) g in
  (m, e) = (None, Some "wasm: failed to instantiate WASI: no WASI"%string) /\
  fst (GetMiddlewareManager (Err "no WASI"%string) g) = (None, None).
Proof. split; reflexivity. Qed.

Example memory_limit : memLimitPages = 1024.
Proof. reflexivity. Qed.

End Wasm.
