(* ===== verification/Replay.v ===== *)
(** * Traffic replay (pkg/proxy/replay.go)

    A log of requests, one JSON object per line, is run through one WASM
    middleware; the result counts the lines and summarises the latencies. *)

From stdpp Require Import sorting.
From S2P Require Import Prelude GoStrings Encoding Json Codec Http Wasm.
Import Codec.
Open Scope Z_scope.

Module Replay.
Import Http(Reader, r_data, r_err).

Record ReplayRequest := {
  rq_Method : string;
  rq_Path : string;
  rq_Headers : gmap string (list string);
  rq_BodyBase64 : string;
}.

(** [json.Unmarshal(line, &req)] into a zero request. *)
Definition decode_request (line : string) : option ReplayRequest :=
  v ← json_parse line;
  es ← obj_entries v;
  m ← field decode "method" ""%string es;
  p ← field decode "path" ""%string es;
  h ← field decode "headers" (∅ : gmap string (list string)) es;
  b ← field decode "body_base64" ""%string es;
  Some {| rq_Method := m; rq_Path := p; rq_Headers := h; rq_BodyBase64 := b |}.

Record ReplayStats := {
  Total : Z;
  Successes : Z;
  Failures : Z;
  MinLatency : Z;
  MaxLatency : Z;
  AvgLatency : Z;
  P50Latency : Z;
  P90Latency : Z;
  P99Latency : Z;
}.

Definition counts (total successes failures : Z) : ReplayStats :=
  {| Total := total; Successes := successes; Failures := failures; MinLatency := 0; MaxLatency := 0;
     AvgLatency := 0; P50Latency := 0; P90Latency := 0; P99Latency := 0 |}.

(** ** The lines of the log: [bufio.Scanner] with its default buffer *)

Definition MaxScanTokenSize : Z := 64 * 1024.

Definition drop_cr (l : string) : string := TrimSuffix l (String (of_byte 13) "").

(** The pieces between newlines, the last one only when it is not empty. *)
Definition pieces (s : string) : list string :=
  let parts := Split (of_byte 10) s in
  if String.eqb (List.last parts "") "" then removelast parts else parts.

(** A piece that fills the buffer stops the scan. *)
Fixpoint tokens (end_ : option string) (ps : list string) : list string * option string :=
  match ps with
  | [] => ([], end_)
  | p :: ps' =>
      if MaxScanTokenSize <=? slen p then ([], Some "bufio.Scanner: token too long"%string)
      else let '(ls, e) := tokens end_ ps' in (drop_cr p :: ls, e)
  end.

Definition scan (r : Reader) : list string * option string := tokens (r_err r) (pieces (r_data r)).

(** ** The summary *)

(** [latencies[n]]. *)
Definition at_index (l : list Z) (n : Z) : exec Z :=
  match (if n <? 0 then None else l !! Z.to_nat n) with
  | Some x => Done x
  | None => Panic "index out of range"
  end.

Definition quantile (l : list Z) (percent : Z) : exec Z :=
  at_index l (Z.quot (i64 (lenZ l * percent)) 100).

Definition summarize (successes failures : Z) (latencies : list Z) : exec ReplayStats :=
  let total := i64 (successes + failures) in
  if total =? 0 then Done (counts 0 0 0) else
  if lenZ latencies <=? 0 then Done (counts total successes failures) else
  let sorted := merge_sort Z.le latencies in
  let sum := fold_left (fun s lat => i64 (s + lat)) sorted 0 in
  let! min := at_index sorted 0 in
  let! max := at_index sorted (lenZ sorted - 1) in
  let! p50 := quantile sorted 50 in
  let! p90 := quantile sorted 90 in
  let! p99 := quantile sorted 99 in
  Done {| Total := total; Successes := successes; Failures := failures; MinLatency := min;
          MaxLatency := max; AvgLatency := i64 (Z.quot sum (lenZ sorted)); P50Latency := p50;
          P90Latency := p90; P99Latency := p99 |}.

(** ** The replay *)

Section Replay.
Context {C I : Type} `{Wasm.Engine C I}.
Context (clock : nat -> Z).

Record progress := {
  manager : Wasm.MiddlewareManager C I;
  ticks : nat;
  latencies : list Z;
  successes : Z;
  failures : Z;
}.

Definition failed (st : progress) : progress :=
  {| manager := manager st; ticks := ticks st; latencies := latencies st; successes := successes st;
     failures := i64 (failures st + 1) |}.

(** One line: decode it, and time one run of its body. *)
Definition replay_line (mwName line : string) (st : progress) : exec progress :=
  if slen line =? 0 then Done st else
  match decode_request line with
  | None => Done (failed st)
  | Some req =>
      match b64_decode false (rq_BodyBase64 req) with
      | None => Done (failed st)
      | Some body =>
          let! ran := Wasm.Run mwName body (manager st) in
          let elapsed := i64 (clock (S (ticks st)) - clock (ticks st)) in
          let ticks' := S (S (ticks st)) in
          match ran with
          | (Err _, m) => Done {| manager := m; ticks := ticks'; latencies := latencies st;
                                  successes := successes st; failures := i64 (failures st + 1) |}
          | (Ok _, m) => Done {| manager := m; ticks := ticks'; latencies := latencies st ++ [elapsed];
                                 successes := i64 (successes st + 1); failures := failures st |}
          end
      end
  end.

Fixpoint replay_lines (mwName : string) (lines : list string) (st : progress) : exec progress :=
  match lines with
  | [] => Done st
  | line :: lines' => let! st := replay_line mwName line st in replay_lines mwName lines' st
  end.

(** [init] is the answer of the start of the WASM runtime; the clock is read
    once for the name of the module. *)
Definition ReplayTraffic (file : result string Reader) (init : result string unit)
    (g : Wasm.global) (wasmBytes : string) : exec (result string ReplayStats) :=
  match file with
  | Err e => Done (Err ("failed to open log file: " ++ e)%string)
  | Ok logFile =>
      match Wasm.GetMiddlewareManager init g with
      | (_, Some e, _) => Done (Err ("failed to initialize WASM manager: " ++ e)%string)
      | (None, None, _) => Panic "nil manager"
      | (Some m, None, _) =>
          let mwName := ("replay-temp-" ++ Itoa (clock 0))%string in
          match Wasm.Register mwName wasmBytes m with
          | Err e => Done (Err ("failed to compile WASM: " ++ e)%string)
          | Ok m =>
              let '(lines, scan_err) := scan logFile in
              let! st := replay_lines mwName lines
                           {| manager := m; ticks := 1; latencies := []; successes := 0; failures := 0 |} in
              match scan_err with
              | Some e => Done (Err ("error reading log file: " ++ e)%string)
              | None =>
                  let! stats := summarize (successes st) (failures st) (latencies st) in
                  Done (Ok stats)
              end
          end
      end
  end.

End Replay.

(** ** Lemmas *)

Lemma sorted_of l : StronglySorted Z.le (merge_sort Z.le l).
Proof. apply StronglySorted_merge_sort; apply _. Qed.

Lemma sorted_perm l : merge_sort Z.le l ≡ₚ l.
Proof. apply merge_sort_Permutation. Qed.

Lemma length_sorted l : lenZ (merge_sort Z.le l) = lenZ l.
Proof. unfold lenZ. by rewrite (Permutation_length (sorted_perm l)). Qed.

Lemma sorted_unique l k : l ≡ₚ k -> merge_sort Z.le l = merge_sort Z.le k.
Proof.
  intros Hp. eapply (StronglySorted_unique Z.le); [apply sorted_of..|].
  by rewrite !sorted_perm.
Qed.

Lemma at_index_in l n : 0 <= n < lenZ l -> exists x, at_index l n = Done x /\ l !! Z.to_nat n = Some x.
Proof.
  unfold at_index, lenZ. intros Hn. rewrite (proj2 (Z.ltb_ge n 0)) by lia.
  destruct (lookup_lt_is_Some_2 l (Z.to_nat n)) as [x Hx]; [lia|]. exists x. by rewrite Hx.
Qed.

(** Elements of a sorted list come in the order of their positions. *)
Lemma sorted_le l i j x y : StronglySorted Z.le l ->
  l !! i = Some x -> l !! j = Some y -> (i <= j)%nat -> x <= y.
Proof.
  intros Hs. revert i j. induction Hs as [|a l Hs IH Hf]; intros i j Hx Hy Hij; [done|].
  destruct i as [|i], j as [|j]; simpl in *; simplify_eq; try lia.
  - apply (Forall_lookup_1 _ _ _ _ Hf Hy).
  - eapply IH; eauto. lia.
Qed.

Lemma sum_wraps l acc : in_i64 acc -> fold_left (fun s x => i64 (s + x)) l acc = i64 (acc + sumZ l).
Proof.
  revert acc. induction l as [|x l IH]; intros acc Ha; simpl; [by rewrite Z.add_0_r, i64_id|].
  rewrite IH by apply i64_range. change (sumZ (x :: l)) with (x + sumZ l). unfold i64. f_equal.
  replace ((acc + x + 2 ^ 63) mod 2 ^ 64 - 2 ^ 63 + sumZ l + 2 ^ 63)
    with ((acc + x + 2 ^ 63) mod 2 ^ 64 + sumZ l) by lia.
  rewrite Z.add_mod_idemp_l by lia. f_equal. lia.
Qed.

Lemma sum_bounds l lo hi : Forall (fun x => lo <= x <= hi) l ->
  lo * lenZ l <= sumZ l <= hi * lenZ l.
Proof.
  induction 1 as [|x l Hx _ IH]; [unfold lenZ, sumZ; simpl; lia|].
  rewrite lenZ_cons. change (sumZ (x :: l)) with (x + sumZ l). rewrite !Z.mul_add_distr_l. lia.
Qed.

Lemma mean_between l mn mx : 0 < lenZ l -> Forall (fun x => mn <= x <= mx) l -> 0 <= sumZ l < 2 ^ 63 ->
  mn <= i64 (Z.quot (fold_left (fun s x => i64 (s + x)) l 0) (lenZ l)) <= mx.
Proof.
  intros Hl Hf Hs. pose proof (sum_bounds l mn mx Hf) as Hb.
  rewrite sum_wraps by (unfold in_i64; lia). rewrite Z.add_0_l, (i64_id (sumZ l)) by (unfold in_i64; lia).
  rewrite Z.quot_div_nonneg by lia.
  assert (0 <= sumZ l / lenZ l <= sumZ l).
  { split; [apply Z.div_pos; lia|]. apply Z.div_le_upper_bound; nia. }
  rewrite i64_id by (unfold in_i64; lia).
  split; [apply Z.div_le_lower_bound; lia|apply Z.div_le_upper_bound; lia].
Qed.

(** ** Properties *)

(** C40. The summary is well ordered: for latencies that are not negative and
    whose sum fits in a machine integer no index is out of range, the shortest
    latency, the three quantiles and the longest come in this order, the mean
    lies between the extremes, and each quantile is a latency that was
    measured. *)
Theorem summary_ordered s f lats : lats <> [] -> in_i64 (s + f) -> 0 < s + f ->
  Forall (Z.le 0) lats -> sumZ lats < 2 ^ 63 -> lenZ lats * 99 < 2 ^ 63 ->
  exists st, summarize s f lats = Done st /\
    MinLatency st <= P50Latency st <= P90Latency st /\ P90Latency st <= P99Latency st <= MaxLatency st /\
    MinLatency st <= AvgLatency st <= MaxLatency st /\
    P50Latency st ∈ lats /\ P90Latency st ∈ lats /\ P99Latency st ∈ lats.
Proof.
  intros Hne Hi Hpos Hnn Hsum Hlen. unfold summarize.
  set (l := merge_sort Z.le lats).
  assert (Hl : 0 < lenZ lats) by (destruct lats; [done|rewrite lenZ_cons; pose proof (lenZ_nonneg lats); lia]).
  rewrite i64_id by done. rewrite (proj2 (Z.eqb_neq (s + f) 0)) by lia.
  rewrite (proj2 (Z.leb_gt _ _)) by lia.
  pose proof (sorted_of lats) as Hs. fold l in Hs. pose proof (length_sorted lats) as Hll. fold l in Hll.
  assert (Hq : forall n, 0 <= n <= 99 -> 0 <= Z.quot (i64 (lenZ l * n)) 100 < lenZ l).
  { intros n Hn. rewrite i64_id by (unfold in_i64; nia).
    rewrite Z.quot_div_nonneg by nia. split; [apply Z.div_pos; nia|]. apply Z.div_lt_upper_bound; nia. }
  destruct (at_index_in l 0) as (mn & Emn & Hmn); [lia|].
  destruct (at_index_in l (lenZ l - 1)) as (mx & Emx & Hmx); [lia|].
  destruct (at_index_in l _ (Hq 50 ltac:(lia))) as (p50 & E50 & H50).
  destruct (at_index_in l _ (Hq 90 ltac:(lia))) as (p90 & E90 & H90).
  destruct (at_index_in l _ (Hq 99 ltac:(lia))) as (p99 & E99 & H99).
  unfold quantile. rewrite Emn, Emx, E50, E90, E99. cbn [ebind].
  eexists. split; [reflexivity|]. cbn [MinLatency MaxLatency AvgLatency P50Latency P90Latency P99Latency].
  assert (Hord : forall i j x y, l !! Z.to_nat i = Some x -> l !! Z.to_nat j = Some y -> i <= j -> x <= y).
  { intros i j x y Hx Hy Hij. eapply (sorted_le l _ _ _ _ Hs Hx Hy). lia. }
  assert (Hmono : forall a b, 0 <= a <= b -> b <= 99 ->
            Z.quot (i64 (lenZ l * a)) 100 <= Z.quot (i64 (lenZ l * b)) 100).
  { intros a b Hab Hb. rewrite !i64_id by (unfold in_i64; nia). rewrite !Z.quot_div_nonneg by nia.
    apply Z.div_le_mono; nia. }
  assert (Hin : forall i x, l !! i = Some x -> x ∈ lats).
  { intros i x Hx. rewrite <- (sorted_perm lats). by eapply list_elem_of_lookup_2. }
  assert (Hsumeq : sumZ l = sumZ lats) by (by rewrite (sorted_perm lats : l ≡ₚ lats)).
  destruct (mean_between l mn mx) as [Ha1 Ha2]; [lia| |rewrite Hsumeq; split; [by apply sumZ_nonneg|done]|].
  { apply Forall_lookup_2. intros i x Hx. pose proof (lookup_lt_Some _ _ _ Hx) as Hlt.
    split; [apply (sorted_le l _ _ _ _ Hs Hmn Hx); lia|apply (sorted_le l _ _ _ _ Hs Hx Hmx); unfold lenZ; lia]. }
  split; [split; eapply Hord; eauto; [apply Hq; lia|apply Hmono; lia]|].
  split; [split; eapply Hord; eauto; [apply Hmono; lia|pose proof (Hq 99 ltac:(lia)); lia]|].
  split; [by split|]. split; [by eapply Hin|]. split; by eapply Hin.
Qed.

(** The summary depends on the latencies only as a multiset: measuring
    the same latencies in another order gives the same statistics. *)
Theorem summary_order_independent s f lats lats' : lats ≡ₚ lats' ->
  summarize s f lats = summarize s f lats'.
Proof.
  intros Hp. unfold summarize. rewrite (sorted_unique _ _ Hp).
  unfold lenZ. by rewrite (Permutation_length Hp).
Qed.

(** *** What a replay counts *)

Definition nonempty (line : string) : bool := negb (slen line =? 0).
Definition valid_line (line : string) : bool :=
  nonempty line &&
  match decode_request line with
  | Some req => if b64_decode false (rq_BodyBase64 req) is Some _ then true else false
  | None => false
  end.

Section Counts.
Context {C I : Type} `{Wasm.EngineLaws C I} (f : C -> string -> string) (clock : nat -> Z).
Context (Ht : Wasm.transforms f) (Hs : Wasm.starts).

(** What holds after some lines: the module is still there, and every line was
    counted once. *)
Record counted (ow : list C) (name : string) (c : C) (lines : list string) (st : progress) : Prop := {
  ct_mgr : Wasm.minv ow (manager st);
  ct_mod : Wasm.cache (manager st) !! name = Some c;
  ct_ok : successes st = countZ valid_line lines;
  ct_bad : failures st = countZ (fun l => nonempty l && negb (valid_line l)) lines;
  ct_lat : lenZ (latencies st) = countZ valid_line lines;
}.

Lemma replay_line_counted ow name c lines line st :
  lenZ lines + 1 < 2 ^ 63 -> counted ow name c lines st ->
  exists st', replay_line clock name line st = Done st' /\ counted ow name c (lines ++ [line]) st'.
Proof.
  intros Hlen [Hm Hc Hok Hbad Hlat]. unfold replay_line.
  pose proof (countZ_le valid_line lines). pose proof (countZ_nonneg valid_line lines).
  pose proof (countZ_le (fun l => nonempty l && negb (valid_line l)) lines).
  pose proof (countZ_nonneg (fun l => nonempty l && negb (valid_line l)) lines).
  assert (Hstep : forall st', Wasm.minv ow (manager st') -> Wasm.cache (manager st') !! name = Some c ->
    successes st' = successes st + (if valid_line line then 1 else 0) ->
    failures st' = failures st + (if nonempty line && negb (valid_line line) then 1 else 0) ->
    lenZ (latencies st') = lenZ (latencies st) + (if valid_line line then 1 else 0) ->
    counted ow name c (lines ++ [line]) st').
  { intros st' ? ? ? ? ?. constructor; rewrite ?countZ_app, ?countZ_one; auto; lia. }
  destruct (slen line =? 0) eqn:E0.
  { exists st. split; [done|]. apply Hstep; auto; unfold valid_line, nonempty; rewrite E0; simpl; lia. }
  assert (Hn : nonempty line = true) by (unfold nonempty; by rewrite E0).
  assert (Hbadline : valid_line line = false ->
    counted ow name c (lines ++ [line]) (failed st)).
  { intros Hv. apply Hstep; auto; simpl; rewrite ?Hv, ?Hn; cbn [andb negb]; try lia.
    rewrite i64_id by (unfold in_i64; lia). lia. }
  destruct (decode_request line) as [req|] eqn:Ed.
  2: { exists (failed st). split; [done|]. apply Hbadline. unfold valid_line. rewrite Ed. apply andb_false_r. }
  destruct (b64_decode false (rq_BodyBase64 req)) as [body|] eqn:Eb.
  2: { exists (failed st). split; [done|]. apply Hbadline. unfold valid_line. rewrite Ed, Eb. apply andb_false_r. }
  assert (Hv : valid_line line = true) by (unfold valid_line; by rewrite Hn, Ed, Eb).
  destruct (Wasm.run_answers f ow (manager st) name body Ht Hs Hm) as (m' & Hr & Hm' & Hc').
  rewrite Hr, Hc. cbn [ebind Wasm.answer]. eexists. split; [reflexivity|].
  apply Hstep; simpl; rewrite ?Hv, ?Hn; cbn [andb negb]; auto; try lia; try congruence.
  - rewrite i64_id by (unfold in_i64; lia). lia.
  - rewrite lenZ_app. unfold lenZ at 2. simpl. lia.
Qed.

Lemma replay_lines_counted ow name c : forall rest lines st,
  lenZ (lines ++ rest) < 2 ^ 63 -> counted ow name c lines st ->
  exists st', replay_lines clock name rest st = Done st' /\ counted ow name c (lines ++ rest) st'.
Proof.
  induction rest as [|line rest IH]; intros lines st Hlen Hc; [rewrite app_nil_r; eauto|].
  rewrite lenZ_app, lenZ_cons in Hlen. pose proof (lenZ_nonneg rest).
  destruct (replay_line_counted ow name c lines line st) as (st1 & E1 & Hc1); [lia|done|].
  cbn [replay_lines]. rewrite E1. cbn [ebind].
  destruct (IH (lines ++ [line]) st1) as (st2 & E2 & Hc2); [rewrite !lenZ_app, lenZ_cons; unfold lenZ at 2; simpl; lia|done|].
  exists st2. split; [done|]. by rewrite <- app_assoc in Hc2.
Qed.

Lemma summarize_counts s k lats : 0 <= s -> 0 <= k -> s + k < 2 ^ 63 -> s = lenZ lats ->
  lenZ lats * 99 < 2 ^ 63 ->
  exists st, summarize s k lats = Done st /\ Total st = s + k /\ Successes st = s /\ Failures st = k.
Proof.
  intros Hs0 Hk Hsum -> Hlen. unfold summarize. rewrite i64_id by (unfold in_i64; lia).
  destruct (Z.eqb_spec (lenZ lats + k) 0) as [?|_]; [eexists; split; [done|simpl; lia]|].
  destruct (Z.leb_spec (lenZ lats) 0); [eexists; split; [done|simpl; lia]|].
  rewrite length_sorted.
  assert (Hat : forall n, 0 <= n < lenZ lats -> exists x, at_index (merge_sort Z.le lats) n = Done x).
  { intros n Hn. destruct (at_index_in (merge_sort Z.le lats) n) as (x & ? & _); [by rewrite length_sorted|eauto]. }
  assert (Hq : forall n, 0 <= n <= 99 -> exists x, quantile (merge_sort Z.le lats) n = Done x).
  { intros n Hn. apply Hat. rewrite length_sorted, i64_id by (unfold in_i64; nia).
    rewrite Z.quot_div_nonneg by nia. split; [apply Z.div_pos; nia|]. apply Z.div_lt_upper_bound; nia. }
  destruct (Hat 0) as [? ->]; [lia|]. destruct (Hat (lenZ lats - 1)) as [? ->]; [lia|].
  destruct (Hq 50) as [? ->]; [lia|]. destruct (Hq 90) as [? ->]; [lia|].
  destruct (Hq 99) as [? ->]; [lia|]. cbn [ebind]. eexists. split; [done|]. done.
Qed.

(** What a replay reports: with a log that scans without an error and a
    module that compiles, starts and answers, the replay ends without a panic;
    every line that is not empty is counted, as a success exactly when it is a
    JSON request whose body is valid base64. *)
Theorem replay_counts logFile wasmBytes c lines :
  Wasm.CompileModule wasmBytes = Ok c -> scan logFile = (lines, None) -> lenZ lines * 99 < 2 ^ 63 ->
  exists stats,
    ReplayTraffic clock (Ok logFile) (Ok tt) {| Wasm.once_done := false; Wasm.globalManager := None |} wasmBytes
      = Done (Ok stats) /\
    Total stats = countZ nonempty lines /\ Successes stats = countZ valid_line lines /\
    Failures stats = countZ (fun l => nonempty l && negb (valid_line l)) lines.
Proof.
  intros Hc Hscan Hlen. unfold ReplayTraffic, Wasm.GetMiddlewareManager. cbn [Wasm.once_done].
  set (name := ("replay-temp-" ++ Itoa (clock 0))%string).
  destruct (Wasm.Register name wasmBytes Wasm.new_manager) as [m|e] eqn:Er.
  2: { unfold Wasm.Register in Er. by rewrite Hc in Er. }
  destruct (Wasm.register_ok _ _ _ _ _ Wasm.minv_new Er) as (c' & Hc' & Hm & Hcache & _).
  rewrite Hc in Hc'. injection Hc' as <-. rewrite Hscan.
  pose proof (lenZ_nonneg lines).
  destruct (replay_lines_counted ([] ++ [c]) name c lines []
      {| manager := m; ticks := 1; latencies := []; successes := 0; failures := 0 |}) as (st & Est & Hst).
  { simpl. lia. }
  { constructor; simpl; try done. by rewrite Hcache, lookup_insert_eq. }
  rewrite Est. cbn [ebind]. destruct Hst as [_ _ Hok Hbad Hlat]. simpl app in *.
  assert (Hsplit : countZ valid_line lines + countZ (fun l => nonempty l && negb (valid_line l)) lines
                   = countZ nonempty lines).
  { clear. induction lines as [|l lines IH]; [done|]. rewrite !countZ_cons.
    assert (valid_line l = true -> nonempty l = true) by (unfold valid_line; destruct (nonempty l); done).
    destruct (nonempty l), (valid_line l); simpl; lia. }
  pose proof (countZ_le nonempty lines).
  destruct (summarize_counts (successes st) (failures st) (latencies st)) as (stats & -> & Hto & Hsu & Hfa);
    rewrite ?Hok, ?Hbad, ?Hlat; try apply countZ_nonneg; try done; try lia.
  { pose proof (countZ_le valid_line lines). lia. }
  cbn [ebind]. exists stats. split; [done|]. rewrite Hto, Hsu, Hfa, Hok, Hbad. lia.
Qed.

End Counts.

(** *** Witnesses and examples *)

#[local] Existing Instance Wasm.echo_engine.
#[local] Existing Instance Wasm.echo_laws.
#[local] Existing Instance Wasm.odd_engine.

Definition sample_latencies : list Z := [5; 1; 9; 3; 7; 2; 8; 4; 6; 10].

Lemma summary_ordered_witness :
  exists st, summarize 10 2 sample_latencies = Done st /\
    MinLatency st <= P50Latency st <= P90Latency st /\ P90Latency st <= P99Latency st <= MaxLatency st /\
    MinLatency st <= AvgLatency st <= MaxLatency st /\
    P50Latency st ∈ sample_latencies /\ P90Latency st ∈ sample_latencies /\ P99Latency st ∈ sample_latencies.
Proof.
  apply (summary_ordered 10 2 sample_latencies); [done|split; vm_compute; congruence|reflexivity| |reflexivity|reflexivity].
  unfold sample_latencies. repeat constructor; lia.
Defined.

Lemma summary_order_independent_witness :
  summarize 10 0 sample_latencies = summarize 10 0 (rev sample_latencies).
Proof. apply summary_order_independent. apply Permutation_rev. Defined.

(** A request, an empty line, a line that is not JSON and a body that is not
    base64. *)
Definition nl : string := String (of_byte 10) "".
Definition body_line (b64 : string) : string := "{" ++ quote "body_base64" ++ ":" ++ quote b64 ++ "}".
Definition sample_log : Reader :=
  Http.string_reader (body_line "aGk=" ++ nl ++ nl ++ "oops" ++ nl ++ body_line "?" ++ nl ++ body_line "").
Definition sample_lines : list string := fst (scan sample_log).

Lemma replay_counts_witness :
  exists stats,
    ReplayTraffic (C := string) (I := Wasm.echo) (fun n => Z.of_nat n * 7) (Ok sample_log) (Ok tt)
      {| Wasm.once_done := false; Wasm.globalManager := None |} "v1" = Done (Ok stats) /\
    Total stats = 4 /\ Successes stats = 2 /\ Failures stats = 2.
Proof.
  destruct (replay_counts Wasm.echo_answer (fun n => Z.of_nat n * 7) Wasm.echo_transforms Wasm.echo_starts
              sample_log "v1" "v1" sample_lines) as (stats & Hs & H1 & H2 & H3);
    [vm_compute; reflexivity..|].
  exists stats. split; [exact Hs|]. split; [rewrite H1|split; [rewrite H2|rewrite H3]]; vm_compute; reflexivity.
Defined.

(** A guest that traps is a success: its error is not reported. *)
Example trap_is_a_success :
  match ReplayTraffic (C := string) (I := Wasm.odd) (fun n => Z.of_nat n * 7) (Ok sample_log) (Ok tt)
          {| Wasm.once_done := false; Wasm.globalManager := None |} "trap" with
  | Done (Ok stats) => Successes stats = 2 /\ P99Latency stats = 7
  | _ => False
  end.
Proof. vm_compute. split; reflexivity. Qed.

(** A line of sixty-four kilobytes ends the replay with an error: nothing is
    reported about the lines before it. *)
Example long_line_fails :
  let log := Http.string_reader (body_line "aGk=" ++ nl ++ Repeat "x" (Z.to_nat 65536)) in
  ReplayTraffic (C := string) (I := Wasm.odd) (fun n => Z.of_nat n * 7) (Ok log) (Ok tt)
    {| Wasm.once_done := false; Wasm.globalManager := None |} "print"
  = Done (Err "error reading log file: bufio.Scanner: token too long"%string).
Proof. vm_compute. reflexivity. Qed.

End Replay.
