(* ===== verification/Gateway.v ===== *)
(** * The request pipeline (pkg/proxy/handler.go: [ServeHTTP])

    One request, from its arrival to the last line of [ServeHTTP], as a program
    in a monad of its own: the state is the handler, the response writer, the
    request, the trace of what was done to the outside world, and the pending
    deferred calls; a stage goes on, returns from [ServeHTTP], or panics.  The
    outside world is the record [World]: the clock, random draws, the tracer,
    the schema registry, the queue, the plugins, and the backends. *)

From S2P Require Import Prelude GoStrings GoFloat Json Types RateLimit Balancer Canary Breaker.
From S2P Require Import Backpressure Cache Token Access Policy Validation Transform Codec Config.
From S2P Require Import Http Url Ai OpenApi Handler Proxy Wasm.
Open Scope Z_scope.

Module Gateway.
Import Http.
Import Handler(
  Platform, p_env, GatewayHandler, Transport, routes, wasm, authToken, limits, bal, res,
  metricsTracker, apiKeys, policyVersion, revokedSessions, canaryStats, policySchema,
  tenantPolicies, circuitBreakers, logs, semanticCaches, accessLoggers, responseCaches,
  transports, limiters, set_responseCaches, set_limiters,
  set_wasm, set_limits, set_bal, set_res, set_metricsTracker, set_tenantPolicies,
  set_canaryStats, set_circuitBreakers, set_logs, IncRequest, IncError, match_route).

(** ** The outside world *)

Record Span := { sp_TraceID : string; sp_SpanID : string }.

(** A native plugin sees the request and may change it; on the response it may
    write to the client and change the headers and the body. *)
Record Plugin := {
  OnRequest : Request -> result string (option Response) * Request;
  OnResponse : Request -> Recorder -> Response -> option string * Recorder * Response;
}.

(** The WASM runtime as the gateway uses it: a named module applied to an
    input.  The middleware manager of Wasm.v is one. *)
Class WasmRunner (M : Type) :=
  wasm_run : M -> string -> string -> exec (result string string * M).

#[export] Instance manager_runner {C I} `{Wasm.Engine C I} : WasmRunner (Wasm.MiddlewareManager C I) :=
  fun m name input => Wasm.Run name input m.

Inductive hijack_outcome := Hijacked | HijackUnsupported | HijackFailed (err : string).

Record World := {
  platform : Platform;
  clock : nat -> Z;
  seed : nat -> Z;
  start_span : string -> string -> option Span;
  registry : string -> string -> option (Z * string);
  queue : string -> Header -> string -> result string (Z * string);
  queue_wait : string -> Backpressure.outcome;
  plugins : string -> option Plugin;
  wire : option Transport -> nat -> Request -> result string Response;
  hijack : hijack_outcome;
  dial : string -> bool;
  order : gmap string string -> list (string * string);
  any_order : list (string * any) -> list (string * any);
  pii_order : list (string * Ai.re);
  decode_error : string -> string;
  upgrade_error : string -> string -> string;
}.

(** What a request does to the outside world. *)
Inductive event :=
| ESend (transport : option Transport) (req : Request)
| EWasm (name input : string)
| EPlugin (name : string)
| ERegistry (url payload : string)
| EQueue (url : string) (headers : Header) (payload : string)
| EDial (addr : string)
| ETunnel (addr : string) (req : Request)
| ESpanStart (name parent : string)
| ESpanEnd (err : option string) (attributes : list (string * any))
| EAcquired (prefix : string)
| EReleased (prefix : string)
| EConnOpened (target : string)
| EConnClosed (target : string).

(** The deferred calls that change state. *)
Inductive deferred_call := DRelease (prefix : string) | DDecConn (target : string).

Inductive outcome (A : Type) := Next (a : A) | Return | Crash (why : string).
Arguments Next {A} a.
Arguments Return {A}.
Arguments Crash {A} why.

Section Gateway.
Context {R M : Type} `{RateLimit.Limiter.RedisZSet R} `{WasmRunner M}.
Context (W : World).

Record gst := {
  gh : GatewayHandler R M;
  gw : ServerWriter;
  gr : Request;
  ticks : nat;
  draws : nat;
  sends : nat;
  trace : list event;
  deferred : list deferred_call;
}.

Definition upd_h (f : GatewayHandler R M -> GatewayHandler R M) (s : gst) : gst :=
  {| gh := f (gh s); gw := gw s; gr := gr s; ticks := ticks s; draws := draws s; sends := sends s;
     trace := trace s; deferred := deferred s |}.
Definition upd_w (f : ServerWriter -> ServerWriter) (s : gst) : gst :=
  {| gh := gh s; gw := f (gw s); gr := gr s; ticks := ticks s; draws := draws s; sends := sends s;
     trace := trace s; deferred := deferred s |}.
Definition upd_r (f : Request -> Request) (s : gst) : gst :=
  {| gh := gh s; gw := gw s; gr := f (gr s); ticks := ticks s; draws := draws s; sends := sends s;
     trace := trace s; deferred := deferred s |}.
Definition upd_ticks (s : gst) : gst :=
  {| gh := gh s; gw := gw s; gr := gr s; ticks := S (ticks s); draws := draws s; sends := sends s;
     trace := trace s; deferred := deferred s |}.
Definition upd_draws (s : gst) : gst :=
  {| gh := gh s; gw := gw s; gr := gr s; ticks := ticks s; draws := S (draws s); sends := sends s;
     trace := trace s; deferred := deferred s |}.
Definition upd_sends (s : gst) : gst :=
  {| gh := gh s; gw := gw s; gr := gr s; ticks := ticks s; draws := draws s; sends := S (sends s);
     trace := trace s; deferred := deferred s |}.
Definition upd_trace (e : event) (s : gst) : gst :=
  {| gh := gh s; gw := gw s; gr := gr s; ticks := ticks s; draws := draws s; sends := sends s;
     trace := trace s ++ [e]; deferred := deferred s |}.
Definition upd_deferred (d : list deferred_call) (s : gst) : gst :=
  {| gh := gh s; gw := gw s; gr := gr s; ticks := ticks s; draws := draws s; sends := sends s;
     trace := trace s; deferred := d |}.

(** ** The monad *)

Definition G (A : Type) : Type := gst -> outcome A * gst.

#[export] Instance G_ret : MRet G := fun A a s => (Next a, s).
#[export] Instance G_bind : MBind G := fun A B k m s =>
  match m s with
  | (Next a, s') => k a s'
  | (Return, s') => (Return, s')
  | (Crash why, s') => (Crash why, s')
  end.

Definition return_ {A} : G A := fun s => (Return, s).
Definition gets {A} (f : gst -> A) : G A := fun s => (Next (f s), s).
Definition modify (f : gst -> gst) : G unit := fun s => (Next tt, f s).
Definition of_exec {A} (x : exec A) : G A := fun s =>
  match x with Done a => (Next a, s) | Panic why => (Crash why, s) end.
Definition when (b : bool) (m : G unit) : G unit := if b then m else mret tt.

Definition handler : G (GatewayHandler R M) := gets gh.
Definition request : G Request := gets gr.
Definition mod_h f : G unit := modify (upd_h f).
Definition mod_w f : G unit := modify (upd_w f).
Definition mod_r f : G unit := modify (upd_r f).
Definition emit (e : event) : G unit := modify (upd_trace e).

(** A call on the response writer that can panic. *)
Definition writer (f : ServerWriter -> exec ServerWriter) : G unit := fun s =>
  match f (gw s) with
  | Done w => (Next tt, upd_w (fun _ => w) s)
  | Panic why => (Crash why, s)
  end.

(** [time.Now()] and the random source. *)
Definition now : G Z := fun s => (Next (clock W (ticks s)), upd_ticks s).
Definition draw : G Z := fun s => (Next (seed W (draws s)), upd_draws s).

(** [defer]: calls run in reverse order when [ServeHTTP] ends, however it
    ends. *)
Definition defer (d : deferred_call) : G unit := modify (fun s => upd_deferred (d :: deferred s) s).

Definition reply_json (msg code : string) (status : Z) : G unit :=
  r ← request; writer (fun w => WriteJSONError w r msg code status).

(** [WriteJSONError(...); return]. *)
Definition reject {A} (msg code : string) (status : Z) : G A :=
  reply_json msg code status;; return_.

Definition inc_error : G unit := mod_h (fun h => set_metricsTracker (IncError (metricsTracker h)) h).

Definition getenv (k : string) : string := Config.Getenv (p_env (platform W)) k.

(** [io.ReadAll(r.Body)].  The read that hits the limit of a [MaxBytesReader]
    asks for the connection to be closed. *)
Definition read_body : G (string * option string) :=
  r ← request;
  let '(data, err, rest) := ReadAll (body r) in
  when (r_limit (body r)) (mod_w (fun w => match s_sent w with
                                           | None => wset "Connection" "close" w
                                           | Some _ => w
                                           end));;
  mod_r (set_body {| r_data := r_data rest; r_err := r_err rest; r_limit := false |});;
  mret (data, err).

(** [otel.StartSpan] and [otel.EndSpan]. *)
Definition StartSpan (name parent : string) : G (option Span) :=
  emit (ESpanStart name parent);; mret (start_span W name parent).
Definition EndSpan (span : option Span) (err : option string) (attributes : list (string * any)) : G unit :=
  when (if span is Some _ then true else false) (emit (ESpanEnd err attributes)).
Definition attrs (l : list (string * string)) : list (string * any) :=
  map (fun p => (fst p, AStr (snd p))) l.

(** [h.isRateLimited]: it reads the clock once or twice and draws the member
    of the Redis set. *)
Definition is_rate_limited (clientIP prefix : string) (limit : Z) : G bool :=
  t ← now; t' ← now; d ← draw; h ← handler;
  let member := (Itoa (Z.quot t 1000000) ++ "-" ++ Itoa d)%string in
  let '(limited, st) := RateLimit.Limiter.isRateLimited (limits h) clientIP prefix limit t t' member in
  mod_h (set_limits st);; mret limited.

(** ** Administrative paths *)

Definition zero_tenant_policy : TenantPolicy :=
  {| TenantID := ""; AllowedClusters := []; AllowedRegions := []; PolicyRateLimitRPM := 0 |}.

(** GET and POST on the tenant policies; other methods fall through. *)
Definition serve_tenant_policies : G unit :=
  r ← request;
  if String.eqb (method r) "GET" then
    h ← handler;
    mod_w (fun w => encode_to (encode (tenantPolicies h)) (wset "Content-Type" "application/json" w));;
    return_
  else if String.eqb (method r) "POST" then
    body ← read_body;
    match json_decode (fst body) ≫= decode zero_tenant_policy with
    | None => writer (fun w => http_Error w (decode_error W (fst body)) 400);; return_
    | Some policy =>
        if String.eqb (TenantID policy) "" then
          writer (fun w => http_Error w "tenant_id required" 400);; return_
        else
          mod_h (fun h => set_tenantPolicies (<[TenantID policy := policy]> (tenantPolicies h)) h);;
          writer (WriteHeader 201);; return_
    end
  else mret tt.

Definition bearer_ok (h : GatewayHandler R M) (r : Request) : bool :=
  String.eqb (authToken h) "" || String.eqb (rget r "Authorization") ("Bearer " ++ authToken h)%string.

Definition serve_policy_reload : G unit :=
  h ← handler; r ← request;
  if negb (bearer_ok h r) then reject "Unauthorized" "ERR_UNAUTHORIZED" 401
  else if negb (String.eqb (method r) "POST") then
    reject "Method not allowed" "ERR_METHOD_NOT_ALLOWED" 405
  else
    body ← read_body;
    match body with
    | (data, None) =>
        match Policy.ParsePolicySchema data with
        | Some schema => when (negb (String.eqb data "")) (mod_h (Handler.UpdatePolicySchema (Some schema)))
        | None => mret tt
        end
    | (_, Some _) => mret tt
    end;;
    mod_h Handler.IncrementPolicyVersion;;
    mod_w (wset "Content-Type" "application/json");;
    writer (WriteHeader 200);;
    mod_w (encode_to (JObj [("message", JStr "Policy schema updated"); ("status", JStr "success")]%string));;
    return_.

Definition serve_governance : G unit :=
  h ← handler; r ← request;
  writer (fun w => Handler.handleGovernanceCheck h w r);; return_.

Definition admin_paths : G unit :=
  r ← request;
  when (String.eqb (path r) "/api/tenants/policies") serve_tenant_policies;;
  when (String.eqb (path r) "/api/v1/admin/policy/reload") serve_policy_reload;;
  when (String.eqb (path r) "/api/v1/governance/check") serve_governance.

(** ** Tenant policy *)

Definition allowed_here (current : string) (allowed : list string) : bool :=
  match allowed with
  | [] => true
  | _ => existsb (fun c => String.eqb c current || String.eqb c "*") allowed
  end.

Definition tenant_check : G unit :=
  h ← handler; r ← request;
  let tenantID := rget r "X-Tenant-ID" in
  if String.eqb tenantID "" then mret tt else
  match tenantPolicies h !! tenantID with
  | None => mret tt
  | Some policy =>
      let currentCluster := Config.or_default (getenv "SERV_CLUSTER") "default" in
      if negb (allowed_here currentCluster (AllowedClusters policy)) then
        reject "Tenant policy violation: Cluster restricted" "ERR_TENANT_POLICY_VIOLATION" 403
      else
      let currentRegion := Config.or_default (getenv "SERV_REGION") "us-east" in
      if negb (allowed_here currentRegion (AllowedRegions policy)) then
        reject "Tenant policy violation: Region restricted" "ERR_TENANT_POLICY_VIOLATION" 403
      else mret tt
  end.

(** ** Documentation paths

    [docs_html] is the constant page. *)
Definition docs (docs_html : string) : G unit :=
  r ← request;
  when (String.eqb (path r) "/api/docs")
    (mod_w (fun w => snd (Write docs_html (wset "Content-Type" "text/html" w)));; return_);;
  when (String.eqb (path r) "/api/docs/openapi.json")
    (h ← handler;
     mod_w (OpenApi.serveOpenAPIDocs (order W) (routes h));; return_).

(** ** Authentication *)

Definition authenticate : G unit :=
  h ← handler; r ← request;
  if String.eqb (authToken h) "" then mret tt else
  let token := TrimPrefix (rget r "Authorization") "Bearer " in
  if String.eqb token (authToken h) then mret tt else
  let jwtSec := getenv "SERV_JWT_SECRET" in
  if String.eqb jwtSec "" then reject "Unauthorized" "ERR_UNAUTHORIZED" 401 else
  t ← now;
  match Token.ValidateJWTWithPolicy (revokedSessions h) token jwtSec t with
  | Some _ => when (Token.needs_refresh token (policyVersion h)) (mod_w (wset "X-Token-Refresh" "true"))
  | None => reject "Unauthorized" "ERR_UNAUTHORIZED" 401
  end.

(** ** Route and body limit *)

Definition find_route : G Route :=
  h ← handler; r ← request;
  match match_route (path r) (routes h) with
  | Some route => mret route
  | None =>
      reply_json "Bad gateway: route match not found" "ERR_ROUTE_NOT_FOUND" 502;;
      inc_error;; return_
  end.

Definition body_limit (route : Route) : Z :=
  if MaxBodySize route <=? 0 then 10 * 1024 * 1024 else MaxBodySize route.

Definition limit_body (route : Route) : G unit :=
  mod_r (fun r => set_body (MaxBytesReader (body r) (body_limit route)) r).

(** ** API keys *)

Definition api_key_check (route : Route) : G unit :=
  if negb (RequireAPIKey route) then mret tt else
  h ← handler; r ← request;
  let apiKeyVal := rget r "X-API-Key" in
  if String.eqb apiKeyVal "" then
    reject "Unauthorized: Missing API Key" "ERR_MISSING_API_KEY" 401
  else
  match apiKeys h !! apiKeyVal with
  | None => reject "Unauthorized: Invalid API Key" "ERR_INVALID_API_KEY" 401
  | Some keyInfo =>
      if negb (bool_decide (AllowedRoutes keyInfo = [])) &&
         negb (existsb (HasPrefix (path r)) (AllowedRoutes keyInfo))
      then reject "Forbidden: API Key not allowed on this path" "ERR_FORBIDDEN_ROUTE" 403
      else if negb (bool_decide (AllowedTenants route = [])) &&
              negb (existsb (fun t => String.eqb t (Types.Tenant keyInfo)) (AllowedTenants route))
      then reject "Forbidden: Tenant access denied" "ERR_TENANT_ACCESS_DENIED" 403
      else
        limited ← (if 0 <? KeyRateLimitRPM keyInfo
                   then is_rate_limited ("apikey:" ++ apiKeyVal) (Prefix route) (KeyRateLimitRPM keyInfo)
                   else mret false);
        if limited : bool
        then reject "Too Many Requests: API Key rate limit exceeded" "ERR_RATE_LIMIT_EXCEEDED" 429
        else mod_r (set_tenant (Types.Tenant keyInfo))
  end.

(** ** Schema registry *)

Definition writes_body (meth : string) : bool :=
  existsb (String.eqb meth) ["POST"; "PUT"; "PATCH"]%string.

(** The [valid] and [errors] of the registry's answer. *)
Definition registry_verdict (answer : string) : option (bool * list string) :=
  v ← json_decode answer;
  es ← obj_entries v;
  valid ← field dec_bool "valid" false es;
  errors ← field (dec_slice dec_string ""%string) "errors" [] es;
  Some (valid, errors).

(** A body that cannot be read is not validated; nor is one when the registry
    does not answer, or answers something else. *)
Definition schema_registry (route : Route) : G unit :=
  r ← request;
  if String.eqb (SchemaName route) "" || negb (writes_body (method r)) then mret tt else
  body ← read_body;
  match body with
  | (_, Some _) => mret tt
  | (data, None) =>
      mod_r (set_body (string_reader data));;
      let registryURL := Config.or_default (getenv "SERV_REGISTRY_URL") "http://localhost:8088" in
      let url := (TrimSuffix registryURL "/" ++ "/api/v1/schemas/validate")%string in
      let reqPayload := render (JObj [("payload", JStr data); ("schema", JStr (SchemaName route))]%string) in
      emit (ERegistry url reqPayload);;
      match registry W url reqPayload with
      | Some (200, answer) =>
          match registry_verdict answer with
          | Some (false, errors) =>
              reject ("Request schema validation failed: " ++ Join errors ", ")%string
                "ERR_SCHEMA_VALIDATION_FAILED" 400
          | _ => mret tt
          end
      | _ => mret tt
      end
  end.

(** ** MCP tool calls *)

Record jsonRpc := { rpc_method : string; rpc_id : any; rpc_tool : string }.

Definition decode_rpc (text : string) : option jsonRpc :=
  v ← json_parse text;
  es ← obj_entries v;
  _ ← field dec_string "jsonrpc" ""%string es;
  m ← field dec_string "method" ""%string es;
  id ← field dec_any "id" Nil es;
  tool ← field (fun cur v => es' ← obj_entries v; field dec_string "name" cur es') "params" ""%string es;
  Some {| rpc_method := m; rpc_id := id; rpc_tool := tool |}.

Definition rpc_limited (id : any) : json :=
  JObj [("error", JObj [("code", JNum "-32001");
                        ("message", JStr "Agent rate limit exceeded for tool calls")]);
        ("id", of_any id); ("jsonrpc", JStr "2.0")]%string.

Definition mcp (route : Route) : G unit :=
  r ← request;
  if negb (MCPEnabled route) || negb (String.eqb (method r) "POST") then mret tt else
  body ← read_body;
  match body with
  | (_, Some _) => mret tt
  | (data, None) =>
      mod_r (set_body (string_reader data));;
      match decode_rpc data with
      | None => mret tt
      | Some rpc =>
          if negb (String.eqb (rpc_method rpc) "tools/call") then mret tt else
          let agentID := Config.or_default (rget r "X-Agent-ID") "default-agent" in
          limited ← is_rate_limited ("mcp-agent:" ++ agentID)%string (Prefix route) 5;
          if limited : bool then
            mod_w (wset "Content-Type" "application/json");;
            writer (WriteHeader 429);;
            mod_w (encode_to (rpc_limited (rpc_id rpc)));;
            return_
          else
            mod_w (fun w => wset "X-MCP-Agent" agentID (wset "X-MCP-Tool" (rpc_tool rpc) w))
      end
  end.

(** ** Addresses, policy rules, rate limit, concurrency limit *)

Definition ip_check (route : Route) (clientIP : string) : G unit :=
  if Access.checkIPAccess clientIP (IPAllowlist route) (IPBlocklist route) then mret tt
  else reject "Forbidden: IP access denied" "ERR_IP_ACCESS_DENIED" 403.

(** The verdict of the policy document on the request. *)
Definition policy_verdict (h : GatewayHandler R M) (r : Request) : Policy.verdict :=
  let '(roles, headers) := Policy.extractUserRolesAndHeaders (header r) in
  Policy.EvaluatePolicy (fun rule => order W (Policy.RuleHeaders rule)) (method r) (path r) headers
    roles (policySchema h).

(** The route that goes on has the rule's rate limit, if it has one. *)
Definition policy_check (route : Route) : G Route :=
  h ← handler; r ← request;
  match policySchema h with
  | None => mret route
  | Some _ =>
      let v := policy_verdict h r in
      if negb (Policy.v_matched v) then mret route
      else if String.eqb (Policy.v_action v) "deny" then
        reject "Forbidden: Access denied by policy rule" "ERR_POLICY_DENIED" 403
      else
        when (0 <? lenZ (Policy.v_redact v)) (mod_r (set_redact (Policy.v_redact v)));;
        mret (if 0 <? Policy.v_limit v then with_RateLimitRPM (Policy.v_limit v) route else route)
  end.

Definition rate_limit (route : Route) (clientIP : string) : G unit :=
  limited ← is_rate_limited clientIP (Prefix route) (RateLimitRPM route);
  if limited : bool then reject "Too Many Requests" "ERR_RATE_LIMIT_EXCEEDED" 429 else mret tt.

Definition set_limiter (prefix : string) (l : Backpressure.BackpressureLimiter)
    (h : GatewayHandler R M) : GatewayHandler R M :=
  set_res (set_limiters (<[prefix := Some l]> (limiters (res h))) (res h)) h.

(** [Acquire]: the fast path, the full queue, or a wait whose end the world
    decides; a slot obtained after a wait is one another request gave back. *)
Definition Acquire (prefix : string) (l : Backpressure.BackpressureLimiter) : G (option string) :=
  match Backpressure.send_sem l with
  | Some l' => mod_h (set_limiter prefix l');; mret None
  | None =>
      match Backpressure.send_queue l with
      | None => mret (Some "queue full"%string)
      | Some _ =>
          match queue_wait W prefix with
          | Backpressure.Acquired => mret None
          | Backpressure.QueueTimeout => mret (Some "queue timeout"%string)
          | Backpressure.ContextDone => mret (Some "context canceled"%string)
          end
      end
  end.

Definition backpressure (route : Route) : G unit :=
  h ← handler;
  match limiters (res h) !! Prefix route with
  | Some (Some limiter) =>
      err ← Acquire (Prefix route) limiter;
      match err with
      | Some e =>
          mod_w (wset "Retry-After" "5");;
          if String.eqb e "queue full"
          then reject "Too Many Requests: backpressure queue full" "ERR_QUEUE_FULL" 429
          else reject "Service Unavailable: queue timeout" "ERR_BACKPRESSURE_TIMEOUT" 503
      | None => emit (EAcquired (Prefix route));; defer (DRelease (Prefix route))
      end
  | _ => mret tt
  end.

(** The community build's [handleGraphQLFederation]. *)
Definition graphql (route : Route) : G unit :=
  r ← request;
  when (negb (bool_decide (GraphQLFederation route = ∅)) && String.eqb (method r) "POST")
    (reject "GraphQL Federation requires ServGate Enterprise Edition" "ERR_EE_REQUIRED" 403).

(** ** Tracing *)

(** The span, the [traceparent] and the trace id. *)
Definition tracing : G (option Span * string * string) :=
  r ← request;
  let traceparent := rget r "traceparent" in
  span ← StartSpan (method r ++ " " ++ path r)%string traceparent;
  match span with
  | None => mret (None, traceparent, ""%string)
  | Some sp =>
      let traceparent := ("00-" ++ sp_TraceID sp ++ "-" ++ sp_SpanID sp ++ "-01")%string in
      mod_r (rset "traceparent" traceparent);;
      when (writes_body (method r) || (0 <? content_length r))
        (body ← read_body;
         match body with
         | (data, None) => mod_r (set_body (string_reader data))
         | (_, Some _) => mret tt
         end);;
      mret (Some sp, traceparent, sp_TraceID sp)
  end.

(** ** Response cache *)

Definition cache_hit_entry (r : Request) (route : Route) (clientIP traceID : string) (start t : Z)
    (entry : Cache.HTTPCacheEntry) : LogEntry :=
  {| Timestamp := rfc3339 start;
     Method := method r;
     Path := path r;
     RoutePrefix := Prefix route;
     ClientIP := clientIP;
     Status := Cache.StatusCode entry;
     LatencyMs := Z.quot (t - start) millisecond;
     RequestSize := content_length r;
     ResponseSize := slen (Cache.Body entry);
     UserAgent := rget r "User-Agent";
     LogTraceID := traceID;
     LogTarget := "cache";
     LogError := "";
     Tenant := "" |}.

Definition log_line (route : Route) (entry : LogEntry) : G unit :=
  mod_h (fun h => match accessLoggers (res h) !! Prefix route with
                  | Some logger => set_logs (Log logger entry (logs h)) h
                  | None => h
                  end).

Definition serve_cached (route : Route) (entry : Cache.HTTPCacheEntry) : G unit :=
  mod_w (fun w => set_wheader (copyHeader (wheader w) (Cache.Headers entry)) w);;
  mod_w (wset "X-Cache" "HIT");;
  writer (WriteHeader (Cache.StatusCode entry));;
  mod_w (fun w => snd (Write (Cache.Body entry) w)).

(** [Some key] when the route's cache is in use for this request. *)
Definition cache_lookup (route : Route) (clientIP traceID : string) (span : option Span) (start : Z)
  : G (option string) :=
  h ← handler; r ← request;
  if negb ((0 <? CacheTTLSeconds route) && Cache.IsCacheableMethod (method r) (CacheMethods route))
  then mret None else
  match responseCaches (res h) !! Prefix route with
  | None => mret None
  | Some routeCache =>
      let cacheKey := Cache.CacheKey (method r) (path r) (u_query (url r)) in
      t ← now;
      let '(found, routeCache') := Cache.Get routeCache cacheKey t in
      mod_h (fun h => set_res (set_responseCaches
        (<[Prefix route := routeCache']> (responseCaches (res h))) (res h)) h);;
      match found with
      | None => mret (Some cacheKey)
      | Some entry =>
          serve_cached route entry;;
          EndSpan span None [("http.route", AStr (Prefix route)); ("cache.hit", ABool true)]%string;;
          t' ← now;
          log_line route (cache_hit_entry r route clientIP traceID start t' entry);;
          return_
      end
  end.

(** ** Body validation *)

Definition validate_body (route : Route) (span : option Span) : G unit :=
  if bool_decide (ValidationSchema route = ∅) then mret tt else
  body ← read_body;
  match body with
  | (_, Some e) =>
      EndSpan span (Some e) [];;
      reject "Bad request: failed to read body" "ERR_VALIDATION_FAILED" 400
  | (data, None) =>
      match Validation.ValidateRequest data (order W (ValidationSchema route)) with
      | Some e => EndSpan span (Some e) [];; reject e "ERR_VALIDATION_FAILED" 400
      | None => mod_r (replace_body data)
      end
  end.

(** ** AI checks *)

Definition wants_ai (route : Route) (r : Request) : bool :=
  PromptGuard route || PiiRedact route || SemanticCache route || SemanticRateLimit route ||
  (if PromptABTest route is Some _ then true else false) || ResponseQualityScore route ||
  AIWAFEnabled route || Contains (Prefix route) "/ai" || Ai.dry_run r.

(** The community build's [RunAIWAF] blocks nothing, and its
    [getSemanticCache] finds nothing. *)
Definition RunAIWAF (r : Request) (prompt reqBody : string) : bool * string := (false, ""%string).
Definition getSemanticCache (route : Route) (prompt : string) : option string := None.

(** Gives the body that was checked, to be charged later. *)
Definition ai_checks (route : Route) (span : option Span) : G string :=
  r ← request;
  if negb (wants_ai route r) then mret ""%string else
  read ← read_body;
  let reqBody := fst read in
  s ← gets gw;
  ext ← of_exec (Ai.applyAIRequestExtensions s r reqBody);
  let '(w', reqBody, ok) := ext in
  mod_w (fun _ => w');;
  if negb ok then return_ else
  let prompt := Ai.extractPrompt reqBody in
  if PromptGuard route && negb (String.eqb prompt "") && Ai.IsPromptInjection prompt then
    EndSpan span (Some "AI Prompt Guard: Injection attempt blocked"%string) [];;
    reject "AI Prompt Guard: Validation failed due to safety policy violation"
      "ERR_PROMPT_INJECTION_DETECTED" 400
  else
  let '(blocked, reason) := RunAIWAF r prompt reqBody in
  if AIWAFEnabled route && blocked then
    EndSpan span (Some ("AI WAF: blocked — " ++ reason)%string) [];;
    mod_w (wset "X-WAF-Block-Reason" reason);;
    reject ("Blocked by AI WAF: " ++ reason)%string "ERR_AI_WAF_BLOCKED" 403
  else
  let reqBody := if PiiRedact route then Ai.RedactPii (pii_order W) reqBody else reqBody in
  let prompt := if PiiRedact route then Ai.extractPrompt reqBody else prompt in
  match (if SemanticCache route && negb (String.eqb prompt "") then getSemanticCache route prompt
         else None) with
  | Some cachedResp =>
      mod_w (fun w => wset "X-Cache" "HIT-SEMANTIC" (wset "Content-Type" "application/json" w));;
      writer (WriteHeader 200);;
      mod_w (fun w => snd (Write cachedResp w));;
      EndSpan span None [("http.route", AStr (Prefix route)); ("cache.hit", ABool true)]%string;;
      return_
  | None => mod_r (replace_body reqBody);; mret reqBody
  end.

(** ** WASM request middleware *)

Definition run_wasm (name input : string) : G (result string string) :=
  h ← handler;
  emit (EWasm name input);;
  ran ← of_exec (wasm_run (wasm h) name input);
  let '(out, m) := ran in
  mod_h (set_wasm m);; mret out.

Definition traced_wasm (title name input parent : string) : G (result string string) :=
  span ← StartSpan (title ++ name)%string parent;
  out ← run_wasm name input;
  EndSpan span (match out with Err e => Some e | Ok _ => None end) [];;
  mret out.

(** The metadata a policy module is given. *)
Definition policy_input (r : Request) : string :=
  render (JObj [("headers", JObj (map (fun kv => (fst kv, JStr (snd kv)))
                                    (sorted_entries (Policy.first_values (header r)))));
                ("method", JStr (method r)); ("path", JStr (path r))]%string).

Definition is_policy_module (name : string) : bool := Contains (ToLower name) "policy".

Definition wasm_request (route : Route) (span : option Span) (traceparent : string) : G unit :=
  d ← draw;
  let wasmMiddleware := selectWASMMiddleware route d in
  if String.eqb wasmMiddleware "" then mret tt else
  r ← request;
  let isPolicy := is_policy_module wasmMiddleware in
  inputBytes ← (if isPolicy then mret (policy_input r)
                else (body ← read_body; mret (fst body)));
  out ← traced_wasm "WASM Middleware " wasmMiddleware inputBytes traceparent;
  match out with
  | Err e =>
      EndSpan span (Some e) [];;
      reply_json "Internal Server Error: WASM Middleware execution failed" "ERR_WASM_MIDDLEWARE_FAILED" 500;;
      inc_error;; return_
  | Ok outputBytes =>
      if isPolicy then
        if String.eqb (TrimSpace outputBytes) "deny" then
          EndSpan span (Some "Forbidden: Access Denied by Policy"%string) [];;
          reject "Forbidden: Access Denied by Policy" "ERR_ACCESS_DENIED" 403
        else mret tt
      else mod_r (replace_body outputBytes)
  end.

(** ** Native plugin *)

Definition plugin_request (route : Route) (span : option Span) : G unit :=
  match (if String.eqb (GoMiddleware route) "" then None else plugins W (GoMiddleware route)) with
  | None => mret tt
  | Some p =>
      r ← request;
      emit (EPlugin (GoMiddleware route));;
      let '(out, r') := OnRequest p r in
      mod_r (fun _ => r');;
      match out with
      | Err e =>
          EndSpan span (Some e) [];;
          reply_json "Internal Server Error: Go Plugin execution failed" "ERR_GO_PLUGIN_FAILED" 500;;
          inc_error;; return_
      | Ok (Some resp) =>
          mod_w (fun w => set_wheader (copyHeader (wheader w) (rheader resp)) w);;
          writer (WriteHeader (status resp));;
          mod_w (fun w => snd (Write (r_data (rbody resp)) w));;
          EndSpan span None [("http.route", AStr (Prefix route)); ("go_plugin.shortcircuit", ABool true)]%string;;
          return_
      | Ok None => mret tt
      end
  end.

(** ** Target and circuit breaker *)

Definition pick_target (route : Route) : G string :=
  h ← handler; d ← draw;
  sel ← of_exec (selectTarget (bal h) route d);
  let '(target, b) := sel in
  mod_h (set_bal (incConn b target));;
  emit (EConnOpened target);;
  defer (DDecConn target);;
  mret target.

Definition breaker_of (h : GatewayHandler R M) (target : string) : Breaker.CircuitBreaker :=
  default (Breaker.NewCircuitBreaker (1000 * millisecond)) (circuitBreakers h !! target).

Definition set_breaker (target : string) (cb : Breaker.CircuitBreaker) (h : GatewayHandler R M)
  : GatewayHandler R M := set_circuitBreakers (<[target := cb]> (circuitBreakers h)) h.

Definition check_breaker (target : string) (span : option Span) : G unit :=
  h ← handler; t ← now; t' ← now;
  let '(allowed, cb) := Breaker.Allow (breaker_of h target) t t' in
  mod_h (set_breaker target cb);;
  when (negb allowed)
    (EndSpan span (Some ("circuit breaker open for target " ++ target)%string) [];;
     reject "Service Unavailable: Circuit breaker open" "ERR_CIRCUIT_OPEN" 503).

(** ** Bridge to the queue *)

Definition queue_url : string :=
  let rawDisc := getenv "SERVVERSE_DISCOVERY" in
  let found := v ← json_parse rawDisc; es ← obj_entries v; field dec_string "queue" ""%string es in
  Config.or_default (if String.eqb rawDisc "" then ""%string else default ""%string found)
    "http://localhost:8082".

Definition queue_header (traceparent : string) : Header :=
  let h := hset "Authorization" "Bearer secret-token" (hset "Content-Type" "application/json" ∅) in
  if String.eqb traceparent "" then h else hset "traceparent" traceparent h.

Definition bridged (topic : string) : string :=
  ("{" ++ dquote ++ "status" ++ dquote ++ ":" ++ dquote ++ "success" ++ dquote ++ "," ++ dquote ++
   "message" ++ dquote ++ ":" ++ dquote ++ "Event bridged to topic: " ++ topic ++ dquote ++ "}")%string.

Definition queue_bridge (route : Route) (target : string) (span : option Span) (traceparent : string)
  : G unit :=
  if negb (HasPrefix target "servqueue://") then mret tt else
  let topic := TrimPrefix target "servqueue://" in
  body ← read_body;
  match body with
  | (_, Some e) =>
      EndSpan span (Some e) [];;
      reject "Bad Request: failed to read body" "ERR_BAD_REQUEST_BODY" 400
  | (data, None) =>
      let publishUrl := (TrimSuffix queue_url "/" ++ "/api/publish")%string in
      let jsonPayload := render (JObj [("payload", JStr data); ("topic", JStr topic)]%string) in
      match Url.Parse publishUrl with
      | None =>
          EndSpan span (Some "parse"%string) [];;
          reject "Internal Server Error" "ERR_INTERNAL_SERVER_ERROR" 500
      | Some _ =>
          emit (EQueue publishUrl (queue_header traceparent) jsonPayload);;
          match queue W publishUrl (queue_header traceparent) jsonPayload with
          | Err e =>
              EndSpan span (Some e) [];;
              reject "Service Unavailable: failed to bridge to queue" "ERR_QUEUE_BRIDGE_FAILED" 503
          | Ok (code, respBody) =>
              if 400 <=? code then
                EndSpan span (Some ("queue publish returned " ++ Itoa code)%string) [];;
                reply_json ("Queue Error: " ++ respBody)%string "ERR_QUEUE_RESPONSE_ERROR" code;;
                when (500 <=? code) inc_error;; return_
              else
                mod_w (wset "Content-Type" "application/json");;
                writer (WriteHeader 200);;
                mod_w (fun w => snd (Write (bridged topic) w));;
                EndSpan span None
                  (attrs [("http.route", Prefix route); ("proxy.target", target);
                          ("bridge.topic", topic)]%string);;
                return_
          end
      end
  end.

Definition parse_target (target : string) (span : option Span) : G Url :=
  match Url.Parse target with
  | Some u => mret u
  | None =>
      EndSpan span (Some "parse"%string) [];;
      reply_json "Bad Gateway Target" "ERR_BAD_GATEWAY_TARGET" 502;;
      inc_error;; return_
  end.

(** The community build's [handleLLMRouting]. *)
Definition llm_routing (route : Route) : G unit :=
  when (if LLMRouting route is Some _ then true else false)
    (reject "Cost-Aware LLM Routing requires ServGate Enterprise Edition" "ERR_EE_REQUIRED" 403).

(** ** WebSocket *)

Definition backend_addr (target : Url) : string :=
  if Contains (u_host target) ":" then u_host target
  else if String.eqb (u_scheme target) "https" || String.eqb (u_scheme target) "wss"
       then (u_host target ++ ":443")%string else (u_host target ++ ":80")%string.

(** The request line and headers are copied to a plain TCP connection, then
    the bytes of both sides until one of them ends. *)
Definition proxyWebSocket (target : Url) : G unit :=
  match hijack W with
  | HijackUnsupported =>
      reply_json "Websocket hijacking not supported" "ERR_WS_HIJACK_NOT_SUPPORTED" 500
  | HijackFailed e =>
      reply_json ("Failed to hijack connection: " ++ e)%string "ERR_WS_HIJACK_FAILED" 500
  | Hijacked =>
      emit (EDial (backend_addr target));;
      when (dial W (backend_addr target))
        (mod_r (rset "Host" (u_host target));;
         r ← request; emit (ETunnel (backend_addr target) r))
  end.

Definition websocket (route : Route) (target : string) (targetURL : Url) (span : option Span) : G unit :=
  r ← request;
  if negb (String.eqb (ToLower (rget r "Upgrade")) "websocket") then mret tt else
  mod_r (fun r => set_path (Url.strip_prefix (path r) (Prefix route)) r);;
  proxyWebSocket targetURL;;
  EndSpan span None
    (attrs [("http.route", Prefix route); ("proxy.target", target); ("protocol", "websocket")]%string);;
  return_.

(** ** Request transformation *)

Definition request_transform (route : Route) : G unit :=
  if bool_decide (RequestTransform route = ∅) then mret tt else
  body ← read_body;
  match body with
  | (_, Some _) => mret tt
  | (data, None) =>
      match Transform.transformJSON (any_order W) data (RequestTransform route) with
      | Ok transformed => mod_r (replace_body transformed)
      | Err _ => mod_r (set_body (string_reader data))
      end
  end.

(** A body that is not a frame has been read all the same. *)
Definition grpc_to_rest_request : G unit :=
  body ← read_body;
  jsonBody ← of_exec (Transform.grpc_unpack (fst body));
  match jsonBody with
  | Some b =>
      mod_r (replace_body b);; mod_r (rset "Content-Type" "application/json");; mod_r (set_method "POST")
  | None => mret tt
  end.

Definition rest_to_grpc_request : G unit :=
  body ← read_body;
  mod_r (replace_body (Transform.grpc_pack (fst body)));;
  mod_r (rset "Content-Type" "application/grpc+json");;
  mod_r (rset "TE" "trailers");;
  mod_r (set_method "POST").

Definition grpc_request (route : Route) : G unit :=
  when (String.eqb (TranspileType route) "grpc_to_rest") grpc_to_rest_request;;
  when (String.eqb (TranspileType route) "rest_to_grpc") rest_to_grpc_request.

(** ** Response transformation ([ModifyResponse]) *)

Definition set_load (target : string) (load : Z) (h : GatewayHandler R M) : GatewayHandler R M :=
  set_bal (set_targetLoad (bal h) (<[target := load]> (targetLoad (bal h)))) h.

Definition backpressure_header (target : string) (resp : Response) : G unit :=
  let loadStr := hget (rheader resp) "X-Backpressure" in
  match (if String.eqb loadStr "" then None else Sscanf_d loadStr) with
  | Some load => mod_h (set_load target load)
  | None => mret tt
  end.

(** Headers, body and recorder after the plugin; an error aborts. *)
Definition plugin_response (route : Route) (out : Request) (rec : Recorder) (resp : Response)
  : G (result string Response * Recorder) :=
  match (if String.eqb (GoMiddleware route) "" then None else plugins W (GoMiddleware route)) with
  | None => mret (Ok resp, rec)
  | Some p =>
      emit (EPlugin (GoMiddleware route));;
      let '(err, rec, temp) := OnResponse p out rec resp in
      match err with
      | Some e => mret (Err ("go plugin OnResponse failed: " ++ e)%string, rec)
      | None => mret (Ok {| status := status resp; rheader := rheader temp;
                            rbody := string_reader (r_data (rbody temp)); interim := [] |}, rec)
      end
  end.

Definition wasm_response (route : Route) (traceparent body : string) : G (result string string) :=
  if String.eqb (ResponseMiddleware route) "" then mret (Ok body) else
  out ← traced_wasm "WASM Response Middleware " (ResponseMiddleware route) body traceparent;
  mret (match out with
        | Ok b => Ok b
        | Err e => Err ("response middleware execution failed: " ++ e)%string
        end).

(** The declarative transformation and the two transpilations; [true] where
    the content type is set. *)
Definition response_body (route : Route) (body : string) : exec (string * option string) :=
  let body :=
    if bool_decide (ResponseTransform route = ∅) then body
    else match Transform.transformJSON (any_order W) body (ResponseTransform route) with
         | Ok b => b
         | Err _ => body
         end in
  let! unpacked :=
    if String.eqb (TranspileType route) "rest_to_grpc" then Transform.grpc_unpack body else Done None in
  let '(body, ctype) :=
    match unpacked with
    | Some b => (b, Some "application/json"%string)
    | None => (body, None)
    end in
  Done (if String.eqb (TranspileType route) "grpc_to_rest"
        then (Transform.grpc_pack body, Some "application/grpc+json"%string) else (body, ctype)).

Definition finish_response (resp : Response) (body : string) (ctype : option string) : Response :=
  let hd := match ctype with Some c => hset "Content-Type" c (rheader resp) | None => rheader resp end in
  {| status := status resp; rheader := hset "Content-Length" (Itoa (slen body)) hd;
     rbody := string_reader body; interim := [] |}.

Definition modify_response (route : Route) (target traceparent : string) (out : Request)
    (rec : Recorder) (resp : Response) : G (result string Response * Recorder) :=
  backpressure_header target resp;;
  match r_err (rbody resp) with
  | Some e => mret (Err ("failed to read response body: " ++ e)%string, rec)
  | None =>
      let body := r_data (rbody resp) in
      let body := match ctx_redact out with
                  | Some fields => Transform.redact_body fields body
                  | None => body
                  end in
      plugged ← plugin_response route out rec
                  {| status := status resp; rheader := rheader resp; rbody := string_reader body; interim := [] |};
      match plugged with
      | (Err e, rec) => mret (Err e, rec)
      | (Ok resp, rec) =>
          filtered ← wasm_response route traceparent (r_data (rbody resp));
          match filtered with
          | Err e => mret (Err e, rec)
          | Ok body =>
              final ← of_exec (response_body route body);
              mret (Ok (finish_response resp (fst final) (snd final)), rec)
          end
      end
  end.

(** ** The reverse proxy *)

(** A 1xx response reaches the client through the recorder, whose header map is
    then cleared. *)
Definition forward_interim (rec : Recorder) (i : Z * Header) : Recorder :=
  if is_interim (fst i) then
    match WriteHeader (fst i) (set_wheader (copyHeader (wheader rec) (snd i)) rec) with
    | Done rec' => set_wheader ∅ rec'
    | Panic _ => rec
    end
  else rec.

(** One attempt: a request the transport refuses to send never reaches the
    backend; the body is consumed either way. *)
Definition send_once (t : option Transport) (req : Request) (st : Recorder * gst)
  : result string Response * Reader * (Recorder * gst) :=
  let '(rec, s) := st in
  let rest := snd (ReadAll (body req)) in
  match Proxy.sendable req with
  | Some e => (Err e, rest, (rec, s))
  | None =>
      let x := wire W t (sends s) req in
      let s := upd_trace (ESend t req) (upd_sends s) in
      match x with
      | Ok resp => (x, rest, (fold_left forward_interim (interim resp) rec, s))
      | Err _ => (x, rest, (rec, s))
      end
  end.

Definition round_trip (t : option Transport) (req : Request) (rec : Recorder)
  : G (result string Response * Recorder) := fun s =>
  let '(x, (rec', s')) := Proxy.RoundTrip (send_once t) req (rec, s) in (Next (x, rec'), s').

(** [ErrorHandler]. *)
Definition proxy_error (target : string) (out : Request) (rec : Recorder) (err : string) : G Recorder :=
  mod_h (set_load target 100);;
  of_exec (WriteJSONError rec out ("Bad Gateway: " ++ err)%string "ERR_BAD_GATEWAY" 502).

Definition copy_response (rec : Recorder) (resp : Response) : exec Recorder :=
  let rec := set_wheader (copyHeader (wheader rec) (rheader resp)) rec in
  let! rec := WriteHeader (status resp) rec in
  Done (snd (Write (r_data (rbody resp)) rec)).

(** A response that switches protocols cannot be relayed: its body has been
    replaced by [ModifyResponse]. *)
Definition reverse_proxy (t : option Transport) (route : Route) (target traceparent : string)
    (targetURL : Url) (rec : Recorder) : G Recorder :=
  r ← request;
  let out := Proxy.out_request targetURL r in
  if negb (Proxy.printable (Proxy.upgradeType (header r))) then
    proxy_error target out rec "client tried to switch to invalid protocol"
  else
  let rec := if r_limit (body out)
             then match s_sent (inner rec) with
                  | None => wset "Connection" "close" rec
                  | Some _ => rec
                  end
             else rec in
  answer ← round_trip t out rec;
  match answer with
  | (Err e, rec) => proxy_error target out rec e
  | (Ok resp, rec) =>
      let switching := status resp =? 101 in
      let resp := if switching then resp
                  else {| status := status resp; rheader := Proxy.removeHopByHopHeaders (rheader resp);
                          rbody := rbody resp; interim := [] |} in
      modified ← modify_response route target traceparent out rec resp;
      match modified with
      | (Err e, rec) => proxy_error target out rec e
      | (Ok resp, rec) =>
          if switching then
            proxy_error target out rec
              (upgrade_error W (Proxy.upgradeType (header out)) (Proxy.upgradeType (rheader resp)))
          else of_exec (copy_response rec resp)
      end
  end.

(** ** Forwarding and what follows it *)

Definition need_capture (route : Route) (cacheKey : option string) : bool :=
  (if cacheKey is Some _ then true else false) || RequireAPIKey route || ResponseQualityScore route.

(** The request as it is handed to the proxy. *)
Definition retarget (route : Route) (targetURL : Url) (r : Request) : Request :=
  let r := set_url {| u_scheme := u_scheme targetURL; u_host := u_host targetURL;
                      u_path := path r; u_query := u_query (url r) |} r in
  let r := rset "X-Forwarded-Host" (rget r "Host") r in
  let r := set_host (u_host targetURL) r in
  set_path (Url.strip_prefix (path r) (Prefix route)) r.

Definition forward (route : Route) (target traceparent : string) (targetURL : Url)
    (cacheKey : option string) : G Recorder :=
  let needCapture := need_capture route cacheKey in
  when (0 <? lenZ (TargetsWeighted route)) (mod_w (wset "X-Canary-Target" target));;
  h ← handler;
  let transport := transports (res h) !! Prefix route in
  mod_r (retarget route targetURL);;
  when needCapture (mod_w (wset "X-Cache" "MISS"));;
  w ← gets gw;
  rec ← reverse_proxy transport route target traceparent targetURL
          (NewStatusRecordingResponseWriter w needCapture);
  mod_w (fun _ => inner rec);;
  mret rec.

(** [routeCache.Set]. *)
Definition cache_store (route : Route) (cacheKey : option string) (rec : Recorder) : G unit :=
  match cacheKey with
  | Some key =>
      if (200 <=? StatusCode rec) && (StatusCode rec <? 300) then
        t ← now;
        mod_h (fun h =>
          match responseCaches (res h) !! Prefix route with
          | Some c => set_res (set_responseCaches
              (<[Prefix route := Cache.Set_ c key (captured rec) (StatusCode rec) (CapturedHeaders rec) t]>
                 (responseCaches (res h))) (res h)) h
          | None => h
          end)
      else mret tt
  | None => mret tt
  end.

Definition record_breaker (target : string) (start : Z) (success : bool) : G unit :=
  t ← now; t' ← now; h ← handler;
  cb ← of_exec (Breaker.RecordRequest (breaker_of h target) (t - start) success t');
  mod_h (set_breaker target cb).

Definition finish (route : Route) (target traceID : string) (span : option Span) (start : Z)
    (cacheKey : option string) (rec : Recorder) : G unit :=
  mod_h (fun h => set_canaryStats (record_canary (canaryStats h) route target (StatusCode rec)) h);;
  when (500 <=? StatusCode rec) inc_error;;
  cache_store route cacheKey rec;;
  t ← now; r ← request;
  log_line route (BuildLogEntry r rec (Prefix route) target traceID start t "");;
  record_breaker target start (StatusCode rec <? 500);;
  EndSpan span None (attrs [("http.route", Prefix route); ("proxy.target", target)]%string).

(** ** ServeHTTP *)

(** Everything that is decided before the request's own route is used. *)
Definition entrance (docs_html : string) : G Route :=
  admin_paths;;
  tenant_check;;
  docs docs_html;;
  authenticate;;
  find_route.

(** The checks that admit the request on its route; the client's address and
    the route with its final rate limit are what goes on. *)
Definition admission (route : Route) : G (Route * string) :=
  limit_body route;;
  api_key_check route;;
  schema_registry route;;
  mcp route;;
  r ← request;
  let clientIP := Access.client_ip (remote r) in
  ip_check route clientIP;;
  route ← policy_check route;
  rate_limit route clientIP;;
  mret (route, clientIP).

(** The part that reads and rewrites the request, or answers it. *)
Definition preparation (route : Route) (span : option Span) (traceparent : string) : G string :=
  validate_body route span;;
  reqBody ← ai_checks route span;
  wasm_request route span traceparent;;
  plugin_request route span;;
  mret reqBody.

(** The choice of a target, its breaker, and the exits that do not use the
    reverse proxy. *)
Definition targeting (route : Route) (span : option Span) (traceparent : string) : G (string * Url) :=
  target ← pick_target route;
  check_breaker target span;;
  queue_bridge route target span traceparent;;
  targetURL ← parse_target target span;
  llm_routing route;;
  websocket route target targetURL span;;
  request_transform route;;
  grpc_request route;;
  mret (target, targetURL).

Definition serve (docs_html : string) : G unit :=
  start ← now;
  mod_h (fun h => set_metricsTracker (IncRequest (metricsTracker h)) h);;
  route ← entrance docs_html;
  admitted ← admission route;
  let '(route, clientIP) := admitted in
  backpressure route;;
  graphql route;;
  traced ← tracing;
  let '(span, traceparent, traceID) := traced in
  cacheKey ← cache_lookup route clientIP traceID span start;
  reqBody ← preparation route span traceparent;
  targeted ← targeting route span traceparent;
  let '(target, targetURL) := targeted in
  rec ← forward route target traceparent targetURL cacheKey;
  finish route target traceID span start cacheKey rec.

(** The deferred calls. *)
Definition run_deferred_call (d : deferred_call) (s : gst) : gst :=
  match d with
  | DRelease prefix =>
      upd_trace (EReleased prefix)
        (upd_h (fun h => match limiters (res h) !! prefix with
                         | Some (Some l) => match Backpressure.recv_sem l with
                                            | Some l' => set_limiter prefix l' h
                                            | None => h
                                            end
                         | _ => h
                         end) s)
  | DDecConn target =>
      upd_trace (EConnClosed target) (upd_h (fun h => set_bal (decConn (bal h) target) h) s)
  end.

Definition run_deferred (s : gst) : gst :=
  upd_deferred [] (fold_left (fun s d => run_deferred_call d s) (deferred s) s).

Definition initial (h : GatewayHandler R M) (r : Request) : gst :=
  {| gh := h; gw := new_writer; gr := r; ticks := 0; draws := 0; sends := 0; trace := [];
     deferred := [] |}.

(** [ServeHTTP] on a fresh response writer: how it ended, and the state after
    the deferred calls. *)
Definition ServeHTTP (docs_html : string) (h : GatewayHandler R M)
    (r : Request) : outcome unit * gst :=
  let '(o, s) := serve docs_html (initial h r) in (o, run_deferred s).

End Gateway.

End Gateway.
