(* ===== verification/WebSocket.v ===== *)
(** * The metrics WebSocket (pkg/proxy/websocket.go)

    The handshake, the text frames, and the loop that sends a snapshot of the
    metrics every second.  A connection is what was written to it; [net] tells
    which writes fail.  The select between the ticker and the reader is a list
    of events in the order the loop sees them. *)

From S2P Require Import Prelude GoStrings GoFloat Encoding Hash Json Config Codec Http Handler Gateway.
Open Scope Z_scope.

Module WebSocket.
Import Http.

(** ** The handshake *)

Definition magic : string := "258EAFA5-E914-47DA-95CA-C5AB0DC85B11".

Definition accept_key (key : string) : string := b64_encode false true (sha1 (key ++ magic)).

Definition crlf : string := of_bytes [13; 10].

Definition switching (accept : string) : string :=
  "HTTP/1.1 101 Switching Protocols" ++ crlf ++ "Upgrade: websocket" ++ crlf ++
  "Connection: Upgrade" ++ crlf ++ "Sec-WebSocket-Accept: " ++ accept ++ crlf ++ crlf.

(** A connection: the bytes written, the number of writes, and whether it was
    closed. *)
Record Conn := { c_out : string; c_writes : nat; c_closed : bool }.

(** What the loop selects: the reader saw the end of the connection, or the
    ticker fired at [now] with the handler in the given state. *)
Inductive ws_event (R M : Type) :=
| WsClosed
| WsTick (h : Handler.GatewayHandler R M) (now : Z).
Arguments WsClosed {R M}.
Arguments WsTick {R M} h now.

Section Net.
(** The writes that fail: how many bytes went out, and the error. *)
Context (net : nat -> option (Z * string)).

Definition conn_Write (b : string) (c : Conn) : option string * Conn :=
  match net (c_writes c) with
  | None => (None, {| c_out := c_out c ++ b; c_writes := S (c_writes c); c_closed := c_closed c |})
  | Some (n, err) =>
      (Some err, {| c_out := c_out c ++ stake (Z.to_nat n) b; c_writes := S (c_writes c);
                    c_closed := c_closed c |})
  end.

Definition conn_Close (c : Conn) : Conn :=
  {| c_out := c_out c; c_writes := c_writes c; c_closed := true |}.

Definition new_conn : Conn := {| c_out := ""; c_writes := 0; c_closed := false |}.

(** The answer is one buffered write; its error is not looked at. *)
Definition UpgradeToWebSocket (hj : Gateway.hijack_outcome) (r : Request) : result string Conn :=
  if negb (String.eqb (rget r "Upgrade") "websocket") then Err "missing Upgrade: websocket header"%string
  else
    let key := rget r "Sec-WebSocket-Key" in
    if String.eqb key "" then Err "missing Sec-WebSocket-Key header"%string
    else match hj with
         | Gateway.HijackUnsupported => Err "webserver does not support hijacking"%string
         | Gateway.HijackFailed err => Err err
         | Gateway.Hijacked => Ok (snd (conn_Write (switching (accept_key key)) new_conn))
         end.

(** ** Frames *)

Definition frame_header (length : Z) : list Z :=
  129 :: (if length <? 126 then [u8 length]
          else if length <? 65536 then [126; u8 (Z.shiftr length 8); u8 length]
          else 127 :: map (fun i => u8 (Z.shiftr length (i * 8))) [7; 6; 5; 4; 3; 2; 1; 0]).

Definition frame (text : string) : string := of_bytes (frame_header (slen text)) ++ text.

Definition WriteWebSocketTextFrame (text : string) (c : Conn) : option string * Conn :=
  conn_Write (frame text) c.

(** ** The metrics loop *)

(** [json.Marshal(snap)]: it fails on a float that is no number. *)
Definition encode_snapshot (s : Handler.GatewayMetricsSnapshot) : json :=
  JObj [("total_requests", JNum (Itoa (Handler.TotalRequests s)));
        ("total_errors", JNum (Itoa (Handler.TotalErrors s)));
        ("request_rate", JNum (fmt_float (Handler.RequestRate s)));
        ("error_rate", JNum (fmt_float (Handler.ErrorRate s)));
        ("active_connections",
         JObj (map (fun kv => (fst kv, JNum (Itoa (snd kv)))) (sorted_entries (Handler.ActiveConnections s))));
        ("timestamp", JNum (Itoa (Handler.SnapshotTime s)))]%string.

Definition marshal_snapshot (s : Handler.GatewayMetricsSnapshot) : option string :=
  if Config.is_number (Handler.RequestRate s) && Config.is_number (Handler.ErrorRate s)
  then Some (render (encode_snapshot s)) else None.

Definition initMsg : string :=
  render (JObj [("status", JStr "connected"); ("type", JStr "connection_established")]%string).

(** The flag tells whether the loop returned. *)
Fixpoint ws_loop {R M} (evs : list (ws_event R M)) (c : Conn) : Conn * bool :=
  match evs with
  | [] => (c, false)
  | WsClosed :: _ => (c, true)
  | WsTick h now :: evs' =>
      match marshal_snapshot (Handler.GetMetricsSnapshot h now) with
      | None => ws_loop evs' c
      | Some data =>
          match WriteWebSocketTextFrame data c with
          | (Some _, c) => (c, true)
          | (None, c) => ws_loop evs' c
          end
      end
  end.

(** The writer, and the connection when there was an upgrade; returning closes
    it. *)
Definition HandleWebSocketMetrics {R M} (hj : Gateway.hijack_outcome) (evs : list (ws_event R M))
    (w : ServerWriter) (r : Request) : exec (ServerWriter * option Conn) :=
  match UpgradeToWebSocket hj r with
  | Err e => let! w := http_Error w e 400 in Done (w, None)
  | Ok c =>
      match WriteWebSocketTextFrame initMsg c with
      | (Some _, c) => Done (w, Some (conn_Close c))
      | (None, c) =>
          let '(c, returned) := ws_loop evs c in
          Done (w, Some (if returned then conn_Close c else c))
      end
  end.

End Net.

(** The reader goroutine, started at [start]: the data (or the error, with
    [true]) that arrives, by time; the result is when it reports the end. *)
Definition read_deadline : Z := 60 * second.

Fixpoint reader (start : Z) (arrivals : list (Z * bool)) : Z :=
  match arrivals with
  | [] => start + read_deadline
  | (t, failed) :: rest =>
      if t <? start + read_deadline then (if failed then t else reader t rest)
      else start + read_deadline
  end.

(** ** A client's view: RFC 6455, section 5.2

    An unfragmented, unmasked text frame whose length is written in the least
    number of bytes. *)

Definition payload (n : Z) (s : string) : option (string * string) :=
  if slen s <? n then None else Some (stake (Z.to_nat n) s, sdrop (Z.to_nat n) s).

Definition parse_frame (s : string) : option (string * string) :=
  match bytes (stake 2 s) with
  | [b0; b1] =>
      if negb (b0 =? 129) then None
      else if b1 <? 126 then payload b1 (sdrop 2 s)
      else if b1 =? 126 then
        let n := of_be (bytes (stake 2 (sdrop 2 s))) in
        if (slen s <? 4) || (n <? 126) then None else payload n (sdrop 4 s)
      else if b1 =? 127 then
        let n := of_be (bytes (stake 8 (sdrop 2 s))) in
        if (slen s <? 10) || (n <? 65536) || (2 ^ 63 <=? n) then None else payload n (sdrop 10 s)
      else None
  | _ => None
  end.

Fixpoint parse_frames (fuel : nat) (s : string) : option (list string) :=
  match s with
  | ""%string => Some []
  | _ =>
      match fuel with
      | O => None
      | S fuel =>
          match parse_frame s with
          | Some (text, rest) => cons text <$> parse_frames fuel rest
          | None => None
          end
      end
  end.

Example rfc_handshake : accept_key "dGhlIHNhbXBsZSBub25jZQ==" = "s3pPLMBiTxaQ9kYGzzhZRbK+xOo="%string.
Proof. vm_compute. reflexivity. Qed.

(** ** Lemmas *)

Lemma frame_header_bytes n : Forall is_byte (frame_header n).
Proof.
  unfold frame_header. constructor; [unfold is_byte; lia|].
  destruct (n <? 126); [|destruct (n <? 65536)]; repeat constructor; try apply u8_range;
    unfold is_byte; lia.
Qed.

(** The three shapes of a header. *)
Lemma frame_header_cases n : 0 <= n < 2 ^ 63 ->
  (n < 126 /\ frame_header n = [129; n]) \/
  (126 <= n < 65536 /\ frame_header n = 129 :: 126 :: be_bytes 2 n) \/
  (65536 <= n /\ frame_header n = 129 :: 127 :: be_bytes 8 n).
Proof.
  intros Hn. unfold frame_header. destruct (Z.ltb_spec n 126); [left|right; destruct (Z.ltb_spec n 65536); [left|right]].
  - split; [done|]. unfold u8. rewrite Z.mod_small by lia. done.
  - split; [lia|done].
  - split; [lia|done].
Qed.

Lemma payload_app text rest : payload (slen text) (text ++ rest) = Some (text, rest).
Proof.
  unfold payload. rewrite slen_app. destruct (Z.ltb_spec (slen text + slen rest) (slen text));
    [unfold slen in *; lia|]. unfold slen. by rewrite Nat2Z.id, stake_app, sdrop_app.
Qed.


Lemma parse_frame_of text rest : slen text < 2 ^ 63 -> parse_frame (frame text ++ rest) = Some (text, rest).
Proof.
  intros Hlen. unfold frame, parse_frame. rewrite sapp_assoc.
  assert (H0 : 0 <= slen text) by (unfold slen; lia).
  pose proof (frame_header_bytes (slen text)) as Hb.
  destruct (frame_header_cases (slen text)) as [[Hn Hh]|[[Hn Hh]|[Hn Hh]]]; [lia|..]; rewrite Hh in Hb |- *.
  - rewrite (stake_bytes 2), (sdrop_bytes 2) by done.
    change (129 =? 129) with true. cbn [negb]. rewrite (proj2 (Z.ltb_lt _ _)) by lia.
    apply payload_app.
  - assert (Hs : forall n, sdrop (2 + n) (of_bytes (129 :: 126 :: be_bytes 2 (slen text)) ++ (text ++ rest))
                 = sdrop n (of_bytes (be_bytes 2 (slen text)) ++ (text ++ rest))) by done.
    rewrite (Hs 0%nat : sdrop 2 _ = (_ ++ _)%string), (Hs 2%nat : sdrop 4 _ = _).
    rewrite (stake_bytes 2 (be_bytes _ _)), (sdrop_bytes 2) by (done || apply be_bytes_are_bytes).
    rewrite of_be_bytes, slen_app, slen_of_bytes, Z.mod_small by lia.
    change (bytes (stake 2 _)) with [129; 126]. cbn beta iota.
    change (129 =? 129) with true. change (126 <? 126) with false. change (126 =? 126) with true.
    cbn [negb]. rewrite (proj2 (Z.ltb_ge (lenZ _ + _) _)), (proj2 (Z.ltb_ge (slen text) 126)) by
      (unfold lenZ; simpl; unfold slen in *; lia). apply payload_app.
  - assert (Hs : forall n, sdrop (2 + n) (of_bytes (129 :: 127 :: be_bytes 8 (slen text)) ++ (text ++ rest))
                 = sdrop n (of_bytes (be_bytes 8 (slen text)) ++ (text ++ rest))) by done.
    rewrite (Hs 0%nat : sdrop 2 _ = (_ ++ _)%string), (Hs 8%nat : sdrop 10 _ = _).
    rewrite (stake_bytes 8 (be_bytes _ _)), (sdrop_bytes 8) by (done || apply be_bytes_are_bytes).
    rewrite of_be_bytes, slen_app, slen_of_bytes, Z.mod_small by lia.
    change (bytes (stake 2 (of_bytes (129 :: 127 :: be_bytes 8 (slen text)) ++ (text ++ rest)))) with [129; 127]. cbn beta iota.
    change (129 =? 129) with true. change (127 <? 126) with false. change (127 =? 126) with false.
    change (127 =? 127) with true. cbn [negb].
    rewrite (proj2 (Z.ltb_ge (lenZ _ + _) _)), (proj2 (Z.ltb_ge (slen text) 65536)),
      (proj2 (Z.leb_gt _ _)) by (unfold lenZ; simpl; unfold slen in *; lia). apply payload_app.
Qed.

(** ** What a session sends *)

Definition stream (texts : list string) : string := foldr (fun t s => (frame t ++ s)%string) ""%string texts.

(** The snapshots of the ticks before the end of the connection is seen. *)
Fixpoint delivered {R M} (evs : list (ws_event R M)) : list string :=
  match evs with
  | [] => []
  | WsClosed :: _ => []
  | WsTick h now :: evs' =>
      match marshal_snapshot (Handler.GetMetricsSnapshot h now) with
      | Some data => data :: delivered evs'
      | None => delivered evs'
      end
  end.

Definition sendable (t : string) : Prop := slen t < 2 ^ 63.

Lemma all_sendable texts : forallb (fun t => slen t <? 2 ^ 63) texts = true -> Forall sendable texts.
Proof.
  intros H. rewrite forallb_forall in H. apply List.Forall_forall. intros t Ht. specialize (H t Ht).
  unfold sendable. breflect. done.
Qed.

Lemma stream_app l k : stream (l ++ k) = (stream l ++ stream k)%string.
Proof. unfold stream. induction l as [|t l IH]; [done|]. cbn [app foldr]. by rewrite IH, sapp_assoc. Qed.

Lemma parse_stream texts : Forall sendable texts -> parse_frames (length texts) (stream texts) = Some texts.
Proof.
  induction 1 as [|t l Ht _ IH]; [done|]. cbn [stream foldr length].
  change (foldr _ _ l) with (stream l).
  assert (Hne : exists a s, (frame t ++ stream l)%string = String a s) by (by eexists _, _).
  destruct Hne as (a & s & Hs). rewrite Hs. cbn [parse_frames]. rewrite <- Hs.
  rewrite parse_frame_of by done. by rewrite IH.
Qed.

Section Session.
Context (net : nat -> option (Z * string)).

(** Of [texts], written on a connection that had sent [before]: a prefix in
    full, then at most a part of the next frame, and everything when no write
    fails. *)
Definition delivers (before : string) (texts : list string) (after : string) : Prop :=
  exists sent rest partial,
    texts = sent ++ rest /\ after = (before ++ stream sent ++ partial)%string /\
    (partial = ""%string \/ exists t n, head rest = Some t /\ partial = stake n (frame t)) /\
    ((forall n, net n = None) -> rest = [] /\ partial = ""%string).

Lemma delivers_nil before : delivers before [] before.
Proof.
  exists [], [], ""%string. split; [done|]. split; [simpl; by rewrite sapp_nil_r|].
  split; [by left|done].
Qed.

Lemma delivers_cons before t texts after :
  delivers (before ++ frame t) texts after -> delivers before (t :: texts) after.
Proof.
  intros (sent & rest & partial & -> & -> & Hpart & Hall).
  exists (t :: sent), rest, partial. split; [done|].
  split; [change (stream (t :: sent)) with (frame t ++ stream sent)%string; by rewrite !sapp_assoc|done].
Qed.

Lemma delivers_failed before t texts n k err : net k = Some (n, err) ->
  delivers before (t :: texts) (before ++ stake (Z.to_nat n) (frame t)).
Proof.
  intros Hk. exists [], (t :: texts), (stake (Z.to_nat n) (frame t)). split; [done|]. split; [done|].
  split; [right; by exists t, (Z.to_nat n)|]. intros Hall. by rewrite Hall in Hk.
Qed.

Lemma ws_loop_delivers {R M} (evs : list (ws_event R M)) c :
  delivers (c_out c) (delivered evs) (c_out (fst (ws_loop net evs c))).
Proof.
  revert c. induction evs as [|[|h now] evs IH]; intros c; simpl; try apply delivers_nil.
  destruct (marshal_snapshot _) as [data|]; [|apply IH].
  unfold WriteWebSocketTextFrame, conn_Write. destruct (net (c_writes c)) as [[n err]|] eqn:En.
  - by eapply delivers_failed.
  - apply delivers_cons. apply IH.
Qed.

(** ** Properties *)

(** C12. What a metrics client reads after the handshake: the greeting and
    the snapshots of the ticks, each a well formed text frame, in order and
    without a gap, up to the first write that fails, which may leave a part of
    one frame; all of them when no write fails. *)
Theorem metrics_stream {R M} hj (evs : list (ws_event R M)) w r c0 w' c :
  Forall sendable (initMsg :: delivered evs) ->
  UpgradeToWebSocket net hj r = Ok c0 ->
  HandleWebSocketMetrics net hj evs w r = Done (w', Some c) ->
  exists sent rest partial,
    initMsg :: delivered evs = sent ++ rest /\
    c_out c = (c_out c0 ++ stream sent ++ partial)%string /\
    parse_frames (length sent) (stream sent) = Some sent /\
    (partial = ""%string \/ exists t n, head rest = Some t /\ partial = stake n (frame t)) /\
    ((forall n, net n = None) -> rest = [] /\ partial = ""%string).
Proof.
  intros Hs Hu. unfold HandleWebSocketMetrics. rewrite Hu. intros Hh.
  assert (Hd : delivers (c_out c0) (initMsg :: delivered evs) (c_out c)).
  { unfold WriteWebSocketTextFrame, conn_Write in Hh.
    destruct (net (c_writes c0)) as [[n err]|] eqn:En.
    - injection Hh as <- <-. by eapply delivers_failed.
    - pose proof (ws_loop_delivers evs {| c_out := c_out c0 ++ frame initMsg; c_writes := S (c_writes c0);
                                          c_closed := c_closed c0 |}) as Hl.
      destruct (ws_loop net evs _) as [c1 returned]. injection Hh as <- <-.
      apply delivers_cons. by destruct returned. }
  destruct Hd as (sent & rest & partial & He & Hc & Hp & Hall).
  exists sent, rest, partial. split_and!; auto. apply parse_stream.
  rewrite He in Hs. by apply Forall_app in Hs as [? _].
Qed.

End Session.

(** A listening client is dropped: the reader reports the end of the
    connection at most sixty seconds after the last data that arrived, however
    much was sent to the client, and exactly then when nothing arrives. *)
Theorem reader_bounds start arrivals :
  reader start [] = start + 60 * second /\
  reader start arrivals <= foldr (fun a t => Z.max (fst a) t) start arrivals + 60 * second.
Proof.
  split; [done|]. revert start.
  induction arrivals as [|[t failed] rest IH]; intros start; [done|].
  cbn [reader foldr fst].
  assert (Hmax : start <= foldr (fun a x => Z.max (fst a) x) start rest /\
                 foldr (fun a x => Z.max (fst a) x) t rest
                 <= Z.max t (foldr (fun a x => Z.max (fst a) x) start rest)).
  { clear. induction rest as [|a l IH]; simpl; lia. }
  specialize (IH t). unfold read_deadline, second in *.
  destruct (t <? _); [destruct failed|]; lia.
Qed.

(** *** Witnesses and examples *)

Definition metrics_request : Request :=
  {| method := "GET"; url := {| u_scheme := ""; u_host := ""; u_path := "/api/admin/metrics/ws"; u_query := "" |};
     host := "gw"; header := hset "Upgrade" "websocket" (hset "Sec-WebSocket-Key" "dGhlIHNhbXBsZSBub25jZQ==" ∅);
     body := string_reader ""; content_length := 0; remote := "10.0.0.1:5000"; ctx_tenant := None;
     ctx_redact := None |}.

Definition quiet_net : nat -> option (Z * string) := fun _ => None.
Definition third_write_fails (k : nat) : option (Z * string) :=
  if Nat.eqb k 2 then Some (5, "broken pipe"%string) else None.

Definition sample_events : list (ws_event unit unit) :=
  match Handler.sample_start with
  | Done h => [WsTick h (5 * second); WsTick h (6 * second); WsClosed; WsTick h (7 * second)]
  | Panic _ => []
  end.

Definition sample_session (net : nat -> option (Z * string)) : exec (ServerWriter * option Conn) :=
  HandleWebSocketMetrics net Gateway.Hijacked sample_events new_writer metrics_request.

(** Three frames and a closed connection; with the third write failing, one
    frame and five bytes of the second. *)
Example session_frames :
  match sample_session quiet_net, sample_session third_write_fails with
  | Done (_, Some c), Done (_, Some c') =>
      let skip := String.length (switching (accept_key "dGhlIHNhbXBsZSBub25jZQ==")) in
      option_map (@length string) (parse_frames 10 (sdrop skip (c_out c))) = Some 3%nat /\
      c_closed c = true /\ c_closed c' = true /\
      String.length (sdrop skip (c_out c')) = (String.length (frame initMsg) + 5)%nat
  | _, _ => False
  end.
Proof. vm_compute. split; [reflexivity|]. split; [reflexivity|]. split; reflexivity. Qed.

Lemma metrics_stream_witness :
  match UpgradeToWebSocket third_write_fails Gateway.Hijacked metrics_request,
        sample_session third_write_fails with
  | Ok c0, Done (w', Some c) =>
      exists sent rest partial,
        initMsg :: delivered sample_events = sent ++ rest /\
        c_out c = (c_out c0 ++ stream sent ++ partial)%string /\
        parse_frames (length sent) (stream sent) = Some sent /\
        (partial = ""%string \/ exists t n, head rest = Some t /\ partial = stake n (frame t)) /\
        ((forall n, third_write_fails n = None) -> rest = [] /\ partial = ""%string)
  | _, _ => False
  end.
Proof.
  destruct (UpgradeToWebSocket _ _ _) as [c0|e] eqn:Eu; [|vm_compute in Eu; discriminate].
  unfold sample_session.
  destruct (HandleWebSocketMetrics _ _ _ _ _) as [[w' [c|]]|why] eqn:Eh;
    [|vm_compute in Eh; discriminate|vm_compute in Eh; discriminate].
  refine (metrics_stream third_write_fails Gateway.Hijacked sample_events new_writer metrics_request
            c0 w' c _ Eu Eh).
  apply all_sendable. vm_compute. reflexivity.
Defined.

(** The comparison of the header is exact, and neither the method, nor
    [Connection], nor the version of the protocol is looked at. *)
Example upgrade_checks :
  UpgradeToWebSocket quiet_net Gateway.Hijacked (rset "Upgrade" "WebSocket" metrics_request)
    = Err "missing Upgrade: websocket header"%string /\
  is_ok (UpgradeToWebSocket quiet_net Gateway.Hijacked
           (rset "Sec-WebSocket-Version" "7" (set_method "DELETE" metrics_request))) = true.
Proof. vm_compute. split; reflexivity. Qed.

(** A client that only listens is dropped after a minute. *)
Example listener_dropped : reader 0 [] = minute /\ reader 0 [(30 * second, false)] = 90 * second.
Proof. split; reflexivity. Qed.

End WebSocket.
