(* ===== verification/Provider.v ===== *)
(** * Configuration providers as an interface (pkg/proxy/provider.go: [ConfigProvider])

    What the administration promises itself of a provider, the laws it needs,
    and the two implementations: a file, and an object in an S3-compatible
    store. *)

From S2P Require Import Prelude GoStrings Json Types Codec Config.
Import Codec.
Open Scope Z_scope.

Module Provider.

(** The error of a [Load]; [os.IsNotExist] holds of the first kind. *)
Inductive load_error := NotExist (msg : string) | LoadFailed (msg : string).

Definition load_error_text (e : load_error) : string :=
  match e with NotExist m | LoadFailed m => m end.

(** [type ConfigProvider interface { Load; Save }].  Both read the clock; the
    configuration given to [Save] is signed in place, so it is a result as
    well.  [local_path] is the type assertion to [*LocalFileProvider]. *)
Class ConfigProvider (P : Type) := {
  Load : Z -> P -> result load_error GatewayConfig;
  Save : Z -> GatewayConfig -> P -> option string * GatewayConfig * P;
  local_path : P -> option string;
}.

(** A configuration that can be stored at [t], and an instant at which what
    was stored is still accepted. *)
Definition storable (t : Z) (c : GatewayConfig) : Prop :=
  valid c /\ in_i64 ((t + 24 * 60 * minute) / second) /\ 0 <= t.
Definition fresh (t now : Z) : Prop := now / second <= (t + 24 * 60 * minute) / second.

Class ProviderLaws (P : Type) `{ConfigProvider P} := {
  save_keeps_routes t c p e c' p' : Save t c p = (e, c', p') -> Routes c' = Routes c;
  load_after_save t now c p c' p' :
    Save t c p = (None, c', p') -> storable t c -> fresh t now -> Load now p' = Ok c';
}.

(** ** The file *)

Record LocalFileProvider := {
  lf_path : string;
  lf_env : gmap string string;
  lf_content : result load_error string;
  lf_write_error : option string;
}.

Definition local_Load (now : Z) (p : LocalFileProvider) : result load_error GatewayConfig :=
  match lf_content p with
  | Err e => Err e
  | Ok body =>
      match Config.local_load (lf_env p) (Some body) now with
      | Ok c => Ok c
      | Err e => Err (LoadFailed e)
      end
  end.

Definition local_Save (now : Z) (c : GatewayConfig) (p : LocalFileProvider)
  : option string * GatewayConfig * LocalFileProvider :=
  match Config.local_save (lf_env p) c now with
  | Err e => (Some e, default c (Config.sign_body (lf_env p) c now), p)
  | Ok (c', data) =>
      match lf_write_error p with
      | Some e => (Some e, c', p)
      | None => (None, c', {| lf_path := lf_path p; lf_env := lf_env p; lf_content := Ok data;
                              lf_write_error := None |})
      end
  end.

#[export] Instance local_provider : ConfigProvider LocalFileProvider := {
  Load := local_Load; Save := local_Save; local_path p := Some (lf_path p);
}.

(** ** The object store *)

(** An HTTP client talking to a store with a state. *)
Class HttpStore (St : Type) := do_request : Config.s3_request -> St -> option (Z * string) * St.

(** An object that was put is what the next request for it gets. *)
Class HttpStoreLaws (St : Type) `{HttpStore St} :=
  get_after_put url hdrs hdrs' data st code b st' :
    do_request {| Config.Verb := "PUT"; Config.Url := url; Config.ReqHeaders := hdrs; Config.Payload := data |} st
      = (Some (code, b), st') ->
    code = 200 \/ code = 201 \/ code = 204 ->
    fst (do_request {| Config.Verb := "GET"; Config.Url := url; Config.ReqHeaders := hdrs';
                       Config.Payload := "" |} st') = Some (200, data).

Record S3Provider (St : Type) := {
  s3_conf : Config.S3ConfigProvider;
  s3_env : gmap string string;
  s3_store : St;
}.
Arguments s3_conf {St} _.
Arguments s3_env {St} _.
Arguments s3_store {St} _.

Section S3.
Context {St : Type} `{HttpStore St}.

Definition with_store (st : St) (p : S3Provider St) : S3Provider St :=
  {| s3_conf := s3_conf p; s3_env := s3_env p; s3_store := st |}.

Definition s3_get (p : S3Provider St) : option (Z * string) :=
  fst (do_request {| Config.Verb := "GET"; Config.Url := Config.object_url (s3_conf p);
                     Config.ReqHeaders := Config.s3_auth (s3_conf p); Config.Payload := "" |} (s3_store p)).

Definition s3_Load (now : Z) (p : S3Provider St) : result load_error GatewayConfig :=
  match Config.s3_load (fun _ => s3_get p) (s3_conf p) (s3_env p) now with
  | Ok c => Ok c
  | Err e => Err (match s3_get p with
                  | Some (404, _) => NotExist e
                  | _ => LoadFailed e
                  end)
  end.

(** The requests of a [Save], in order; the answer to the last decides. *)
Definition s3_Save (now : Z) (c : GatewayConfig) (p : S3Provider St)
  : option string * GatewayConfig * S3Provider St :=
  let signed := default c (Config.sign_body (s3_env p) c now) in
  let requests := fst (Config.s3_save (fun _ => None) (s3_conf p) (s3_env p) c now) in
  let '(answer, st) := fold_left (fun '(_, st) rq => do_request rq st) requests (None, s3_store p) in
  match snd (Config.s3_save (fun _ => answer) (s3_conf p) (s3_env p) c now) with
  | Ok c' => (None, c', with_store st p)
  | Err e => (Some e, signed, with_store st p)
  end.

#[export] Instance s3_provider : ConfigProvider (S3Provider St) := {
  Load := s3_Load; Save := s3_Save; local_path _ := None;
}.
End S3.

(** ** Both keep the laws *)

Lemma sign_body_routes env c t c' : Config.sign_body env c t = Some c' -> Routes c' = Routes c.
Proof.
  unfold Config.sign_body. destruct (String.eqb _ ""); [by intros [= <-]|].
  by intros (text & _ & ->)%Config.signConfig_spec.
Qed.

Lemma signed_routes env c t : Routes (default c (Config.sign_body env c t)) = Routes c.
Proof. destruct (Config.sign_body env c t) eqn:E; [by apply sign_body_routes in E|done]. Qed.

(** A text was made for the signed configuration. *)
Lemma save_body_inv env c t c' data : Config.save_body env c t = Ok (c', data) ->
  Config.sign_body env c t = Some c' /\ Config.marshal_config c' = Some data.
Proof.
  unfold Config.save_body. destruct (Config.sign_body env c t) as [c1|]; [|done].
  destruct (Config.marshal_config c1) as [d|] eqn:E; [|done]. intros [= <- <-]. by rewrite E.
Qed.

Lemma save_body_routes env c t c' data : Config.save_body env c t = Ok (c', data) -> Routes c' = Routes c.
Proof. intros [Hs _]%save_body_inv. by eapply sign_body_routes. Qed.

Lemma loads_what_was_saved env c t now c' data : storable t c -> fresh t now ->
  Config.save_body env c t = Ok (c', data) -> Config.load_body env data now = Ok c'.
Proof.
  intros (Hv & Hi & Ht) Hf Hs.
  destruct (Config.local_save_load env c t now Hv Hi Ht) as (c1 & d1 & Hs1 & _ & Hl).
  unfold Config.local_save in Hs1. rewrite Hs in Hs1. injection Hs1 as <- <-.
  unfold Config.local_load in Hl. rewrite Hl, (proj2 (Z.ltb_ge _ _) Hf), andb_false_r. done.
Qed.

#[export] Instance local_laws : ProviderLaws LocalFileProvider.
Proof.
  split.
  - intros t c p e c' p'. cbn [Save local_provider]. unfold local_Save, Config.local_save.
    destruct (Config.save_body (lf_env p) c t) as [[c1 data]|] eqn:E.
    2: { intros [= _ <- _]. apply signed_routes. }
    apply save_body_routes in E. destruct (lf_write_error p); by intros [= _ <- _].
  - intros t now c p c' p'. cbn [Save Load local_provider]. unfold local_Save, Config.local_save.
    intros Hs Hst Hf.
    destruct (Config.save_body (lf_env p) c t) as [[c1 data]|] eqn:E; [|done].
    destruct (lf_write_error p); [done|]. injection Hs as <- <-.
    unfold local_Load, Config.local_load. cbn [lf_content lf_env].
    by rewrite (loads_what_was_saved _ _ _ _ _ _ Hst Hf E).
Qed.

(** A save that succeeds has put the text, and was told so. *)
Lemma s3_save_inv {St} `{HttpStore St} t c (p : S3Provider St) c' p' :
  s3_Save t c p = (None, c', p') ->
  exists data st st' code b,
    Config.save_body (s3_env p) c t = Ok (c', data) /\
    do_request {| Config.Verb := "PUT"; Config.Url := Config.object_url (s3_conf p);
                  Config.ReqHeaders := ("Content-Type", "application/json")%string :: Config.s3_auth (s3_conf p);
                  Config.Payload := data |} st = (Some (code, b), st') /\
    p' = with_store st' p /\ (code = 200 \/ code = 201 \/ code = 204).
Proof.
  unfold s3_Save, Config.s3_save, Config.save_body.
  destruct (Config.sign_body (s3_env p) c t) as [c1|]; [|done].
  destruct (Config.marshal_config c1) as [data|]; cbn [fst snd fold_left].
  2: { by destruct (do_request _ _). }
  destruct (do_request (Config.ensureBucketExists _) _) as [a0 st0].
  destruct (do_request _ st0) as [[[code b]|] st'] eqn:Ed; [|done].
  destruct (_ && _) eqn:Ec; [done|]. intros [= <- <-]. exists data, st0, st', code, b.
  split; [done|]. split; [exact Ed|]. split; [done|].
  apply andb_false_iff in Ec as [[Ec|Ec]%andb_false_iff|Ec]; apply negb_false_iff, Z.eqb_eq in Ec; auto.
Qed.

Lemma s3_save_routes {St} `{HttpStore St} t c (p : S3Provider St) e c' p' :
  s3_Save t c p = (e, c', p') -> Routes c' = Routes c.
Proof.
  destruct e as [e|].
  - unfold s3_Save. destruct (fold_left _ _ _) as [answer st].
    destruct (snd _); [done|]. intros [= _ <- _]. apply signed_routes.
  - intros (data & ? & ? & ? & ? & Hs & _)%s3_save_inv. by eapply save_body_routes.
Qed.

#[export] Instance s3_laws {St} `{HttpStoreLaws St} : ProviderLaws (S3Provider St).
Proof.
  split; [intros t c p e c' p'; apply s3_save_routes|].
  intros t now c p c' p' Hs Hst Hf. cbn [Save Load s3_provider] in *.
  apply s3_save_inv in Hs as (data & st & st' & code & b & E & Hput & -> & Hcode).
  assert (Hget : s3_get (with_store st' p) = Some (200, data)).
  { unfold s3_get. cbn [s3_conf s3_store with_store]. by eapply get_after_put. }
  unfold s3_Load, Config.s3_load. rewrite Hget. change (200 =? 404) with false.
  change (negb (200 =? 200)) with false. cbn [s3_env with_store].
  by rewrite (loads_what_was_saved _ _ _ _ _ _ Hst Hf E).
Qed.

End Provider.
