(* ===== verification/Typing.v ===== *)
(** * What the JSON decoders return (pkg/proxy: struct tags, provider.go)

    Whatever bytes a document has, the strings it is parsed into are valid
    UTF-8, and whatever a decoder returns has integers of their machine width,
    valid strings and finite floats.  The interface [Typed] extends [Codec] by
    this law; together with the round trip it makes what was loaded storable
    again.  What loads is what its text decodes to, and carries a signature for
    its own routes when a secret is set. *)

From S2P Require Import Prelude GoStrings GoFloat Encoding Hash Json Types Codec Token Config Provider.
Import Codec.
Open Scope Z_scope.

Module Typing.

(** ** Strings of a document *)

Lemma utf8_fuel_enough n m s : (String.length s <= n)%nat -> (String.length s <= m)%nat ->
  utf8_valid_fuel n s = utf8_valid_fuel m s.
Proof.
  revert m s. induction n as [|n IH]; intros m s Hn Hm; (destruct s as [|c t]; [by destruct m|]);
    simpl in Hn, Hm; [lia|]. destruct m as [|m]; [lia|]. cbn [utf8_valid_fuel].
  destruct (rune_len (String c t)) as [k|] eqn:E; [|done].
  destruct (rune_len_spec c t k E) as [Hk _].
  apply IH; rewrite length_sdrop; simpl; lia.
Qed.

(** A rune and what follows it. *)
Lemma utf8_rune_app p rest : p <> ""%string -> rune_len p = Some (String.length p) ->
  utf8_valid (p ++ rest) = utf8_valid rest.
Proof.
  intros Hp Hl. destruct p as [|c t]; [done|].
  destruct (rune_len_spec c t _ Hl) as (Hk & _ & Hr). specialize (Hr rest).
  pose proof (stake_app (String c t) ""%string) as Hs. rewrite sapp_nil_r in Hs. rewrite Hs in Hr.
  pose proof (sdrop_app (String c t) rest) as Hd. unfold utf8_valid.
  change ((String c t ++ rest)%string) with (String c (t ++ rest)) in *. cbn [String.length utf8_valid_fuel] in *.
  rewrite Hr, Hd. apply utf8_fuel_enough; rewrite ?slength_app; lia.
Qed.

Lemma utf8_stake c t k : rune_len (String c t) = Some k ->
  stake k (String c t) <> ""%string /\ rune_len (stake k (String c t)) = Some (String.length (stake k (String c t))).
Proof.
  intros E. destruct (rune_len_spec c t k E) as (Hk & _ & Hr). specialize (Hr ""%string).
  rewrite sapp_nil_r in Hr. rewrite Hr, length_stake. split.
  - by destruct k; [lia|].
  - f_equal. simpl. lia.
Qed.

(** The encoding of a scalar value is one rune. *)
Definition scalar (r : Z) : Prop := 0 <= r < 55296 \/ 57344 <= r < 1114112.

Lemma rune_len_of_bytes (l : list Z) : Forall is_byte l ->
  rune_len (of_bytes l) =
  match l with
  | [] => None
  | b :: t =>
      if b <? 128 then Some 1%nat
      else if (194 <=? b) && (b <=? 223) then
        match t with c1 :: _ => if (128 <=? c1) && (c1 <=? 191) then Some 2%nat else None | _ => None end
      else if (224 <=? b) && (b <=? 239) then
        match t with
        | c1 :: c2 :: _ =>
            if ((if b =? 224 then 160 else 128) <=? c1) && (c1 <=? (if b =? 237 then 159 else 191)) &&
               ((128 <=? c2) && (c2 <=? 191)) then Some 3%nat else None
        | _ => None
        end
      else if (240 <=? b) && (b <=? 244) then
        match t with
        | c1 :: c2 :: c3 :: _ =>
            if ((if b =? 240 then 144 else 128) <=? c1) && (c1 <=? (if b =? 244 then 143 else 191)) &&
               ((128 <=? c2) && (c2 <=? 191)) && ((128 <=? c3) && (c3 <=? 191)) then Some 4%nat else None
        | _ => None
        end
      else None
  end.
Proof.
  intros Hl. assert (Hb : forall x, In x l -> byte_of (of_byte x) = x).
  { intros x Hx. apply byte_of_of_byte. by apply (proj1 (List.Forall_forall _ _) Hl). }
  destruct l as [|b [|c1 [|c2 [|c3 l]]]]; [done|..];
    cbn [of_bytes rune_len]; unfold cont, in_range; rewrite ?Hb by (simpl; tauto); done.
Qed.

Ltac decide_ifs := repeat (first [ rewrite (proj2 (Z.ltb_lt _ _)) by lia | rewrite (proj2 (Z.ltb_ge _ _)) by lia
  | rewrite (proj2 (Z.leb_le _ _)) by lia | rewrite (proj2 (Z.leb_gt _ _)) by lia
  | rewrite (proj2 (Z.eqb_neq _ _)) by lia ]; cbn [andb orb]).

Lemma utf8_encode_rune r : scalar r ->
  utf8_encode r <> ""%string /\ rune_len (utf8_encode r) = Some (String.length (utf8_encode r)).
Proof.
  intros Hr. unfold utf8_encode.
  assert (Hmod : forall x, 0 <= x mod 64 < 64) by (intros; apply Z.mod_pos_bound; lia).
  pose proof (Hmod r). pose proof (Hmod (r / 64)). pose proof (Hmod (r / 4096)).
  assert (Hd1 : r = 64 * (r / 64) + r mod 64) by (apply Z.div_mod; lia).
  assert (Hd2 : r / 64 = 64 * (r / 4096) + (r / 64) mod 64).
  { change 4096 with (64 * 64). rewrite <- Z.div_div by lia. apply Z.div_mod. lia. }
  assert (Hd3 : r / 4096 = 64 * (r / 262144) + (r / 4096) mod 64).
  { change 262144 with (4096 * 64). rewrite <- Z.div_div by lia. apply Z.div_mod. lia. }
  rewrite length_of_bytes.
  set (a := r / 64) in *. set (b := r / 4096) in *. set (c := r / 262144) in *.
  set (x := r mod 64) in *. set (y := a mod 64) in *. set (z := b mod 64) in *.
  clearbody a b c x y z. unfold scalar in Hr.
  destruct (Z.ltb_spec r 128); [|destruct (Z.ltb_spec r 2048); [|destruct (Z.ltb_spec r 65536)]];
    (rewrite rune_len_of_bytes; [|repeat constructor; unfold is_byte; lia]).
  - split; [done|]. by decide_ifs.
  - split; [done|]. by decide_ifs.
  - split; [done|]. destruct (Z.eqb_spec (224 + b) 224); destruct (Z.eqb_spec (224 + b) 237); decide_ifs; try done; lia.
  - split; [done|]. destruct (Z.eqb_spec (240 + c) 240); destruct (Z.eqb_spec (240 + c) 244); decide_ifs; try done; lia.
Qed.

Lemma hex_value_bound c x : hex_value c = Some x -> 0 <= x < 16.
Proof.
  unfold hex_value. pose proof (byte_of_bound c).
  repeat (case_match; [intros [= <-]; breflect; lia|]). done.
Qed.

Lemma hex4_bound s v t : hex4 s = Some (v, t) -> 0 <= v < 65536.
Proof.
  destruct s as [|a [|b [|c [|d s]]]]; simpl; try done.
  destruct (hex_value a) as [x|] eqn:Ea; [|done]. destruct (hex_value b) as [y|] eqn:Eb; [|done].
  destruct (hex_value c) as [z|] eqn:Ec; [|done]. destruct (hex_value d) as [w|] eqn:Ed; [|done].
  intros [= <- _]. apply hex_value_bound in Ea, Eb, Ec, Ed. lia.
Qed.

Lemma low_surrogate_scalar v s r t : 55296 <= v < 57344 -> low_surrogate v s = Some (r, t) -> scalar r.
Proof.
  intros Hv. destruct s as [|a [|u s]]; simpl; try done. destruct (_ && _) eqn:E; [|done].
  destruct (hex4 s) as [[lo t']|]; [|done]. destruct (_ && _) eqn:E2 in |- *; [|done].
  intros [= <- _]. breflect. unfold scalar. lia.
Qed.

Lemma utf8_prepend p rest o : p <> ""%string -> rune_len p = Some (String.length p) ->
  (forall x y, o = Some (x, y) -> utf8_valid x = true) ->
  prepend p o = Some rest -> utf8_valid (fst rest) = true.
Proof.
  intros Hp Hl Ho. destruct o as [[x y]|]; [|done]. intros [= <-]. simpl.
  rewrite utf8_rune_app by done. by eapply Ho.
Qed.

Lemma simple_escape_low c x : simple_escape c = Some x -> byte_of x <? 128 = true.
Proof.
  unfold simple_escape. destruct (_ || _) eqn:E; [intros [= <-]; breflect; apply Z.ltb_lt; intuition lia|].
  repeat (case_match; [intros [= <-]; by vm_compute|]). done.
Qed.

(** What a string literal decodes to is valid UTF-8. *)
Lemma unquote_utf8 n s v rest : unquote n s = Some (v, rest) -> utf8_valid v = true.
Proof.
  revert s v rest. induction n as [|n IH]; intros s v rest; [done|]. destruct s as [|c t]; [done|].
  cbn [unquote]. destruct (byte_of c =? 34); [by intros [= <- _]|]. destruct (byte_of c <? 32); [done|].
  assert (Hrepl : scalar 65533) by (unfold scalar; lia).
  assert (Hgo : forall p u r, p <> ""%string -> rune_len p = Some (String.length p) ->
    prepend p (unquote n u) = Some r -> utf8_valid (fst r) = true).
  { intros p u r Hp Hl. apply utf8_prepend; [done..|]. intros x y Hx. by eapply IH. }
  destruct (byte_of c =? 92).
  - destruct t as [|e u]; [done|]. destruct (simple_escape e) as [x|] eqn:Ex.
    + intros Hx%Hgo; [done|done|]. unfold rune_len. by rewrite (simple_escape_low _ _ Ex).
    + destruct (byte_of e =? 117); [|done]. destruct (hex4 u) as [[w u']|] eqn:Ew; [|done].
      apply hex4_bound in Ew. destruct (_ && _) eqn:Es.
      * breflect. destruct (low_surrogate w u') as [[r u2]|] eqn:El.
        -- apply low_surrogate_scalar in El; [|lia]. intros Hx%Hgo; [done|by apply utf8_encode_rune..].
        -- intros Hx%Hgo; [done|by apply utf8_encode_rune..].
      * assert (scalar w) by (unfold scalar; breflect; lia).
        intros Hx%Hgo; [done|by apply utf8_encode_rune..].
  - destruct (rune_len (String c t)) as [k|] eqn:Ek.
    + apply utf8_stake in Ek as [Hk1 Hk2]. intros Hx%Hgo; done.
    + intros Hx%Hgo; [done|by apply utf8_encode_rune..].
Qed.

(** All strings and keys of a document. *)
Fixpoint strings_ok (v : json) : bool :=
  match v with
  | JStr s => utf8_valid s
  | JArr l => forallb strings_ok l
  | JObj l => forallb (fun kv => utf8_valid (fst kv) && strings_ok (snd kv)) l
  | _ => true
  end.

Lemma parse_strings n :
  (forall d s v r, parse_value n d s = Some (v, r) -> strings_ok v = true) /\
  (forall d s l r, parse_elems n d s = Some (l, r) -> forallb strings_ok l = true) /\
  (forall d s l r, parse_members n d s = Some (l, r) ->
     forallb (fun kv => utf8_valid (fst kv) && strings_ok (snd kv)) l = true).
Proof.
  induction n as [|n (IHv & IHe & IHm)]; [done|]. split; [|split]; intros d s x r.
  - cbn [parse_value]. destruct (skip_ws s) as [|c t]; [done|].
    destruct (byte_of c =? 34).
    { destruct (unquote _ t) as [[v r']|] eqn:E; [|done]. intros [= <- _]. by apply unquote_utf8 in E. }
    destruct (byte_of c =? 123).
    { destruct (_ <=? d); [done|]. destruct (expect _ _); [by intros [= <- _]|].
      destruct (parse_members n (d + 1) t) as [[l r']|] eqn:E; [|done]. intros [= <- _]. by eapply IHm. }
    destruct (byte_of c =? 91).
    { destruct (_ <=? d); [done|]. destruct (expect _ _); [by intros [= <- _]|].
      destruct (parse_elems n (d + 1) t) as [[l r']|] eqn:E; [|done]. intros [= <- _]. by eapply IHe. }
    do 3 (destruct (byte_of c =? _); [destruct (expect _ _); [by intros [= <- _]|done]|]).
    destruct (take_number _) as [[l r']|]; [by intros [= <- _]|done].
  - cbn [parse_elems]. destruct (parse_value n d s) as [[v r1]|] eqn:E; [|done]. apply IHv in E.
    destruct (expect "," _) as [r2|].
    + destruct (parse_elems n d r2) as [[l r3]|] eqn:El; [|done]. intros [= <- _].
      simpl. by rewrite E, (IHe _ _ _ _ El).
    + destruct (expect "]" _); [|done]. intros [= <- _]. simpl. by rewrite E.
  - cbn [parse_members]. destruct (expect _ _) as [t|]; [|done].
    destruct (unquote _ t) as [[k t']|] eqn:Ek; [|done]. apply unquote_utf8 in Ek.
    destruct (expect ":" _) as [t2|]; [|done].
    destruct (parse_value n d t2) as [[v r1]|] eqn:E; [|done]. apply IHv in E.
    destruct (expect "," _) as [r2|].
    + destruct (parse_members n d r2) as [[l r3]|] eqn:El; [|done]. intros [= <- _].
      simpl. by rewrite Ek, E, (IHm _ _ _ _ El).
    + destruct (expect "}" _); [|done]. intros [= <- _]. simpl. by rewrite Ek, E.
Qed.

Lemma json_decode_strings s v : json_decode s = Some v -> strings_ok v = true.
Proof.
  unfold json_decode. destruct (parse_value _ 0 s) as [[v' r]|] eqn:E; [|done]. intros [= <-].
  by eapply (proj1 (parse_strings _)).
Qed.

(** ** Finite floats *)

Definition finite (x : float64) : bool :=
  match x with S754_zero _ | S754_finite _ _ _ => true | _ => false end.

Lemma shr_nonneg mrs e n : 0 <= shr_m mrs -> 0 <= shr_m (fst (shr mrs e n)).
Proof.
  assert (H1 : forall x, 0 <= shr_m x -> 0 <= shr_m (shr_1 x)).
  { intros [[|[p|p|]|p] r s]; simpl; lia. }
  assert (Hi : forall p x, 0 <= shr_m x -> 0 <= shr_m (iter_pos shr_1 p x)).
  { induction p as [p IH|p IH|]; intros x Hx; simpl; auto. }
  intros Hm. destruct n; simpl; auto.
Qed.

Lemma shr_fexp_nonneg prec emax m e l : 0 <= m -> 0 <= shr_m (fst (shr_fexp prec emax m e l)).
Proof.
  intros Hm. apply shr_nonneg. by destruct l as [|[]].
Qed.

Lemma round_finite prec emax sx m e l : 0 <= m ->
  match binary_round_aux prec emax sx m e l with S754_infinity _ => True | x => finite x = true end.
Proof.
  intros Hm. unfold binary_round_aux. pose proof (shr_fexp_nonneg prec emax m e l Hm) as H1.
  destruct (shr_fexp prec emax m e l) as [m1 e1]. simpl in H1.
  set (m2 := round_nearest_even _ _). assert (H2 : 0 <= m2).
  { unfold m2, round_nearest_even. destruct (loc_of_shr_record m1) as [|[]]; try destruct (Z.even _); lia. }
  pose proof (shr_fexp_nonneg prec emax m2 e1 loc_Exact H2) as H3.
  destruct (shr_fexp prec emax m2 e1 loc_Exact) as [m3 e3]. simpl in H3.
  destruct (shr_m m3); [done| |lia]. by destruct (_ <=? _).
Qed.

Lemma of_decimal_finite neg m e :
  match of_decimal neg m e with S754_infinity _ => True | x => finite x = true end.
Proof.
  unfold of_decimal. destruct m as [|p|p]; [done| |done]. destruct (0 <=? e) eqn:He.
  - destruct (Z.pos p * 10 ^ e) as [|q|q]; [done| |done]. unfold binary_round.
    destruct (shl_align _ _ _) as [mz ez]. by apply round_finite.
  - assert (0 < 10 ^ (- e)) by (apply Z.pow_pos_nonneg; breflect; lia).
    destruct (10 ^ (- e)) as [|q|q]; [lia| |lia].
    destruct (SFdiv_core_binary _ _ _ _ _ _) as [[mz ez] lz] eqn:E. apply round_finite.
    unfold SFdiv_core_binary in E.
    match type of E with context [Z.div_eucl ?x _] => assert (Hx : 0 <= x) end.
    { destruct (_ - _); try lia. apply Z.shiftl_nonneg. lia. }
    match type of E with context [Z.div_eucl ?x ?y] =>
      pose proof (Z.div_pos x y Hx ltac:(lia)) as Hq; unfold Z.div in Hq;
      destruct (Z.div_eucl x y) as [q' r'] end.
    by injection E as <- _ _.
Qed.

Lemma parse_float_finite lit x : parse_float lit = Some x -> finite x = true.
Proof.
  unfold parse_float. destruct (float_parts lit) as [[neg m] e].
  destruct (m =? 0); [by intros [= <-]|]. destruct (310 <? _); [done|].
  destruct (_ <? -330); [by intros [= <-]|].
  pose proof (of_decimal_finite neg m e) as H. destruct (of_decimal neg m e); intros [= <-]; done.
Qed.

Lemma parse_int64_range lit n : parse_int64 lit = Some n -> in_i64 n.
Proof.
  unfold parse_int64. destruct (split_sign lit) as [neg t]. destruct (_ && _); [|done].
  destruct (_ && _) eqn:E in |- *; [|done]. intros [= <-]. breflect. unfold in_i64. lia.
Qed.

(** ** The interface

    [typed] is what every decoded value satisfies when the value it was decoded
    over does; [printable] is the rest of what the round trip needs, a
    condition on the floats of a value only. *)

Class Typed (A : Type) `{Codec A} := {
  typed : A -> Prop;
  printable : A -> Prop;
  typed_zero : typed zero;
  decode_typed cur v a : strings_ok v = true -> typed cur -> decode cur v = Some a -> typed a;
  typed_valid a : typed a -> printable a -> valid a;
}.

(** Types without floats. *)
Class NoFloat (A : Type) `{Typed A} := no_float : forall a : A, printable a.

#[export, refine] Instance string_typed : Typed string := {|
  typed s := utf8_valid s = true; printable _ := True |}.
Proof.
  - done.
  - intros cur [] a Hv Hc; try done; intros [= <-]; done.
  - done.
Defined.

#[export, refine] Instance int_typed : Typed Z := {| typed := in_i64; printable _ := True |}.
Proof.
  - done.
  - intros cur [] a Hv Hc; try done; [by intros [= <-]|]. apply parse_int64_range.
  - done.
Defined.

#[export, refine] Instance bool_typed : Typed bool := {| typed _ := True; printable _ := True |}.
Proof. all: done. Defined.

#[export, refine] Instance float_typed : Typed float64 := {|
  typed x := finite x = true; printable x := float_ok x = true |}.
Proof.
  - done.
  - intros cur [] a Hv Hc; try done; [by intros [= <-]|]. apply parse_float_finite.
  - done.
Defined.

#[export] Instance string_no_float : NoFloat string.
Proof. done. Qed.
#[export] Instance int_no_float : NoFloat Z.
Proof. done. Qed.
#[export] Instance bool_no_float : NoFloat bool.
Proof. done. Qed.

(** *** Slices, maps and pointers *)

Lemma dec_elems_typed `{Typed A} l : forall cur (a : list A), forallb strings_ok l = true -> Forall typed cur ->
  dec_elems decode zero cur l = Some a -> Forall typed a.
Proof.
  induction l as [|v l IH]; intros cur a Hs Hc; simpl; [by intros [= <-]|].
  simpl in Hs. apply andb_true_iff in Hs as [Hv Hs].
  destruct (decode _ v) as [x|] eqn:E; [|done].
  destruct (dec_elems decode zero (tail cur) l) as [xs|] eqn:El; [|done]. intros [= <-]. constructor.
  - eapply decode_typed; [exact Hv| |exact E]. destruct Hc; [apply typed_zero|done].
  - eapply IH; [done| |exact El]. by destruct Hc.
Qed.

#[export, refine] Instance slice_typed `{Typed A} : Typed (list A) := {|
  typed := Forall typed; printable := Forall printable |}.
Proof.
  - constructor.
  - intros cur [] a Hv Hc; try done; [by intros [= <-]|]. by apply dec_elems_typed.
  - intros a Ht Hp. eapply List.Forall_impl; [|exact (List.Forall_and Ht Hp)].
    intros x [Hx Hx']. by apply typed_valid.
Defined.

Lemma dec_entries_typed `{Typed A} l : forall m (a : gmap string A),
  forallb (fun kv => utf8_valid (fst kv) && strings_ok (snd kv)) l = true ->
  map_Forall (fun k v => utf8_valid k = true /\ typed v) m ->
  dec_entries decode zero m l = Some a -> map_Forall (fun k v => utf8_valid k = true /\ typed v) a.
Proof.
  induction l as [|[k v] l IH]; intros m a Hs Hm; simpl; [by intros [= <-]|].
  simpl in Hs. apply andb_true_iff in Hs as [[Hk Hv]%andb_true_iff Hs].
  destruct (decode zero v) as [x|] eqn:E; [|done]. apply IH; [done|].
  apply map_Forall_insert_2; [|done]. split; [done|].
  by eapply decode_typed; [exact Hv|apply typed_zero|].
Qed.

#[export, refine] Instance map_typed `{Typed A} : Typed (gmap string A) := {|
  typed := map_Forall (fun k v => utf8_valid k = true /\ typed v);
  printable := map_Forall (fun _ v => printable v) |}.
Proof.
  - apply map_Forall_empty.
  - intros cur [] a Hv Hc; try done; [intros [= <-]; apply map_Forall_empty|]. by apply dec_entries_typed.
  - intros m Ht Hp k v Hk. destruct (Ht k v Hk). split; [done|]. apply typed_valid; [done|]. by eapply Hp.
Defined.

#[export, refine] Instance ptr_typed `{NotNull A} `{!Typed A} : Typed (option A) := {|
  typed o := match o with Some a => typed a | None => True end;
  printable o := match o with Some a => printable a | None => True end |}.
Proof.
  - done.
  - intros cur v a Hv Hc Hd.
    assert (Hx : a = None \/ exists x, a = Some x /\ decode (default zero cur) v = Some x).
    { simpl in Hd. unfold dec_ptr in Hd.
      destruct v; try (injection Hd as <-; by left);
        (destruct (decode _ _) as [x|] eqn:E in Hd; [|done]; injection Hd as <-; right; eauto). }
    destruct Hx as [->|(x & -> & Hx)]; [done|]. eapply decode_typed; [exact Hv| |exact Hx].
    destruct cur; [done|apply typed_zero].
  - intros [a|] Ht Hp; [exact (typed_valid (A := A) a Ht Hp)|done].
Defined.

#[export] Instance slice_no_float `{NoFloat A} : NoFloat (list A).
Proof. intros l. apply Forall_true. apply no_float. Qed.
#[export] Instance map_no_float `{NoFloat A} : NoFloat (gmap string A).
Proof. intros m k v _. apply no_float. Qed.

(** *** Structs *)

Definition entries_ok (es : list (string * json)) : bool :=
  forallb (fun kv => utf8_valid (fst kv) && strings_ok (snd kv)) es.

Lemma obj_entries_ok v es : strings_ok v = true -> obj_entries v = Some es -> entries_ok es = true.
Proof. destruct v; try done; by intros ? [= <-]. Qed.

Lemma field_typed `{Typed A} name es : entries_ok es = true -> forall cur x : A,
  typed cur -> field decode name cur es = Some x -> typed x.
Proof.
  induction es as [|[k v] es IH]; intros Hok cur x Hc; simpl; [by intros [= <-]|].
  simpl in Hok. apply andb_true_iff in Hok as [[_ Hv]%andb_true_iff Hok].
  destruct (EqualFold k name); [|by apply IH].
  destruct (decode cur v) as [y|] eqn:E; [|done]. apply IH; [done|]. by eapply decode_typed.
Qed.

(** A decoder of fields, one after the other. *)
Ltac decode_fields Hok Hd :=
  repeat (let x := fresh "x" in let Hx := fresh "Hx" in
          apply bind_Some in Hd as (x & Hx & Hd);
          apply (field_typed _ _ Hok) in Hx; [|assumption]);
  injection Hd as <-.
Ltac start_fields Hv Hd Hok :=
  let es := fresh "es" in let Hes := fresh "Hes" in
  apply bind_Some in Hd as (es & Hes & Hd); pose proof (obj_entries_ok _ _ Hv Hes) as Hok; clear Hes.
Ltac field_valid := apply typed_valid; [assumption|first [assumption|apply no_float]].

#[export, refine] Instance wt_typed : Typed WeightedTarget := {|
  typed t := typed (URL t) /\ typed (Weight t); printable _ := True |}.
Proof.
  - done.
  - intros cur v a Hv (H0 & H1) Hd. start_fields Hv Hd Hok. decode_fields Hok Hd. done.
  - intros t (H0 & H1) _. split; field_valid.
Defined.

#[export, refine] Instance llm_target_typed : Typed LLMTarget := {|
  typed t := typed (LLM_URL t) /\ typed (LLM_Model t); printable _ := True |}.
Proof.
  - done.
  - intros cur v a Hv (H0 & H1) Hd. start_fields Hv Hd Hok. decode_fields Hok Hd. done.
  - intros t (H0 & H1) _. split; field_valid.
Defined.

#[export] Instance wt_no_float : NoFloat WeightedTarget.
Proof. done. Qed.
#[export] Instance llm_target_no_float : NoFloat LLMTarget.
Proof. done. Qed.

#[export, refine] Instance llm_typed : Typed LLMRoutingConfig := {|
  typed t := typed (Primary t) /\ typed (Fallback t) /\ typed (ConfidenceHeader t) /\ typed (MinConfidence t);
  printable t := printable (MinConfidence t) |}.
Proof.
  - done.
  - intros cur v a Hv (H0 & H1 & H2 & H3) Hd. start_fields Hv Hd Hok. decode_fields Hok Hd. done.
  - intros t (H0 & H1 & H2 & H3) Hp. split_and!; field_valid.
Defined.

#[export, refine] Instance wasm_target_typed : Typed WASMTarget := {|
  typed t := typed (MiddlewareName t) /\ typed (WASMWeight t); printable _ := True |}.
Proof.
  - done.
  - intros cur v a Hv (H0 & H1) Hd. start_fields Hv Hd Hok. decode_fields Hok Hd. done.
  - intros t (H0 & H1) _. split; field_valid.
Defined.

#[export] Instance wasm_target_no_float : NoFloat WASMTarget.
Proof. done. Qed.

#[export, refine] Instance wasm_typed : Typed WASMSplitConfig := {|
  typed t := typed (WASMTargets t); printable _ := True |}.
Proof.
  - constructor.
  - intros cur v a Hv H0 Hd. start_fields Hv Hd Hok. decode_fields Hok Hd. done.
  - intros t H0 _. change (valid (WASMTargets t)). field_valid.
Defined.

#[export, refine] Instance abt_typed : Typed PromptABTest_t := {|
  typed t := typed (PromptName t) /\ typed (Versions t) /\ typed (Weights t); printable _ := True |}.
Proof.
  - split_and!; [done|apply map_Forall_empty..].
  - intros cur v a Hv (H0 & H1 & H2) Hd. start_fields Hv Hd Hok. decode_fields Hok Hd. done.
  - intros t (H0 & H1 & H2) _. split_and!; field_valid.
Defined.

#[export] Instance wasm_split_no_float : NoFloat (option WASMSplitConfig).
Proof. by intros [?|]. Qed.
#[export] Instance abt_no_float : NoFloat (option PromptABTest_t).
Proof. by intros [?|]. Qed.

Definition route_typed (r : Route) : Prop :=
  typed (Prefix r) /\
  typed (SchemaName r) /\
  typed (Target r) /\
  typed (Targets r) /\
  typed (TargetsWeighted r) /\
  typed (CanaryAutoPromote r) /\
  typed (CanaryPromoteStep r) /\
  typed (CanaryPromoteSec r) /\
  typed (CanaryMaxErrorRate r) /\
  typed (LoadBalancer r) /\
  typed (TranspileType r) /\
  typed (Middleware r) /\
  typed (ResponseMiddleware r) /\
  typed (RateLimitRPM r) /\
  typed (PromptGuard r) /\
  typed (PiiRedact r) /\
  typed (SemanticCache r) /\
  typed (ValidationSchema r) /\
  typed (IPAllowlist r) /\
  typed (IPBlocklist r) /\
  typed (AccessLog r) /\
  typed (AccessLogPath r) /\
  typed (CacheTTLSeconds r) /\
  typed (CacheMethods r) /\
  typed (ClientCertPath r) /\
  typed (ClientKeyPath r) /\
  typed (RootCAPath r) /\
  typed (MaxConcurrentRequests r) /\
  typed (MaxQueueSize r) /\
  typed (QueueTimeoutMs r) /\
  typed (GoMiddleware r) /\
  typed (RequireAPIKey r) /\
  typed (AllowedTenants r) /\
  typed (RequestTransform r) /\
  typed (ResponseTransform r) /\
  typed (GraphQLFederation r) /\
  typed (MCPEnabled r) /\
  typed (LLMRouting r) /\
  typed (WASMSplit r) /\
  typed (MaxBodySize r) /\
  typed (PromptABTest r) /\
  typed (ResponseQualityScore r) /\
  typed (SemanticRateLimit r) /\
  typed (SemanticTokenLimitPerMin r) /\
  typed (AIWAFEnabled r).

Lemma decode_route_typed cur v r : strings_ok v = true -> route_typed cur ->
  decode_route cur v = Some r -> route_typed r.
Proof.
  intros Hv Hc Hd. unfold route_typed in Hc. repeat (let H := fresh in destruct Hc as [H Hc]). unfold decode_route in Hd.
  start_fields Hv Hd Hok. decode_fields Hok Hd. unfold route_typed. cbn. split_and!; assumption.
Qed.

#[export, refine] Instance route_typed_instance : Typed Route := {|
  typed := route_typed;
  printable r := printable (CanaryMaxErrorRate r) /\ printable (LLMRouting r) |}.
Proof.
  - unfold route_typed, zero, route_codec, zero_route, plain_route. cbn [Prefix].
    split_and!; first [exact typed_zero|done].
  - apply decode_route_typed.
  - intros r Ht [Hp1 Hp2]. unfold route_typed in Ht. repeat (destruct Ht as [? Ht]).
    unfold valid, route_codec, route_valid. split_and!; field_valid.
Defined.

#[export, refine] Instance apikey_typed : Typed APIKey := {|
  typed t := typed (Key t) /\ typed (Tenant t) /\ typed (KeyRateLimitRPM t) /\ typed (AllowedRoutes t) /\
             typed (MaxTokensPerDay t) /\ typed (MaxCostPerDay t);
  printable t := printable (MaxCostPerDay t) |}.
Proof.
  - split_and!; first [exact typed_zero|done].
  - intros cur v a Hv (H0 & H1 & H2 & H3 & H4 & H5) Hd. start_fields Hv Hd Hok. decode_fields Hok Hd. done.
  - intros t (H0 & H1 & H2 & H3 & H4 & H5) Hp. split_and!; field_valid.
Defined.

#[export, refine] Instance config_typed : Typed GatewayConfig := {|
  typed t := typed (Addr t) /\ typed (AuthToken t) /\ typed (TlsCert t) /\ typed (TlsKey t) /\
             typed (Routes t) /\ typed (APIKeys t) /\ typed (Signature t);
  printable t := printable (Routes t) /\ printable (APIKeys t) |}.
Proof.
  - split_and!; first [exact typed_zero|done].
  - intros cur v a Hv (H0 & H1 & H2 & H3 & H4 & H5 & H6) Hd. start_fields Hv Hd Hok.
    decode_fields Hok Hd. done.
  - intros t (H0 & H1 & H2 & H3 & H4 & H5 & H6) [Hp1 Hp2]. split_and!; field_valid.
Defined.

(** ** What a signature promises

    The text in [Signature] is a token whose third part is the HMAC of the first
    two under the secret, whose claims name the hash of the routes and the
    issuer, and which has not expired (an expiry of zero or less never
    does). *)
Definition authentic (secret : string) (c : GatewayConfig) (now : Z) : Prop :=
  exists h p g payload claims exp text,
    Split "." (Signature c) = [h; p; g] /\
    Config.decodeBase64Url g = Some (hmac_sha256 secret (h ++ "." ++ p)) /\
    Config.decodeBase64Url p = Some payload /\ Token.claim_entries payload = Some claims /\
    Config.marshal_routes (Routes c) = Some text /\
    field dec_string "config_hash" ""%string claims = Some (Token.raw_url (sha256 text)) /\
    field dec_string "iss" ""%string claims = Some "servconsole"%string /\
    field dec_int "exp" 0 claims = Some exp /\ (exp <= 0 \/ now / second <= exp).

Lemma claims_authentic c payload now :
  Config.check_config_claims c payload now = Ok tt <->
  exists claims exp text,
    Token.claim_entries payload = Some claims /\ Config.marshal_routes (Routes c) = Some text /\
    field dec_string "config_hash" ""%string claims = Some (Token.raw_url (sha256 text)) /\
    field dec_string "iss" ""%string claims = Some "servconsole"%string /\
    field dec_int "exp" 0 claims = Some exp /\ (exp <= 0 \/ now / second <= exp).
Proof.
  unfold Config.check_config_claims. split.
  - destruct (Token.claim_entries payload) as [claims|]; [|done].
    destruct (field dec_string "config_hash" _ claims) as [hash|] eqn:Eh; [|done].
    destruct (field dec_int "exp" _ claims) as [exp|] eqn:Ee; [|done].
    destruct (field dec_string "iss" _ claims) as [iss|] eqn:Ei; [|done].
    destruct (_ && _) eqn:Ex; [done|]. destruct (negb (String.eqb iss _)) eqn:Eiss; [done|].
    destruct (Config.marshal_routes _) as [text|]; [|done].
    destruct (negb (String.eqb hash _)) eqn:Ehash; [done|]. intros _. breflect. subst iss hash.
    exists claims, exp, text. split_and!; try done.
    apply andb_false_iff in Ex as [Ex|Ex]; breflect; lia.
  - intros (claims & exp & text & -> & -> & -> & -> & -> & Hexp).
    assert ((0 <? exp) && (exp <? now / second) = false) as ->.
    { apply andb_false_iff. destruct Hexp; [left|right]; apply Z.ltb_ge; lia. }
    rewrite String.eqb_refl. unfold Config.hash_text. by rewrite String.eqb_refl.
Qed.

Lemma verify_authentic secret c now :
  Config.verifyConfigSignature c secret now = Ok tt <-> authentic secret c now.
Proof.
  unfold Config.verifyConfigSignature, authentic, Token.signing_input. split.
  - destruct (String.eqb _ ""); [done|]. destruct (Split "." (Signature c)) as [|h [|p [|g [|]]]]; try done.
    destruct (Config.decodeBase64Url g) as [sig|] eqn:Eg; [|done].
    destruct (String.eqb_spec sig (hmac_sha256 secret (h ++ "." ++ p))) as [->|]; [|done].
    destruct (Config.decodeBase64Url p) as [payload|] eqn:Ep; [|done].
    intros (claims & exp & text & ?)%claims_authentic. exists h, p, g, payload, claims, exp, text. tauto.
  - intros (h & p & g & payload & claims & exp & text & Hs & Hg & Hp & Hrest).
    assert (String.eqb (Signature c) "" = false) as ->.
    { apply String.eqb_neq. intros He. by rewrite He in Hs. }
    rewrite Hs, Hg, Hp, String.eqb_refl. apply claims_authentic. by exists claims, exp, text.
Qed.

(** What a configuration text loads to. *)
Definition loads_as (env : gmap string string) (body : string) (now : Z) (c : GatewayConfig) : Prop :=
  exists v, json_decode body = Some v /\ decode zero v = Some c /\
    (Config.Getenv env "SERV_JWT_SECRET" = ""%string \/ authentic (Config.Getenv env "SERV_JWT_SECRET") c now).

Lemma load_body_exact env body now c : Config.load_body env body now = Ok c <-> loads_as env body now c.
Proof.
  unfold Config.load_body, loads_as. cbv zeta. split.
  - destruct (json_decode body) as [v|]; [|done]. destruct (decode zero v) as [c'|] eqn:Ed; [|done].
    destruct (String.eqb_spec (Config.Getenv env "SERV_JWT_SECRET") "") as [Hs|Hs].
    + intros [= <-]. eauto.
    + destruct (Config.verifyConfigSignature c' _ now) as [[]|] eqn:Ev; [|done]. intros [= <-].
      apply verify_authentic in Ev. eauto.
  - intros (v & -> & -> & Hs).
    destruct (String.eqb_spec (Config.Getenv env "SERV_JWT_SECRET") "") as [|Hne]; [done|].
    destruct Hs as [?|Hs]; [done|]. apply verify_authentic in Hs. by rewrite Hs.
Qed.

#[local] Existing Instances Provider.local_provider Provider.s3_provider.

Section Loaded.
Context {St : Type} `{Provider.HttpStore St}.

(** C37. What loads is authentic: a file or an object of the store loads as
    exactly what its text decodes to, and, when a secret is configured, only if
    that configuration carries an unexpired signature under the secret for its
    own routes.  A store that answers 404 has no configuration; every other
    answer but 200, a broken connection, a text that does not decode and a
    signature that does not verify are failures to load, which the
    administration does not take for an absent configuration.  What loads is
    well typed, so that when its floats print faithfully it can be stored
    again. *)
Theorem loaded_configuration_authentic (file : Provider.LocalFileProvider) (store : Provider.S3Provider St) now :
  (forall c, Provider.Load now file = Ok c <->
     exists body, Provider.lf_content file = Ok body /\ loads_as (Provider.lf_env file) body now c) /\
  (forall c, Provider.Load now store = Ok c <->
     exists body, Provider.s3_get store = Some (200, body) /\ loads_as (Provider.s3_env store) body now c) /\
  (forall e, Provider.Load now file = Err (Provider.NotExist e) <->
     Provider.lf_content file = Err (Provider.NotExist e)) /\
  ((exists e, Provider.Load now store = Err (Provider.NotExist e)) <->
     exists body, Provider.s3_get store = Some (404, body)) /\
  (forall c t, Provider.Load now file = Ok c \/ Provider.Load now store = Ok c ->
     typed c /\
     (printable c -> 0 <= t -> in_i64 ((t + 24 * 60 * minute) / second) -> Provider.storable t c)).
Proof.
  assert (Hfile : forall c, Provider.Load now file = Ok c <->
    exists body, Provider.lf_content file = Ok body /\ loads_as (Provider.lf_env file) body now c).
  { intros c. cbn [Provider.Load Provider.local_provider]. unfold Provider.local_Load, Config.local_load.
    destruct (Provider.lf_content file) as [body|e].
    - split.
      + destruct (Config.load_body _ body now) as [c'|] eqn:E; [|done]. intros [= <-].
        apply load_body_exact in E. eauto.
      + intros (b & [= <-] & Hl%load_body_exact). by rewrite Hl.
    - split; [done|]. by intros (b & ? & _). }
  assert (Hstore : forall c, Provider.Load now store = Ok c <->
    exists body, Provider.s3_get store = Some (200, body) /\ loads_as (Provider.s3_env store) body now c).
  { intros c. cbn [Provider.Load Provider.s3_provider]. unfold Provider.s3_Load, Config.s3_load.
    destruct (Provider.s3_get store) as [[status body]|]; [|split; [done|by intros (? & ? & _)]].
    destruct (Z.eqb_spec status 404) as [->|H4]; [split; [done|by intros (? & ? & _)]|].
    destruct (Z.eqb_spec status 200) as [->|H2]; cbn [negb].
    - split.
      + destruct (Config.load_body _ body now) as [c'|] eqn:E; [|done]. intros [= <-].
        apply load_body_exact in E. eauto.
      + intros (b & [= <-] & Hl%load_body_exact). by rewrite Hl.
    - split; [done|]. by intros (b & [= ? _] & _). }
  split; [exact Hfile|]. split; [exact Hstore|]. split; [|split].
  - intros e. cbn [Provider.Load Provider.local_provider]. unfold Provider.local_Load.
    destruct (Provider.lf_content file) as [body|e']; [|by split; intros [= ->]].
    split; [|done]. by destruct (Config.local_load _ _ _).
  - cbn [Provider.Load Provider.s3_provider]. unfold Provider.s3_Load, Config.s3_load.
    destruct (Provider.s3_get store) as [[status body]|]; [|split; intros [? ?]; done].
    destruct (Z.eqb_spec status 404) as [->|H4]; [split; [by exists body|eauto]|].
    split; [|by intros (b & [= ? _])]. intros [e He].
    assert (Hn : forall x, match status with 404 => Provider.NotExist x | _ => Provider.LoadFailed x end = Provider.LoadFailed x).
    { intros x. repeat (done || case_match); congruence. }
    destruct (negb (status =? 200)); [|destruct (Config.load_body _ _ _); [done|]]; injection He as He;
      rewrite Hn in He; discriminate.
  - intros c t Hl. assert (Ht : typed c).
    { destruct Hl as [(body & _ & v & Hv & Hd & _)%Hfile|(body & _ & v & Hv & Hd & _)%Hstore];
        (apply json_decode_strings in Hv; eapply decode_typed; [exact Hv|exact typed_zero|exact Hd]). }
    split; [done|]. intros Hp H0 Hr. split; [|done]. by apply typed_valid.
Qed.
End Loaded.

(** A hand-written file with duplicate, unknown and null fields, a bad byte in
    a string and an escape. *)
Definition ragged_file : string :=
  "{" ++ quote "addr" ++ ": " ++ quote ":8080" ++ ", " ++ quote "ADDR" ++ ": null, " ++ quote "extra" ++ ": [1.5e300], "
  ++ quote "routes" ++ ": [{" ++ quote "prefix" ++ ": " ++ dquote ++ "/a" ++ String (of_byte 255) "\ud83d" ++ dquote ++ ", "
  ++ quote "rate_limit_rpm" ++ ": -9223372036854775808, " ++ quote "canary_max_error_rate" ++ ": 0.25}]}".

Definition ragged_provider (body : string) : Provider.LocalFileProvider :=
  {| Provider.lf_path := "config.json"; Provider.lf_env := ∅; Provider.lf_content := Ok body;
     Provider.lf_write_error := None |}.

Definition ragged_config : GatewayConfig :=
  match Provider.Load 0 (ragged_provider ragged_file) with Ok c => c | Err _ => zero end.

Example ragged_loads :
  Provider.Load 0 (ragged_provider ragged_file) = Ok ragged_config /\
  Addr ragged_config = ":8080"%string /\
  map (fun r => (Prefix r, RateLimitRPM r, fmt_float (CanaryMaxErrorRate r))) (Routes ragged_config)
  = [("/a" ++ replacement ++ replacement, - 2 ^ 63, "0.25")]%string.
Proof. vm_compute. done. Qed.

#[local] Instance one_object : Provider.HttpStore string := fun _ body => (Some (200, body), body).

Definition ragged_store : Provider.S3Provider string :=
  {| Provider.s3_conf := {| Config.Endpoint := "http://s3"; Config.Bucket := "b"; Config.ObjectKey := "k";
       Config.AccessKey := ""; Config.SecretKey := ""; Config.S3AuthToken := "" |};
     Provider.s3_env := ∅; Provider.s3_store := ragged_file |}.

(** The configuration of the store loads and can be stored again; a file that
    is absent has nothing to load. *)
Lemma loaded_configuration_authentic_witness :
  Provider.Load 0 ragged_store = Ok ragged_config /\ typed ragged_config /\ Provider.storable 0 ragged_config.
Proof.
  pose proof (loaded_configuration_authentic (ragged_provider ragged_file) ragged_store 0)
    as (_ & Hstore & _ & _ & Htyped).
  assert (Hl : Provider.Load 0 ragged_store = Ok ragged_config) by (vm_compute; done).
  split; [done|]. destruct (Htyped ragged_config 0 (or_intror Hl)) as [Ht Hs].
  split; [done|]. apply Hs; [|done|by vm_compute].
  split; [|constructor]. constructor; [|constructor]. split; vm_compute; done.
Defined.

(** An unsigned configuration does not load once a secret is set. *)
Example unsigned_is_refused :
  Provider.Load 0 {| Provider.lf_path := "config.json";
                     Provider.lf_env := {[ "SERV_JWT_SECRET"%string := "s"%string ]};
                     Provider.lf_content := Ok ragged_file; Provider.lf_write_error := None |}
  = Err (Provider.LoadFailed "config signature verification failed: missing configuration signature").
Proof. vm_compute. done. Qed.

(** An integer that does not fit is refused. *)
Example overflow_is_refused :
  Provider.Load 0 (ragged_provider ("{" ++ quote "routes" ++ ":[{" ++ quote "rate_limit_rpm" ++ ":9223372036854775808}]}"))
  = Err (Provider.LoadFailed "invalid JSON").
Proof. vm_compute. done. Qed.

End Typing.
