(* ===== verification/Admin.v ===== *)
(** * The administration of the gateway (main.go)

    The handlers [main] mounts beside the gateway, each behind its own rate
    limiter: routes, route registration, console synchronisation, the GitOps
    webhook, WASM modules, connections, cache invalidation, policies, AI
    billing and the metrics WebSocket.  A handler is a program over the state
    of the process: the configuration [main] loaded, the gateway, the provider,
    the limiters.  Clock readings, [git pull] and the rest of the world are the
    record [Env]. *)

From S2P Require Import Prelude GoStrings GoFloat Json Types RateLimit Access Token Policy Codec Config.
From S2P Require Import Http Url Handler Gateway Wasm WebSocket Provider.
Import Codec.
Open Scope Z_scope.

Module Admin.
Import Http.

(** The registration of a WASM module, as the administration uses it. *)
Class WasmRegistry (M : Type) := wasm_register : string -> string -> M -> result string M.

#[export] Instance manager_registry {C I} `{Wasm.Engine C I} : WasmRegistry (Wasm.MiddlewareManager C I) :=
  Wasm.Register.

(** The outside world of one request: when its handlers read the clock, what
    [git pull] does to the provider and prints, the texts of decoding errors,
    and whether the [append] to a slice of that length moves it to a new
    array. *)
Record Env (P : Type) := {
  platform : Handler.Platform;
  at_limit : Z;
  at_auth : Z;
  at_load : Z;
  at_save : Z;
  git_pull : P -> P * string;
  append_moves : nat -> bool;
  hijack : Gateway.hijack_outcome;
  net : nat -> option (Z * string);
}.
Arguments platform {P} _.
Arguments at_limit {P} _.
Arguments at_auth {P} _.
Arguments at_load {P} _.
Arguments at_save {P} _.
Arguments git_pull {P} _.
Arguments append_moves {P} _.
Arguments hijack {P} _.
Arguments net {P} _.

(** ** Query parameters: [r.URL.Query().Get] *)

(** [url.QueryUnescape]. *)
Definition query_unescape (s : string) : option string :=
  Url.unescape_path (replace_byte "+" " " s).

(** The value of the first pair with the given key; a pair with a semicolon or
    a bad escape is skipped. *)
Fixpoint query_get (key : string) (pairs : list string) : string :=
  match pairs with
  | [] => ""%string
  | p :: ps =>
      let '(k, v) := match index_byte p "=" with
                     | Some i => (stake i p, sdrop (S i) p)
                     | None => (p, ""%string)
                     end in
      if String.eqb p "" || Contains p ";" then query_get key ps
      else match query_unescape k, query_unescape v with
           | Some k, Some v => if String.eqb k key then v else query_get key ps
           | _, _ => query_get key ps
           end
  end.

Definition query (r : Request) (key : string) : string := query_get key (Split "&" (u_query (url r))).

Section Admin.
Context {R M P : Type} `{RateLimit.Limiter.RedisZSet R} `{WasmRegistry M} `{Provider.ConfigProvider P}.
Context (E : Env P).
Abbreviation handler := (Handler.GatewayHandler R M).

(** ** The state of the process

    [cfg] is the configuration loaded at the start; [shared] tells that its
    routes and those of the gateway are still the same array, so that a write
    to an element of one is seen in the other.  [limiters] are the limiters of
    the mounted patterns. *)
Record server := {
  cfg : GatewayConfig;
  shared : bool;
  gateway : handler;
  prov : P;
  limiters : gmap string RateLimit.Admin.adminRateLimiter;
}.

Definition set_cfg (x : GatewayConfig) (s : server) : server :=
  {| cfg := x; shared := shared s; gateway := gateway s; prov := prov s; limiters := limiters s |}.
Definition set_shared (x : bool) (s : server) : server :=
  {| cfg := cfg s; shared := x; gateway := gateway s; prov := prov s; limiters := limiters s |}.
Definition set_gateway (x : handler) (s : server) : server :=
  {| cfg := cfg s; shared := shared s; gateway := x; prov := prov s; limiters := limiters s |}.
Definition set_prov (x : P) (s : server) : server :=
  {| cfg := cfg s; shared := shared s; gateway := gateway s; prov := x; limiters := limiters s |}.
Definition set_limiters (x : gmap string RateLimit.Admin.adminRateLimiter) (s : server) : server :=
  {| cfg := cfg s; shared := shared s; gateway := gateway s; prov := prov s; limiters := x |}.

(** The state of one request: the process, the response, and the connection
    that was taken over. *)
Record ast := { srv : server; aw : ServerWriter; aconn : option WebSocket.Conn }.

(** A handler goes on, returns, or panics. *)
Definition A (X : Type) : Type := ast -> Gateway.outcome X * ast.

#[export] Instance A_ret : MRet A := fun X x s => (Gateway.Next x, s).
#[export] Instance A_bind : MBind A := fun X Y k m s =>
  match m s with
  | (Gateway.Next x, s') => k x s'
  | (Gateway.Return, s') => (Gateway.Return, s')
  | (Gateway.Crash why, s') => (Gateway.Crash why, s')
  end.

Definition return_ {X} : A X := fun s => (Gateway.Return, s).
Definition gets {X} (f : server -> X) : A X := fun s => (Gateway.Next (f (srv s)), s).
Definition modify (f : server -> server) : A unit := fun s =>
  (Gateway.Next tt, {| srv := f (srv s); aw := aw s; aconn := aconn s |}).
Definition writer (f : ServerWriter -> exec ServerWriter) : A unit := fun s =>
  match f (aw s) with
  | Done w => (Gateway.Next tt, {| srv := srv s; aw := w; aconn := aconn s |})
  | Panic why => (Gateway.Crash why, s)
  end.
Definition write (f : ServerWriter -> ServerWriter) : A unit := writer (fun w => Done (f w)).
Definition when (b : bool) (m : A unit) : A unit := if b then m else mret tt.

(** [proxy.WriteJSONError(...); return]. *)
Definition reject {X} (r : Request) (msg code : string) (status : Z) : A X :=
  writer (fun w => WriteJSONError w r msg code status);; return_.

(** A JSON success: content type, status, body. *)
Definition reply (body : string) : A unit :=
  write (wset "Content-Type" "application/json");;
  writer (WriteHeader 200);;
  write (fun w => snd (Write body w)).
Definition reply_text (body : string) : A unit :=
  writer (WriteHeader 200);; write (fun w => snd (Write body w)).

(** [json.NewDecoder(r.Body).Decode(&x)] into a zero value. *)
Definition decode_body {X} `{Codec X} (r : Request) : option X :=
  json_decode (r_data (body r)) ≫= decode zero.

Definition getenv (k : string) : string := Config.Getenv (Handler.p_env (platform E)) k.

(** ** Credentials *)

(** The header must be the token with its scheme. *)
Definition bearer_ok (c : GatewayConfig) (r : Request) : bool :=
  String.eqb (AuthToken c) "" || String.eqb (rget r "Authorization") ("Bearer " ++ AuthToken c)%string.

(** The token, with or without its scheme, or any valid JWT. *)
Definition token_ok (c : GatewayConfig) (r : Request) : bool :=
  let token := TrimPrefix (rget r "Authorization") "Bearer " in
  let jwtSec := getenv "SERV_JWT_SECRET" in
  String.eqb (AuthToken c) "" || String.eqb token (AuthToken c) ||
  (negb (String.eqb jwtSec "") &&
   (if Token.ValidateJWT token jwtSec (at_auth E) is Some _ then true else false)).

(** The webhook: the token only, with or without its scheme. *)
Definition plain_token_ok (c : GatewayConfig) (r : Request) : bool :=
  String.eqb (AuthToken c) "" ||
  String.eqb (TrimPrefix (rget r "Authorization") "Bearer ") (AuthToken c).

(** The metrics socket also takes the token from the query. *)
Definition socket_token_ok (c : GatewayConfig) (r : Request) : bool :=
  let token := TrimPrefix (rget r "Authorization") "Bearer " in
  let token := if String.eqb token "" then query r "token" else token in
  String.eqb (AuthToken c) "" || String.eqb token (AuthToken c).

Definition require (ok : GatewayConfig -> Request -> bool) (r : Request) : A unit :=
  c ← gets cfg;
  when (negb (ok c r)) (reject r "Unauthorized" "ERR_UNAUTHORIZED" 401).

Definition require_method (m : string) (r : Request) : A unit :=
  when (negb (String.eqb (method r) m)) (reject r "Method not allowed" "ERR_METHOD_NOT_ALLOWED" 405).

(** ** The gateway and the provider *)

Definition load : A (result Provider.load_error GatewayConfig) :=
  p ← gets prov; mret (Provider.Load (at_load E) p).

(** [prov.Save(c)]: the error, and the configuration, which was signed. *)
Definition save (c : GatewayConfig) : A (option string * GatewayConfig) :=
  p ← gets prov;
  let '(e, c, p) := Provider.Save (at_save E) c p in
  modify (set_prov p);; mret (e, c).

(** A panic of [UpdateRoutes] leaves what it had done. *)
Definition stopped (o : option string) : A unit := fun s =>
  match o with
  | None => (Gateway.Next tt, s)
  | Some why => (Gateway.Crash why, s)
  end.

Definition update_routes (rs : list Route) (same_array : bool) : A unit :=
  h ← gets gateway;
  let '(h, o) := Handler.UpdateRoutes (platform E) rs h in
  modify (fun s => set_shared same_array (set_gateway h s));; stopped o.

(** The position of the first route with a prefix. *)
Fixpoint position (prefix : string) (rs : list Route) : option nat :=
  match rs with
  | [] => None
  | r :: rs' => if String.eqb (Prefix r) prefix then Some O else S <$> position prefix rs'
  end.

Definition put (route : Route) (rs : list Route) : list Route :=
  match position (Prefix route) rs with
  | Some i => <[i := route]> rs
  | None => rs ++ [route]
  end.

(** A write to a cell of the array of [cfg], seen by the gateway while they
    share it and its slice is long enough. *)
Definition write_cell (i : nat) (route : Route) (s : server) : server :=
  if shared s
  then set_gateway (Handler.set_routes (<[i := route]> (Handler.routes (gateway s))) (gateway s)) s else s.

(** The same change on [cfg] itself: the routes of the gateway change with it
    as long as the array is shared; an [append] that moves ends the sharing. *)
Definition put_in_cfg (route : Route) (s : server) : server :=
  let rs := Routes (cfg s) in
  let s' := set_cfg (with_Routes (put route rs) (cfg s)) s in
  match position (Prefix route) rs with
  | Some i => write_cell i route s'
  | None => if append_moves E (length rs) then set_shared false s' else write_cell (length rs) route s'
  end.

(** [handler.RegisterRoute]: the element it overwrites is one of [cfg] too
    while the array is shared. *)
Definition register_route (route : Route) : A unit :=
  h ← gets gateway;
  let rs := Handler.routes h in
  let '(h', o) := Handler.RegisterRoute (platform E) route h in
  modify (set_gateway h');;
  modify (fun s =>
    match position (Prefix route) rs with
    | Some i => if shared s then set_cfg (with_Routes (<[i := route]> (Routes (cfg s))) (cfg s)) s else s
    | None => if append_moves E (length rs) then set_shared false s
              else if shared s
                   then set_cfg (with_Routes (<[length rs := route]> (Routes (cfg s))) (cfg s)) s else s
    end);;
  stopped o.

(** ** Routes *)

Definition save_failed {X} (r : Request) (e : string) : A X :=
  reject r ("Failed to save config: " ++ e)%string "ERR_CONFIG_SAVE_FAILED" 500.
Definition load_failed {X} (r : Request) (e : string) : A X :=
  reject r ("Failed to load config: " ++ e)%string "ERR_CONFIG_LOAD_FAILED" 500.

(** The configuration a new route goes into, with the route in it: the one the
    provider has, or, when there is none, [cfg] itself, changed in place. *)
Definition config_with (r : Request) (newRoute : Route) : A (GatewayConfig * bool) :=
  loaded ← load;
  match loaded with
  | Ok c => mret (with_Routes (put newRoute (Routes c)) c, false)
  | Err (Provider.NotExist _) =>
      modify (put_in_cfg newRoute);; c ← gets cfg; mret (c, true)
  | Err (Provider.LoadFailed e) => load_failed r e
  end.

Definition post_route (r : Request) : A unit :=
  match decode_body r with
  | None => reject r "Invalid route payload" "ERR_INVALID_ROUTE_PAYLOAD" 400
  | Some newRoute =>
      current ← config_with r newRoute;
      let '(currentCfg, own) := current in
      saved ← save currentCfg;
      let '(err, signed) := saved in
      when own (modify (set_cfg signed));;
      match err with
      | Some e => save_failed r e
      | None =>
          update_routes (Routes signed) own;;
          reply_text "Route registered successfully";; return_
      end
  end.

Definition without (prefix : string) (rs : list Route) : list Route :=
  List.filter (fun rt => negb (String.eqb (Prefix rt) prefix)) rs.

Definition delete_route (r : Request) : A unit :=
  let prefix := query r "prefix" in
  if String.eqb prefix "" then
    reject r "Missing prefix query parameter" "ERR_INVALID_ROUTE_PAYLOAD" 400
  else
    loaded ← load;
    match loaded with
    | Err e => load_failed r (Provider.load_error_text e)
    | Ok c =>
        if existsb (fun rt => String.eqb (Prefix rt) prefix) (Routes c) then
          saved ← save (with_Routes (without prefix (Routes c)) c);
          let '(err, signed) := saved in
          match err with
          | Some e => save_failed r e
          | None =>
              update_routes (Routes signed) false;;
              reply_text "Route deleted successfully";; return_
          end
        else reject r "Route not found" "ERR_ROUTE_NOT_FOUND" 404
    end.

(** [json.NewEncoder(w).Encode(routes)]: nothing is written when a weight is no
    number. *)
Definition encode_routes (rs : list Route) (w : ServerWriter) : ServerWriter :=
  match Config.marshal_routes rs with
  | Some text => snd (Write (text ++ newline)%string w)
  | None => w
  end.

(** Every method but POST and DELETE lists the routes. *)
Definition handleRoutes (r : Request) : A unit :=
  require token_ok r;;
  when (String.eqb (method r) "POST") (post_route r);;
  when (String.eqb (method r) "DELETE") (delete_route r);;
  h ← gets gateway;
  write (fun w => encode_routes (Handler.GetRoutes h) (wset "Content-Type" "application/json" w)).

Definition handleRouteRegister (r : Request) : A unit :=
  require token_ok r;;
  require_method "POST" r;;
  match decode_body r with
  | None => reject r "Invalid route payload" "ERR_INVALID_ROUTE_PAYLOAD" 400
  | Some newRoute =>
      register_route newRoute;;
      reply (render (JObj [("status", JStr "success");
                           ("message", JStr "Route registered successfully via compiler connector")]%string))
  end.

(** ** Console synchronisation and the GitOps webhook *)

(** [var payload struct { Routes []proxy.Route }]. *)
Definition decode_sync (r : Request) : option (list Route) :=
  v ← json_decode (r_data (body r));
  es ← obj_entries v;
  field decode "routes" ([] : list Route) es.

(** The saved copy is best effort: neither error is looked at. *)
Definition post_sync (r : Request) : A unit :=
  match decode_sync r with
  | None => reject r "Invalid payload" "ERR_INVALID_PAYLOAD" 400
  | Some rs =>
      loaded ← load;
      match loaded with
      | Ok c => save (with_Routes rs c);; mret tt
      | Err _ => mret tt
      end;;
      update_routes rs false;;
      reply (render (JObj [("status", JStr "success");
                           ("message", JStr "Console sync updated configuration successfully")]%string));;
      return_
  end.

Definition connections (h : handler) : json :=
  JObj (map (fun kv => (fst kv, JNum (Itoa (snd kv)))) (sorted_entries (Balancer.GetActiveConnections (Handler.bal h)))).

(** A map is encoded with its keys in order; nothing is written when a number
    of it cannot be. *)
Definition get_sync : A unit :=
  h ← gets gateway;
  write (wset "Content-Type" "application/json");;
  writer (WriteHeader 200);;
  let snap := Handler.GetMetricsSnapshot h (at_load E) in
  write (fun w =>
    match Config.marshal_routes (Handler.GetRoutes h), WebSocket.marshal_snapshot snap with
    | Some _, Some _ =>
        encode_to (JObj [("active_connections", connections h);
                         ("metrics", WebSocket.encode_snapshot snap);
                         ("routes", encode (Handler.GetRoutes h))]%string) w
    | _, _ => w
    end);;
  return_.

Definition handleConsoleSync (r : Request) : A unit :=
  require token_ok r;;
  when (String.eqb (method r) "POST") (post_sync r);;
  when (String.eqb (method r) "GET") get_sync;;
  reject r "Method not allowed" "ERR_METHOD_NOT_ALLOWED" 405.

(** The output of git is put between the quotes as it is. *)
Definition gitops_reply (git_output : string) : string :=
  "{" ++ quote "status" ++ ":" ++ quote "success" ++ "," ++ quote "message" ++ ":" ++
  quote "GitOps config sync completed successfully" ++ "," ++ quote "git_output" ++ ":" ++
  dquote ++ TrimSpace git_output ++ dquote ++ "}".

(** A [git pull] that fails is logged and forgotten. *)
Definition handleGitOpsWebhook (r : Request) : A unit :=
  require_method "POST" r;;
  require plain_token_ok r;;
  p ← gets prov;
  let '(p, out) := git_pull E p in
  modify (set_prov p);;
  loaded ← load;
  match loaded with
  | Err e =>
      reject r ("Failed to load reloaded config: " ++ Provider.load_error_text e)%string
        "ERR_CONFIG_LOAD_FAILED" 500
  | Ok c =>
      update_routes (Routes c) false;;
      reply (gitops_reply out)
  end.

(** ** WASM modules, connections, caches *)

(** The segment of the path that names the module. *)
Definition module_name (path : string) : option string :=
  match Split "/" path with
  | _ :: _ :: v :: _ :: x :: rest =>
      match rest with
      | name :: _ => if String.eqb v "v1" then Some name else Some x
      | [] => Some x
      end
  | _ => None
  end.

Definition handleMiddleware (r : Request) : A unit :=
  require_method "POST" r;;
  require bearer_ok r;;
  match module_name (path r) with
  | None => reject r "Invalid path. Use /api/v1/admin/middleware/{name}" "ERR_INVALID_PATH" 400
  | Some name =>
      match ReadAll (body r) with
      | (_, Some _, _) => reject r "Internal Server Error" "ERR_INTERNAL_SERVER_ERROR" 500
      | (wasmBytes, None, _) =>
          h ← gets gateway;
          match wasm_register name wasmBytes (Handler.wasm h) with
          | Err e => reject r ("Failed to compile WASM: " ++ e)%string "ERR_WASM_COMPILATION_FAILED" 400
          | Ok m =>
              modify (fun s => set_gateway (Handler.set_wasm m (gateway s)) s);;
              reply_text ("WASM Middleware " ++ name ++ " compiled and registered")%string
          end
      end
  end.

Definition handleConnections (r : Request) : A unit :=
  require bearer_ok r;;
  require_method "GET" r;;
  h ← gets gateway;
  write (fun w => encode_to (connections h) (wset "Content-Type" "application/json" w)).

Definition handleCacheInvalidation (r : Request) : A unit :=
  require bearer_ok r;;
  require_method "DELETE" r;;
  h ← gets gateway;
  let prefix := query r "prefix" in
  let count := fst (Handler.invalidate_cache prefix "" h) in
  modify (fun s => set_gateway (snd (Handler.invalidate_cache prefix "" (gateway s))) s);;
  reply (render (JObj [("entries_invalidated", JNum (Itoa count)); ("prefix", JStr prefix);
                       ("status", JStr "success")]%string) ++ newline)%string.

(** ** Policies *)

(** A schema that does not parse is ignored: the version still grows. *)
Definition handlePolicyReload (r : Request) : A unit :=
  require bearer_ok r;;
  require_method "POST" r;;
  match ReadAll (body r) with
  | (data, None, _) =>
      match Policy.ParsePolicySchema data with
      | Some schema =>
          when (negb (String.eqb data ""))
            (modify (fun s => set_gateway (Handler.UpdatePolicySchema (Some schema) (gateway s)) s))
      | None => mret tt
      end
  | _ => mret tt
  end;;
  modify (fun s => set_gateway (Handler.IncrementPolicyVersion (gateway s)) s);;
  reply (render (JObj [("message", JStr "Policy schema updated"); ("status", JStr "success")]%string)
         ++ newline)%string.

Definition decode_username (r : Request) : option string :=
  v ← json_decode (r_data (body r));
  es ← obj_entries v;
  field decode "username" ""%string es.

Definition handlePolicyRevoke (r : Request) : A unit :=
  require bearer_ok r;;
  require_method "POST" r;;
  match decode_username r with
  | None | Some ""%string => reject r "Invalid payload" "ERR_INVALID_PAYLOAD" 400
  | Some user =>
      modify (fun s => set_gateway (Handler.revoke_session user (at_save E) (gateway s)) s);;
      reply (render (JObj [("message", JStr ("Session revoked for user " ++ user));
                           ("status", JStr "success")]%string) ++ newline)%string
  end.

(** ** AI billing (the community build's [GetAIBillingMetrics] and
    [SetAIBudget] do nothing) *)

Definition GetAIBillingMetrics : json :=
  JObj [("error", JStr "Enterprise Edition required for AI billing metrics")]%string.

Definition SetAIBudget (tenantID : string) (maxCostPerDay : float64) (maxTokensPerMinute : Z)
    (h : handler) : handler := h.

Definition decode_budget (r : Request) : option (string * float64 * Z) :=
  v ← json_decode (r_data (body r));
  es ← obj_entries v;
  t ← field decode "tenant_id" ""%string es;
  c ← field decode "max_cost_per_day_usd" (zero : float64) es;
  n ← field decode "max_tokens_per_minute" 0 es;
  Some (t, c, n).

(** No credentials are asked for. *)
Definition handleAIBilling (r : Request) : A unit :=
  write (wset "Content-Type" "application/json");;
  if String.eqb (method r) "GET" then write (encode_to GetAIBillingMetrics)
  else if String.eqb (method r) "POST" then
    match decode_budget r with
    | None => writer (fun w => http_Error w "Invalid request" 400);; return_
    | Some (tenant, cost, tokens) =>
        modify (fun s => set_gateway (SetAIBudget tenant cost tokens (gateway s)) s);;
        write (fun w => snd (Write (render (JObj [("status", JStr "budget_updated")]%string)) w))
    end
  else mret tt.

(** ** The metrics socket: [evs] is what its loop will see *)

Definition metrics_socket (evs : list (WebSocket.ws_event R M)) (r : Request) : A unit :=
  fun s => match WebSocket.HandleWebSocketMetrics (net E) (hijack E) evs (aw s) r with
           | Done (w, conn) => (Gateway.Next tt, {| srv := srv s; aw := w; aconn := conn |})
           | Panic why => (Gateway.Crash why, s)
           end.

Definition handleMetricsWS (evs : list (WebSocket.ws_event R M)) (r : Request) : A unit :=
  require socket_token_ok r;; metrics_socket evs r.

(** ** Mounting *)

(** [withAdminRateLimit(limit, next)] of one pattern. *)
Definition withAdminRateLimit (pattern : string) (limit : Z) (next : Request -> A unit) (r : Request)
  : A unit :=
  let host := default ""%string (Access.split_host (remote r)) in
  let clientIP := if String.eqb host "" then remote r else host in
  ls ← gets limiters;
  let al := default {| RateLimit.Admin.history := ∅ |} (ls !! pattern) in
  let '(limited, al) := RateLimit.Admin.Limit al clientIP limit (at_limit E) in
  modify (set_limiters (<[pattern := al]> ls));;
  when limited (reject r "Too Many Requests" "ERR_RATE_LIMIT_EXCEEDED" 429);;
  next r.

(** The patterns with their handlers; the metrics socket is not limited. *)
Definition limited_mounts : list (string * (Request -> A unit)) :=
  [("/api/gitops/webhook", handleGitOpsWebhook); ("/api/v1/gitops/webhook", handleGitOpsWebhook);
   ("/api/v1/routes/register", handleRouteRegister);
   ("/api/admin/console/sync", handleConsoleSync); ("/api/v1/admin/console/sync", handleConsoleSync);
   ("/api/admin/middleware/", handleMiddleware); ("/api/v1/admin/middleware/", handleMiddleware);
   ("/api/routes", handleRoutes); ("/api/v1/routes", handleRoutes);
   ("/api/admin/connections", handleConnections); ("/api/v1/admin/connections", handleConnections);
   ("/api/admin/cache", handleCacheInvalidation); ("/api/v1/admin/cache", handleCacheInvalidation);
   ("/api/v1/admin/policy/reload", handlePolicyReload);
   ("/api/v1/admin/policy/revoke", handlePolicyRevoke);
   ("/api/admin/ai-billing", handleAIBilling); ("/api/v1/admin/ai-billing", handleAIBilling)]%string.

Definition mounts (evs : list (WebSocket.ws_event R M)) : list (string * (Request -> A unit)) :=
  map (fun ph => (fst ph, withAdminRateLimit (fst ph) 60 (snd ph))) limited_mounts ++
  [("/api/admin/metrics/ws", handleMetricsWS evs); ("/api/v1/admin/metrics/ws", handleMetricsWS evs)]%string.

(** The match of a pattern that ends in a slash is by prefix; all the patterns
    are literal and none of two is a prefix of the other, so the first match
    is the most specific. *)
Definition pattern_matches (pattern path : string) : bool :=
  if HasSuffix pattern "/" then HasPrefix path pattern else String.eqb path pattern.

(** The administration's handler for a (clean) path; [None] for every other
    path: the gateway's, or one of the three the shared library answers. *)
Definition mounted (evs : list (WebSocket.ws_event R M)) (r : Request) : option (A unit) :=
  match List.find (fun ph => pattern_matches (fst ph) (path r)) (mounts evs) with
  | Some (_, h) => Some (h r)
  | None => None
  end.

Definition fresh_response (s : server) : ast := {| srv := s; aw := new_writer; aconn := None |}.

(** One request to the administration: how it ended, the state, the reply. *)
Definition serve_admin (evs : list (WebSocket.ws_event R M)) (r : Request) (s : server)
  : option (Gateway.outcome unit * ast) :=
  match mounted evs r with
  | Some m => Some (m (fresh_response s))
  | None => None
  end.

End Admin.
Arguments server : clear implicits.
Arguments ast : clear implicits.

(** ** Lemmas *)

Section Facts.
Context {R M P : Type} `{RateLimit.Limiter.RedisZSet R} `{WasmRegistry M} `{Provider.ProviderLaws P}.
Context (E : Env P).
Abbreviation state := (ast R M P).
Abbreviation process := (server R M P).

(** Nothing was sent yet. *)
Definition silent (s : state) : Prop := s_sent (aw s) = None.

(** A refusal: the process is left alone and the client gets the status. *)
Definition refuses (st : Z) (s s' : state) : Prop :=
  (srv s' = srv s /\ aconn s' = aconn s) /\ client_status (aw s') = st.

Lemma WriteJSONError_status (w : ServerWriter) r msg code st :
  s_sent w = None -> 200 <= st <= 599 ->
  exists w', WriteJSONError w r msg code st = Done w' /\ client_status w' = st.
Proof.
  intros Hw Hst. unfold WriteJSONError. cbn [WriteHeader ServerWriter_writer].
  unfold server_WriteHeader. cbn [s_sent wset set_wheader ServerWriter_writer]. rewrite Hw.
  rewrite (proj2 (Z.ltb_ge st 100)), (proj2 (Z.ltb_ge 999 st)) by lia. cbn [orb].
  unfold is_interim. rewrite (proj2 (Z.leb_gt st 199)), andb_false_r by lia. cbn [andb ebind].
  eexists. split; [reflexivity|]. unfold encode_to. cbn [Write ServerWriter_writer].
  unfold server_Write. cbn [s_sent send_header]. by destruct (body_allowed st).
Qed.

Lemma reject_refuses {X} r msg code st (s : state) : silent s -> 200 <= st <= 599 ->
  exists s', (reject r msg code st : A X) s = (Gateway.Return, s') /\ refuses st s s'.
Proof.
  intros Hs Hst. unfold reject, writer, mbind, A_bind.
  destruct (WriteJSONError_status (aw s) r msg code st Hs Hst) as (w & -> & Hw).
  eexists. split; [reflexivity|]. by repeat split.
Qed.

Lemma bind_next {X Y} (m : A X) (k : X -> A Y) (s s' : state) x :
  m s = (Gateway.Next x, s') -> (m ≫= k) s = k x s'.
Proof. intros Hm. unfold mbind, A_bind. by rewrite Hm. Qed.

Lemma bind_return {X Y} (m : A X) (k : X -> A Y) (s s' : state) :
  m s = (Gateway.Return, s') -> (m ≫= k) s = (Gateway.Return, s').
Proof. intros Hm. unfold mbind, A_bind. by rewrite Hm. Qed.

(** A guard passes, or refuses. *)
Lemma require_cases ok r (s : state) : silent s ->
  (ok (cfg (srv s)) r = true /\ require ok r s = (Gateway.Next tt, s)) \/
  (ok (cfg (srv s)) r = false /\ exists s', require ok r s = (Gateway.Return, s') /\ refuses 401 s s').
Proof.
  intros Hs. unfold require, gets. rewrite (bind_next _ _ s s (cfg (srv s))) by done.
  destruct (ok (cfg (srv s)) r); cbn [negb when]; [left; by split|right]. split; [done|].
  apply reject_refuses; [done|lia].
Qed.

Lemma method_cases m r (s : state) : silent s ->
  (method r = m /\ require_method m r s = (Gateway.Next tt, s)) \/
  (method r <> m /\ exists s', require_method m r s = (Gateway.Return, s') /\ refuses 405 s s').
Proof.
  intros Hs. unfold require_method. destruct (String.eqb_spec (method r) m); cbn [negb when]; [by left|right].
  split; [done|]. apply reject_refuses; [done|lia].
Qed.

Lemma bearer_is_token c r : bearer_ok c r = true -> token_ok E c r = true.
Proof.
  unfold bearer_ok, token_ok. destruct (String.eqb (AuthToken c) ""); [done|]. cbn [orb].
  intros Hb. apply String.eqb_eq in Hb. rewrite Hb, TrimPrefix_app, String.eqb_refl. done.
Qed.

Lemma plain_is_token c r : plain_token_ok c r = true -> token_ok E c r = true.
Proof.
  unfold plain_token_ok, token_ok. destruct (String.eqb (AuthToken c) ""); [done|]. cbn [orb].
  by intros ->.
Qed.

(** ** What a request without credentials can do *)

Definition refused (s s' : state) : Prop := refuses 401 s s' \/ refuses 405 s s'.

(** A handler that refuses whoever [token_ok] does not know. *)
Definition guarded (h : Request -> A unit) : Prop := forall r (s : state),
  silent s -> token_ok E (cfg (srv s)) r = false ->
  exists s', h r s = (Gateway.Return, s') /\ refused s s'.

Lemma guarded_require ok k : (forall c r, ok c r = true -> token_ok E c r = true) ->
  guarded (fun r => require ok r;; k r).
Proof.
  intros Hok r s Hs Hno. destruct (require_cases ok r s Hs) as [[Hy _]|[_ (s' & Hr & Hre)]].
  - apply Hok in Hy. congruence.
  - exists s'. split; [by rewrite (bind_return _ _ _ _ Hr)|by left].
Qed.

Lemma guarded_method m h : guarded h -> guarded (fun r => require_method m r;; h r).
Proof.
  intros Hh r s Hs Hno. destruct (method_cases m r s Hs) as [[_ Hy]|[_ (s' & Hr & Hre)]].
  - rewrite (bind_next _ _ _ _ _ Hy). by apply Hh.
  - exists s'. split; [by rewrite (bind_return _ _ _ _ Hr)|by right].
Qed.

Definition is_billing (pattern : string) : bool := HasSuffix pattern "/ai-billing".

Lemma limited_guarded : Forall (fun ph => is_billing (fst ph) = false -> guarded (snd ph)) (limited_mounts E).
Proof.
  unfold limited_mounts.
  repeat (constructor; [cbn [fst snd]; intros Hb; try (vm_compute in Hb; discriminate)|]); [..|constructor];
    first [apply guarded_require; auto using bearer_is_token, plain_is_token
          |apply guarded_method, guarded_require; auto using bearer_is_token, plain_is_token].
Qed.

(** The billing endpoints change nothing for anyone. *)
Lemma billing_harmless r (s s' : state) o : handleAIBilling r s = (o, s') ->
  srv s' = srv s /\ aconn s' = aconn s.
Proof.
  unfold handleAIBilling, write, writer, return_, modify, mbind, A_bind, mret, A_ret, SetAIBudget.
  destruct (String.eqb _ "GET"); [by intros [= <- <-]|].
  destruct (String.eqb _ "POST"); [|by intros [= <- <-]].
  destruct (decode_budget r) as [[[t c] n]|].
  - intros [= <- <-]. simpl. split; [by destruct (srv s)|done].
  - destruct (http_Error _ _ _); by intros [= <- <-].
Qed.

Lemma socket_harmless evs r (s s' : state) o : handleMetricsWS E evs r s = (o, s') -> srv s' = srv s.
Proof.
  unfold handleMetricsWS, metrics_socket, require, gets, when, reject, writer, return_, mbind, A_bind, mret, A_ret.
  destruct (negb _).
  - destruct (WriteJSONError _ _ _ _ _); by intros [= <- <-].
  - destruct (WebSocket.HandleWebSocketMetrics _ _ _ _ _) as [[w conn]|]; by intros [= <- <-].
Qed.

(** What an administration request can change, but for its rate limiter. *)
Definition same_process (s s' : process) : Prop :=
  gateway s' = gateway s /\ prov s' = prov s /\ cfg s' = cfg s /\ shared s' = shared s.

(** The limiter lets the handler run on a state that differs only in the
    limiters, or answers 429. *)
Lemma limit_cases pattern limit next r (s : state) : silent s ->
  exists s1, same_process (srv s) (srv s1) /\ aw s1 = aw s /\ aconn s1 = aconn s /\
    (withAdminRateLimit E pattern limit next r s = next r s1 \/
     exists s', withAdminRateLimit E pattern limit next r s = (Gateway.Return, s') /\ refuses 429 s1 s').
Proof.
  intros Hs. unfold withAdminRateLimit, gets, modify.
  rewrite (bind_next _ _ s s (limiters (srv s))) by done.
  destruct (RateLimit.Admin.Limit _ _ _ _) as [limited al].
  eexists {| srv := set_limiters _ (srv s); aw := aw s; aconn := aconn s |}. split; [by repeat split|].
  split; [done|]. split; [done|]. erewrite bind_next by reflexivity.
  destruct limited; cbn [when]; [right|left; by erewrite bind_next by reflexivity].
  edestruct (reject_refuses (X := unit) r "Too Many Requests" "ERR_RATE_LIMIT_EXCEEDED" 429) as (s' & Hr & Hre);
    [..|exists s'; split; [by apply bind_return|exact Hre]]; [exact Hs|lia].
Qed.

(** The paths of the metrics socket, and of the AI billing. *)
Definition is_socket (path : string) : Prop :=
  path = "/api/admin/metrics/ws"%string \/ path = "/api/v1/admin/metrics/ws"%string.
Definition is_billing_path (path : string) : Prop :=
  path = "/api/admin/ai-billing"%string \/ path = "/api/v1/admin/ai-billing"%string.

(** The handler of a request is one of the mounted ones, for its path. *)
Lemma serve_admin_cases evs r (s : process) o s' : serve_admin E evs r s = Some (o, s') ->
  (exists pattern next, In (pattern, next) (limited_mounts E) /\ pattern_matches pattern (path r) = true /\
     withAdminRateLimit E pattern 60 next r (fresh_response s) = (o, s')) \/
  is_socket (path r) /\ handleMetricsWS E evs r (fresh_response s) = (o, s').
Proof.
  unfold serve_admin, mounted.
  destruct (List.find _ _) as [[pattern h]|] eqn:Ef; [|done]. intros [= Hh].
  apply List.find_some in Ef as [Hin Hm]. unfold mounts in Hin. apply in_app_iff in Hin as [Hin|Hin].
  - left. apply in_map_iff in Hin as ([pat next] & [= <- <-] & Hin). by exists pat, next.
  - right. unfold is_socket.
    destruct Hin as [[= <- <-]|[[= <- <-]|[]]]; apply String.eqb_eq in Hm; auto.
Qed.

Lemma same_process_refl (s : process) : same_process s s.
Proof. by repeat split. Qed.

(** A pattern for the billing is matched by its paths only. *)
Lemma billing_pattern pattern (next : Request -> A (R := R) (M := M) (P := P) unit) path :
  In (pattern, next) (limited_mounts E) -> is_billing pattern = true ->
  pattern_matches pattern path = true -> next = handleAIBilling /\ is_billing_path path.
Proof.
  unfold limited_mounts. cbn [In]. intros Hin Hb Hm.
  repeat (destruct Hin as [[= <- <-]|Hin]; [try (vm_compute in Hb; discriminate)|]); [..|destruct Hin];
    (split; [reflexivity|]); apply String.eqb_eq in Hm; unfold is_billing_path; auto.
Qed.

(** A limited path is not one of the socket's. *)
Lemma limited_not_socket pattern (next : Request -> A (R := R) (M := M) (P := P) unit) path :
  In (pattern, next) (limited_mounts E) -> pattern_matches pattern path = true -> ~ is_socket path.
Proof.
  unfold limited_mounts. cbn [In]. intros Hin Hm [-> | ->];
  repeat (destruct Hin as [[= <- <-]|Hin]; [vm_compute in Hm; discriminate|]); destruct Hin.
Qed.

(** A handler on a path outside the billing that is not given credentials. *)
Lemma unlimited_refused pattern next r (s : process) o s' :
  In (pattern, next) (limited_mounts E) -> is_billing pattern = false ->
  token_ok E (cfg s) r = false ->
  withAdminRateLimit E pattern 60 next r (fresh_response s) = (o, s') ->
  o = Gateway.Return /\ same_process s (srv s') /\ aconn s' = None /\
  (client_status (aw s') = 401 \/ client_status (aw s') = 405 \/ client_status (aw s') = 429).
Proof.
  intros Hin Eb Hno Hh.
  destruct (limit_cases pattern 60 next r (fresh_response s) eq_refl)
    as (s1 & Hsame & Haw & Hc & [Hrun|(s2 & Hrun & [Hs2 Hc2] & Hst)]); rewrite Hrun in Hh.
  2: { injection Hh as <- <-. rewrite Hs2, Hc2, Hc. cbn in Hst. tauto. }
  assert (Hsil : silent s1) by (unfold silent; by rewrite Haw).
  assert (Hno1 : token_ok E (cfg (srv s1)) r = false).
  { destruct Hsame as (_ & _ & -> & _). exact Hno. }
  pose proof (proj1 (List.Forall_forall _ _) limited_guarded _ Hin Eb r s1 Hsil Hno1) as (s2 & Hr & Hre).
  cbn [snd] in Hr. rewrite Hr in Hh. injection Hh as <- <-.
  destruct Hre as [[[-> ->] Hst]|[[-> ->] Hst]]; rewrite Hc; tauto.
Qed.

(** The billing behind its limiter. *)
Lemma billing_limited pattern r (s : process) o s' :
  withAdminRateLimit E pattern 60 handleAIBilling r (fresh_response s) = (o, s') ->
  same_process s (srv s') /\ aconn s' = None.
Proof.
  intros Hh.
  destruct (limit_cases pattern 60 handleAIBilling r (fresh_response s) eq_refl)
    as (s1 & Hsame & Haw & Hc & [Hrun|(s2 & Hrun & [Hs2 Hc2] & Hst)]); rewrite Hrun in Hh.
  - destruct (billing_harmless _ _ _ _ Hh) as [-> ->]. by rewrite Hc.
  - injection Hh as _ <-. by rewrite Hs2, Hc2, Hc.
Qed.

Lemma not_billing pattern (next : Request -> A (R := R) (M := M) (P := P) unit) path :
  In (pattern, next) (limited_mounts E) -> is_billing pattern = false ->
  pattern_matches pattern path = true -> ~ is_billing_path path.
Proof.
  unfold limited_mounts. cbn [In]. intros Hin Hb Hm [-> | ->];
  repeat (destruct Hin as [[= <- <-]|Hin]; [first [vm_compute in Hm; discriminate|vm_compute in Hb; discriminate]|]);
    destruct Hin.
Qed.

Lemma socket_not_billing path : is_socket path -> ~ is_billing_path path.
Proof. by intros [-> | ->] [?|?]. Qed.

(** ** The routes *)

Lemma next_pair {X Y} (m : A X) (k : X -> A Y) (s s' : state) o :
  (m ≫= k) s = (o, s') -> (exists x s1, m s = (Gateway.Next x, s1) /\ k x s1 = (o, s')) \/
                          (m s = (Gateway.Return, s') /\ o = Gateway.Return) \/
                          (exists why, m s = (Gateway.Crash why, s') /\ o = Gateway.Crash why).
Proof.
  unfold mbind, A_bind. destruct (m s) as [[x| |why] s1]; intros Hx; [left; eauto|right; left|right; right].
  - by injection Hx as <- <-.
  - injection Hx as <- <-. eauto.
Qed.

(** Replacing the routes: the gateway gets them, or the call panics. *)
Lemma update_routes_spec rs own (s : state) :
  let h' := Handler.UpdateRoutes (platform E) rs (gateway (srv s)) in
  update_routes E rs own s =
    (match snd h' with None => Gateway.Next tt | Some why => Gateway.Crash why end,
     {| srv := set_shared own (set_gateway (fst h') (srv s)); aw := aw s; aconn := aconn s |}).
Proof.
  unfold update_routes, gets, modify, stopped, mbind, A_bind.
  destruct (Handler.UpdateRoutes _ _ _) as [h' o]. by destruct o.
Qed.

Lemma UpdateRoutes_routes p rs (h : Handler.GatewayHandler R M) :
  Handler.GetRoutes (fst (Handler.UpdateRoutes p rs h)) = rs.
Proof. unfold Handler.UpdateRoutes. by destruct (Handler.install_routes _ _ _ _). Qed.

Lemma reply_text_spec body (s : state) : silent s ->
  exists w, reply_text body s = (Gateway.Next tt, {| srv := srv s; aw := w; aconn := aconn s |}) /\
            client_status w = 200.
Proof.
  intros Hs. unfold reply_text, write, writer, mbind, A_bind. cbn [WriteHeader ServerWriter_writer].
  unfold server_WriteHeader. rewrite Hs. change ((200 <? 100) || (999 <? 200)) with false.
  change (is_interim 200) with false. cbn iota. eexists. split; [reflexivity|].
  cbn [Write ServerWriter_writer]. unfold server_Write. cbn [s_sent send_header]. done.
Qed.

Lemma save_spec c (s : state) :
  save E c s = (Gateway.Next (fst (Provider.Save (at_save E) c (prov (srv s)))),
    {| srv := set_prov (snd (Provider.Save (at_save E) c (prov (srv s)))) (srv s); aw := aw s; aconn := aconn s |}).
Proof. unfold save, gets, modify, mbind, A_bind. by destruct (Provider.Save _ _ _) as [[e c'] p']. Qed.

(** How a change of the stored routes ends: saved and live, or refused with the
    gateway untouched, or stopped by a panic. *)
Inductive change_ends (c : GatewayConfig) (s : state) : Gateway.outcome unit * state -> Prop :=
| ce_done s' signed :
    Provider.Save (at_save E) c (prov (srv s)) = (None, signed, prov (srv s')) ->
    Handler.GetRoutes (gateway (srv s')) = Routes c -> client_status (aw s') = 200 ->
    change_ends c s (Gateway.Return, s')
| ce_refused s' st : gateway (srv s') = gateway (srv s) -> st <> 200 -> client_status (aw s') = st ->
    change_ends c s (Gateway.Return, s')
| ce_crashed s' why : change_ends c s (Gateway.Crash why, s').

(** Save, then replace the routes, then answer: the end of both handlers. *)
Lemma save_and_update c body r (s : state) : silent s ->
  change_ends c s
    ((saved ← save E c;
      let '(err, signed) := saved in
      match err with
      | Some e => save_failed r e
      | None => update_routes E (Routes signed) false;; reply_text body;; (return_ : A unit)
      end) s).
Proof.
  intros Hs. rewrite (bind_next _ _ _ _ _ (save_spec c s)).
  destruct (Provider.Save (at_save E) c (prov (srv s))) as [[e signed] p'] eqn:Es. cbn [fst snd].
  set (s1 := {| srv := set_prov p' (srv s); aw := aw s; aconn := aconn s |}).
  destruct e as [e|].
  - destruct (reject_refuses (X := unit) r ("Failed to save config: " ++ e) "ERR_CONFIG_SAVE_FAILED" 500 s1 Hs)
      as (s' & Hr & [Hsame _] & Hst); [lia|]. unfold save_failed. rewrite Hr.
    eapply ce_refused with (st := 500); [by rewrite Hsame|lia|done].
  - pose proof (update_routes_spec (Routes signed) false s1) as Hu. cbv zeta in Hu.
    pose proof (UpdateRoutes_routes (platform E) (Routes signed) (gateway (srv s1))) as Hroutes.
    destruct (Handler.UpdateRoutes _ _ _) as [h' [why|]]; cbn [fst snd] in *.
    + unfold mbind, A_bind. rewrite Hu. apply ce_crashed.
    + rewrite (bind_next _ _ _ _ _ Hu).
      destruct (reply_text_spec body {| srv := set_shared false (set_gateway h' (srv s1)); aw := aw s1;
                                        aconn := aconn s1 |} Hs) as (w & Hw & Hst).
      rewrite (bind_next _ _ _ _ _ Hw). eapply ce_done; [exact Es| |exact Hst].
      cbn. rewrite Hroutes. by apply (Provider.save_keeps_routes _ _ _ _ _ _ Es).
Qed.

(** The stored configuration a request asks for. *)
Definition requested (r : Request) (c0 : GatewayConfig) : option GatewayConfig :=
  if String.eqb (method r) "POST" then
    nr ← decode_body r; Some (with_Routes (put nr (Routes c0)) c0)
  else if String.eqb (method r) "DELETE" then
    if String.eqb (query r "prefix") "" || negb (existsb (fun rt => String.eqb (Prefix rt) (query r "prefix")) (Routes c0))
    then None else Some (with_Routes (without (query r "prefix") (Routes c0)) c0)
  else None.

Lemma post_route_ends r (s : state) c0 : silent s ->
  Provider.Load (at_load E) (prov (srv s)) = Ok c0 -> method r = "POST"%string ->
  match requested r c0 with
  | Some c => change_ends c s (post_route E r s)
  | None => exists s', post_route E r s = (Gateway.Return, s') /\ refuses 400 s s'
  end.
Proof.
  intros Hs Hl Hm. unfold requested, post_route. rewrite Hm. cbn [String.eqb Ascii.eqb Bool.eqb].
  destruct (decode_body r) as [nr|]; cbn [mbind option_bind]; [|apply reject_refuses; [done|lia]].
  assert (Hc : config_with E r nr s = (Gateway.Next (with_Routes (put nr (Routes c0)) c0, false), s)).
  { unfold config_with, load, gets, mbind, A_bind. cbn beta iota. by rewrite Hl. }
  rewrite (bind_next _ _ _ _ _ Hc).
  exact (save_and_update (with_Routes (put nr (Routes c0)) c0) "Route registered successfully" r s Hs).
Qed.

Lemma delete_route_ends r (s : state) c0 : silent s ->
  Provider.Load (at_load E) (prov (srv s)) = Ok c0 -> method r = "DELETE"%string ->
  match requested r c0 with
  | Some c => change_ends c s (delete_route E r s)
  | None => exists s' st, delete_route E r s = (Gateway.Return, s') /\ refuses st s s' /\ st <> 200
  end.
Proof.
  intros Hs Hl Hm. unfold requested, delete_route. rewrite Hm. cbn [String.eqb Ascii.eqb Bool.eqb].
  assert (Hload : load E s = (Gateway.Next (Ok c0), s)).
  { unfold load, gets, mbind, A_bind. cbn beta iota. by rewrite Hl. }
  destruct (String.eqb (query r "prefix") ""); cbn [orb].
  { destruct (reject_refuses (X := unit) r "Missing prefix query parameter" "ERR_INVALID_ROUTE_PAYLOAD" 400 s Hs)
      as (s' & Hr & Hre); [lia|]. exists s', 400. by split. }
  destruct (existsb _ (Routes c0)) eqn:Ex; cbn [negb].
  - rewrite (bind_next _ _ _ _ _ Hload). rewrite Ex.
    exact (save_and_update (with_Routes (without (query r "prefix") (Routes c0)) c0)
             "Route deleted successfully" r s Hs).
  - rewrite (bind_next _ _ _ _ _ Hload). rewrite Ex.
    destruct (reject_refuses (X := unit) r "Route not found" "ERR_ROUTE_NOT_FOUND" 404 s Hs)
      as (s' & Hr & Hre); [lia|]. exists s', 404. by split.
Qed.

(** What comes after a change does not run. *)
Lemma change_ends_seq c (s : state) (m : A unit) k res :
  change_ends c s (m s) -> (m ≫= k) s = res -> change_ends c s res.
Proof.
  unfold mbind, A_bind. intros Hc <-. destruct (m s) as [out s1].
  inversion Hc; subst; [by eapply ce_done|by eapply ce_refused|by eapply ce_crashed].
Qed.

(** ** Properties *)

(** What lets a request administer the gateway: no token is configured, or
    the header carries it, or a token signed with the JWT secret. *)
Definition credentials (c : GatewayConfig) (r : Request) : Prop :=
  let token := TrimPrefix (rget r "Authorization") "Bearer " in
  AuthToken c = ""%string \/ token = AuthToken c \/
  (getenv E "SERV_JWT_SECRET" <> ""%string /\
   exists claims, Token.ValidateJWT token (getenv E "SERV_JWT_SECRET") (at_auth E) = Some claims).

(** What lets it watch the metrics: the token, in the header or, without one,
    in the query. *)
Definition socket_credentials (c : GatewayConfig) (r : Request) : Prop :=
  let token := TrimPrefix (rget r "Authorization") "Bearer " in
  AuthToken c = ""%string \/ token = AuthToken c \/
  (token = ""%string /\ query r "token" = AuthToken c).

Lemma token_ok_spec c r : token_ok E c r = true -> credentials c r.
Proof.
  unfold token_ok, credentials. rewrite !orb_true_iff, andb_true_iff, negb_true_iff.
  rewrite !String.eqb_eq, String.eqb_neq.
  destruct (Token.ValidateJWT _ _ _) as [claims|]; [|intros [?|[_ ?]]; [tauto|done]].
  intros [?|[? _]]; [tauto|]. right. right. split; [done|]. by exists claims.
Qed.

Lemma socket_token_ok_spec c r : socket_token_ok c r = true -> socket_credentials c r.
Proof.
  unfold socket_token_ok, socket_credentials. rewrite orb_true_iff, !String.eqb_eq.
  destruct (String.eqb_spec (TrimPrefix (rget r "Authorization") "Bearer ") ""); tauto.
Qed.

(** C4. Nobody without credentials administers the gateway.  On every
    administration path but the AI billing's and the metrics socket's, a
    request without the gateway's token or a valid JWT is refused with 401, 405
    or 429 and takes over no connection; the metrics socket refuses with 401
    whoever does not present the gateway's token, without taking over the
    connection that the metrics would be written to; the AI billing answers
    anyone and does nothing.  On all of them the gateway, the stored
    configuration and the configuration of the process stay as they were. *)
Theorem admin_needs_credentials evs r (s : process) o s' :
  serve_admin E evs r s = Some (o, s') ->
  (is_socket (path r) -> srv s' = s /\
     (~ socket_credentials (cfg s) r ->
        o = Gateway.Return /\ aconn s' = None /\ client_status (aw s') = 401)) /\
  (is_billing_path (path r) -> same_process s (srv s') /\ aconn s' = None) /\
  (~ is_socket (path r) -> ~ is_billing_path (path r) -> ~ credentials (cfg s) r ->
     o = Gateway.Return /\ same_process s (srv s') /\ aconn s' = None /\
     (client_status (aw s') = 401 \/ client_status (aw s') = 405 \/ client_status (aw s') = 429)).
Proof.
  intros Hserve. destruct (serve_admin_cases _ _ _ _ _ Hserve) as [(pattern & next & Hin & Hm & Hh)|[Hp Hh]].
  - split; [intros Hs; by destruct (limited_not_socket _ _ _ Hin Hm)|].
    destruct (is_billing pattern) eqn:Eb.
    + destruct (billing_pattern _ _ _ Hin Eb Hm) as [-> Hp]. split; [intros _|by intros _ []].
      by apply (billing_limited pattern r s o s').
    + split; [intros Hp; by destruct (not_billing _ _ _ Hin Eb Hm)|]. intros _ _ Hno.
      apply (unlimited_refused pattern next r s o s'); [done..| |done].
      destruct (token_ok E (cfg s) r) eqn:Ht; [by apply token_ok_spec in Ht|done].
  - split; [intros _|split; [intros Hb; by destruct (socket_not_billing _ Hp)|done]].
    split; [by rewrite (socket_harmless _ _ _ _ _ Hh)|]. intros Hno.
    destruct (require_cases socket_token_ok r (fresh_response s) eq_refl) as [[Hy _]|[_ (s1 & Hr & [_ Hc] & Hst)]].
    { by apply socket_token_ok_spec in Hy. }
    unfold handleMetricsWS in Hh. rewrite (bind_return _ _ _ _ Hr) in Hh. by injection Hh as <- <-.
Qed.

(** C9. What is answered 200 is stored and live: on a POST or a DELETE of
    the routes, when the provider has a configuration, either the client is
    told 200, and then the gateway serves exactly the routes the change asks
    for and the provider loads the same routes back as long as the signature
    is fresh; or it is told an error, and the gateway is as it was.  The only
    other outcome is a panic. *)
Theorem route_change_exact r (s : process) c0 o s' :
  Provider.Load (at_load E) (prov s) = Ok c0 ->
  method r = "POST"%string \/ method r = "DELETE"%string ->
  handleRoutes E r (fresh_response s) = (o, s') ->
  (exists why, o = Gateway.Crash why) \/
  (client_status (aw s') = 200 /\ token_ok E (cfg s) r = true /\
   exists c, requested r c0 = Some c /\ Handler.GetRoutes (gateway (srv s')) = Routes c /\
     (Provider.storable (at_save E) c -> forall now, Provider.fresh (at_save E) now ->
        exists c', Provider.Load now (prov (srv s')) = Ok c' /\ Routes c' = Routes c)) \/
  (client_status (aw s') <> 200 /\ gateway (srv s') = gateway s).
Proof.
  intros Hl Hm Hh. unfold handleRoutes in Hh. set (s0 := fresh_response s) in *.
  assert (Hs0 : silent s0) by done.
  destruct (require_cases (token_ok E) r s0 Hs0) as [[Hok Hr]|[_ (s1 & Hr & [Hsame _] & Hst)]].
  2: { rewrite (bind_return _ _ _ _ Hr) in Hh. injection Hh as _ <-. right. right. rewrite Hsame, Hst. done. }
  rewrite (bind_next _ _ _ _ _ Hr) in Hh.
  assert (Hdone : forall c, requested r c0 = Some c -> change_ends c s0 (o, s') ->
    (exists why, o = Gateway.Crash why) \/
    (client_status (aw s') = 200 /\ token_ok E (cfg s) r = true /\
     exists c, requested r c0 = Some c /\ Handler.GetRoutes (gateway (srv s')) = Routes c /\
       (Provider.storable (at_save E) c -> forall now, Provider.fresh (at_save E) now ->
          exists c', Provider.Load now (prov (srv s')) = Ok c' /\ Routes c' = Routes c)) \/
    (client_status (aw s') <> 200 /\ gateway (srv s') = gateway s)).
  { intros c Hc Hends. inversion Hends as [s2 signed Hsave Hlive Hst|s2 st Hg Hne Hst|s2 why]; subst.
    - right. left. split; [done|]. split; [done|]. exists c. split; [done|]. split; [done|].
      intros Hsto now Hf. exists signed.
      split; [by eapply Provider.load_after_save|by eapply Provider.save_keeps_routes].
    - right. right. by split.
    - left. eauto. }
  destruct Hm as [Hm|Hm]; rewrite Hm in Hh; cbn [String.eqb Ascii.eqb Bool.eqb when] in Hh.
  - pose proof (post_route_ends r s0 c0 Hs0 Hl Hm) as Hp. destruct (requested r c0) as [c|] eqn:Ereq.
    + apply (Hdone c eq_refl). by apply (change_ends_seq _ _ _ _ _ Hp) in Hh.
    + destruct Hp as (s1 & Hp & [Hsame _] & Hst). rewrite (bind_return _ _ _ _ Hp) in Hh.
      injection Hh as _ <-. right. right. rewrite Hsame, Hst. done.
  - pose proof (delete_route_ends r s0 c0 Hs0 Hl Hm) as Hp. destruct (requested r c0) as [c|] eqn:Ereq.
    + apply (Hdone c eq_refl). by apply (change_ends_seq _ _ _ _ _ Hp) in Hh.
    + destruct Hp as (s1 & st & Hp & [[Hsame _] Hst] & Hne).
      change ((delete_route E r ≫= fun _ : unit =>
                 h ← gets gateway;
                 write (fun w => encode_routes (Handler.GetRoutes h) (wset "Content-Type" "application/json" w))) s0
              = (o, s')) in Hh.
      rewrite (bind_return _ _ _ _ Hp) in Hh.
      injection Hh as _ <-. right. right. rewrite Hsame, Hst. done.
Qed.

(** ** The resources of the routes survive the administration *)

(** A route of the gateway asks for a limit that panics when it is made. *)
Definition broken (s : process) : Prop :=
  exists rt, rt ∈ Handler.GetRoutes (gateway s) /\ Handler.broken_limit rt.

(** What is left of a property of the process: panics excuse broken routes. *)
Definition left_with (Q : process -> Prop) {X} (res : Gateway.outcome X * state) : Prop :=
  match res with
  | (Gateway.Crash _, s') => Q (srv s') \/ broken (srv s')
  | (_, s') => Q (srv s')
  end.

(** A handler that keeps a property of the process. *)
Definition keeps (Q : process -> Prop) {X} (m : A X) : Prop :=
  forall s : state, Q (srv s) -> left_with Q (m s).

Lemma keeps_ret Q {X} (x : X) : keeps Q (mret x).
Proof. by intros s Hs. Qed.
Lemma keeps_return Q {X} : keeps Q (return_ : A X).
Proof. by intros s Hs. Qed.
Lemma keeps_gets Q {X} (f : process -> X) : keeps Q (gets f).
Proof. by intros s Hs. Qed.
Lemma keeps_bind Q {X Y} (m : A X) (k : X -> A Y) :
  keeps Q m -> (forall x, keeps Q (k x)) -> keeps Q (m ≫= k).
Proof.
  intros Hm Hk s Hs. unfold mbind, A_bind. specialize (Hm s Hs).
  destruct (m s) as [[x| |why] s1]; [by apply Hk|done|done].
Qed.
Lemma keeps_modify Q f : (forall s, Q s -> Q (f s)) -> keeps Q (modify f).
Proof. intros Hf s Hs. by apply Hf. Qed.
Lemma keeps_writer Q f : keeps Q (writer f).
Proof. intros s Hs. unfold writer. destruct (f (aw s)); [done|by left]. Qed.
Lemma keeps_when Q b (m : A unit) : keeps Q m -> keeps Q (when b m).
Proof. intros Hm. destruct b; [done|apply keeps_ret]. Qed.
Lemma keeps_stopped Q o : keeps Q (stopped o).
Proof. intros s Hs. destruct o; [by left|done]. Qed.
Lemma keeps_reject Q {X} r msg code st : keeps Q (reject r msg code st : A X).
Proof. unfold reject. apply keeps_bind; [apply keeps_writer|intros _; apply keeps_return]. Qed.

Definition wired_process (s : process) : Prop := Handler.wired (platform E) (gateway s).

(** Replacing the routes serves them all, whatever was there. *)
Lemma update_leaves rs own (s : state) : Handler.live_limiters (Handler.res (gateway (srv s))) ->
  left_with wired_process (update_routes E rs own s).
Proof.
  intros Hl. pose proof (update_routes_spec rs own s) as Hu. cbv zeta in Hu. rewrite Hu.
  assert (Hw : Handler.wired_but (platform E) (fun _ => True) (gateway (srv s))).
  { split; [done|]. apply List.Forall_forall. by left. }
  destruct (Handler.UpdateRoutes _ _ _) as [h' [why|]] eqn:Eu; cbn [fst snd left_with].
  - right. by apply Handler.update_broken in Eu.
  - by apply (Handler.update_wired _ _ _ _ _ _ Hw Eu).
Qed.

Lemma keeps_update rs own : keeps wired_process (update_routes E rs own).
Proof. intros s [Hl _]. by apply update_leaves. Qed.

Lemma keeps_register route : keeps wired_process (register_route E route).
Proof.
  intros s Hs. unfold register_route, gets, modify, stopped, mbind, A_bind.
  destruct (Handler.RegisterRoute _ _ _) as [h' [why|]] eqn:Er.
  - right. apply Handler.register_broken in Er. cbn. unfold broken.
    destruct (position _ _); [destruct (shared (srv s))|destruct (append_moves E _); [|destruct (shared (srv s))]];
      exact Er.
  - apply (Handler.register_wired _ _ _ _ _ _ Hs) in Er as [Hl Hf].
    assert (Hw : Handler.wired (platform E) h').
    { split; [done|]. eapply List.Forall_impl; [|exact Hf]. intros x [[[] _]|?]. by right. }
    cbn. unfold wired_process.
    destruct (position _ _); [destruct (shared (srv s))|destruct (append_moves E _); [|destruct (shared (srv s))]];
      exact Hw.
Qed.

(** A change of the gateway that keeps its routes served. *)
Lemma keeps_step f : (forall h : Handler.GatewayHandler R M, Handler.wired (platform E) h -> Handler.wired (platform E) (f h)) ->
  keeps wired_process (modify (fun s => set_gateway (f (gateway s)) s)).
Proof. intros Hf. apply keeps_modify. intros s Hs. by apply Hf. Qed.

Lemma wired_wasm (m : M) (h : Handler.GatewayHandler R M) :
  Handler.wired (platform E) h -> Handler.wired (platform E) (Handler.set_wasm m h).
Proof. done. Qed.

Ltac keep :=
  repeat first
    [ apply keeps_ret | apply keeps_return | apply keeps_gets | apply keeps_writer | apply keeps_reject
    | apply keeps_stopped | apply keeps_update | apply keeps_register | apply keeps_when
    | apply keeps_bind; [|intros ?; cbn beta]
    | apply (keeps_step (fun h => snd (Handler.invalidate_cache _ _ h))); intros ?; apply Handler.invalidate_wired
    | apply keeps_modify; by intros [] ?
    | progress unfold require, require_method, save, load, reply, reply_text, write, save_failed, load_failed
    | match goal with |- keeps _ (match ?x with _ => _ end) => destruct x end ].

Lemma keeps_save_update c own r body :
  keeps wired_process
    (saved ← save E c;
     let '(err, signed) := saved in
     when own (modify (set_cfg signed));;
     match err with
     | Some e => save_failed r e
     | None => update_routes E (Routes signed) own;; reply_text body;; (return_ : A unit)
     end).
Proof. keep. Qed.

Lemma keeps_from Q {X Y} (m : A X) (k : X -> A Y) (s : state) :
  left_with Q (m s) -> (forall x, keeps Q (k x)) -> left_with Q ((m ≫= k) s).
Proof.
  unfold mbind, A_bind. intros Hm Hk. destruct (m s) as [[x| |why] s1]; [by apply Hk|done|done].
Qed.

(** The provider has no configuration: [cfg] itself is changed, under the
    gateway's feet, and saved. *)
Definition unstored (s : process) : Prop := exists e, Provider.Load (at_load E) (prov s) = Err (Provider.NotExist e).

(** A post of a route serves every route, or fails to save without a stored
    configuration. *)
Lemma post_route_keeps r (s : state) : silent s -> wired_process (srv s) ->
  left_with wired_process (post_route E r s) \/
  unstored (srv s) /\ exists s', post_route E r s = (Gateway.Return, s') /\ client_status (aw s') = 500.
Proof.
  intros Hsil Hs. unfold post_route. destruct (decode_body r) as [nr|]; [|left; by apply keeps_reject].
  assert (Hload : load E s = (Gateway.Next (Provider.Load (at_load E) (prov (srv s))), s)) by done.
  unfold unstored. destruct (Provider.Load (at_load E) (prov (srv s))) as [c0|[e|e]] eqn:El.
  - left. rewrite (bind_next (config_with E r nr) _ s s (with_Routes (put nr (Routes c0)) c0, false)).
    + by apply (keeps_save_update (with_Routes (put nr (Routes c0)) c0) false r).
    + unfold config_with. by rewrite (bind_next _ _ _ _ _ Hload).
  - set (s1 := {| srv := put_in_cfg E nr (srv s); aw := aw s; aconn := aconn s |}).
    rewrite (bind_next (config_with E r nr) _ s s1 (cfg (srv s1), true)).
    2: { unfold config_with. by rewrite (bind_next _ _ _ _ _ Hload). }
    rewrite (bind_next _ _ _ _ _ (save_spec (cfg (srv s1)) s1)).
    destruct (Provider.Save _ _ _) as [[err signed] p']. cbn [fst snd when].
    erewrite bind_next by reflexivity. destruct err as [err|].
    + right. split; [by exists e|]. unfold save_failed.
      match goal with |- context [reject r ?m ?c 500 ?s2] =>
        destruct (reject_refuses (X := unit) r m c 500 s2 Hsil) as (s3 & Hr & _ & Hst); [lia|] end.
      by exists s3.
    + left. apply keeps_from.
      * apply update_leaves. cbn. unfold put_in_cfg, write_cell.
        destruct Hs as [Hl _].
        destruct (position _ _); [|destruct (append_moves E _); [exact Hl|]]; case_match; exact Hl.
      * intros _. keep.
  - left. unfold mbind, A_bind, config_with. unfold mbind, A_bind. rewrite Hload. unfold load_failed.
    pose proof (keeps_reject wired_process (X := GatewayConfig * bool) r ("Failed to load config: " ++ e)
                  "ERR_CONFIG_LOAD_FAILED" 500 s Hs) as Hk.
    unfold reject, writer, mbind, A_bind in Hk |- *.
    by destruct (WriteJSONError _ _ _ _ _).
Qed.

Lemma keeps_handlers : Forall (fun ph => fst ph <> "/api/routes"%string /\ fst ph <> "/api/v1/routes"%string ->
  forall r, keeps wired_process (snd ph r)) (limited_mounts E).
Proof.
  unfold limited_mounts.
  repeat (constructor; [cbn [fst snd]; intros [Ha Hb] r; try done|]); [..|constructor];
    unfold handleGitOpsWebhook, handleRouteRegister, handleConsoleSync, handleMiddleware, handleConnections,
      handleCacheInvalidation, handlePolicyReload, handlePolicyRevoke, handleAIBilling, post_sync, get_sync,
      SetAIBudget.
  all: keep.
Qed.

Lemma routes_pattern pattern (next : Request -> A (R := R) (M := M) (P := P) unit) :
  pattern = "/api/routes"%string \/ pattern = "/api/v1/routes"%string ->
  In (pattern, next) (limited_mounts E) -> next = handleRoutes E.
Proof.
  unfold limited_mounts. cbn [In]. intros Hp Hin.
  repeat (destruct Hin as [[= <- <-]|Hin];
          [first [reflexivity|destruct Hp as [Hp|Hp]; vm_compute in Hp; discriminate]|]).
  destruct Hin.
Qed.

Lemma keeps_delete r : keeps wired_process (delete_route E r).
Proof. unfold delete_route. keep. Qed.

Lemma handleRoutes_keeps r (s : state) : silent s -> wired_process (srv s) ->
  left_with wired_process (handleRoutes E r s) \/
  unstored (srv s) /\ method r = "POST"%string /\ client_status (aw (snd (handleRoutes E r s))) = 500.
Proof.
  intros Hsil Hs. unfold handleRoutes.
  destruct (require_cases (token_ok E) r s Hsil) as [[_ Hr]|[_ (s1 & Hr & [Hsame _] & _)]].
  2: { left. rewrite (bind_return _ _ _ _ Hr). cbn. by rewrite Hsame. }
  rewrite (bind_next _ _ _ _ _ Hr).
  assert (Hrest : forall x : unit, keeps wired_process
    ((fun _ => when (String.eqb (method r) "DELETE") (delete_route E r);;
       h ← gets gateway;
       write (fun w => encode_routes (Handler.GetRoutes h) (wset "Content-Type" "application/json" w))) x)).
  { intros _. pose proof keeps_delete. keep. done. }
  destruct (String.eqb_spec (method r) "POST") as [Hm|Hm]; cbn [when].
  - destruct (post_route_keeps r s Hsil Hs) as [Hk|(Hu & s1 & Hp & Hst)].
    + left. by apply keeps_from.
    + right. split; [done|]. split; [done|]. by rewrite (bind_return _ _ _ _ Hp).
  - left. by apply keeps_from.
Qed.

(** C13. An administration request, whatever it asks for and whoever sends it,
    leaves every route of the gateway with the resources it asks for - a
    logger or transport that cannot be created aside - if they had them before,
    with two exceptions: a request that panics, and then some route asks for a
    limit with a negative queue size; and a POST of a route that is answered 500
    because the provider has no configuration and cannot save one, the process
    having changed the live routes before. *)
Theorem admin_keeps_wired evs r (s : process) o s' :
  Handler.wired (platform E) (gateway s) -> serve_admin E evs r s = Some (o, s') ->
  (forall rt, rt ∈ Handler.GetRoutes (gateway (srv s')) ->
     Handler.serves (platform E) (Handler.res (gateway (srv s'))) rt) \/
  (exists why, o = Gateway.Crash why /\ broken (srv s')) \/
  (unstored s /\ method r = "POST"%string /\ client_status (aw s') = 500).
Proof.
  intros Hw Hserve.
  assert (Hend : left_with wired_process (o, s') \/
    unstored s /\ method r = "POST"%string /\ client_status (aw s') = 500).
  { destruct (serve_admin_cases _ _ _ _ _ Hserve) as [(pattern & next & Hin & _ & Hh)|[_ Hh]].
    2: { left. pose proof (socket_harmless _ _ _ _ _ Hh) as Hsame.
         assert (wired_process (srv s')) by (rewrite Hsame; exact Hw). destruct o; [done|done|by left]. }
    destruct (limit_cases pattern 60 next r (fresh_response s) eq_refl)
      as (s1 & (Hg & Hpr & _) & Haw & _ & [Hrun|(s2 & Hrun & [Hs2 _] & _)]); rewrite Hrun in Hh.
    2: { left. injection Hh as <- <-. cbn. rewrite Hs2. unfold wired_process. by rewrite Hg. }
    assert (Hw1 : wired_process (srv s1)) by (unfold wired_process; rewrite Hg; exact Hw).
    destruct (decide (pattern = "/api/routes"%string \/ pattern = "/api/v1/routes"%string)) as [Hroutes|Hother].
    - assert (next = handleRoutes E) as -> by (by apply (routes_pattern pattern)).
      destruct (handleRoutes_keeps r s1) as [Hk|(Hu & Hk)]; [unfold silent; by rewrite Haw|done|left|right].
      + by rewrite Hh in Hk.
      + rewrite Hh in Hk. split; [|exact Hk]. unfold unstored in *. by rewrite Hpr in Hu.
    - left. rewrite <- Hh. pose proof (proj1 (List.Forall_forall _ _) keeps_handlers _ Hin) as Hk.
      apply Hk; [|done]. cbn [fst]. tauto. }
  destruct Hend as [Hend|?]; [|auto].
  assert (Hcase : wired_process (srv s') \/ exists why, o = Gateway.Crash why /\ broken (srv s')).
  { destruct o as [x| |why]; [by left|by left|]. destruct Hend; [by left|right; eauto]. }
  destruct Hcase as [Hq|?]; [left|auto]. by apply Handler.wired_serves.
Qed.

End Facts.
End Admin.
