(* ===== verification/Boot.v ===== *)
(** * Starting the gateway, and its command line (main.go)

    The choice of the provider, the secrets fetched from ServSecret, the first
    configuration, the choice of the listener, the poll of the object store,
    and where [servgate install] puts a module. *)

From S2P Require Import Prelude GoStrings Json Types RateLimit Codec Config Http Url Handler Provider Admin.
Import Codec.
Open Scope Z_scope.

Module Boot.

(** ** Secrets *)

(** A request of the client: URL and headers; the answer is the status and the
    body. *)
Definition SecretClient := string -> list (string * string) -> result string (Z * string).

Definition secret_url (env : gmap string string) (key : string) : string :=
  (Config.or_default (Config.Getenv env "SERV_SECRET_URL") "http://localhost:8091" ++ "/api/secrets/" ++ key)%string.

Definition secret_headers (env : gmap string string) : list (string * string) :=
  let apiKey := Config.Getenv env "SERV_SECRET_API_KEY" in
  (if String.eqb apiKey "" then [] else [("X-API-Key"%string, apiKey)]) ++
  [("X-Tenant-ID"%string, Config.or_default (Config.Getenv env "SERV_SECRET_TENANT_ID") "default")].

(** [var res struct { Value string }]. *)
Definition decode_secret (body : string) : option string :=
  v ← json_decode body; es ← obj_entries v; field decode "value" ""%string es.

Definition getSecretFromServSecret (client : SecretClient) (env : gmap string string) (key : string)
  : result string string :=
  match client (secret_url env key) (secret_headers env) with
  | Err e => Err e
  | Ok (status, body) =>
      if negb (status =? 200) then Err ("unexpected status: " ++ Itoa status)%string
      else match decode_secret body with
           | Some v => Ok v
           | None => Err "invalid JSON"%string
           end
  end.

(** Secrets are asked for when one of these is set. *)
Definition wants_secrets (env : gmap string string) : bool :=
  negb (String.eqb (Config.Getenv env "SERV_SECRET_URL") "") ||
  negb (String.eqb (Config.Getenv env "SERV_SECRET_API_KEY") "") ||
  negb (String.eqb (Config.Getenv env "SERV_SECRET_TENANT_ID") "") ||
  String.eqb (Config.Getenv env "SERV_SECRET_TEST_MODE") "true".

Definition nonempty (r : result string string) : option string :=
  match r with Ok s => if String.eqb s "" then None else Some s | Err _ => None end.

(** The environment afterwards, and the certificate with its key. *)
Definition fetch_secrets (client : SecretClient) (env : gmap string string)
  : gmap string string * option (string * string) :=
  if wants_secrets env then
    let env' := match nonempty (getSecretFromServSecret client env "jwt_secret") with
                | Some s => <["SERV_JWT_SECRET"%string := s]> env
                | None => env
                end in
    (env', match nonempty (getSecretFromServSecret client env' "tls_cert"),
                 nonempty (getSecretFromServSecret client env' "tls_key") with
           | Some cert, Some key => Some (cert, key)
           | _, _ => None
           end)
  else (env, None).

(** ** The provider and the listener *)

Definition uses_s3 (standalone : bool) (env : gmap string string) : bool :=
  negb standalone &&
  (negb (String.eqb (Config.Getenv env "SERV_CONFIG_S3_BUCKET") "") ||
   negb (String.eqb (Config.Getenv env "SERVVERSE_DISCOVERY") "")).

(** [SetupSSLOffloading] of the community build. *)
Definition SetupSSLOffloading : bool := false.

Inductive listener :=
| Offloaded
| AutoTLS (domain : string)
| DynamicTLS (cert key : string)
| FileTLS (cert key addr : string)
| Plain (addr : string).

Definition choose_listener (env : gmap string string) (dynamic : option (string * string))
    (cfg : GatewayConfig) : listener :=
  let domain := Config.Getenv env "SERV_AUTO_TLS_DOMAIN" in
  if SetupSSLOffloading then Offloaded
  else if String.eqb (Config.Getenv env "SERV_AUTO_TLS") "true" && negb (String.eqb domain "") then AutoTLS domain
  else match dynamic with
       | Some (cert, key) => DynamicTLS cert key
       | None =>
           if negb (String.eqb (TlsCert cfg) "") && negb (String.eqb (TlsKey cfg) "")
           then FileTLS (TlsCert cfg) (TlsKey cfg) (Addr cfg)
           else Plain (Addr cfg)
       end.

(** ** The start *)

Section Start.
Context {R M P : Type} `{RateLimit.Limiter.RedisZSet R} `{Provider.ConfigProvider P}.

Definition with_env (env : gmap string string) (p : Handler.Platform) : Handler.Platform :=
  {| Handler.p_env := env; Handler.p_opens := Handler.p_opens p;
     Handler.p_load_key_pair := Handler.p_load_key_pair p; Handler.p_read_file := Handler.p_read_file p |}.

(** [log.Fatalf] ends the process; a panic of the construction does too. *)
Inductive started :=
| Fatal (msg : string)
| Started (s : Admin.server R M P) (p : Handler.Platform) (l : listener).

(** [main] up to the listener: the configuration is loaded before the secrets
    are fetched, by the provider [prov]; [see] gives the provider the changed
    environment. *)
Definition main (p : Handler.Platform) (connect : string -> option R) (client : SecretClient)
    (see : gmap string string -> P -> P) (now : Z) (wasm : result string M) (prov : P) (fs : Http.Files)
  : exec started :=
  match Provider.Load now prov with
  | Err e => Done (Fatal ("Gateway: failed to load config: " ++ Provider.load_error_text e)%string)
  | Ok cfg =>
      let '(env, dynamic) := fetch_secrets client (Handler.p_env p) in
      let p := with_env env p in
      match wasm with
      | Err e => Done (Fatal ("Gateway: failed to start WASM: " ++ e)%string)
      | Ok m =>
          let! h := Handler.NewGatewayHandler p connect (Routes cfg) m (AuthToken cfg) fs in
          Done (Started {| Admin.cfg := cfg; Admin.shared := true; Admin.gateway := h;
                           Admin.prov := see env prov; Admin.limiters := ∅ |} p
                        (choose_listener env dynamic cfg))
      end
  end.

(** ** The poll of the object store

    [last] is the text of the routes that were loaded last, [None] when they
    could not be printed. *)
Definition poll_start (cfg : GatewayConfig) : option string := Config.marshal_routes (Routes cfg).

Definition poll_step (p : Handler.Platform) (now : Z) (last : option string) (s : Admin.server R M P)
  : option string * Admin.server R M P * option string :=
  match Provider.Load now (Admin.prov s) with
  | Err _ => (last, s, None)
  | Ok newCfg =>
      match Config.marshal_routes (Routes newCfg) with
      | None => (last, s, None)
      | Some rb =>
          if String.eqb rb (default ""%string last) then (last, s, None)
          else let '(h, stopped) := Handler.UpdateRoutes p (Routes newCfg) (Admin.gateway s) in
               (if stopped is Some _ then last else Some rb,
                Admin.set_shared false (Admin.set_gateway h s), stopped)
      end
  end.

End Start.

(** ** [servgate install] *)

(** [filepath.Clean] of a relative path, segment by segment; [st] is the result
    so far, last segment first. *)
Definition clean_step (st : list string) (seg : string) : list string :=
  if String.eqb seg "" || String.eqb seg "." then st
  else if String.eqb seg ".." then
    match st with
    | [] => [seg]
    | top :: rest => if String.eqb top ".." then seg :: st else rest
    end
  else seg :: st.

Definition clean_relative (path : string) : string :=
  match fold_left clean_step (Split "/" path) [] with
  | [] => "."%string
  | st => Join (rev st) "/"
  end.

(** [filepath.Join("middlewares", name+".wasm")]. *)
Definition install_path (name : string) : string := clean_relative ("middlewares/" ++ name ++ ".wasm").

Definition install_url (env : gmap string string) (name : string) : string :=
  let registry := TrimSuffix (Config.or_default (Config.Getenv env "SERV_REGISTRY") "https://registry.serv-lang.org") "/" in
  (registry ++ "/middlewares/" ++ name ++ ".wasm")%string.

(** What the command writes: nothing unless the registry answers 200. *)
Definition runInstallCommand (get : string -> result string (Z * string)) (env : gmap string string)
    (args : list string) : result string (string * string) :=
  match args with
  | _ :: _ :: name :: _ =>
      match get (install_url env name) with
      | Err e => Err ("Install: failed to connect to registry: " ++ e)%string
      | Ok (status, body) =>
          if negb (status =? 200) then Err ("Install: registry returned status " ++ Itoa status)%string
          else Ok (install_path name, body)
      end
  | _ => Err "Install: middleware name is required. Example: servgate install jwt-auth"%string
  end.

(** ** Lemmas and properties *)

Section Facts.
Context {R M P : Type} `{RateLimit.Limiter.RedisZSet R} `{Provider.ConfigProvider P}.

(** The text the poll remembers and the server, since the process started: the
    poll's ticks, and in between anything - requests served, the clock, a store
    rewritten by others, limits and connections - that leaves the list of routes
    of the gateway alone. *)
Inductive polled (p : Handler.Platform) : option string -> Admin.server R M P -> Prop :=
| polled_start p0 connect client see now wasm prov fs s l :
    main p0 connect client see now wasm prov fs = Done (Started s p l) ->
    polled p (poll_start (Admin.cfg s)) s
| polled_between last s s' :
    polled p last s ->
    Handler.GetRoutes (Admin.gateway s') = Handler.GetRoutes (Admin.gateway s) ->
    polled p last s'
| polled_tick now last s last' s' :
    polled p last s -> poll_step p now last s = (last', s', None) -> polled p last' s'.

Lemma NewGatewayHandler_routes p (connect : string -> option R) rs (wasm : M) token fs h :
  Handler.NewGatewayHandler p connect rs wasm token fs = Done h -> Handler.GetRoutes h = rs.
Proof.
  unfold Handler.NewGatewayHandler. destruct (Handler.install_routes _ _ _ _) as [? [?|]]; [done|].
  by intros [= <-].
Qed.

(** The remembered text is that of the gateway's routes. *)
Lemma polled_remembers p last s :
  polled p last s -> last = Config.marshal_routes (Handler.GetRoutes (Admin.gateway s)).
Proof.
  induction 1 as [p0 connect client see now wasm prov fs s l Hm|last s s' _ IH Hr
                 |now last s last' s' _ IH Hp].
  - unfold main in Hm. destruct (Provider.Load now prov) as [cfg|e]; [|done].
    destruct (fetch_secrets client _) as [env dynamic]. destruct wasm as [m|e]; [|done].
    destruct (Handler.NewGatewayHandler _ _ _ _ _ _) as [h|why] eqn:Eh; [|done].
    injection Hm as <- _ _. unfold poll_start. cbn. by rewrite (NewGatewayHandler_routes _ _ _ _ _ _ _ Eh).
  - by rewrite Hr.
  - unfold poll_step in Hp. destruct (Provider.Load now (Admin.prov s)) as [c|e]; [|by injection Hp as <- <-].
    destruct (Config.marshal_routes (Routes c)) as [rb|] eqn:Et; [|by injection Hp as <- <-].
    destruct (String.eqb _ _); [by injection Hp as <- <-|].
    pose proof (Admin.UpdateRoutes_routes p (Routes c) (Admin.gateway s)) as Hr.
    destruct (Handler.UpdateRoutes p (Routes c) (Admin.gateway s)) as [h [why|]]; [done|].
    injection Hp as <- <-. cbn in *. by rewrite Hr, Et.
Qed.

(** Printed routes are never the empty text, which stands for none. *)
Lemma marshal_routes_nonempty rs : Config.marshal_routes rs <> Some ""%string.
Proof.
  intros Hm. apply Config.marshal_routes_text in Hm. destruct rs; discriminate Hm.
Qed.

(** C38. The poll converges, whatever was written to the store: from the start
    of the process on, as long as only the poll replaces the gateway's routes,
    a poll that loads and does not panic leaves the gateway with the routes of
    the store - the same text, and the same routes when both are representable
    - replacing them exactly when their text differs, and touching nothing
    otherwise; a poll that cannot load touches nothing. *)
Theorem poll_converges p last s now last' s' :
  polled p last s -> poll_step p now last s = (last', s', None) ->
  match Provider.Load now (Admin.prov s) with
  | Err _ => last' = last /\ s' = s
  | Ok c =>
      let live := Handler.GetRoutes (Admin.gateway s) in
      let live' := Handler.GetRoutes (Admin.gateway s') in
      match Config.marshal_routes (Routes c) with
      | None => last' = last /\ s' = s
      | Some text =>
          Config.marshal_routes live' = Some text /\ last' = Some text /\
          (Config.marshal_routes live = Some text -> s' = s) /\
          (Config.marshal_routes live <> Some text -> live' = Routes c) /\
          (valid live' -> valid (Routes c) -> live' = Routes c)
      end
  end.
Proof.
  intros Hpo Hp. pose proof (polled_remembers _ _ _ Hpo) as Hlast.
  pose proof (polled_remembers _ _ _ (polled_tick _ _ _ _ _ _ Hpo Hp)) as Hlast'.
  unfold poll_step in Hp. destruct (Provider.Load now (Admin.prov s)) as [c|e];
    [|by injection Hp as <- <-]. cbv zeta.
  destruct (Config.marshal_routes (Routes c)) as [text|] eqn:Et; [|by injection Hp as <- <-].
  assert (Hinj : Config.marshal_routes (Handler.GetRoutes (Admin.gateway s')) = Some text ->
    valid (Handler.GetRoutes (Admin.gateway s')) -> valid (Routes c) ->
    Handler.GetRoutes (Admin.gateway s') = Routes c).
  { intros Ht Hv Hv'. apply Config.marshal_routes_text in Ht, Et.
    apply Config.encode_inj; [done..|vm_compute; discriminate|congruence]. }
  destruct (String.eqb_spec text (default ""%string last)) as [He|Hne].
  - injection Hp as <- <-. assert (last = Some text) as ->.
    { destruct last as [l|]; cbn in He; [by subst|]. subst. by apply marshal_routes_nonempty in Et. }
    rewrite <- Hlast' in *. split; [done|]. split; [done|]. split; [done|]. by split; [|auto].
  - pose proof (Admin.UpdateRoutes_routes p (Routes c) (Admin.gateway s)) as Hr.
    destruct (Handler.UpdateRoutes p (Routes c) (Admin.gateway s)) as [h [why|]]; [done|].
    injection Hp as <- <-. cbn in *. rewrite Hr. rewrite Hr in Hlast'. split; [done|].
    split; [done|]. split; [|done]. intros Hl. rewrite Hl in Hlast. by subst last.
Qed.

(** The process starts with every route wired. *)
Lemma main_wired p connect client see now (wasm : result string M) (prov : P) fs (s : Admin.server R M P) p' l :
  main p connect client see now wasm prov fs = Done (Started s p' l) -> Handler.wired p' (Admin.gateway s).
Proof.
  unfold main. destruct (Provider.Load now prov) as [cfg|e]; [|done].
  destruct (fetch_secrets client (Handler.p_env p)) as [env dynamic].
  destruct wasm as [m|e]; [|done].
  destruct (Handler.NewGatewayHandler _ _ _ _ _ _) as [h|why] eqn:Eh; [|done].
  intros [= <- <- _]. by eapply Handler.new_handler_wired.
Qed.

End Facts.

(** A module whose name has no slash is installed in its directory. *)
Lemma install_inside name : free_of "/" name = true -> install_path name = ("middlewares/" ++ name ++ ".wasm")%string.
Proof.
  intros Hf. unfold install_path, clean_relative.
  assert (Hseg : Split "/" ("middlewares/" ++ name ++ ".wasm") = ["middlewares"; (name ++ ".wasm")%string]%string).
  { apply (Split_Join "/" ["middlewares"; (name ++ ".wasm")%string]%string); [done|].
    repeat constructor. unfold free_of in *. by rewrite sforall_app, Hf. }
  rewrite Hseg. cbn [fold_left clean_step].
  assert (Hlong : forall t : string, (String.length t <= 2)%nat -> String.eqb (name ++ ".wasm") t = false).
  { intros t Hlen. apply String.eqb_neq. intros <-. rewrite slength_app in Hlen. simpl in Hlen. lia. }
  unfold clean_step. rewrite !Hlong by (simpl; lia). reflexivity.
Qed.

(** A name with [..] leaves the directory. *)
Example install_escapes :
  install_path "jwt-auth" = "middlewares/jwt-auth.wasm"%string /\
  install_path "../../etc/cron.d/job" = "../etc/cron.d/job.wasm"%string /\
  runInstallCommand (fun _ => Ok (200, "asm"%string)) ∅ ["servgate"; "install"; "../config"]%string
    = Ok ("config.wasm", "asm")%string.
Proof. vm_compute. split; [reflexivity|]. split; reflexivity. Qed.

End Boot.
