(* ===== verification/Cli.v ===== *)
(** * The command line (main.go), and the plugin registry (plugin.go)

    Which command [main] runs, the flags of [servgate replay] as the [flag]
    package reads them, the report of a replay, and the table of native
    plugins.  Durations are printed as numbers of nanoseconds: the [%v] of a
    duration is not modelled. *)

From S2P Require Import Prelude GoStrings Json Types Codec Http Gateway Wasm Replay.
Import Codec.
Open Scope Z_scope.

Module Cli.

(** ** The choice of the command *)

Inductive command := CmdReplay | CmdInstall | CmdPolicy | CmdServe.

Definition choose_command (args : list string) : command :=
  match args with
  | _ :: c :: _ =>
      if String.eqb c "replay" then CmdReplay
      else if String.eqb c "install" then CmdInstall
      else if String.eqb c "policy" then CmdPolicy
      else CmdServe
  | _ => CmdServe
  end.

(** ** Flags

    [flag.ExitOnError]: a flag that is not defined, has a bad form or lacks
    its value ends the process with status 2, [-h] and [-help] with status 0.
    All flags are strings here. *)

Inductive flag_error := FlagHelp | BadFlag (msg : string).

Definition exit_status (e : flag_error) : Z := match e with FlagHelp => 0 | BadFlag _ => 2 end.

(** What an argument is: the end of the flags, a flag with its name and, after
    an equals sign, its value, or nothing of the kind. *)
Inductive flag_arg := NoFlag | EndOfFlags | BadSyntax | Named (name : string) (value : option string).

Definition split_value (s : string) : flag_arg :=
  match s with
  | ""%string => BadSyntax
  | String c t =>
      if (byte_of c =? 45) || (byte_of c =? 61) then BadSyntax
      else match index_byte t "=" with
           | Some i => Named (String c (stake i t)) (Some (sdrop (S i) t))
           | None => Named s None
           end
  end.

Definition flag_arg_of (s : string) : flag_arg :=
  match s with
  | String c (String d t) =>
      if negb (byte_of c =? 45) then NoFlag
      else if byte_of d =? 45 then (if String.eqb t "" then EndOfFlags else split_value t)
      else split_value (String d t)
  | _ => NoFlag
  end.

(** [FlagSet.Parse]: the values that were set, the last one of a name wins.
    Every turn consumes an argument. *)
Fixpoint Parse (names : list string) (args : list string) (set : gmap string string)
  : result flag_error (gmap string string) :=
  match args with
  | [] => Ok set
  | s :: rest =>
      match flag_arg_of s with
      | NoFlag | EndOfFlags => Ok set
      | BadSyntax => Err (BadFlag ("bad flag syntax: " ++ s)%string)
      | Named name value =>
          if negb (existsb (String.eqb name) names) then
            if String.eqb name "help" || String.eqb name "h" then Err FlagHelp
            else Err (BadFlag ("flag provided but not defined: -" ++ name)%string)
          else match value, rest with
               | Some v, _ => Parse names rest (<[name := v]> set)
               | None, v :: rest' => Parse names rest' (<[name := v]> set)
               | None, [] => Err (BadFlag ("flag needs an argument: -" ++ name)%string)
               end
      end
  end.

(** ** [servgate replay] *)

Definition replay_flags : list string := ["log"; "middleware"; "output"]%string.

Definition encode_stats (s : Replay.ReplayStats) : json :=
  JObj [("total", encode (Replay.Total s)); ("successes", encode (Replay.Successes s));
        ("failures", encode (Replay.Failures s)); ("min_latency", encode (Replay.MinLatency s));
        ("max_latency", encode (Replay.MaxLatency s)); ("avg_latency", encode (Replay.AvgLatency s));
        ("p50_latency", encode (Replay.P50Latency s)); ("p90_latency", encode (Replay.P90Latency s));
        ("p99_latency", encode (Replay.P99Latency s))]%string.

(** The lines of the summary; latencies only when there was a success. *)
Definition summary_lines (s : Replay.ReplayStats) : list (string * Z) :=
  [("Total Requests", Replay.Total s); ("Successes", Replay.Successes s); ("Failures", Replay.Failures s)]%string ++
  (if 0 <? Replay.Successes s then
     [("Min Latency", Replay.MinLatency s); ("Max Latency", Replay.MaxLatency s);
      ("Avg Latency", Replay.AvgLatency s); ("P50 Latency", Replay.P50Latency s);
      ("P90 Latency", Replay.P90Latency s); ("P99 Latency", Replay.P99Latency s)]%string
   else []).

(** How the command ends: with a message and status 1, with the status of the
    flag package, or with the summary and the report it wrote. *)
Inductive replay_end :=
| Exit (e : flag_error)
| Fatal (printed : list (string * Z)) (msg : string)
| Report (printed : list (string * Z)) (saved : option (string * string)).

Section ReplayCommand.
Context {C I : Type} `{Wasm.Engine C I}.
Context (clock : nat -> Z) (open_log : string -> result string Http.Reader) (read_file : string -> result string string).
Context (init : result string unit) (write_error : string -> option string).

Definition runReplayCommand (args : list string) : exec replay_end :=
  match Parse replay_flags (skipn 2 args) ∅ with
  | Err e => Done (Exit e)
  | Ok set =>
      let flag name := default ""%string (set !! name) in
      if String.eqb (flag "log"%string) "" || String.eqb (flag "middleware"%string) "" then
        Done (Fatal [] "Replay: --log and --middleware flags are required. Example: servgate replay --log traffic.jsonl --middleware auth.wasm")
      else match read_file (flag "middleware"%string) with
      | Err e => Done (Fatal [] ("Replay: failed to read WASM file: " ++ e)%string)
      | Ok wasmBytes =>
          let! stats := Replay.ReplayTraffic clock (open_log (flag "log"%string)) init
                          {| Wasm.once_done := false; Wasm.globalManager := None |} wasmBytes in
          match stats with
          | Err e => Done (Fatal [] ("Replay: execution error: " ++ e)%string)
          | Ok stats =>
              let printed := summary_lines stats in
              let outPath := flag "output"%string in
              if String.eqb outPath "" then Done (Report printed None)
              else match write_error outPath with
                   | Some e => Done (Fatal printed ("Replay: failed to write output file: " ++ e)%string)
                   | None => Done (Report printed (Some (outPath, render_indent (encode_stats stats))))
                   end
          end
      end
  end.

End ReplayCommand.

(** ** Native plugins: [RegisterPlugin] and [GetPlugin] *)

Definition PluginTable : Type := gmap string Gateway.Plugin.

Definition RegisterPlugin (name : string) (p : Gateway.Plugin) (plugins : PluginTable) : PluginTable :=
  <[name := p]> plugins.
Definition GetPlugin (name : string) (plugins : PluginTable) : option Gateway.Plugin := plugins !! name.

(** ** Facts *)

(** A flag with an equals sign is the same as the flag and its value. *)
Lemma flag_forms name v rest set : name ∈ replay_flags ->
  Parse replay_flags (("-" ++ name ++ "=" ++ v)%string :: rest) set
  = Parse replay_flags (("--" ++ name)%string :: v :: rest) set.
Proof.
  intros Hn. unfold replay_flags in Hn.
  repeat (apply list.elem_of_cons in Hn as [->|Hn]; [by cbn; rewrite ?sdrop_0|]). by apply not_elem_of_nil in Hn.
Qed.

(** The report is JSON, and reads back as what was measured. *)
Lemma report_reads_back s : json_decode (render_indent (encode_stats s)) = Some (encode_stats s).
Proof. apply json_decode_indent; [|done]. cbn. by rewrite !Itoa_lit. Qed.

(** A plugin is found under the name it was registered with last. *)
Lemma GetPlugin_RegisterPlugin name name' p plugins :
  GetPlugin name' (RegisterPlugin name p plugins)
  = if String.eqb name name' then Some p else GetPlugin name' plugins.
Proof.
  unfold GetPlugin, RegisterPlugin. destruct (String.eqb_spec name name') as [->|Hn].
  - apply (lookup_insert_eq (M := gmap string)).
  - by apply (lookup_insert_ne (M := gmap string)).
Qed.

(** ** The commands at work *)

#[local] Existing Instance Wasm.echo_engine.

Example commands :
  map choose_command [["servgate"]; ["servgate"; "policy"; "compile"]; ["servgate"; "install"]; ["servgate"; "serve"]]%string
  = [CmdServe; CmdPolicy; CmdInstall; CmdServe].
Proof. done. Qed.

Definition replay (args : list string) : exec replay_end :=
  runReplayCommand (C := string) (I := Wasm.echo) (fun n => Z.of_nat n * 7)
    (fun p => if String.eqb p "t.jsonl" then Ok Replay.sample_log else Err "no such file"%string)
    (fun p => if String.eqb p "m.wasm" then Ok "v1"%string else Err "no such file"%string)
    (Ok tt) (fun p => if String.eqb p "/" then Some "is a directory"%string else None)
    ("servgate" :: "replay" :: args)%string.

Example replay_reports :
  replay ["-log=t.jsonl"; "--middleware"; "m.wasm"; "-output"; "r.json"]%string
  = Done (Report [("Total Requests", 4); ("Successes", 2); ("Failures", 2); ("Min Latency", 7);
                  ("Max Latency", 7); ("Avg Latency", 7); ("P50 Latency", 7); ("P90 Latency", 7);
                  ("P99 Latency", 7)]%string
          (Some ("r.json", render_indent (encode_stats
             {| Replay.Total := 4; Replay.Successes := 2; Replay.Failures := 2; Replay.MinLatency := 7;
                Replay.MaxLatency := 7; Replay.AvgLatency := 7; Replay.P50Latency := 7;
                Replay.P90Latency := 7; Replay.P99Latency := 7 |}))%string)).
Proof. vm_compute. done. Qed.

Example replay_refuses :
  replay ["-h"]%string = Done (Exit FlagHelp) /\
  replay ["-log"]%string = Done (Exit (BadFlag "flag needs an argument: -log")) /\
  replay ["-v"]%string = Done (Exit (BadFlag "flag provided but not defined: -v")) /\
  (exists msg, replay ["x"; "-log=t.jsonl"; "-middleware=m.wasm"]%string = Done (Fatal [] msg)).
Proof. split; [done|]. split; [done|]. split; [done|]. eexists. reflexivity. Qed.

(** The report is written last: one that cannot be written loses no line of
    the summary. *)
Example unwritable_report :
  match replay ["-log=t.jsonl"; "-middleware=m.wasm"; "-output=/"]%string with
  | Done (Fatal printed msg) => length printed = 9%nat /\ msg = "Replay: failed to write output file: is a directory"%string
  | _ => False
  end.
Proof. vm_compute. done. Qed.

End Cli.
