(* ===== verification/Serving.v ===== *)
(** * What ServeHTTP guarantees

    Rules for programs of the gateway monad, and the theorems about the whole
    pipeline: what every check has established of a request before a WASM
    module, a plugin, a queue, a tunnel or a backend is given a part of it;
    connections and slots are given back on every exit; every request is counted
    once; only successes are cached. *)

From S2P Require Import Prelude GoStrings GoFloat Json Types RateLimit Balancer Canary Breaker.
From S2P Require Import Backpressure Cache Token Access Policy Validation Transform Codec Config.
From S2P Require Import Http Url Ai Handler Proxy Gateway.
Open Scope Z_scope.

Module Serving.
Import Http Handler Gateway.

(** ** Program logic *)

Section Logic.
Context {R M : Type}.
Abbreviation gst := (gst (R := R) (M := M)).
Abbreviation G := (G (R := R) (M := M)).

(** From a state with [P], [m] goes on with [Q], or ends in a state with
    [E]. *)
Definition triple {A} (P : gst -> Prop) (m : G A) (Q : A -> gst -> Prop) (E : gst -> Prop) : Prop :=
  forall s, P s -> match m s with
                   | (Next a, s') => Q a s'
                   | (_, s') => E s'
                   end.

(** [P] holds on every exit if it holds at the start. *)
Definition stays {A} (P : gst -> Prop) (m : G A) : Prop := triple P m (fun _ => P) P.

Lemma triple_ret {A} (P : gst -> Prop) (a : A) (Q : A -> gst -> Prop) E :
  (forall s, P s -> Q a s) -> triple P (mret a) Q E.
Proof. intros HQ s Hs. by apply HQ. Qed.

Lemma triple_bind {A B} P (m : G A) (k : A -> G B) Q' Q E :
  triple P m Q' E -> (forall a, triple (Q' a) (k a) Q E) -> triple P (mbind k m) Q E.
Proof.
  intros Hm Hk s Hs. specialize (Hm s Hs). unfold mbind, G_bind.
  destruct (m s) as [[a| |why] s'] eqn:Em; [|done|done]. by apply Hk.
Qed.

Lemma triple_conseq {A} (P' : gst -> Prop) (Q' : A -> gst -> Prop) E' P m Q E :
  triple P' m Q' E' -> (forall s, P s -> P' s) -> (forall a s, Q' a s -> Q a s) ->
  (forall s, E' s -> E s) -> triple P m Q E.
Proof.
  intros Hm HP HQ HE s Hs. specialize (Hm s (HP s Hs)).
  destruct (m s) as [[a| |why] s']; auto.
Qed.

Lemma triple_gets {A} (P : gst -> Prop) (f : gst -> A) Q E :
  (forall s, P s -> Q (f s) s) -> triple P (gets f) Q E.
Proof. intros HQ s Hs. by apply HQ. Qed.

Lemma triple_modify (P : gst -> Prop) f (Q : unit -> gst -> Prop) E :
  (forall s, P s -> Q tt (f s)) -> triple P (modify f) Q E.
Proof. intros HQ s Hs. by apply HQ. Qed.

Lemma triple_return {A} (P : gst -> Prop) (Q : A -> gst -> Prop) E :
  (forall s, P s -> E s) -> triple P return_ Q E.
Proof. intros HE s Hs. by apply HE. Qed.

Lemma triple_when P b m (Q : unit -> gst -> Prop) E :
  (b = true -> triple P m Q E) -> (b = false -> forall s, P s -> Q tt s) -> triple P (when b m) Q E.
Proof. intros Ht Hf. unfold when. destruct b; [by apply Ht|]. apply triple_ret. by apply Hf. Qed.

Lemma triple_writer (P : gst -> Prop) f (Q : unit -> gst -> Prop) (E : gst -> Prop) :
  (forall s g, P s -> Q tt (upd_w g s)) -> (forall s, P s -> E s) -> triple P (writer f) Q E.
Proof. intros HQ HE s Hs. unfold writer. destruct (f (gw s)); auto. Qed.

Lemma triple_exec {A} (P : gst -> Prop) (x : exec A) Q (E : gst -> Prop) :
  (forall a s, x = Done a -> P s -> Q a s) -> (forall s, P s -> E s) -> triple P (of_exec x) Q E.
Proof. intros HQ HE s Hs. unfold of_exec. destruct x; auto. Qed.

Lemma stays_ret {A} P (a : A) : stays P (mret a).
Proof. by apply triple_ret. Qed.
Lemma stays_bind {A B} P (m : G A) (k : A -> G B) :
  stays P m -> (forall a, stays P (k a)) -> stays P (mbind k m).
Proof. intros Hm Hk. by eapply triple_bind. Qed.
Lemma stays_gets {A} P (f : gst -> A) : stays P (gets f).
Proof. by apply triple_gets. Qed.
Lemma stays_return {A} P : stays P (return_ : G A).
Proof. by apply triple_return. Qed.
Lemma stays_when P b m : stays P m -> stays P (when b m).
Proof. intros Hm. apply triple_when; [done|auto]. Qed.
Lemma stays_exec {A} P (x : exec A) : stays P (of_exec x).
Proof. by apply triple_exec. Qed.
Lemma stays_modify (P : gst -> Prop) f : (forall s, P s -> P (f s)) -> stays P (modify f).
Proof. intros Hf. apply triple_modify. apply Hf. Qed.
Lemma stays_conj {A} (P P' : gst -> Prop) (m : G A) :
  stays P m -> stays P' m -> stays (fun s => P s /\ P' s) m.
Proof.
  intros H1 H2 s [Hs Hs']. specialize (H1 s Hs). specialize (H2 s Hs').
  destruct (m s) as [[a| |why] s']; auto.
Qed.
End Logic.

(** One rule per head symbol; [stay] proves [stays P m], leaving what [P] must
    satisfy under the updates of the state. *)
Lemma stays_writer {R M} (P : gst (R := R) (M := M) -> Prop) f :
  (forall s g, P s -> P (upd_w g s)) -> stays P (writer f).
Proof. intros HP. apply triple_writer; auto. Qed.
Lemma stays_now {R M} W (P : gst (R := R) (M := M) -> Prop) :
  (forall s, P s -> P (upd_ticks s)) -> stays P (now W).
Proof. intros HP s Hs. by apply HP. Qed.
Lemma stays_draw {R M} W (P : gst (R := R) (M := M) -> Prop) :
  (forall s, P s -> P (upd_draws s)) -> stays P (draw W).
Proof. intros HP s Hs. by apply HP. Qed.

Ltac stay_step :=
  lazymatch goal with
  | |- forall _, _ => intros ?
  | |- stays _ (mbind _ _) => apply stays_bind
  | |- stays _ (mret _) => apply stays_ret
  | |- stays _ (gets _) => apply stays_gets
  | |- stays _ handler => apply stays_gets
  | |- stays _ request => apply stays_gets
  | |- stays _ return_ => apply stays_return
  | |- stays _ (of_exec _) => apply stays_exec
  | |- stays _ (when _ _) => apply stays_when
  | |- stays _ (modify _) => apply stays_modify
  | |- stays _ (mod_h _) => apply stays_modify
  | |- stays _ (mod_w _) => apply stays_modify
  | |- stays _ (mod_r _) => apply stays_modify
  | |- stays _ (emit _) => apply stays_modify
  | |- stays _ (defer _) => apply stays_modify
  | |- stays _ (writer _) => apply stays_writer
  | |- stays _ (now _) => apply stays_now
  | |- stays _ (draw _) => apply stays_draw
  | |- stays _ inc_error => apply stays_modify
  | |- stays _ (match ?x with _ => _ end) => destruct x
  | |- stays _ (reject _ _ _) => unfold reject, reply_json
  | |- stays _ (reply_json _ _ _) => unfold reply_json
  end.
Ltac stay := repeat (first [progress cbv zeta | stay_step]).

(** ** The bookkeeping of the handler

    What most stages leave alone: the request counter, the connection counters,
    the caches, the limiters and the deferred calls. *)
Section Books.
Context {R M : Type} `{RateLimit.Limiter.RedisZSet R} `{WasmRunner M} (W : World).
Abbreviation gst := (gst (R := R) (M := M)).
Abbreviation G := (G (R := R) (M := M)).

Record books := {
  b_requests : Z;
  b_conns : gmap string Z;
  b_caches : gmap string Cache.ResponseCache;
  b_limiters : gmap string (option Backpressure.BackpressureLimiter);
  b_deferred : list deferred_call;
}.

Definition handler_books (h : GatewayHandler R M) (d : list deferred_call) : books :=
  {| b_requests := totalRequests (metricsTracker h);
     b_conns := activeConns (bal h);
     b_caches := responseCaches (res h);
     b_limiters := limiters (res h);
     b_deferred := d |}.
Definition books_of (s : gst) : books := handler_books (gh s) (deferred s).

(** [m] leaves the books alone. *)
Definition tidy {A} (m : G A) : Prop := forall P : books -> Prop, stays (fun s => P (books_of s)) m.

Ltac tidy := intros P; stay; try done.

Lemma tidy_bind {A B} (m : G A) (k : A -> G B) :
  tidy m -> (forall a, tidy (k a)) -> tidy (mbind k m).
Proof. intros Hm Hk P. apply stays_bind; [apply Hm|intros a; apply Hk]. Qed.

Lemma tidy_read_body : tidy read_body.
Proof. unfold read_body. tidy. Qed.

Lemma tidy_EndSpan sp e l : tidy (EndSpan sp e l).
Proof. unfold EndSpan. tidy. Qed.
Lemma tidy_StartSpan n p : tidy (StartSpan W n p).
Proof. unfold StartSpan. tidy. Qed.

Lemma tidy_is_rate_limited ip p l : tidy (is_rate_limited W ip p l).
Proof. unfold is_rate_limited. tidy. Qed.

Create HintDb tidy discriminated.
#[local] Hint Resolve tidy_read_body tidy_EndSpan tidy_StartSpan tidy_is_rate_limited : tidy.

Ltac tidy_leaf :=
  lazymatch goal with
  | |- stays (fun s => ?P (books_of s)) ?m =>
      let H := fresh in assert (H : tidy m) by (auto with tidy nocore); exact (H P)
  end.
Ltac tidy ::= intros P; repeat (first [progress cbv zeta | tidy_leaf | stay_step]); try done.

Lemma tidy_tenant_check : tidy (tenant_check W).
Proof. unfold tenant_check. tidy. Qed.
Lemma tidy_docs html : tidy (docs W html).
Proof. unfold docs. tidy. Qed.
Lemma tidy_admin_paths : tidy (admin_paths W).
Proof. unfold admin_paths, serve_tenant_policies, serve_policy_reload, serve_governance. tidy. Qed.
Lemma tidy_authenticate : tidy (authenticate W).
Proof. unfold authenticate. tidy. Qed.
Lemma tidy_find_route : tidy find_route.
Proof. unfold find_route. tidy. Qed.
Lemma tidy_limit_body route : tidy (limit_body route).
Proof. unfold limit_body. tidy. Qed.
Lemma tidy_api_key_check route : tidy (api_key_check W route).
Proof. unfold api_key_check. tidy. Qed.
Lemma tidy_schema_registry route : tidy (schema_registry W route).
Proof. unfold schema_registry. tidy. Qed.
Lemma tidy_mcp route : tidy (mcp W route).
Proof. unfold mcp. tidy. Qed.
Lemma tidy_ip_check route ip : tidy (ip_check route ip).
Proof. unfold ip_check. tidy. Qed.
Lemma tidy_policy_check route : tidy (policy_check W route).
Proof. unfold policy_check. tidy. Qed.
Lemma tidy_rate_limit route ip : tidy (rate_limit W route ip).
Proof. unfold rate_limit. tidy. Qed.
Lemma tidy_graphql route : tidy (graphql route).
Proof. unfold graphql. tidy. Qed.
Lemma tidy_tracing : tidy (tracing W).
Proof. unfold tracing. tidy. Qed.
Lemma tidy_validate_body route sp : tidy (validate_body W route sp).
Proof. unfold validate_body. tidy. Qed.
Lemma tidy_ai_checks route sp : tidy (ai_checks W route sp).
Proof. unfold ai_checks. tidy. Qed.
Lemma tidy_run_wasm name input : tidy (run_wasm name input).
Proof. unfold run_wasm. tidy. Qed.
#[local] Hint Resolve tidy_run_wasm : tidy.
Lemma tidy_traced_wasm title name input parent : tidy (traced_wasm W title name input parent).
Proof. unfold traced_wasm. tidy. Qed.
#[local] Hint Resolve tidy_traced_wasm : tidy.
Lemma tidy_wasm_request route sp tp : tidy (wasm_request W route sp tp).
Proof. unfold wasm_request. tidy. Qed.
Lemma tidy_plugin_request route sp : tidy (plugin_request W route sp).
Proof. unfold plugin_request. tidy. Qed.
Lemma tidy_check_breaker target sp : tidy (check_breaker W target sp).
Proof. unfold check_breaker. tidy. Qed.
Lemma tidy_queue_bridge route target sp tp : tidy (queue_bridge W route target sp tp).
Proof. unfold queue_bridge. tidy. Qed.
Lemma tidy_parse_target target sp : tidy (parse_target target sp).
Proof. unfold parse_target. tidy. Qed.
Lemma tidy_llm_routing route : tidy (llm_routing route).
Proof. unfold llm_routing. tidy. Qed.
Lemma tidy_proxyWebSocket target : tidy (proxyWebSocket W target).
Proof. unfold proxyWebSocket. tidy. Qed.
#[local] Hint Resolve tidy_proxyWebSocket : tidy.
Lemma tidy_websocket route target u sp : tidy (websocket W route target u sp).
Proof. unfold websocket. tidy. Qed.
Lemma tidy_request_transform route : tidy (request_transform W route).
Proof. unfold request_transform. tidy. Qed.
Lemma tidy_grpc_request route : tidy (grpc_request route).
Proof. unfold grpc_request, grpc_to_rest_request, rest_to_grpc_request. tidy. Qed.

(** *** The reverse proxy *)

Lemma attempts_inv {S} (base : Request -> S -> result string Response * Reader * S) (I : S -> Prop) :
  (forall req s, I s -> I (snd (base req s))) ->
  forall n bytes req last s, I s -> I (snd (Proxy.attempts base n bytes req last s)).
Proof.
  intros Hb. induction n as [|n IH]; intros bytes req last s Hs; cbn [Proxy.attempts]; [done|].
  specialize (Hb (Proxy.with_bytes bytes req) s Hs). destruct (base _ s) as [[x rest] s']. simpl in Hb.
  destruct (Proxy.acceptable x); [done|]. by apply IH.
Qed.

Lemma send_once_trace t req (rec : Recorder) (s : gst) (P : gst -> Prop) :
  P s -> (forall s e, P s -> P (upd_trace e (upd_sends s))) ->
  P (snd (snd (send_once W t req (rec, s)))).
Proof.
  intros Hs Hstep. unfold send_once. destruct (Proxy.sendable req); [done|].
  destruct (wire W t (sends s) req); simpl; by apply Hstep.
Qed.

Lemma stays_round_trip t req rec (P : gst -> Prop) :
  (forall s e, P s -> P (upd_trace e (upd_sends s))) -> stays P (round_trip W t req rec).
Proof.
  intros Hstep s Hs. unfold round_trip, Proxy.RoundTrip, ReadAll. cbv zeta.
  match goal with |- context [Proxy.attempts ?base ?n ?b ?q ?l ?start] =>
    pose proof (attempts_inv base (fun st => P (snd st))
      (fun rq '(rc, s') Hp => send_once_trace t rq rc s' P Hp Hstep) n b q l start Hs) as Hi;
    by destruct (Proxy.attempts base n b q l start) as [x [rc s']] end.
Qed.

Lemma tidy_round_trip t req rec : tidy (round_trip W t req rec).
Proof. intros P. by apply stays_round_trip. Qed.
Lemma tidy_backpressure_header target resp : tidy (backpressure_header target resp).
Proof. unfold backpressure_header. tidy. Qed.
Lemma tidy_plugin_response route out rec resp : tidy (plugin_response W route out rec resp).
Proof. unfold plugin_response. tidy. Qed.
Lemma tidy_wasm_response route tp body : tidy (wasm_response W route tp body).
Proof. unfold wasm_response. tidy. Qed.
#[local] Hint Resolve tidy_round_trip tidy_backpressure_header tidy_plugin_response tidy_wasm_response : tidy.
Lemma tidy_modify_response route target tp out rec resp : tidy (modify_response W route target tp out rec resp).
Proof. unfold modify_response. tidy. Qed.
Lemma tidy_proxy_error target out rec e : tidy (proxy_error target out rec e).
Proof. unfold proxy_error. tidy. Qed.
#[local] Hint Resolve tidy_modify_response tidy_proxy_error : tidy.
Lemma tidy_reverse_proxy t route target tp u rec : tidy (reverse_proxy W t route target tp u rec).
Proof. unfold reverse_proxy. tidy. Qed.
#[local] Hint Resolve tidy_reverse_proxy : tidy.
Lemma tidy_forward route target tp u key : tidy (forward W route target tp u key).
Proof. unfold forward. tidy. Qed.

Lemma tidy_log_line route entry : tidy (log_line route entry).
Proof.
  unfold log_line. intros P. apply stays_modify. intros s Hs.
  unfold books_of, upd_h in *. simpl. by destruct (accessLoggers (res (gh s)) !! Prefix route).
Qed.
Lemma tidy_record_breaker target start ok : tidy (record_breaker W target start ok).
Proof. unfold record_breaker. tidy. Qed.

(** *** The whole pipeline

    [P0] holds until a slot is asked for, [P1] until a target is picked, [P2]
    afterwards; [F] is what an exit can rely on. *)
Abbreviation on_books P := (fun s : gst => P (books_of s)).

Lemma tidy_triple {A} (m : G A) (P F : books -> Prop) :
  tidy m -> (forall b, P b -> F b) -> triple (on_books P) m (fun _ => on_books P) (on_books F).
Proof. intros Hm HF. eapply triple_conseq; [apply (Hm P)|auto|auto|]. intros s. apply HF. Qed.

Lemma stays_triple {A} (m : G A) (P F : books -> Prop) :
  stays (on_books P) m -> (forall b, P b -> F b) ->
  triple (on_books P) m (fun _ => on_books P) (on_books F).
Proof. intros Hm HF. eapply triple_conseq; [apply Hm|auto|auto|]. intros s. apply HF. Qed.

Lemma tidy_entrance html : tidy (entrance W html).
Proof.
  unfold entrance. repeat (apply tidy_bind; [|intros _]);
    auto using tidy_admin_paths, tidy_tenant_check, tidy_docs, tidy_authenticate, tidy_find_route.
Qed.

#[local] Hint Resolve tidy_limit_body tidy_api_key_check tidy_schema_registry tidy_mcp tidy_ip_check
  tidy_policy_check tidy_rate_limit tidy_validate_body tidy_ai_checks tidy_wasm_request
  tidy_plugin_request tidy_check_breaker tidy_queue_bridge tidy_parse_target tidy_llm_routing
  tidy_websocket tidy_request_transform tidy_grpc_request tidy_log_line tidy_record_breaker : tidy.

Lemma tidy_admission route : tidy (admission W route).
Proof. unfold admission. tidy. Qed.
Lemma tidy_preparation route sp tp : tidy (preparation W route sp tp).
Proof. unfold preparation. tidy. Qed.

Definition count_request (b : books) : books :=
  {| b_requests := u64 (b_requests b + 1); b_conns := b_conns b; b_caches := b_caches b;
     b_limiters := b_limiters b; b_deferred := b_deferred b |}.

Section Pipeline.
Variables (P0 P1 P2 F : books -> Prop).
Hypothesis (HF0 : forall b, P0 b -> F b).
Hypothesis (HF1 : forall b, P1 b -> F b).
Hypothesis (HF2 : forall b, P2 b -> F b).
Hypothesis Hslot : forall route, triple (on_books P0) (backpressure W route) (fun _ => on_books P1) (on_books F).
Hypothesis Hlookup : forall route ip tid sp st, stays (on_books P1) (cache_lookup W route ip tid sp st).
Hypothesis Hpick : forall route, triple (on_books P1) (pick_target W route) (fun _ => on_books P2) (on_books F).
Hypothesis Hstore : forall route key rec, stays (on_books P2) (cache_store W route key rec).

Lemma targeting_books route sp tp :
  triple (on_books P1) (targeting W route sp tp) (fun _ => on_books P2) (on_books F).
Proof.
  unfold targeting. eapply triple_bind; [apply Hpick|]. intros target. cbn beta.
  apply tidy_triple; [|done]. tidy.
Qed.

Lemma finish_books route target tid sp st key rec :
  triple (on_books P2) (finish W route target tid sp st key rec) (fun _ => on_books P2) (on_books F).
Proof.
  apply stays_triple; [|done]. unfold finish.
  repeat (first [progress cbv zeta | apply Hstore | tidy_leaf | stay_step]); done.
Qed.

Lemma serve_books html :
  triple (fun s => P0 (count_request (books_of s))) (serve W html) (fun _ => on_books P2)
    (on_books F).
Proof.
  unfold serve. eapply (triple_bind _ _ _ (fun _ s => P0 (count_request (books_of s)))); [by intros s Hs|].
  intros start. eapply (triple_bind _ _ _ (fun _ => on_books P0)); [by apply triple_modify|]. intros ?. cbn beta.
  eapply triple_bind; [by apply (tidy_triple _ P0 F (tidy_entrance html))|]. intros route.
  eapply triple_bind; [by apply (tidy_triple _ P0 F (tidy_admission route))|]. intros [route' ip].
  eapply triple_bind; [apply Hslot|]. intros ?. cbn beta.
  eapply triple_bind; [by apply (tidy_triple _ P1 F (tidy_graphql route'))|]. intros ?. cbn beta.
  eapply triple_bind; [by apply (tidy_triple _ P1 F tidy_tracing)|]. intros [[sp tp] tid].
  eapply triple_bind; [apply stays_triple; [apply Hlookup|apply HF1]|]. intros key.
  eapply triple_bind; [by apply (tidy_triple _ P1 F (tidy_preparation route' sp tp))|]. intros rb.
  eapply triple_bind; [apply targeting_books|]. intros [target u].
  eapply triple_bind; [by apply (tidy_triple _ P2 F (tidy_forward route' target tp u key))|]. intros rec.
  apply finish_books.
Qed.
End Pipeline.

(** *** The cache stages *)

Definition with_caches c (b : books) : books :=
  {| b_requests := b_requests b; b_conns := b_conns b; b_caches := c; b_limiters := b_limiters b;
     b_deferred := b_deferred b |}.

Lemma stays_cache_lookup (P : books -> Prop) route ip tid sp st :
  (forall b p c k t, P b -> b_caches b !! p = Some c ->
     P (with_caches (<[p := snd (Cache.Get c k t)]> (b_caches b)) b)) ->
  stays (on_books P) (cache_lookup W route ip tid sp st).
Proof.
  intros HP. unfold stays, cache_lookup.
  eapply (triple_bind _ _ _ (fun h s => P (books_of s) /\ gh s = h)); [by apply triple_gets|].
  intros h. eapply (triple_bind _ _ _ (fun r s => P (books_of s) /\ gh s = h)); [by apply triple_gets|].
  intros r. destruct (negb _); [by apply triple_ret; intros s [Hs _]|].
  destruct (responseCaches (res h) !! Prefix route) as [c|] eqn:Ec;
    [|by apply triple_ret; intros s [Hs _]].
  eapply (triple_bind _ _ _ (fun r s => P (books_of s) /\ gh s = h)); [by intros s Hs|].
  intros t. destruct (Cache.Get c _ t) as [found c'] eqn:Eg.
  eapply (triple_bind _ _ _ (fun _ => on_books P)).
  - apply triple_modify. intros s [Hs Hh].
    specialize (HP (books_of s) (Prefix route) c (Cache.CacheKey (method r) (path r) (u_query (url r))) t Hs).
    rewrite Eg in HP. apply HP. cbn. by rewrite Hh.
  - intros []. fold (stays (on_books P) (match found with
      | Some entry => serve_cached route entry;;
          EndSpan sp None [("http.route", AStr (Prefix route)); ("cache.hit", ABool true)]%string;;
          t' ← now W; log_line route (cache_hit_entry r route ip tid st t' entry);; return_
      | None => mret (Some (Cache.CacheKey (method r) (path r) (u_query (url r)))) end)).
    unfold serve_cached. repeat (first [progress cbv zeta | tidy_leaf | stay_step]); done.
Qed.

Lemma stays_cache_store (P : books -> Prop) route key rec :
  (forall b p c k t, P b -> b_caches b !! p = Some c -> 200 <= StatusCode rec < 300 ->
     P (with_caches (<[p := Cache.Set_ c k (captured rec) (StatusCode rec) (CapturedHeaders rec) t]>
                       (b_caches b)) b)) ->
  stays (on_books P) (cache_store W route key rec).
Proof.
  intros HP. unfold cache_store. destruct key as [k|]; [|by apply stays_ret].
  destruct (_ && _) eqn:E; [|by apply stays_ret].
  apply stays_bind; [by apply stays_now|]. intros t. apply stays_modify. intros s Hs.
  unfold upd_h, books_of. cbn [gh deferred].
  destruct (responseCaches (res (gh s)) !! Prefix route) as [c|] eqn:Ec; [|done].
  apply (HP (books_of s) (Prefix route) c k t Hs Ec). lia.
Qed.

(** *** Slots and connections *)

(** The limiters [ls] and the pending releases, from limiters [l0]. *)
Definition slot_state (l0 ls : gmap string (option Backpressure.BackpressureLimiter))
    (ds : list deferred_call) : Prop :=
  (ls = l0 /\ ds = []) \/
  exists k l, l0 !! k = Some (Some l) /\ ds = [DRelease k] /\
    match Backpressure.send_sem l with
    | Some l' => ls = <[k := Some l']> l0
    | None => ls = l0 /\ queue_wait W k = Backpressure.Acquired
    end.

Definition quiet_books (n : Z) (c0 : gmap string Z) l0 (b : books) : Prop :=
  b_requests b = n /\ b_conns b = c0 /\ b_limiters b = l0 /\ b_deferred b = [].
Definition slot_books (n : Z) (c0 : gmap string Z) l0 (b : books) : Prop :=
  b_requests b = n /\ b_conns b = c0 /\ slot_state l0 (b_limiters b) (b_deferred b).
Definition conn_books (n : Z) (c0 : gmap string Z) l0 (b : books) : Prop :=
  b_requests b = n /\
  exists t ds, b_conns b = <[t := i64 (default 0 (c0 !! t) + 1)]> c0 /\
    b_deferred b = DDecConn t :: ds /\ slot_state l0 (b_limiters b) ds.
Definition exit_books n c0 l0 (b : books) : Prop := slot_books n c0 l0 b \/ conn_books n c0 l0 b.

Lemma tidy_slot_refused e : tidy (
  mod_w (wset "Retry-After" "5");;
  if String.eqb e "queue full"
  then reject (A := unit) "Too Many Requests: backpressure queue full" "ERR_QUEUE_FULL" 429
  else reject "Service Unavailable: queue timeout" "ERR_BACKPRESSURE_TIMEOUT" 503).
Proof. tidy. Qed.

Lemma backpressure_slots n c0 l0 route :
  triple (on_books (quiet_books n c0 l0)) (backpressure W route)
    (fun _ => on_books (slot_books n c0 l0)) (on_books (exit_books n c0 l0)).
Proof.
  intros s (Hn & Hc & Hl & Hd). cbn in Hn, Hc, Hl, Hd.
  assert (Hq : slot_books n c0 l0 (books_of s)).
  { split; [done|]. split; [done|]. left. by split. }
  pose proof (fun e => tidy_triple _ (slot_books n c0 l0) (exit_books n c0 l0) (tidy_slot_refused e)
                (fun b Hb => or_introl Hb) s Hq) as Href.
  unfold backpressure, handler, mbind, G_bind, gets. rewrite Hl.
  destruct (l0 !! Prefix route) as [[l|]|] eqn:El; [|by cbn..].
  unfold Acquire. destruct (Backpressure.send_sem l) as [l'|] eqn:Es.
  - cbn. split; [done|]. split; [done|]. right. exists (Prefix route), l.
    split; [done|]. split; [simpl; by rewrite Hd|]. rewrite Es. simpl. by rewrite Hl.
  - destruct (Backpressure.send_queue l) as [lq|].
    + destruct (queue_wait W (Prefix route)) eqn:Ew.
      * cbn. split; [done|]. split; [done|]. right. exists (Prefix route), l.
        split; [done|]. split; [simpl; by rewrite Hd|]. by rewrite Es.
      * exact (Href "queue timeout"%string).
      * exact (Href "context canceled"%string).
    + exact (Href "queue full"%string).
Qed.

Lemma pick_target_conns n c0 l0 route :
  triple (on_books (slot_books n c0 l0)) (pick_target W route)
    (fun _ => on_books (conn_books n c0 l0)) (on_books (exit_books n c0 l0)).
Proof.
  intros s (Hn & Hc & Hs). unfold pick_target, handler, mbind, G_bind, gets, draw, of_exec.
  destruct (selectTarget (bal (gh s)) route _) as [[target b]|why] eqn:Et; [|by left].
  cbn in Hc. pose proof (selectTarget_conns _ _ _ _ _ Et) as Hb.
  split; [done|]. exists target, (deferred s). split; [|by split].
  simpl. unfold conns. by rewrite Hb, Hc.
Qed.
(** Predicates on the caches only see through the two remaining stages. *)
Definition same_caches (b b' : books) : Prop := b_caches b' = b_caches b.

Lemma tidy_slots (P : books -> Prop) route :
  (forall b b', same_caches b b' -> P b -> P b') -> stays (on_books P) (backpressure W route).
Proof.
  intros HP. unfold backpressure, Acquire.
  repeat (first [progress cbv zeta | tidy_leaf | stay_step]);
    by (eapply HP; [|eassumption]).
Qed.

Lemma tidy_pick (P : books -> Prop) route :
  (forall b b', same_caches b b' -> P b -> P b') -> stays (on_books P) (pick_target W route).
Proof.
  intros HP. unfold pick_target.
  repeat (first [progress cbv zeta | tidy_leaf | stay_step]);
    by (eapply HP; [|eassumption]).
Qed.

(** *** The deferred calls *)

Lemma run_deferred_books s (b := books_of (run_deferred s)) :
  b_requests b = b_requests (books_of s) /\ b_deferred b = [] /\ b_caches b = b_caches (books_of s).
Proof.
  subst b. unfold run_deferred.
  assert (Hf : forall ds s, let s' := fold_left (fun s d => run_deferred_call d s) ds s in
     b_requests (books_of s') = b_requests (books_of s) /\ b_caches (books_of s') = b_caches (books_of s)).
  { induction ds as [|d ds IH]; intros s1; [done|]. cbn [fold_left] in *. cbv zeta in *. destruct (IH (run_deferred_call d s1)) as [-> ->].
    destruct d as [p|t]; [|done]. simpl. by destruct (limiters (res (gh s1)) !! p) as [[l|]|];
      [destruct (Backpressure.recv_sem l)|..]. }
  destruct (Hf (deferred s) s) as [H1 H2]. done.
Qed.

(** The slot of a limiter that was taken is given back. *)
Definition returned (l0 ls : gmap string (option Backpressure.BackpressureLimiter)) (k : string) : Prop :=
  ls !! k = l0 !! k \/
  exists l, l0 !! k = Some (Some l) /\ Backpressure.send_sem l = None /\
    queue_wait W k = Backpressure.Acquired /\
    ls !! k = Some (Some (Backpressure.set_sem l (Backpressure.sem l - 1))).

Lemma release_returns l0 (s : gst) k l :
  limiters (res (gh s)) = (match Backpressure.send_sem l with
                           | Some l' => <[k := Some l']> l0
                           | None => l0
                           end) ->
  (Backpressure.send_sem l = None -> queue_wait W k = Backpressure.Acquired) ->
  l0 !! k = Some (Some l) -> 0 <= Backpressure.sem l -> 0 < Backpressure.semCap l ->
  forall k', returned l0 (limiters (res (gh (run_deferred_call (DRelease k) s)))) k'.
Proof.
  intros Hls Hw Hk Hs Hcap k'. unfold returned. simpl. rewrite Hls.
  unfold Backpressure.send_sem in *. destruct (_ <? _) eqn:E.
  - rewrite lookup_insert_eq. unfold Backpressure.recv_sem, Backpressure.set_sem. cbn.
    destruct (0 <? _) eqn:E'; [|lia]. simpl. rewrite Hls, insert_insert_eq. left.
    destruct (decide (k = k')) as [<-|]; [|by rewrite lookup_insert_ne].
    rewrite lookup_insert_eq, Hk. f_equal. f_equal.
    destruct l; cbn in *. f_equal; lia.
  - rewrite Hk. unfold Backpressure.recv_sem. destruct (0 <? _) eqn:E'; [|lia]. simpl. rewrite Hls.
    destruct (decide (k = k')) as [<-|]; [|left; by rewrite lookup_insert_ne].
    right. exists l. rewrite lookup_insert_eq, E. by auto.
Qed.

Definition sane_limiters (ls : gmap string (option Backpressure.BackpressureLimiter)) : Prop :=
  forall k l, ls !! k = Some (Some l) -> 0 <= Backpressure.sem l /\ 0 < Backpressure.semCap l.

Lemma run_releases l0 ds (s : gst) :
  sane_limiters l0 -> slot_state l0 (limiters (res (gh s))) ds ->
  let s' := fold_left (fun s d => run_deferred_call d s) ds s in
  bal (gh s') = bal (gh s) /\ forall k, returned l0 (limiters (res (gh s'))) k.
Proof.
  intros Hsane [[Hls ->]|(k & l & Hk & -> & Hm)]; simpl.
  - split; [done|]. intros k. left. by rewrite Hls.
  - split.
    + destruct (limiters (res (gh s)) !! k) as [[l'|]|]; [destruct (Backpressure.recv_sem l')|..]; done.
    + destruct (Hsane _ _ Hk). apply (release_returns l0 s k l); auto.
      * destruct (Backpressure.send_sem l); [done|]. by destruct Hm.
      * intros E. rewrite E in Hm. by destruct Hm.
Qed.

Lemma dec_inc_conns b c0 t :
  activeConns b = <[t := i64 (default 0 (c0 !! t) + 1)]> c0 ->
  0 <= default 0 (c0 !! t) < 2 ^ 63 - 1 ->
  forall t', conns (decConn b t) t' = default 0 (c0 !! t').
Proof.
  intros Hb Hc t'. unfold decConn, conns. cbn [activeConns set_activeConns]. rewrite Hb.
  rewrite insert_insert_eq, lookup_insert_eq. simpl.
  rewrite (i64_id (default 0 (c0 !! t) + 1)) by (unfold in_i64; lia).
  rewrite i64_id by (unfold in_i64; lia).
  destruct (decide (t = t')) as [<-|]; [|by rewrite lookup_insert_ne].
  rewrite lookup_insert_eq. simpl. destruct (_ <? 0) eqn:E; lia.
Qed.

Lemma exit_is_clean n c0 l0 (s : gst) :
  exit_books n c0 l0 (books_of s) -> sane_limiters l0 ->
  (forall t, 0 <= default 0 (c0 !! t) < 2 ^ 63 - 1) ->
  b_requests (books_of (run_deferred s)) = n /\ deferred (run_deferred s) = [] /\
  (forall t, conns (bal (gh (run_deferred s))) t = default 0 (c0 !! t)) /\
  (forall k, returned l0 (limiters (res (gh (run_deferred s)))) k).
Proof.
  intros He Hsane Hc. destruct (run_deferred_books s) as (Hreq & Hdef & _).
  destruct He as [(Hn & Hb & Hs)|(Hn & t & ds & Hb & Hd & Hs)].
  - destruct (run_releases l0 (deferred s) s Hsane Hs) as [Hbal Hret].
    split; [by rewrite Hreq|]. split; [done|]. split; [|exact Hret].
    intros t. unfold run_deferred, conns. cbn [gh upd_deferred]. rewrite Hbal.
    cbn in Hb. by rewrite Hb.
  - cbn in Hd, Hb. set (s1 := run_deferred_call (DDecConn t) s).
    destruct (run_releases l0 ds s1 Hsane Hs) as [Hbal Hret].
    split; [by rewrite Hreq|]. split; [done|]. unfold run_deferred. rewrite Hd.
    split; [|exact Hret]. intros t'. cbn [gh upd_deferred fold_left]. fold s1.
    unfold conns. rewrite Hbal. subst s1. cbn [gh run_deferred_call upd_trace upd_h bal set_bal].
    by apply (dec_inc_conns (bal (gh s)) c0 t).
Qed.

(** ** Properties *)

(** C2. Every exit is clean: whatever the request and the outside world do,
    and however [ServeHTTP] ends (a reply at any stage, the last line, or a
    panic), the request is counted once, every connection counter is back to
    its value, and every concurrency slot that was taken is given back. *)
Theorem every_exit_is_clean html h r o s :
  (forall t, 0 <= conns (bal h) t < 2 ^ 63 - 1) -> sane_limiters (limiters (res h)) ->
  ServeHTTP W html h r = (o, s) ->
  totalRequests (metricsTracker (gh s)) = u64 (totalRequests (metricsTracker h) + 1) /\
  deferred s = [] /\
  (forall t, conns (bal (gh s)) t = conns (bal h) t) /\
  (forall k, returned (limiters (res h)) (limiters (res (gh s))) k).
Proof.
  intros Hc Hl. unfold ServeHTTP.
  set (n := u64 (totalRequests (metricsTracker h) + 1)).
  set (c0 := activeConns (bal h)). set (l0 := limiters (res h)).
  pose proof (serve_books (quiet_books n c0 l0) (slot_books n c0 l0) (conn_books n c0 l0)
    (exit_books n c0 l0)) as Hserve.
  destruct (serve W html (initial h r)) as [o' s'] eqn:Es. intros [= <- <-].
  apply exit_is_clean; [|done|done].
  assert (Hstart : quiet_books n c0 l0 (count_request (books_of (initial h r)))) by done.
  specialize (Hserve ltac:(intros b (? & ? & ? & Hd); left; split; [done|]; split; [done|]; by left)
    ltac:(by left) ltac:(by right) (backpressure_slots n c0 l0)).
  specialize (Hserve ltac:(by intros; apply stays_cache_lookup) (pick_target_conns n c0 l0)
    ltac:(by intros; apply stays_cache_store) html _ Hstart).
  rewrite Es in Hserve. destruct o'; [by right|done|done].
Qed.

(** Every cached response is a success. *)
Definition all_success (caches : gmap string Cache.ResponseCache) : Prop :=
  map_Forall (fun _ c => map_Forall (fun _ e => 200 <= Cache.StatusCode e < 300) (Cache.entries c)) caches.

Lemma get_success c k t :
  map_Forall (fun _ e => 200 <= Cache.StatusCode e < 300) (Cache.entries c) ->
  map_Forall (fun _ e => 200 <= Cache.StatusCode e < 300) (Cache.entries (snd (Cache.Get c k t))).
Proof.
  intros Hc. unfold Cache.Get, Cache.get_lookup. destruct (Cache.entries c !! k); [|done].
  destruct (Cache.expired t h); [|done]. by apply map_Forall_delete.
Qed.

(** C21. Only successes are cached: [ServeHTTP] keeps every entry of every
    response cache a 2xx response, however the request ends. *)
Theorem only_successes_are_cached html h r o s :
  all_success (responseCaches (res h)) -> ServeHTTP W html h r = (o, s) ->
  all_success (responseCaches (res (gh s))).
Proof.
  intros Hinit. unfold ServeHTTP. set (P := fun b => all_success (b_caches b)).
  assert (Hsame : forall b b', same_caches b b' -> P b -> P b').
  { intros b b' E Hb. unfold P. by rewrite E. }
  pose proof (serve_books P P P P ltac:(done) ltac:(done) ltac:(done)) as Hserve.
  destruct (serve W html (initial h r)) as [o' s'] eqn:Es. intros [= <- <-].
  destruct (run_deferred_books s') as (_ & _ & Hc). change (P (books_of (run_deferred s'))).
  unfold P. rewrite Hc. change (P (books_of s')).
  specialize (Hserve (fun route => tidy_slots P route Hsame)
    ltac:(intros; apply stays_cache_lookup; intros b p c k t Hb Hp; apply map_Forall_insert_2; [apply get_success, (Hb _ _ Hp)|done])
    (fun route => tidy_pick P route Hsame)
    ltac:(intros; apply stays_cache_store; intros b p c k t Hb Hp Hcode; apply map_Forall_insert_2;
          [apply map_Forall_insert_2; [done|exact (Hb _ _ Hp)]|done])
    html _ (Hinit : P (count_request (books_of (initial h r))))).
  rewrite Es in Hserve. by destruct o'.
Qed.
End Books.

(** ** Admission *)

Section Admission.
Context {R M : Type} `{RateLimit.Limiter.RedisZSet R} `{WasmRunner M} (W : World).
Abbreviation gst := (gst (R := R) (M := M)).
Abbreviation G := (G (R := R) (M := M)).

(** Handing the request, or a part of it, to a backend, a queue, a plugin or a
    WASM module. *)
Definition contact (e : event) : bool :=
  match e with
  | ESend _ _ | EWasm _ _ | EPlugin _ | EQueue _ _ _ | EDial _ | ETunnel _ _ => true
  | _ => false
  end.

(** *** The conditions

    What each check asks of the request [r], given the handler [h] it finds. *)
Section Conditions.
Context (h : GatewayHandler R M) (r : Request).

Definition tenant_allowed : Prop := forall p,
  rget r "X-Tenant-ID" <> ""%string -> tenantPolicies h !! rget r "X-Tenant-ID" = Some p ->
  allowed_here (Config.or_default (getenv W "SERV_CLUSTER") "default") (AllowedClusters p) = true /\
  allowed_here (Config.or_default (getenv W "SERV_REGION") "us-east") (AllowedRegions p) = true.

(** No token is configured, or the request carries it, or carries a JWT that
    is valid under the configured secret and not revoked. *)
Definition authentic : Prop :=
  let token := TrimPrefix (rget r "Authorization") "Bearer " in
  authToken h = ""%string \/ token = authToken h \/
  (getenv W "SERV_JWT_SECRET" <> ""%string /\ exists k user,
    Token.ValidateJWTWithPolicy (revokedSessions h) token (getenv W "SERV_JWT_SECRET") (clock W k)
    = Some user).

(** The rate limiter in state [L], asked by a request of [who] on a prefix with
    a limit, answers [b] and is left in state [L']. *)
Definition limited_says (L : RateLimit.Limiter.state R) (who prefix : string) (limit : Z) (b : bool)
    (L' : RateLimit.Limiter.state R) : Prop := exists i d,
  RateLimit.Limiter.isRateLimited L who prefix limit (clock W i) (clock W (S i))
    (Itoa (Z.quot (clock W i) 1000000) ++ "-" ++ Itoa (seed W d))%string = (b, L').

(** The key exists, admits the path and the tenants of the route, and is within
    its own limit. *)
Definition key_lets (route : Route) (L L' : RateLimit.Limiter.state R) : Prop :=
  if RequireAPIKey route then exists key,
    apiKeys h !! rget r "X-API-Key" = Some key /\ rget r "X-API-Key" <> ""%string /\
    (AllowedRoutes key = [] \/ existsb (HasPrefix (path r)) (AllowedRoutes key) = true) /\
    (AllowedTenants route = [] \/ Types.Tenant key ∈ AllowedTenants route) /\
    (if 0 <? KeyRateLimitRPM key
     then limited_says L ("apikey:" ++ rget r "X-API-Key") (Prefix route) (KeyRateLimitRPM key) false L'
     else L' = L)
  else L' = L.

(** The body as the route limits it.  It is read several times, and replaced by
    what was read when that did not fail; after a failure only the error is
    left. *)
Definition given (route : Route) : Reader := MaxBytesReader (body r) (body_limit route).
Definition seen_text (route : Route) (text : string) : Prop :=
  text = r_data (given route) \/ (r_err (given route) <> None /\ text = ""%string).
Definition seen (route : Route) (b : Reader) : Prop :=
  r_err b = r_err (given route) /\ seen_text route (r_data b).

(** The registry does not call the body invalid. *)
Definition schema_lets (route : Route) : Prop :=
  SchemaName route <> ""%string -> writes_body (method r) = true -> r_err (given route) = None ->
  forall answer errors,
    registry W (TrimSuffix (Config.or_default (getenv W "SERV_REGISTRY_URL") "http://localhost:8088") "/" ++
                "/api/v1/schemas/validate")
      (render (JObj [("payload", JStr (r_data (given route))); ("schema", JStr (SchemaName route))]%string))
    = Some (200, answer) ->
    registry_verdict answer <> Some (false, errors).

(** A call of an MCP tool; five a minute for each agent. *)
Definition tool_call (route : Route) : Prop :=
  MCPEnabled route = true /\ method r = "POST"%string /\ r_err (given route) = None /\
  exists rpc, decode_rpc (r_data (given route)) = Some rpc /\ rpc_method rpc = "tools/call"%string.
Definition mcp_lets (route : Route) (L L' : RateLimit.Limiter.state R) : Prop :=
  (tool_call route /\
   limited_says L ("mcp-agent:" ++ Config.or_default (rget r "X-Agent-ID") "default-agent") (Prefix route) 5
     false L') \/
  (~ tool_call route /\ L' = L).

Definition ip_lets (route : Route) : Prop :=
  Access.checkIPAccess (Access.client_ip (remote r)) (IPAllowlist route) (IPBlocklist route) = true.

Definition policy_applies : bool :=
  match policySchema h with Some _ => Policy.v_matched (policy_verdict W h r) | None => false end.
Definition policy_lets : Prop :=
  policy_applies = true -> Policy.v_action (policy_verdict W h r) <> "deny"%string.

(** The route with the rate limit of the policy rule that applies. *)
Definition final_route (route : Route) : Route :=
  if policy_applies && (0 <? Policy.v_limit (policy_verdict W h r))
  then with_RateLimitRPM (Policy.v_limit (policy_verdict W h r)) route else route.

(** Everything that is asked before a slot; the three limits are asked one
    after the other. *)
Record admitted (route : Route) : Prop := {
  ad_tenant : tenant_allowed;
  ad_authentic : authentic;
  ad_route : match_route (path r) (routes h) = Some route;
  ad_schema : schema_lets route;
  ad_ip : ip_lets route;
  ad_policy : policy_lets;
  ad_limits : exists L1 L2 L3, key_lets route (limits h) L1 /\ mcp_lets route L1 L2 /\
    limited_says L2 (Access.client_ip (remote r)) (Prefix (final_route route))
      (RateLimitRPM (final_route route)) false L3;
}.

(** A slot is free, or is handed over to the request in the queue. *)
Definition slot_lets (route : Route) : Prop := forall l,
  limiters (res h) !! Prefix (final_route route) = Some (Some l) ->
  Backpressure.send_sem l <> None \/
  (Backpressure.send_queue l <> None /\ queue_wait W (Prefix (final_route route)) = Backpressure.Acquired).

Definition graphql_lets (route : Route) : Prop :=
  GraphQLFederation (final_route route) = ∅ \/ method r <> "POST"%string.

Definition body_lets (route : Route) : Prop :=
  ValidationSchema (final_route route) <> ∅ ->
  r_err (given route) = None /\
  Validation.ValidateRequest (r_data (given route)) (order W (ValidationSchema (final_route route))) = None.

Definition guard_lets (route : Route) : Prop :=
  PromptGuard (final_route route) = true ->
  exists text, seen_text route text /\
    (Ai.extractPrompt text = ""%string \/ Ai.IsPromptInjection (Ai.extractPrompt text) = false).

(** The request as later checks find it: tracing may have set its
    [traceparent], its body may have been rewritten. *)
Definition line (r : Request) : string * Url * string * Header := (method r, url r, remote r, header r).
Definition alike (l : string * Url * string * Header) : Prop :=
  l = line r \/ exists tp, l = line (rset "traceparent" tp r).

(** The WASM module of the route, if there is one, answers; a policy module
    does not deny. *)
Definition wasm_lets (route : Route) : Prop := exists d,
  let name := selectWASMMiddleware (final_route route) (seed W d) in
  name = ""%string \/
  exists input out m, wasm_run (wasm h) name input = Done (Ok out, m) /\
    (is_policy_module name = true ->
     TrimSpace out <> "deny"%string /\ exists r', alike (line r') /\ input = policy_input r').

(** The plugin of the route, if there is one, lets the request go on. *)
Definition plugin_lets (route : Route) : Prop := forall p,
  GoMiddleware (final_route route) <> ""%string -> plugins W (GoMiddleware (final_route route)) = Some p ->
  exists r' r'', alike (line r') /\ OnRequest p r' = (Ok None, r'').

(** The breaker of the target that is picked lets it through. *)
Definition breaker_lets (route : Route) : Prop := exists d target b i cb,
  selectTarget (bal h) (final_route route) (seed W d) = Done (target, b) /\
  Breaker.Allow (breaker_of h target) (clock W i) (clock W (S i)) = (true, cb).

(** What must hold before something of the request goes out: for all that may
    be contacted, then for all but the WASM modules, then for the targets. *)
Record goes_out (route : Route) (e : event) : Prop := {
  go_admitted : admitted route;
  go_slot : slot_lets route;
  go_graphql : graphql_lets route;
  go_body : body_lets route;
  go_guard : guard_lets route;
  go_wasm : match e with EWasm _ _ => True | _ => wasm_lets route end;
  go_target : match e with
              | EWasm _ _ | EPlugin _ => True
              | _ => plugin_lets route /\ breaker_lets route
              end;
}.
End Conditions.

(** *** Frames

    Every event so far that contacts somebody was allowed to; [framed K N B]
    adds what is known of the handler, of the request and of its body. *)
Section Request.
Context (h : GatewayHandler R M) (r : Request) (J : event -> Prop).

Definition fine (s : gst) : Prop := Forall (fun e => contact e = true -> J e) (trace s).

Definition framed (K : GatewayHandler R M -> Prop) (N : string * Url * string * Header -> Prop)
    (B : Reader -> Prop) (s : gst) : Prop :=
  K (gh s) /\ N (line (gr s)) /\ B (body (gr s)) /\ fine s.

Definition same (l : string * Url * string * Header) : Prop := l = line r.
Definition whatever (b : Reader) : Prop := True.

(** What the checks of the preparation look at, and what those of the admission
    look at, with the limiter in state [L]. *)
Definition kept (h' : GatewayHandler R M) : Prop :=
  wasm h' = wasm h /\ bal h' = bal h /\ circuitBreakers h' = circuitBreakers h.
Definition conf (L : RateLimit.Limiter.state R) (h' : GatewayHandler R M) : Prop :=
  routes h' = routes h /\ authToken h' = authToken h /\ apiKeys h' = apiKeys h /\
  revokedSessions h' = revokedSessions h /\ policySchema h' = policySchema h /\
  tenantPolicies h' = tenantPolicies h /\ limits h' = L /\ res h' = res h /\ kept h'.

Lemma fine_emit e s : (contact e = true -> J e) -> fine s -> fine (upd_trace e s).
Proof. intros He Hs. apply Forall_app. split; [done|]. by constructor. Qed.

Lemma framed_fine K N B s : framed K N B s -> fine s.
Proof. by intros (_ & _ & _ & ?). Qed.

Lemma framed_any K N B s : framed K N B s -> framed K N whatever s.
Proof. by intros (? & ? & _ & ?). Qed.

Lemma triple_pure {A} (phi : Prop) P (m : G A) Q E :
  (phi -> triple P m Q E) -> triple (fun s => P s /\ phi) m Q E.
Proof. intros Hm s [Hs Hphi]. by apply Hm. Qed.

Lemma triple_ex {A X} (P : X -> gst -> Prop) (m : G A) Q E :
  (forall x, triple (P x) m Q E) -> triple (fun s => exists x, P x s) m Q E.
Proof. intros Hm s [x Hs]. by apply (Hm x). Qed.

Lemma bind_handler {A} K N B (k : GatewayHandler R M -> G A) Q E :
  (forall h', K h' -> triple (framed K N B) (k h') Q E) -> triple (framed K N B) (mbind k handler) Q E.
Proof. intros Hk s Hs. apply Hk; [|done]. by destruct Hs. Qed.

Lemma bind_request {A} K N B (k : Request -> G A) Q E :
  (forall r', N (line r') -> triple (framed K N B) (k r') Q E) -> triple (framed K N B) (mbind k request) Q E.
Proof. intros Hk s Hs. apply Hk; [|done]. by destruct Hs as (_ & ? & _). Qed.

Lemma read_body_runs (s : gst) : exists f,
  read_body s = (Next (r_data (body (gr s)), r_err (body (gr s))),
                 upd_r (set_body {| r_data := ""; r_err := r_err (body (gr s)); r_limit := false |}) (upd_w f s)).
Proof.
  unfold read_body, mbind, G_bind, request, gets, when, mod_w, mod_r, modify. simpl.
  destruct (r_limit _); [by eexists|]. exists (fun w => w). by destruct s.
Qed.

(** A read gives the whole body or its error; what is left then is unknown, or
    still the error. *)
Lemma bind_read {A} K N route (k : string * option string -> G A) Q E :
  (r_err (given r route) = None -> triple (framed K N whatever) (k (r_data (given r route), None)) Q E) ->
  (forall text e, r_err (given r route) = Some e -> seen_text r route text ->
     triple (framed K N (seen r route)) (k (text, Some e)) Q E) ->
  triple (framed K N (seen r route)) (mbind k read_body) Q E.
Proof.
  intros Hok Herr s (HK & HN & [He Ht] & Hf). unfold mbind, G_bind.
  destruct (read_body_runs s) as [f ->]. rewrite He.
  destruct (r_err (given r route)) as [e|] eqn:Ee.
  - apply Herr; [done|done|]. split; [done|]. split; [done|]. split; [|done].
    split; [done|]. right. by rewrite Ee.
  - destruct Ht as [->|[? _]]; [|done]. by apply Hok.
Qed.

Lemma bind_read_any {A} K N route (k : string * option string -> G A) Q E :
  (forall text err, seen_text r route text -> triple (framed K N whatever) (k (text, err)) Q E) ->
  triple (framed K N (seen r route)) (mbind k read_body) Q E.
Proof.
  intros Hk. apply bind_read; [intros _; apply Hk; by left|]. intros text e _ Hseen.
  eapply triple_conseq; [exact (Hk text (Some e) Hseen)|apply framed_any|auto|auto].
Qed.

Lemma stays_weaken {A} (P E : gst -> Prop) (m : G A) :
  stays P m -> (forall s, P s -> E s) -> triple P m (fun _ => P) E.
Proof. intros Hm HE. eapply triple_conseq; [apply Hm|auto|auto|auto]. Qed.

Ltac frame_side :=
  match goal with
  | Hs : framed _ _ _ _ |- framed _ _ _ _ =>
      destruct Hs as (? & ? & ? & ?); split; [assumption|]; split; [assumption|]; split;
      [first [assumption | done] | first [assumption | by apply fine_emit]]
  end.
Ltac framing := repeat (first [progress cbv zeta | stay_step]); try frame_side.

Lemma framed_reply K N B msg code st : stays (framed K N B) (reply_json msg code st).
Proof. unfold reply_json. framing. Qed.

Lemma framed_reject {A} K N B msg code st (Q : A -> gst -> Prop) :
  triple (framed K N B) (reject msg code st) Q fine.
Proof.
  eapply (triple_bind _ _ _ (fun _ => framed K N B)).
  - apply stays_weaken; [apply framed_reply|apply framed_fine].
  - intros ?. apply triple_return. apply framed_fine.
Qed.

Lemma framed_EndSpan K N B sp e l : stays (framed K N B) (EndSpan sp e l).
Proof. unfold EndSpan. framing. Qed.
Lemma framed_StartSpan K N B n p : stays (framed K N B) (StartSpan W n p).
Proof. unfold StartSpan. framing. Qed.

Lemma then_stays {A B'} K N B (m : G A) (k : A -> G B') Q :
  stays (framed K N B) m -> (forall a, triple (framed K N B) (k a) Q fine) ->
  triple (framed K N B) (mbind k m) Q fine.
Proof. intros Hm Hk. eapply triple_bind; [apply stays_weaken; [exact Hm|apply framed_fine]|done]. Qed.

(** A check that leaves the frame as it is, and what it establishes. *)
Abbreviation checks K N B m phi := (triple (framed K N B) m (fun _ s => framed K N B s /\ phi) fine).

Lemma checks_ret {A} K N B (a : A) (phi : Prop) : phi -> checks K N B (mret a) phi.
Proof. intros Hp. by apply triple_ret. Qed.
Lemma checks_stays {A} K N B (m : G A) (phi : Prop) : stays (framed K N B) m -> phi -> checks K N B m phi.
Proof. intros Hm Hp. eapply triple_conseq; [apply Hm|auto|auto|apply framed_fine]. Qed.
Lemma checks_bind {A B'} K N B (m : G A) (k : A -> G B') (phi : Prop) Q :
  checks K N B m phi -> (phi -> forall a, triple (framed K N B) (k a) Q fine) ->
  triple (framed K N B) (mbind k m) Q fine.
Proof.
  intros Hm Hk. eapply triple_bind; [apply Hm|]. intros a. apply triple_pure. intros Hp. by apply Hk.
Qed.

(** A program that ends by returning. *)
Lemma fine_seq {A B'} (m : G A) (k : A -> G B') (Q : B' -> gst -> Prop) :
  stays fine m -> (forall a, triple fine (k a) Q fine) -> triple fine (mbind k m) Q fine.
Proof. intros Hm Hk. eapply triple_bind; [apply Hm|done]. Qed.
Lemma fine_of {A} (P : gst -> Prop) (m : G A) Q : (forall s, P s -> fine s) -> triple fine m Q fine -> triple P m Q fine.
Proof. intros HP Hm. by eapply triple_conseq. Qed.
Lemma fine_of_framed {A} K N B (m : G A) Q : triple fine m Q fine -> triple (framed K N B) m Q fine.
Proof. apply fine_of, framed_fine. Qed.
Lemma fine_read_body : stays fine read_body.
Proof. unfold read_body. by stay. Qed.
Lemma fine_EndSpan sp e l : stays fine (EndSpan sp e l).
Proof. unfold EndSpan. stay; by apply fine_emit. Qed.

Ltac ending :=
  repeat first
    [ by apply triple_return
    | apply fine_seq; [first [apply fine_read_body | apply fine_EndSpan | by stay]|intros ?]
    | lazymatch goal with
      | |- triple _ (match ?x with _ => _ end) _ _ => destruct x
      | |- triple _ (reject _ _ _) _ _ => unfold reject, reply_json
      end ].

(** *** The checks of the admission *)

Section Entrance.
Context (L : RateLimit.Limiter.state R) (B : Reader -> Prop).
Abbreviation F := (framed (conf L) same B).

Lemma serve_policy_reload_ends Q : triple fine serve_policy_reload Q fine.
Proof. unfold serve_policy_reload. ending. Qed.

Lemma serve_governance_ends Q : triple fine serve_governance Q fine.
Proof. unfold serve_governance. ending. Qed.

(** On these paths the handler replies, whatever it changes first; only other
    methods on the tenant policies go on. *)
Lemma admin_paths_checked : triple F (admin_paths W) (fun _ => F) fine.
Proof.
  unfold admin_paths. apply bind_request. intros r' _.
  eapply (triple_bind _ _ _ (fun _ => F)).
  { apply triple_when; [intros _|auto]. unfold serve_tenant_policies.
    apply bind_request. intros r'' _. destruct (String.eqb (method r'') "GET").
    - apply fine_of_framed. ending.
    - destruct (String.eqb (method r'') "POST"); [|by apply triple_ret].
      apply fine_of_framed. ending. }
  intros _. eapply (triple_bind _ _ _ (fun _ => F));
    [apply triple_when; [intros _; apply fine_of_framed, serve_policy_reload_ends|auto]|].
  intros _. apply triple_when; [intros _; apply fine_of_framed, serve_governance_ends|auto].
Qed.

Lemma tenant_checked : checks (conf L) same B (tenant_check W) (tenant_allowed h r).
Proof.
  unfold tenant_check. apply bind_handler. intros h' (_ & _ & _ & _ & _ & Et & _).
  apply bind_request. intros r' [= _ _ _ Eh]. cbv zeta.
  unfold tenant_allowed, rget. rewrite Et, Eh. fold (rget r "X-Tenant-ID").
  destruct (String.eqb_spec (rget r "X-Tenant-ID") ""); [by apply checks_ret|].
  destruct (tenantPolicies h !! rget r "X-Tenant-ID") as [p|]; [|by apply checks_ret].
  destruct (allowed_here _ (AllowedClusters p)) eqn:E1; [|apply framed_reject].
  destruct (allowed_here _ (AllowedRegions p)) eqn:E2; [|apply framed_reject].
  apply checks_ret. by intros p' _ [= <-].
Qed.

Lemma framed_docs html : stays F (docs W html).
Proof. unfold docs. framing. Qed.

Lemma authenticate_checked : checks (conf L) same B (authenticate W) (authentic h r).
Proof.
  unfold authenticate. apply bind_handler. intros h' (_ & Ea & _ & Er & _).
  apply bind_request. intros r' [= _ _ _ Eh]. cbv zeta.
  unfold authentic, rget. rewrite Ea, Er, Eh. fold (rget r "Authorization").
  destruct (String.eqb_spec (authToken h) ""); [apply checks_ret; auto|].
  destruct (String.eqb_spec (TrimPrefix (rget r "Authorization") "Bearer ") (authToken h));
    [apply checks_ret; auto|].
  destruct (String.eqb_spec (getenv W "SERV_JWT_SECRET") ""); [apply framed_reject|].
  eapply (triple_bind _ _ _ (fun t s => F s /\ exists k, t = clock W k)).
  { intros s Hs. split; [exact Hs|eauto]. }
  intros t. apply triple_pure. intros [k ->].
  destruct (Token.ValidateJWTWithPolicy _ _ _ _) as [user|] eqn:Ev; [|apply framed_reject].
  apply checks_stays; [framing|]. right. right. eauto.
Qed.

Lemma find_route_checked : triple F find_route
  (fun route s => F s /\ match_route (path r) (routes h) = Some route) fine.
Proof.
  unfold find_route. apply bind_handler. intros h' (Er & _). apply bind_request. intros r' [= _ Eu _ _].
  unfold path. rewrite Er, Eu. destruct (match_route _ _) as [route|]; [by apply triple_ret|].
  apply then_stays; [apply framed_reply|]. intros _. apply then_stays; [framing|]. intros _.
  apply triple_return, framed_fine.
Qed.

Lemma entrance_checked html :
  triple F (entrance W html) (fun route s => F s /\
    tenant_allowed h r /\ authentic h r /\ match_route (path r) (routes h) = Some route) fine.
Proof.
  unfold entrance. eapply triple_bind; [apply admin_paths_checked|]. intros ?; cbn beta.
  eapply checks_bind; [apply tenant_checked|]. intros Ht ?; cbn beta.
  apply then_stays; [apply framed_docs|intros ?; cbn beta].
  eapply checks_bind; [apply authenticate_checked|]. intros Ha ?; cbn beta.
  eapply triple_conseq; [apply find_route_checked|auto| |auto]. intros route s [Hs Hm]. auto.
Qed.

Lemma rate_limited_runs who prefix limit :
  triple F (is_rate_limited W who prefix limit)
    (fun b s => exists L', framed (conf L') same B s /\ limited_says L who prefix limit b L') fine.
Proof.
  intros s ((H1 & H2 & H3 & H4 & H5 & H6 & HL & H7) & HN & HB & Hf).
  unfold is_rate_limited, mbind, G_bind, now, draw, handler, gets, mod_h, modify, mret, G_ret.
  cbn [gh upd_ticks upd_draws upd_h draws ticks fst snd]. rewrite HL.
  destruct (RateLimit.Limiter.isRateLimited _ _ _ _ _ _ _) as [b L'] eqn:E.
  exists L'. split; [|by exists (ticks s), (draws s)].
  split; [|by split]. exact (conj H1 (conj H2 (conj H3 (conj H4 (conj H5 (conj H6 (conj eq_refl H7))))))).
Qed.

Lemma api_key_checked route :
  triple F (api_key_check W route)
    (fun _ s => exists L', framed (conf L') same B s /\ key_lets h r route L L') fine.
Proof.
  unfold api_key_check, key_lets. destruct (RequireAPIKey route); [|apply triple_ret; eauto].
  apply bind_handler. intros h' (_ & _ & Ek & _). apply bind_request. intros r' [= _ Eu _ Eh]. cbv zeta.
  unfold rget, path. rewrite Ek, Eh, Eu. fold (rget r "X-API-Key"). cbn [negb].
  destruct (String.eqb_spec (rget r "X-API-Key") ""); [apply framed_reject|].
  destruct (apiKeys h !! _) as [key|]; [|apply framed_reject].
  destruct (_ && _) eqn:E1; [apply framed_reject|]. destruct (_ && _) eqn:E2 in |- *; [apply framed_reject|].
  assert (H1 : AllowedRoutes key = [] \/ existsb (HasPrefix (u_path (url r))) (AllowedRoutes key) = true).
  { apply andb_false_iff in E1 as [E1|E1]; apply negb_false_iff in E1; [left|by right].
    by apply bool_decide_eq_true in E1. }
  assert (H2 : AllowedTenants route = [] \/ Types.Tenant key ∈ AllowedTenants route).
  { apply andb_false_iff in E2 as [E2|E2]; apply negb_false_iff in E2.
    - left. by apply bool_decide_eq_true in E2.
    - right. apply existsb_exists in E2 as (x & Hx & Hxe). apply String.eqb_eq in Hxe as <-.
      by apply list_elem_of_In. }
  eapply (triple_bind _ _ _ (fun b s => exists L', framed (conf L') same B s /\
    if 0 <? KeyRateLimitRPM key
    then limited_says L ("apikey:" ++ rget r "X-API-Key") (Prefix route) (KeyRateLimitRPM key) b L'
    else L' = L /\ b = false)).
  { destruct (0 <? _); [apply rate_limited_runs|]. apply triple_ret. eauto. }
  intros b. apply triple_ex. intros L'. apply triple_pure. intros Hl. destruct b; [apply framed_reject|].
  eapply triple_conseq; [apply (stays_weaken (framed (conf L') same B)); [framing|apply framed_fine]|auto| |auto].
  intros ? s Hs. exists L'. split; [done|]. exists key. split; [done|]. split; [done|]. split; [done|].
  split; [done|]. by destruct (0 <? _); [|destruct Hl].
Qed.

Lemma ip_checked route ip :
  checks (conf L) same B (ip_check route ip) (Access.checkIPAccess ip (IPAllowlist route) (IPBlocklist route) = true).
Proof.
  unfold ip_check. destruct (Access.checkIPAccess _ _ _); [by apply checks_ret|apply framed_reject].
Qed.

Lemma policy_checked route :
  triple F (policy_check W route) (fun route' s => F s /\ route' = final_route h r route /\ policy_lets h r) fine.
Proof.
  unfold policy_check. apply bind_handler. intros h' (_ & _ & _ & _ & Es & _).
  apply bind_request. intros r' [= Em Eu _ Eh]. unfold final_route, policy_lets, policy_applies.
  assert (Ev : policy_verdict W h' r' = policy_verdict W h r).
  { unfold policy_verdict, path. by rewrite Es, Eh, Em, Eu. }
  rewrite Es, Ev. destruct (policySchema h); [|by apply triple_ret].
  destruct (Policy.v_matched _); [|by apply triple_ret]. cbn [negb andb].
  destruct (String.eqb_spec (Policy.v_action (policy_verdict W h r)) "deny"); [apply framed_reject|].
  apply then_stays; [framing|]. intros _. by apply triple_ret.
Qed.

Lemma rate_limit_checked route ip :
  triple F (rate_limit W route ip) (fun _ s => exists L', framed (conf L') same B s /\
    limited_says L ip (Prefix route) (RateLimitRPM route) false L') fine.
Proof.
  unfold rate_limit. eapply triple_bind; [apply rate_limited_runs|]. intros b.
  apply triple_ex. intros L'. apply triple_pure. intros Hl. destruct b; [apply framed_reject|].
  apply triple_ret. eauto.
Qed.
End Entrance.

Lemma limit_body_checked L route :
  triple (framed (conf L) same (fun b => b = body r)) (limit_body route)
    (fun _ => framed (conf L) same (seen r route)) fine.
Proof.
  intros s (HK & HN & HB & Hf). split; [done|]. split; [done|]. split; [|done].
  cbn. rewrite HB. split; [done|by left].
Qed.

Lemma bind_restore {A} K N route (k : unit -> G A) Q E :
  r_err (given r route) = None -> triple (framed K N (seen r route)) (k tt) Q E ->
  triple (framed K N whatever) (mbind k (mod_r (set_body (string_reader (r_data (given r route)))))) Q E.
Proof.
  intros He Hk s (HK & HN & _ & Hf). apply Hk. split; [done|]. split; [done|]. split; [|done]. by split; [|left].
Qed.

Lemma schema_checked L route :
  checks (conf L) same (seen r route) (schema_registry W route) (schema_lets r route).
Proof.
  unfold schema_registry. apply bind_request. intros r' [= Em _ _ _]. unfold schema_lets. rewrite Em.
  destruct (String.eqb_spec (SchemaName route) ""); [by apply checks_ret|].
  destruct (writes_body (method r)); [|by apply checks_ret]. cbn [negb orb].
  apply bind_read; [intros He|intros text e He _; apply checks_ret; congruence].
  apply bind_restore; [done|]. cbv zeta.
  apply then_stays; [framing|]. intros _. cbv zeta. rewrite He.
  destruct (registry W _ _) as [[st answer]|]; [|by apply checks_ret].
  destruct (Z.eq_dec st 200) as [->|Hne].
  - destruct (registry_verdict answer) as [[[|] errors]|] eqn:Ev; [|apply framed_reject|];
      apply checks_ret; intros _ _ _ a es [= <-]; congruence.
  - assert (Hother : forall (X : Type) (x y : X), match st with 200 => x | _ => y end = y).
    { intros X x y. repeat (done || case_match). }
    rewrite Hother. apply checks_ret. intros _ _ _ a es [= ? _]. done.
Qed.

Lemma mcp_checked L route :
  triple (framed (conf L) same (seen r route)) (mcp W route)
    (fun _ s => exists L', framed (conf L') same (seen r route) s /\ mcp_lets r route L L') fine.
Proof.
  assert (Hno : ~ tool_call r route -> forall s : gst, framed (conf L) same (seen r route) s ->
    exists L', framed (conf L') same (seen r route) s /\ mcp_lets r route L L').
  { intros Hn s Hs. exists L. split; [done|]. by right. }
  unfold mcp. apply bind_request. intros r' [= Em _ _ Eh]. unfold rget. rewrite Em, Eh.
  fold (rget r "X-Agent-ID").
  destruct (MCPEnabled route) eqn:Emcp; [|apply triple_ret, Hno; intros (? & _); congruence].
  destruct (String.eqb_spec (method r) "POST") as [Hm|Hm]; [|by apply triple_ret, Hno; intros (_ & ? & _)].
  cbn [negb orb]. apply bind_read; [intros He|intros text e He _; apply triple_ret, Hno; intros (_ & _ & ? & _); congruence].
  apply bind_restore; [done|].
  destruct (decode_rpc _) as [rpc|] eqn:Ed;
    [|apply triple_ret, Hno; intros (_ & _ & _ & rpc & ? & _); congruence].
  destruct (String.eqb_spec (rpc_method rpc) "tools/call") as [Hr|Hr];
    [|apply triple_ret, Hno; intros (_ & _ & _ & rpc' & ? & ?); congruence].
  cbn [negb]. cbv zeta. eapply triple_bind; [apply rate_limited_runs|]. intros b.
  apply triple_ex. intros L'. apply triple_pure. intros Hl. destruct b; [apply fine_of_framed; ending|].
  eapply triple_conseq; [apply (stays_weaken (framed (conf L') same (seen r route))); [framing|apply framed_fine]|auto| |auto].
  intros ? s Hs. exists L'. split; [done|]. left. split; [|done]. split; [done|]. split; [done|]. split; [done|]. eauto.
Qed.

Lemma admission_checked route :
  tenant_allowed h r -> authentic h r -> match_route (path r) (routes h) = Some route ->
  triple (framed (conf (limits h)) same (fun b => b = body r)) (admission W route)
    (fun x s => (exists L, framed (conf L) same (seen r route) s) /\
       fst x = final_route h r route /\ admitted h r route) fine.
Proof.
  intros Ht Ha Hm. unfold admission. eapply triple_bind; [apply limit_body_checked|]. intros ?; cbn beta.
  eapply triple_bind; [apply api_key_checked|]. intros ?; cbn beta.
  apply triple_ex. intros L1. apply triple_pure. intros Hkey.
  eapply checks_bind; [apply schema_checked|]. intros Hschema ?; cbn beta.
  eapply triple_bind; [apply mcp_checked|]. intros ?; cbn beta.
  apply triple_ex. intros L2. apply triple_pure. intros Hmcp.
  apply bind_request. intros r' [= _ _ Er _]. cbv zeta. rewrite Er.
  eapply checks_bind; [apply ip_checked|]. intros Hip ?; cbn beta.
  eapply triple_bind; [apply policy_checked|]. intros route'. apply triple_pure. intros [-> Hpol].
  eapply triple_bind; [apply rate_limit_checked|]. intros ?; cbn beta.
  apply triple_ex. intros L3. apply triple_pure. intros Hl. apply triple_ret. intros s Hs.
  split; [by exists L3|]. split; [done|]. constructor; try done. by exists L1, L2, L3.
Qed.

(** *** The checks of the preparation *)

Section Route.
Context (route : Route).
Abbreviation rt := (final_route h r route).
Abbreviation F B := (framed kept (alike r) B).

Lemma slot_checked L B :
  triple (framed (conf L) same B) (backpressure W rt)
    (fun _ s => framed kept same B s /\ slot_lets h r route) fine.
Proof.
  intros s ((_ & _ & _ & _ & _ & _ & _ & Hres & Hk) & HN & HB & Hf).
  assert (Hs : framed kept same B s) by done.
  unfold backpressure, handler, mbind, G_bind, gets. rewrite Hres. unfold slot_lets.
  destruct (limiters (res h) !! Prefix rt) as [[l|]|] eqn:El; [|by split..].
  assert (Href : forall e, match (mod_w (wset "Retry-After" "5");;
      if String.eqb e "queue full"
      then reject (A := unit) "Too Many Requests: backpressure queue full" "ERR_QUEUE_FULL" 429
      else reject "Service Unavailable: queue timeout" "ERR_BACKPRESSURE_TIMEOUT" 503) s with
    | (Next _, s') => framed kept same B s' /\ (forall l0, Some (Some l) = Some (Some l0) ->
        Backpressure.send_sem l0 <> None \/
        (Backpressure.send_queue l0 <> None /\ queue_wait W (Prefix rt) = Backpressure.Acquired))
    | (_, s') => fine s'
    end).
  { intros e. refine (_ s Hs). apply (fine_of_framed kept same B). ending. }
  unfold Acquire. destruct (Backpressure.send_sem l) as [l'|] eqn:Es.
  - cbn. split; [|intros l0 [= <-]; left; congruence]. split; [exact Hk|]. split; [exact HN|]. split; [exact HB|].
    by apply (fine_emit (EAcquired (Prefix rt)) s).
  - destruct (Backpressure.send_queue l) as [lq|] eqn:Eq; [|exact (Href "queue full"%string)].
    destruct (queue_wait W (Prefix rt)) eqn:Ew;
      [|exact (Href "queue timeout"%string)|exact (Href "context canceled"%string)].
    cbn. split; [|intros l0 [= <-]; right; split; congruence].
    split; [exact Hk|]. split; [exact HN|]. split; [exact HB|]. by apply (fine_emit (EAcquired (Prefix rt)) s).
Qed.

Lemma graphql_checked B : checks kept same B (graphql rt) (graphql_lets h r route).
Proof.
  unfold graphql, graphql_lets. apply bind_request. intros r' [= Em _ _ _]. rewrite Em.
  apply triple_when; [intros _; apply framed_reject|]. intros He s Hs. split; [done|].
  apply andb_false_iff in He as [He|He]; [left|right].
  - apply negb_false_iff in He. by apply bool_decide_eq_true in He.
  - by apply String.eqb_neq.
Qed.

Lemma alike_trace r' : line r' = line r -> forall tp, alike r (line (rset "traceparent" tp r')).
Proof. intros [= Em Eu Er Eh] tp. right. exists tp. unfold line. cbn. by rewrite Em, Eu, Er, Eh. Qed.

Lemma tracing_checked :
  triple (framed kept same (seen r route)) (tracing W) (fun _ => F (seen r route)) fine.
Proof.
  assert (Hsame : forall s : gst, framed kept same (seen r route) s -> F (seen r route) s).
  { intros s (? & HN & ?). split; [done|]. split; [by left|done]. }
  unfold tracing. apply bind_request. intros r' Hr'. cbv zeta. apply then_stays; [apply framed_StartSpan|].
  intros [sp|]; [|by apply triple_ret]. cbv zeta.
  eapply (triple_bind _ _ _ (fun _ => F (seen r route))).
  { intros s (HK & HN & HB & Hf). split; [done|]. split; [by apply alike_trace|done]. }
  intros _. eapply (triple_bind _ _ _ (fun _ => F (seen r route))); [|intros _; by apply triple_ret].
  apply triple_when; [intros _|auto].
  apply bind_read; [intros He|intros text e _ _; by apply triple_ret].
  intros s (HK & HN & _ & Hf). split; [done|]. split; [done|]. split; [|done]. by split; [|left].
Qed.

Lemma framed_log_line B entry : stays (F B) (log_line rt entry).
Proof.
  unfold log_line. apply stays_modify. intros s (HK & HN & HB & Hf). split; [|done].
  cbn. by destruct (accessLoggers (res (gh s)) !! Prefix rt).
Qed.

Ltac frame_leaf :=
  lazymatch goal with
  | |- stays _ (log_line _ _) => apply framed_log_line
  | |- stays _ (EndSpan _ _ _) => apply framed_EndSpan
  end.

Lemma framed_cache_lookup B ip tid sp st : stays (F B) (cache_lookup W rt ip tid sp st).
Proof.
  unfold cache_lookup, serve_cached.
  repeat (first [progress cbv zeta | frame_leaf | stay_step]); try frame_side.
Qed.

Lemma replaced K N B b : triple (framed K N B) (mod_r (replace_body b)) (fun _ => framed K N whatever) fine.
Proof. intros s (HK & HN & _ & Hf). done. Qed.

Lemma body_checked sp :
  triple (F (seen r route)) (validate_body W rt sp) (fun _ s => F (seen r route) s /\ body_lets h r route) fine.
Proof.
  unfold validate_body, body_lets.
  destruct (bool_decide _) eqn:Eb; [apply bool_decide_eq_true in Eb; by apply checks_ret|].
  apply bind_read.
  2: { intros text e He _. apply then_stays; [apply framed_EndSpan|]. intros _. apply framed_reject. }
  intros He. destruct (Validation.ValidateRequest _ _) eqn:Ev.
  { apply then_stays; [apply framed_EndSpan|]. intros _. apply framed_reject. }
  intros s (HK & HN & _ & Hf). split; [|done]. split; [done|]. split; [done|]. split; [|done].
  cbn. by split; [rewrite He|left].
Qed.

(** The extensions answer a dry run and never change the body. *)
Lemma extensions_body (w : ServerWriter) r' text w' text' ok :
  Ai.applyAIRequestExtensions w r' text = Done (w', text', ok) -> text' = text.
Proof.
  unfold Ai.applyAIRequestExtensions. destruct (Ai.dry_run r'); [|by intros [= _ <- _]].
  destruct (WriteHeader _ _); [|done]. cbn. by intros [= _ <- _].
Qed.

Lemma guard_checked sp :
  triple (F (seen r route)) (ai_checks W rt sp) (fun _ s => F whatever s /\ guard_lets h r route) fine.
Proof.
  unfold ai_checks, guard_lets. apply bind_request. intros r' _.
  destruct (wants_ai rt r') eqn:Ew; cbn [negb].
  2: { apply triple_ret. intros s Hs. split; [by apply framed_any in Hs|]. intros Hg.
       unfold wants_ai in Ew. rewrite Hg in Ew. discriminate. }
  apply bind_read_any. intros text err Hseen. cbv zeta. cbn [fst snd].
  apply then_stays; [framing|]. intros w.
  eapply (triple_bind _ _ _ (fun ext s => F whatever s /\ snd (fst ext) = text)).
  { apply triple_exec; [|apply framed_fine]. intros [[w' text'] ok] s Hx Hs. split; [done|].
    by eapply extensions_body. }
  intros [[w' text'] ok]. apply triple_pure. cbn [fst snd]. intros ->. apply then_stays; [framing|]. intros _.
  destruct ok; cbn [negb]; [|apply triple_return, framed_fine].
  destruct (PromptGuard rt && negb (String.eqb (Ai.extractPrompt text) "") &&
            Ai.IsPromptInjection (Ai.extractPrompt text)) eqn:Eg.
  { apply then_stays; [apply framed_EndSpan|]. intros _. apply framed_reject. }
  unfold RunAIWAF, getSemanticCache. rewrite andb_false_r.
  destruct (SemanticCache rt && _); (eapply triple_bind; [apply replaced|]; intros ?; cbn beta);
    apply checks_ret; intros Hg; exists text; (split; [done|]); rewrite Hg in Eg;
    destruct (String.eqb_spec (Ai.extractPrompt text) ""); auto.
Qed.

(** *** The stages that contact somebody *)

Definition targets_kept (h' : GatewayHandler R M) : Prop := bal h' = bal h /\ circuitBreakers h' = circuitBreakers h.
Abbreviation F2 := (framed targets_kept (alike r) whatever).

Lemma framed_after_wasm B s : F B s -> F2 s.
Proof. intros ((_ & ? & ?) & ? & _ & ?). by repeat split. Qed.

Lemma run_wasm_checked B name input : (forall n i, J (EWasm n i)) ->
  triple (F B) (run_wasm name input)
    (fun out s => F2 s /\ exists m, wasm_run (wasm h) name input = Done (out, m)) fine.
Proof.
  intros HJ s ((Hw & Hb & Hc) & HN & HB & Hf).
  unfold run_wasm, mbind, G_bind, handler, gets, emit, modify, of_exec, mod_h, mret, G_ret. rewrite Hw.
  assert (Hf' : fine (upd_trace (EWasm name input) s)) by (apply fine_emit; [intros _; apply HJ|done]).
  destruct (wasm_run (wasm h) name input) as [[out m]|why]; [|exact Hf'].
  split; [|by exists m]. by split; [split|split].
Qed.

Lemma traced_wasm_checked B title name input parent : (forall n i, J (EWasm n i)) ->
  triple (F B) (traced_wasm W title name input parent)
    (fun out s => F2 s /\ exists m, wasm_run (wasm h) name input = Done (out, m)) fine.
Proof.
  intros HJ. unfold traced_wasm. apply then_stays; [apply framed_StartSpan|]. intros sp.
  eapply triple_bind; [by apply run_wasm_checked|]. intros out. apply triple_pure. intros Hrun.
  apply then_stays; [apply framed_EndSpan|]. intros _. apply triple_ret. intros s Hs. by split.
Qed.

Lemma wasm_checked sp tp : (forall n i, J (EWasm n i)) ->
  triple (F whatever) (wasm_request W rt sp tp) (fun _ s => F2 s /\ wasm_lets h r route) fine.
Proof.
  intros HJ. unfold wasm_request.
  eapply (triple_bind _ _ _ (fun d s => F whatever s /\ exists k, d = seed W k)).
  { intros s Hs. split; [exact Hs|eauto]. }
  intros d. apply triple_pure. intros [k ->]. cbv zeta.
  destruct (String.eqb_spec (selectWASMMiddleware rt (seed W k)) "") as [He|Hne].
  { apply triple_ret. intros s Hs. split; [by apply framed_after_wasm in Hs|]. exists k. by left. }
  apply bind_request. intros r' Hr'.
  set (name := selectWASMMiddleware rt (seed W k)) in *.
  eapply (triple_bind _ _ _ (fun input s => F whatever s /\ (is_policy_module name = true -> input = policy_input r'))).
  { destruct (is_policy_module name); [by apply triple_ret|].
    intros s Hs. unfold mbind, G_bind. destruct (read_body_runs s) as [f ->]. by destruct Hs as (? & ? & _ & ?). }
  intros input. apply triple_pure. intros Hinput.
  eapply triple_bind; [by apply traced_wasm_checked|]. intros out. apply triple_pure. intros [m Hrun].
  destruct out as [out|e].
  2: { apply then_stays; [apply framed_EndSpan|]. intros _. apply then_stays; [apply framed_reply|]. intros _.
       apply then_stays; [framing|]. intros _. apply triple_return, framed_fine. }
  assert (Hlets : (is_policy_module name = true -> TrimSpace out <> "deny"%string) -> wasm_lets h r route).
  { intros Hd. exists k. right. exists input, out, m. split; [exact Hrun|]. intros Hp.
    split; [by apply Hd|]. exists r'. split; [done|by apply Hinput]. }
  destruct (is_policy_module name).
  - destruct (String.eqb_spec (TrimSpace out) "deny").
    + apply then_stays; [apply framed_EndSpan|]. intros _. apply framed_reject.
    + apply checks_ret. by apply Hlets.
  - eapply triple_conseq; [apply (replaced targets_kept (alike r) whatever)|auto| |auto]. intros ? s Hs. split; [exact Hs|]. by apply Hlets.
Qed.

Abbreviation F3 := (fun s => targets_kept (gh s) /\ fine s).

Lemma plugin_checked sp : (forall n, J (EPlugin n)) ->
  triple F2 (plugin_request W rt sp) (fun _ s => F3 s /\ plugin_lets h r route) fine.
Proof.
  intros HJ. unfold plugin_request, plugin_lets.
  destruct (String.eqb_spec (GoMiddleware rt) "") as [He|Hne].
  { apply triple_ret. intros s (HK & _ & _ & Hf). split; [done|]. done. }
  destruct (plugins W (GoMiddleware rt)) as [p|] eqn:Ep.
  2: { apply triple_ret. intros s (HK & _ & _ & Hf). split; [done|]. done. }
  apply bind_request. intros r' Hr'.
  eapply (triple_bind _ _ _ (fun _ => F2)).
  { apply triple_modify. intros s (HK & HN & HB & Hf). split; [done|]. split; [done|]. split; [done|].
    apply fine_emit; [|done]. intros _. apply HJ. }
  intros _. destruct (OnRequest p r') as [out r''] eqn:Eo.
  eapply (triple_bind _ _ _ (fun _ => F3)); [apply triple_modify; by intros s (? & _ & _ & ?)|]. intros _.
  destruct out as [[resp|]|e].
  - apply fine_of; [by intros s [_ Hf]|]. ending.
  - apply triple_ret. intros s Hs. split; [done|]. intros _ _ [= <-]. by exists r', r''.
  - apply fine_of; [by intros s [_ Hf]|]. unfold reply_json. ending.
Qed.

Lemma pick_checked :
  triple F3 (pick_target W rt) (fun target s => (fine s /\ circuitBreakers (gh s) = circuitBreakers h) /\
    exists d b, selectTarget (bal h) rt (seed W d) = Done (target, b)) fine.
Proof.
  intros s [[Hb Hc] Hf]. unfold pick_target, mbind, G_bind, handler, gets, draw, of_exec.
  cbn [gh upd_draws]. rewrite Hb.
  destruct (selectTarget (bal h) rt _) as [[target b]|why] eqn:Et; [|exact Hf].
  cbn. split; [|by exists (draws s), b]. split; [|exact Hc]. by apply (fine_emit (EConnOpened target) s).
Qed.

Lemma breaker_checked target sp :
  triple (fun s => fine s /\ circuitBreakers (gh s) = circuitBreakers h) (check_breaker W target sp)
    (fun _ s => fine s /\
       exists i cb, Breaker.Allow (breaker_of h target) (clock W i) (clock W (S i)) = (true, cb)) fine.
Proof.
  intros s [Hf Hc]. unfold check_breaker, mbind, G_bind, handler, gets, now.
  assert (Eb : breaker_of (gh s) target = breaker_of h target) by (unfold breaker_of; by rewrite Hc).
  rewrite Eb. cbn [ticks upd_ticks].
  destruct (Breaker.Allow _ _ _) as [[|] cb] eqn:Ea; cbn [mod_h modify negb when mret G_ret].
  - split; [exact Hf|]. by exists (ticks s), cb.
  - assert (Hf' : fine (upd_h (set_breaker target cb) (upd_ticks (upd_ticks s)))) by exact Hf.
    revert Hf'. generalize (upd_h (set_breaker target cb) (upd_ticks (upd_ticks s))).
    apply (fine_of fine); [done|]. ending.
Qed.
End Route.

(** *** The whole pipeline *)

(** Once everything that is asked has been answered, whatever is contacted was
    allowed to be. *)
Lemma fine_known {A} (P : gst -> Prop) (m : G A) : (forall e, J e) -> triple P m (fun _ => fine) fine.
Proof.
  intros HJ s _. assert (Hf : forall s, fine s) by (intros s'; apply List.Forall_forall; auto).
  destruct (m s) as [[a| |why] s']; apply Hf.
Qed.
End Request.

Section Whole.
Context (h : GatewayHandler R M) (r : Request).

(** What went out of the request was allowed to, on its route. *)
Definition permitted (e : event) : Prop := exists route, goes_out h r route e.
Abbreviation fine := (fine permitted).

Lemma targeting_checked route sp tp :
  (plugin_lets h r route -> breaker_lets h r route -> forall e, permitted e) -> plugin_lets h r route ->
  triple (fun s => targets_kept h (gh s) /\ fine s) (targeting W (final_route h r route) sp tp)
    (fun _ s => fine s /\ forall e, permitted e) fine.
Proof.
  intros HJ Hp. unfold targeting. eapply triple_bind; [apply pick_checked|]. intros target.
  apply triple_pure. intros (d & b & Hsel). eapply triple_bind; [apply breaker_checked|]. intros ?; cbn beta.
  apply triple_pure. intros (i & cb & Hallow).
  assert (Hall : forall e, permitted e) by (apply HJ; [done|]; by exists d, target, b, i, cb).
  eapply triple_conseq; [by apply (fine_known permitted (fun _ => True))|done|auto|auto].
Qed.

Lemma prepared_checked route sp tp :
  admitted h r route -> slot_lets h r route -> graphql_lets h r route ->
  triple (framed permitted (kept h) (alike r) (seen r route)) (preparation W (final_route h r route) sp tp)
    (fun _ s => (targets_kept h (gh s) /\ fine s) /\ plugin_lets h r route /\
       (plugin_lets h r route -> breaker_lets h r route -> forall e, permitted e)) fine.
Proof.
  intros Ha Hs Hg. unfold preparation. eapply triple_bind; [apply body_checked|]. intros ?; cbn beta.
  apply triple_pure. intros Hb. eapply triple_bind; [apply guard_checked|]. intros rb.
  apply triple_pure. intros Hguard.
  eapply triple_bind; [apply wasm_checked; intros n i; by exists route|]. intros ?; cbn beta.
  apply triple_pure. intros Hw.
  eapply triple_bind; [apply plugin_checked; intros n; by exists route|]. intros ?; cbn beta.
  apply triple_pure. intros Hp. apply triple_ret. intros s Hf. split; [done|]. split; [done|].
  intros _ Hbr e. exists route. constructor; try done; by destruct e.
Qed.

Lemma serve_checked html :
  triple (framed permitted (conf h (limits h)) (same r) (fun b => b = body r)) (serve W html) (fun _ => fine) fine.
Proof.
  unfold serve. apply then_stays; [by apply stays_now|]. intros start. apply then_stays; [by apply stays_modify|].
  intros ?; cbn beta. eapply triple_bind; [apply entrance_checked|]. intros route.
  apply triple_pure. intros (Ht & Ha & Hm).
  eapply triple_bind; [by apply (admission_checked h r permitted route)|]. intros [route' ip]. cbn [fst].
  apply triple_pure. intros [-> Hadm]. apply triple_ex. intros L.
  eapply triple_bind; [apply slot_checked|]. intros ?; cbn beta. apply triple_pure. intros Hslot.
  eapply checks_bind; [apply graphql_checked|]. intros Hg ?; cbn beta.
  eapply triple_bind; [apply tracing_checked|]. intros [[sp tp] tid].
  apply then_stays; [apply framed_cache_lookup|]. intros key.
  eapply triple_bind; [by apply prepared_checked|]. intros rb. apply triple_pure. intros [Hp Hall].
  eapply triple_bind; [by apply targeting_checked|]. intros [target u]. apply triple_pure. intros Hknown.
  eapply triple_conseq; [by apply (fine_known permitted (fun _ => True))|done|auto|auto].
Qed.

Lemma fine_run_deferred s : fine s -> fine (run_deferred s).
Proof.
  unfold run_deferred. intros Hs. change (fine (fold_left (fun s d => run_deferred_call d s) (deferred s) s)).
  generalize (deferred s). intros ds. revert s Hs. induction ds as [|d ds IH]; intros s Hs; [done|].
  apply IH. destruct d; by apply fine_emit.
Qed.
End Whole.

(** C1. Nothing goes out before it is allowed to: if a request, or a part of
    it, was handed to a WASM module, a plugin, a queue, a tunnel or a backend,
    then its tenant may use this cluster and region, it carries the gateway's
    token or a valid JWT when one is required, its route's API key check,
    schema registry, address lists and policy rules admit it, none of the key's,
    the agent's and the client's rate limits is reached, a slot of its route
    was free, its body passes the route's validation and its prompt the guard;
    except for the WASM modules, the module of its route let it pass; and
    before a queue, a tunnel or a backend, so did the route's plugin and the
    breaker of the target that was picked. *)
Theorem only_admitted_requests_go_out html h r o s e :
  ServeHTTP W html h r = (o, s) -> e ∈ trace s -> contact e = true ->
  exists route, goes_out h r route e.
Proof.
  unfold ServeHTTP. pose proof (serve_checked h r html (initial h r)) as Hserve.
  destruct (serve W html (initial h r)) as [o' s'] eqn:Es. intros [= <- <-] He Hc.
  assert (Hf : fine (permitted h r) (run_deferred s')).
  { apply fine_run_deferred.
    assert (Hstart : framed (permitted h r) (conf h (limits h)) (same r) (fun b => b = body r) (initial h r)).
    { by repeat split; constructor. }
    specialize (Hserve Hstart). by destruct o'. }
  unfold fine in Hf. rewrite List.Forall_forall in Hf. apply Hf; [by apply list_elem_of_In|done].
Qed.
End Admission.

End Serving.
