(* ===== verification/Scenarios.v ===== *)
(** * Requests run through the pipeline

    A concrete world, and the pipeline evaluated in it: the witnesses of the
    theorems of [Serving], and the scenarios behind the findings about the whole
    of [ServeHTTP]. *)

From S2P Require Import Prelude GoStrings GoFloat Json Types RateLimit Balancer Breaker.
From S2P Require Import Backpressure Cache Token Policy Config Http Url Ai Handler Proxy Gateway.
From S2P Require Import Serving.
Open Scope Z_scope.

Module Scenarios.
Import Http Handler Gateway Serving.

(** No Redis server, and WASM modules that are constants named by their
    output. *)
#[export] Instance no_redis_server : RateLimit.Limiter.RedisZSet unit := {
  RateLimit.Limiter.zcard_pipe r _ _ := (r, None);
  RateLimit.Limiter.zadd_pipe r _ _ _ := r;
}.
#[export] Instance constant_wasm : WasmRunner unit :=
  fun m name _ => Done (Ok (TrimPrefix name "policy:"), m).

Definition backend (t : option Transport) (n : nat) (req : Request) : result string Response :=
  Ok (Proxy.reply 200 ("answer " ++ digits (Z.of_nat n))%string).

Definition os (env : gmap string string) : Platform :=
  {| p_env := env; p_opens _ := true; p_load_key_pair _ _ := None; p_read_file _ := None |}.

Definition world_with (answer : option Transport -> nat -> Request -> result string Response)
    (env : gmap string string) : World := {|
  platform := os env;
  clock n := 1700000000 * second + Z.of_nat n * millisecond;
  seed n := Z.of_nat n;
  start_span _ _ := Some {| sp_TraceID := "t1"; sp_SpanID := "s1" |};
  registry _ _ := None;
  queue _ _ _ := Err "down"%string;
  queue_wait _ := Backpressure.QueueTimeout;
  plugins _ := None;
  wire := answer;
  hijack := HijackUnsupported;
  dial _ := false;
  order := map_to_list;
  any_order l := l;
  pii_order := Ai.piiPatterns;
  decode_error _ := "bad"%string;
  upgrade_error _ _ := "switch"%string;
|}.
Definition world : World := world_with backend ∅.

Definition gateway (token : string) (rs : list Route) (keys : list APIKey)
    (k : GatewayHandler unit unit -> Prop) : Prop :=
  match NewGatewayHandler (os ∅) (fun _ => None) rs tt token ∅ with
  | Done h => k (SetAPIKeys keys h)
  | Panic _ => False
  end.

Definition run (W : World) (h : GatewayHandler unit unit) (r : Request) :=
  snd (ServeHTTP W "" h r).

Definition get (path : string) : Request := Proxy.sample_request "GET" path.
Definition with_header (k v : string) (r : Request) : Request := rset k v r.

(** What the client sees, and how many requests went to a backend. *)
Definition is_send (e : event) : bool := match e with ESend _ _ => true | _ => false end.
Definition seen (s : gst (R := unit) (M := unit)) : Z * string * nat :=
  (client_status (gw s), s_out (gw s), length (List.filter is_send (trace s))).

Definition api_route : Route := plain_route "/api" "http://be:80".

Example plain_request : gateway "" [api_route] [] (fun h =>
  seen (run world h (get "/api/x")) = (200, "answer 0"%string, 1%nat) /\
  seen (run world h (get "/other"))
  = (502, render (JObj [("error", JStr "Bad gateway: route match not found");
                        ("code", JStr "ERR_ROUTE_NOT_FOUND")]%string) ++ newline, 0%nat)%string).
Proof. vm_compute. split; done. Qed.

(** ** Findings *)

(** The tenant policies can be rewritten without the gateway's token, which
    then shuts a tenant out. *)
Example tenant_policies_unauthenticated : gateway "secret" [api_route] [] (fun h =>
  let body := render (JObj [("tenant_id", JStr "acme"); ("allowed_regions", JArr [JStr "nowhere"])]%string) in
  let s := run world h (replace_body body (Proxy.sample_request "POST" "/api/tenants/policies")) in
  let acme := with_header "X-Tenant-ID" "acme" (with_header "Authorization" "Bearer secret" (get "/api/x")) in
  client_status (gw s) = 201 /\
  client_status (gw (run world h acme)) = 200 /\ client_status (gw (run world (gh s) acme)) = 403).
Proof. vm_compute. split; [done|]. split; done. Qed.

(** The cache key does not tell callers apart: a tenant is answered with what
    was cached for another. *)
Definition key_of (key tenant : string) : APIKey :=
  {| Key := key; Types.Tenant := tenant; KeyRateLimitRPM := 0; AllowedRoutes := [];
     MaxTokensPerDay := 0; MaxCostPerDay := SpecFloat.S754_zero false |}.
Definition cached_route : Route := with_RequireAPIKey true (with_CacheTTLSeconds 60 api_route).

Definition by_key (t : option Transport) (n : nat) (req : Request) : result string Response :=
  Ok (Proxy.reply 200 ("data of " ++ rget req "X-API-Key")%string).

Example cache_crosses_tenants :
  gateway "" [cached_route] [key_of "ka" "a"; key_of "kb" "b"] (fun h =>
    let W := world_with by_key ∅ in
    let s := run W h (with_header "X-API-Key" "ka" (get "/api/me")) in
    seen s = (200, "data of ka"%string, 1%nat) /\
    seen (run W h (with_header "X-API-Key" "kb" (get "/api/me"))) = (200, "data of kb"%string, 1%nat) /\
    seen (run W (gh s) (with_header "X-API-Key" "kb" (get "/api/me"))) = (200, "data of ka"%string, 0%nat)).
Proof. vm_compute. split; [done|]. split; done. Qed.

(** Redaction is applied when a response is fetched, not when it is served
    from the cache. *)
Definition redact_rule : Policy.PolicyRule :=
  {| Policy.ID := "r"; Policy.Action := "allow"; Policy.Methods := ["*"]; Policy.Path := "/*";
     Policy.Roles := []; Policy.RuleHeaders := {[ "x-role" := "guest" ]}; Policy.RuleRateLimitRPM := 0;
     Policy.RedactFields := ["ssn"] |}%string.

Definition person (t : option Transport) (n : nat) (req : Request) : result string Response :=
  Ok (Proxy.reply 200 (render (JObj [("ssn", JStr "123")]%string))).

Example cache_bypasses_redaction :
  gateway "" [with_CacheTTLSeconds 60 api_route] [] (fun h =>
    let h := UpdatePolicySchema (Some {| Policy.Version := 1; Policy.Rules := [redact_rule] |}) h in
    let W := world_with person ∅ in
    let guest := with_header "X-Role" "guest" (get "/api/p") in
    let s := run W h (get "/api/p") in
    s_out (gw (run W h guest)) = render (JObj [("ssn", JStr "[REDACTED]")]%string) /\
    s_out (gw (run W (gh s) guest)) = render (JObj [("ssn", JStr "123")]%string)).
Proof. vm_compute. split; done. Qed.

(** An interim response of the backend (103 Early Hints) takes the place of the
    final status: an error reaches the client as a success, and is not counted
    as one. *)
Definition hints_then (code : Z) (t : option Transport) (n : nat) (req : Request) : result string Response :=
  Ok {| status := code; rheader := ∅; rbody := string_reader "no"; interim := [(103, ∅)] |}.

Example interim_response_hides_status : gateway "" [api_route] [] (fun h =>
  let s := run (world_with (hints_then 404) ∅) h (get "/api/x") in
  let s' := run (world_with (hints_then 500) ∅) h (get "/api/x") in
  (client_status (gw s), client_status (gw s')) = (200, 200) /\
  totalErrors (metricsTracker (gh s')) = 0 /\
  totalErrors (metricsTracker (gh (run (world_with (fun _ _ _ => Ok (Proxy.reply 500 "")) ∅) h (get "/api/x")))) = 1).
Proof. vm_compute. split; [done|]. split; done. Qed.

(** A body over the limit is forwarded truncated when the client sent it in
    chunks. *)
Example truncated_upload : gateway "" [with_MaxBodySize 4 api_route] [] (fun h =>
  let put n := set_content_length n (set_body (string_reader "0123456789") (Proxy.sample_request "PUT" "/api/f")) in
  let echo (t : option Transport) (n : nat) (req : Request) : result string Response :=
    Ok (Proxy.reply 200 (r_data (body req))) in
  let W := {| platform := os ∅; clock := clock world; seed := seed world;
    start_span _ _ := None; registry := registry world; queue := queue world; queue_wait := queue_wait world;
    plugins := plugins world; wire := echo; hijack := hijack world; dial := dial world;
    order := order world; any_order := any_order world; pii_order := pii_order world;
    decode_error := decode_error world; upgrade_error := upgrade_error world |} in
  seen (run W h (put (-1))) = (200, "0123"%string, 1%nat) /\
  client_status (gw (run W h (put 10))) = 502).
Proof. vm_compute. split; done. Qed.

(** A WASM policy module denies with the exact text [deny] only. *)
Example wasm_policy_fails_open : gateway "" [with_Middleware "policy:DENY" api_route] [] (fun h =>
  client_status (gw (run world h (get "/api/x"))) = 200) /\
  gateway "" [with_Middleware "policy:deny" api_route] [] (fun h =>
  client_status (gw (run world h (get "/api/x"))) = 403).
Proof. vm_compute. split; done. Qed.

(** A POST that is answered 503 is sent three times. *)
Example post_is_retried : gateway "" [api_route] [] (fun h =>
  seen (run (world_with (fun _ _ _ => Ok (Proxy.reply 503 "busy")) ∅) h (Proxy.sample_request "POST" "/api/pay"))
  = (503, "busy"%string, 3%nat)).
Proof. vm_compute. done. Qed.

(** The forwarded host is read from a header the server has removed. *)
Example forwarded_host_is_empty : gateway "" [api_route] [] (fun h =>
  let s := run world h (with_header "X-Forwarded-Host" "shop.example" (get "/api/x")) in
  map (fun e => match e with ESend _ req => hvalues (header req) "X-Forwarded-Host" | _ => [] end)
    (List.filter is_send (trace s)) = [[""%string]]).
Proof. vm_compute. done. Qed.

(** A body that is not a gRPC frame is lost on its way through
    [grpc_to_rest]. *)
Definition grpc_route : Route := with_TranspileType "grpc_to_rest" (plain_route "/g" "http://be:80").

Example unframed_body_is_lost : gateway "" [grpc_route] [] (fun h =>
  let s := run world h (replace_body "{}" (Proxy.sample_request "POST" "/g/x")) in
  seen s = (502, render (JObj [("error", JStr "Bad Gateway: http: ContentLength does not match Body length");
                               ("code", JStr "ERR_BAD_GATEWAY"); ("trace_id", JStr "t1")]%string) ++ newline,
            0%nat)%string).
Proof. vm_compute. done. Qed.

(** The document that lists every route and its target is served before the
    authentication. *)
Example docs_are_public : gateway "secret" [api_route] [] (fun h =>
  let s := run world h (get "/api/docs/openapi.json") in
  client_status (gw s) = 200 /\ Contains (s_out (gw s)) "http://be:80" = true /\
  client_status (gw (run world h (get "/api/x"))) = 401).
Proof. vm_compute. split; [done|]. split; done. Qed.

(** ** Witnesses *)

(** A handler of one route that is limited to four requests at a time and
    cached. *)
Definition busy_route : Route := with_MaxConcurrentRequests 4 (with_CacheTTLSeconds 30 api_route).

Definition four_slots : Backpressure.BackpressureLimiter :=
  {| Backpressure.sem := 0; Backpressure.semCap := 4; Backpressure.queue := 0;
     Backpressure.queueCap := 0; Backpressure.timeout := 5000 * millisecond |}.

Lemma busy_handler (h : GatewayHandler unit unit) :
  NewGatewayHandler (os ∅) (fun _ => None) [busy_route] tt "" ∅ = Done h ->
  activeConns (bal h) = ∅ /\ limiters (res h) = {[ "/api"%string := Some four_slots ]} /\
  responseCaches (res h) = {[ "/api"%string := Cache.NewResponseCache (30 * second) ]}.
Proof. unfold NewGatewayHandler. intros E. vm_compute in E. injection E as <-. done. Qed.

Lemma every_exit_is_clean_witness : gateway "" [busy_route] [] (fun h =>
  let s := run world h (get "/api/x") in
  totalRequests (metricsTracker (gh s)) = u64 (totalRequests (metricsTracker h) + 1) /\
  deferred s = [] /\
  (forall t, conns (bal (gh s)) t = conns (bal h) t) /\
  (forall k, returned world (limiters (res h)) (limiters (res (gh s))) k)).
Proof.
  unfold gateway. destruct (NewGatewayHandler _ _ _ _ _ _) as [h|] eqn:E; [|vm_compute in E; discriminate].
  destruct (busy_handler h E) as (Hc & Hl & _).
  apply (every_exit_is_clean world "" (SetAPIKeys [] h) (get "/api/x")
           (fst (ServeHTTP world "" (SetAPIKeys [] h) (get "/api/x"))) _).
  - intros t. unfold conns. simpl. rewrite Hc, lookup_empty. simpl. lia.
  - intros k l. simpl. rewrite Hl. intros [_ [= <-]]%lookup_singleton_Some. simpl. lia.
  - apply surjective_pairing.
Defined.

Lemma only_successes_are_cached_witness : gateway "" [busy_route] [] (fun h =>
  all_success (responseCaches (res (gh (run world h (get "/api/x")))))).
Proof.
  unfold gateway. destruct (NewGatewayHandler _ _ _ _ _ _) as [h|] eqn:E; [|vm_compute in E; discriminate].
  destruct (busy_handler h E) as (_ & _ & Hc).
  apply (only_successes_are_cached world "" (SetAPIKeys [] h) (get "/api/x")
           (fst (ServeHTTP world "" (SetAPIKeys [] h) (get "/api/x"))) _).
  - simpl. rewrite Hc. apply map_Forall_singleton. apply map_Forall_empty.
  - apply surjective_pairing.
Defined.

(** A route with its own limits, an API key with another, and a policy module
    that lets everybody pass. *)
Definition guarded_route : Route :=
  with_RequireAPIKey true (with_RateLimitRPM 2 (with_Middleware "policy:allow" busy_route)).
Definition limited_key : APIKey :=
  {| Key := "k"; Types.Tenant := "acme"; KeyRateLimitRPM := 5; AllowedRoutes := ["/api"%string];
     MaxTokensPerDay := 0; MaxCostPerDay := SpecFloat.S754_zero false |}.
Definition keyed : Request := with_header "X-API-Key" "k" (get "/api/x").

Example guarded_route_at_work : gateway "" [guarded_route] [limited_key] (fun h =>
  let s := run world h keyed in
  let s' := run world (gh s) keyed in
  seen s = (200, "answer 0"%string, 1%nat) /\
  seen (run world h (get "/api/x")) =
    (401, render (JObj [("error", JStr "Unauthorized: Missing API Key");
                        ("code", JStr "ERR_MISSING_API_KEY")]%string) ++ newline, 0%nat)%string /\
  client_status (gw (run world (gh s') keyed)) = 429 /\
  List.existsb contact (trace (run world (gh s') keyed)) = false).
Proof. vm_compute. split; [done|]. split; [done|]. split; done. Qed.

Lemma only_admitted_requests_go_out_witness : gateway "" [guarded_route] [limited_key] (fun h =>
  let e := default (EReleased "") (List.find is_send (trace (run world h keyed))) in
  is_send e = true /\ exists route, goes_out world h keyed route e).
Proof.
  unfold gateway. destruct (NewGatewayHandler _ _ _ _ _ _) as [h|] eqn:E; [|vm_compute in E; discriminate].
  vm_compute in E. injection E as <-.
  match goal with |- context [goes_out _ ?h _ _ _] => set (h0 := h) end.
  assert (Hs : exists e, List.find is_send (trace (run world h0 keyed)) = Some e).
  { destruct (List.find is_send _) eqn:Ef; [by eexists|]. exfalso. vm_compute in Ef. discriminate. }
  destruct Hs as [e He]. cbv zeta. rewrite He. cbn [default].
  pose proof (List.find_some _ _ He) as [Hin Hsend]. split; [done|].
  apply (only_admitted_requests_go_out world "" h0 keyed (fst (ServeHTTP world "" h0 keyed)) (run world h0 keyed) e).
  - apply surjective_pairing.
  - by apply list_elem_of_In.
  - by destruct e.
Defined.

End Scenarios.
