(* ===== verification/AdminScenarios.v ===== *)
(** * The administration on a concrete process

    A gateway whose configuration is a file, administered by a few requests:
    the hypotheses of the theorems of Admin.v hold here, and each finding about
    the administration is shown on it. *)

From S2P Require Import Prelude GoStrings Json Types RateLimit Token Codec Config Http Url Handler Proxy Wasm.
From S2P Require Import Gateway WebSocket Provider Admin Boot Scenarios.
Import Codec.
Open Scope Z_scope.

Module AdminScenarios.
Import Http Admin.
Import Provider(LocalFileProvider, lf_path, lf_env, lf_content, lf_write_error).
#[local] Existing Instance Scenarios.no_redis_server.
#[local] Existing Instance Scenarios.constant_wasm.
#[local] Existing Instance Provider.local_provider.
#[local] Existing Instance Provider.local_laws.

(** No WASM module compiles but the empty one. *)
#[export] Instance no_registry : WasmRegistry unit :=
  fun name bytes m => if String.eqb bytes "" then Ok m else Err "no runtime"%string.

Abbreviation process := (server unit unit LocalFileProvider).

Definition env : gmap string string := {[ "SERV_JWT_SECRET" := "s3cret" ]}%string.
Definition noon : Z := 1700000000 * second.

Definition plain_config : GatewayConfig :=
  {| Addr := ":8080"; AuthToken := "secret"; TlsCert := ""; TlsKey := "";
     Routes := [Scenarios.api_route; plain_route "/b" "http://b"]; APIKeys := []; Signature := "" |}.

Definition file_of (e : gmap string string) (text : result Provider.load_error string) (werr : option string)
  : LocalFileProvider :=
  {| lf_path := "config.json"; lf_env := e; lf_content := text; lf_write_error := werr |}.

(** The file as the provider itself writes it. *)
Definition saved_file (e : gmap string string) (c : GatewayConfig) : LocalFileProvider :=
  snd (Provider.Save noon c (file_of e (Err (Provider.NotExist "new")) None)).

Definition world_of (e : gmap string string) : Env LocalFileProvider := {|
  platform := Scenarios.os e; at_limit := noon; at_auth := noon; at_load := noon; at_save := noon;
  git_pull p := (p, "Already up to date."%string); append_moves _ := true;
  hijack := Gateway.HijackUnsupported; net _ := None |}.
Definition E0 : Env LocalFileProvider := world_of env.

(** The same without a secret: nothing is signed. *)
Definition E1 : Env LocalFileProvider := world_of ∅.
Definition plain_file : LocalFileProvider := saved_file ∅ plain_config.

(** The process after [main] has started it. *)
Definition booted (e : gmap string string) (p : LocalFileProvider) : exec (Boot.started (R := unit) (M := unit) (P := LocalFileProvider)) :=
  Boot.main (Scenarios.os e) (fun _ => None) (fun _ _ => Err "down"%string) (fun _ p => p) noon (Ok tt) p ∅.

Definition on_process (e : gmap string string) (p : LocalFileProvider) (k : process -> Prop) : Prop :=
  match booted e p with
  | Done (Boot.Started s _ _) => k s
  | _ => False
  end.

Definition admin_request (m p q body : string) : Request :=
  replace_body body (set_url {| u_scheme := ""; u_host := ""; u_path := p; u_query := q |}
    (rset "Authorization" "Bearer secret" (Proxy.sample_request m p))).

Definition route_text (rt : Route) : string := render (encode rt).
Definition new_route : Route := plain_route "/new" "http://n".
Definition post_new : Request := admin_request "POST" "/api/routes" "" (route_text new_route).
Definition delete_b : Request := admin_request "DELETE" "/api/v1/routes" "prefix=%2Fb" "".
Definition anonymous (r : Request) : Request := set_header (hdel "Authorization" (header r)) r.

(** Status, whether it panicked, and the live prefixes afterwards. *)
Definition outcome_of (E : Env LocalFileProvider) (r : Request) (s : process) : option (Z * bool * list string) :=
  match serve_admin E [] r s with
  | Some (o, s') =>
      Some (client_status (aw s'), match o with Gateway.Crash _ => true | _ => false end,
            map Prefix (Handler.GetRoutes (gateway (srv s'))))
  | None => None
  end.

Definition after (E : Env LocalFileProvider) (r : Request) (s : process) : process :=
  match serve_admin E [] r s with Some (_, s') => srv s' | None => s end.

Example administration_at_work : on_process ∅ plain_file (fun s =>
  outcome_of E1 post_new s = Some (200, false, ["/api"; "/b"; "/new"]%string) /\
  outcome_of E1 delete_b (after E1 post_new s) = Some (200, false, ["/api"; "/new"]%string) /\
  outcome_of E1 (anonymous post_new) s = Some (401, false, ["/api"; "/b"]%string) /\
  outcome_of E1 (admin_request "GET" "/api/x" "" "") s = None).
Proof. vm_compute. split; [reflexivity|]. split; [reflexivity|]. split; reflexivity. Qed.

(** ** Witnesses *)

(** Name the process that [booted] starts and its platform. *)
Ltac boot s p :=
  unfold on_process;
  destruct (booted _ _) as [[?|s p ?]|?] eqn:Eb; [vm_compute in Eb; discriminate| |vm_compute in Eb; discriminate].

Definition watch_metrics : Request := anonymous (admin_request "GET" "/api/admin/metrics/ws" "" "").

Lemma admin_needs_credentials_witness : on_process ∅ plain_file (fun s =>
  (forall o s', serve_admin E1 [] (anonymous post_new) s = Some (o, s') ->
     o = Gateway.Return /\ same_process s (srv s') /\ aconn s' = None /\
     (client_status (aw s') = 401 \/ client_status (aw s') = 405 \/ client_status (aw s') = 429)) /\
  (forall o s', serve_admin E1 [] watch_metrics s = Some (o, s') ->
     o = Gateway.Return /\ aconn s' = None /\ client_status (aw s') = 401)).
Proof.
  boot s p.
  assert (Hc : cfg s = match booted ∅ plain_file with
                       | Done (Boot.Started s _ _) => cfg s | _ => plain_config end) by (by rewrite Eb).
  split; intros o s' Hs.
  - destruct (admin_needs_credentials E1 [] (anonymous post_new) s o s' Hs) as (_ & _ & Hno).
    apply Hno; [intros [Hp|Hp]; vm_compute in Hp; discriminate..|].
    rewrite Hc. intros [Ht|[Ht|[Ht _]]]; vm_compute in Ht; first [discriminate | by apply Ht].
  - destruct (admin_needs_credentials E1 [] watch_metrics s o s' Hs) as (Hsock & _ & _).
    destruct Hsock as [_ Hno]; [by left|]. apply Hno.
    rewrite Hc. intros [Ht|[Ht|[_ Ht]]]; vm_compute in Ht; discriminate.
Defined.

Lemma route_change_exact_witness : on_process ∅ plain_file (fun s =>
  match Provider.Load (at_load E1) (prov s), handleRoutes E1 post_new (fresh_response s) with
  | Ok c0, (o, s') =>
      (exists why, o = Gateway.Crash why) \/
      (client_status (aw s') = 200 /\ token_ok E1 (cfg s) post_new = true /\
       exists c, requested post_new c0 = Some c /\ Handler.GetRoutes (gateway (srv s')) = Routes c /\
         (Provider.storable (at_save E1) c -> forall now, Provider.fresh (at_save E1) now ->
            exists c', Provider.Load now (prov (srv s')) = Ok c' /\ Routes c' = Routes c)) \/
      (client_status (aw s') <> 200 /\ gateway (srv s') = gateway s)
  | Err _, _ => False
  end).
Proof.
  boot s p.
  assert (Hp : prov s = match booted ∅ plain_file with
                        | Done (Boot.Started s _ _) => prov s | _ => plain_file end) by (by rewrite Eb).
  destruct (Provider.Load (at_load E1) (prov s)) as [c0|e] eqn:El.
  2: { rewrite Hp in El. vm_compute in El. discriminate. }
  destruct (handleRoutes E1 post_new (fresh_response s)) as [o s'] eqn:Eh.
  refine (route_change_exact E1 post_new s c0 o s' El _ Eh). left. reflexivity.
Defined.

(** A post with a stored configuration: served entirely, or a crash on a broken
    limit. *)
Lemma admin_keeps_wired_witness : on_process ∅ plain_file (fun s =>
  forall o s', serve_admin E1 [] post_new s = Some (o, s') ->
    (forall rt, rt ∈ Handler.GetRoutes (gateway (srv s')) ->
       Handler.serves (platform E1) (Handler.res (gateway (srv s'))) rt) \/
    (exists why, o = Gateway.Crash why /\ broken (srv s'))).
Proof.
  boot s p.
  assert (Hp : prov s = match booted ∅ plain_file with
                        | Done (Boot.Started s _ _) => prov s | _ => plain_file end) by (by rewrite Eb).
  intros o s' Hs. destruct (admin_keeps_wired E1 [] post_new s o s') as [?|[?|[[e He] _]]]; [|done|auto..|].
  - assert (Hpl : p = match booted ∅ plain_file with
                      | Done (Boot.Started _ p _) => p | _ => p end) by (by rewrite Eb).
    assert (Hp0 : p = platform E1) by (rewrite Hpl; vm_compute; reflexivity).
    apply Boot.main_wired in Eb. by rewrite <- Hp0.
  - rewrite Hp in He. vm_compute in He. discriminate.
Defined.

(** The first poll after somebody has rewritten the store. *)
Definition late_config : GatewayConfig := with_Routes [new_route] plain_config.

Lemma poll_converges_witness : on_process ∅ plain_file (fun s =>
  match Boot.poll_step (Scenarios.os ∅) noon (Boot.poll_start (cfg s)) (set_prov (saved_file ∅ late_config) s) with
  | (_, s', None) => Config.marshal_routes (Handler.GetRoutes (gateway s')) = Config.marshal_routes [new_route]
  | (_, _, Some _) => False
  end).
Proof.
  boot s p.
  assert (Hs : s = match booted ∅ plain_file with
                   | Done (Boot.Started s _ _) => s | _ => s end) by (by rewrite Eb).
  assert (Hpl : p = match booted ∅ plain_file with
                    | Done (Boot.Started _ p _) => p | _ => p end) by (by rewrite Eb).
  assert (Hp0 : p = Scenarios.os ∅) by (rewrite Hpl; vm_compute; reflexivity).
  pose proof (Boot.polled_start _ _ _ _ _ _ _ _ _ _ _ Eb) as Hpo. rewrite Hp0 in Hpo.
  pose proof (Boot.polled_between _ _ _ (set_prov (saved_file ∅ late_config) s) Hpo eq_refl) as Hpo'.
  destruct (Boot.poll_step _ _ _ (set_prov _ s)) as [[last1 s1] [why|]] eqn:Ep.
  { rewrite Hs in Ep. vm_compute in Ep. discriminate. }
  pose proof (Boot.poll_converges _ _ _ _ _ _ Hpo' Ep) as Hc.
  change (prov (set_prov (saved_file ∅ late_config) s)) with (saved_file ∅ late_config) in Hc.
  destruct (Provider.Load noon (saved_file ∅ late_config)) as [c|e] eqn:El; [|vm_compute in El; discriminate].
  assert (Hr : Routes c = [new_route]) by (vm_compute in El; injection El as <-; reflexivity).
  rewrite Hr in Hc. destruct (Config.marshal_routes [new_route]) as [text|] eqn:Et; [|vm_compute in Et; discriminate].
  by destruct Hc as [Hlive _].
Defined.

(** ** Findings *)

(** Any valid token of any user administers the gateway, even one whose session
    was revoked: the revocation list is not asked. *)
Definition user_token : string :=
  let head := Token.raw_url (render (JObj [("alg", JStr "HS256"); ("typ", JStr "JWT")]%string)) in
  let payload := Token.raw_url (render (JObj (Token.user_claims "mallory" (1700000000 + 600) (1700000000 - 600)))) in
  let input := (head ++ "." ++ payload)%string in
  (input ++ "." ++ Token.raw_url (Hash.hmac_sha256 "s3cret" input))%string.

Example revoked_user_administers : on_process env (saved_file env plain_config) (fun s =>
  let by_user := rset "Authorization" ("Bearer " ++ user_token) post_new in
  let revoke := admin_request "POST" "/api/v1/admin/policy/revoke" ""
                  (render (JObj [("username", JStr "mallory")]%string)) in
  let s1 := after E0 revoke s in
  outcome_of E0 revoke s = Some (200, false, ["/api"; "/b"]%string) /\
  Token.ValidateJWTWithPolicy (Handler.revokedSessions (gateway s1)) user_token "s3cret" noon = None /\
  outcome_of E0 by_user s1 = Some (200, false, ["/api"; "/b"; "/new"]%string)).
Proof. vm_compute. split; [reflexivity|]. split; reflexivity. Qed.

(** What git prints goes into the reply as it is: a line break makes it no
    JSON. *)
Example git_output_breaks_reply :
  json_parse (gitops_reply "Already up to date.") <> None /\
  json_parse (gitops_reply ("Updating" ++ newline ++ "Fast-forward")) = None.
Proof. vm_compute. split; [discriminate|reflexivity]. Qed.

(** A synchronisation whose copy cannot be written is reported as a success,
    and the next load brings the old routes back. *)
Example sync_hides_save_failure :
  on_process ∅ (let f := plain_file in file_of ∅ (lf_content f) (Some "read-only"%string)) (fun s =>
    let sync := admin_request "POST" "/api/admin/console/sync" ""
                  (render (JObj [("routes", JArr [encode new_route])]%string)) in
    outcome_of E1 sync s = Some (200, false, ["/new"]%string) /\
    match Provider.Load noon (prov (after E1 sync s)) with
    | Ok c => map Prefix (Routes c) = ["/api"; "/b"]%string
    | Err _ => False
    end).
Proof. vm_compute. split; reflexivity. Qed.

(** A route with a negative queue size is saved before the gateway panics on
    it: the request fails, and the gateway cannot be started again. *)
Definition poison : string :=
  render (JObj [("prefix", JStr "/new"); ("target", JStr "http://n");
                ("max_concurrent_requests", JNum "1"); ("max_queue_size", JNum "-1")]%string).

Example poisoned_configuration : on_process ∅ plain_file (fun s =>
  let r := admin_request "POST" "/api/routes" "" poison in
  outcome_of E1 r s = Some (200, true, ["/api"; "/b"; "/new"]%string) /\
  booted ∅ (prov (after E1 r s)) = Panic "makechan: size out of range").
Proof. vm_compute. split; reflexivity. Qed.

(** Without a stored configuration a change goes into the one of the process,
    whose routes the gateway shares: a save that fails is answered 500, and the
    live route has changed all the same, without its resources. *)
Example failed_save_changes_live_route :
  on_process ∅ plain_file (fun s =>
    let lost := set_prov (file_of ∅ (Err (Provider.NotExist "open config.json: no such file or directory"))
                            (Some "read-only"%string)) s in
    let r := admin_request "POST" "/api/routes" "" (route_text (with_CacheTTLSeconds 60 (plain_route "/b" "http://other"))) in
    outcome_of E1 r lost = Some (500, false, ["/api"; "/b"]%string) /\
    match Handler.GetRoutes (gateway (after E1 r lost)) with
    | [_; b] => Target b = "http://other"%string /\ CacheTTLSeconds b = 60 /\
                Handler.responseCaches (Handler.res (gateway (after E1 r lost))) !! "/b"%string = None
    | _ => False
    end).
Proof. vm_compute. split; [reflexivity|]. split; [reflexivity|]. split; reflexivity. Qed.

(** The API keys of the configuration are never given to the gateway: a route
    that requires one admits nobody. *)
Example api_keys_are_not_loaded :
  on_process ∅ (saved_file ∅ {| Addr := ":8080"; AuthToken := ""; TlsCert := ""; TlsKey := "";
                                Routes := [with_RequireAPIKey true Scenarios.api_route];
                                APIKeys := [Scenarios.key_of "k1" "acme"]; Signature := "" |}) (fun s =>
    length (APIKeys (cfg s)) = 1%nat /\ Handler.apiKeys (gateway s) = ∅ /\
    client_status (Gateway.gw (snd (Gateway.ServeHTTP (M := unit) Scenarios.world "" (gateway s)
      (rset "X-API-Key" "k1" (Proxy.sample_request "GET" "/api/x"))))) = 401).
Proof. vm_compute. split; [reflexivity|]. split; reflexivity. Qed.

(** The configuration is loaded before the signing secret is fetched: an
    unsigned one starts the gateway, and the first change of a route is then
    refused because of it. *)
Definition serv_secret : Boot.SecretClient := fun u _ =>
  if HasSuffix u "/jwt_secret" then Ok (200, render (JObj [("value", JStr "s3cret")]%string))
  else Err "not found"%string.
Definition secret_env : gmap string string := {[ "SERV_SECRET_TEST_MODE" := "true" ]}%string.

Example unsigned_start :
  match Boot.main (M := unit) (Scenarios.os secret_env) (fun _ => None : option unit) serv_secret
          (fun e p => file_of e (lf_content p) (lf_write_error p)) noon (Ok tt) (saved_file ∅ plain_config) ∅ with
  | Done (Boot.Started s p _) =>
      Config.Getenv (Handler.p_env p) "SERV_JWT_SECRET" = "s3cret"%string /\
      outcome_of (world_of (Handler.p_env p)) post_new s = Some (500, false, ["/api"; "/b"]%string)
  | _ => False
  end.
Proof. vm_compute. split; reflexivity. Qed.

(** A day after the last change the signature of the stored configuration is
    over: from then on every change of the routes is refused. *)
Example signature_expiry_locks_routes : on_process env (saved_file env plain_config) (fun s =>
  let tomorrow := {| platform := platform E0; at_limit := noon; at_auth := noon;
                     at_load := noon + 25 * 60 * minute; at_save := noon + 25 * 60 * minute;
                     git_pull := git_pull E0; append_moves := append_moves E0; hijack := hijack E0;
                     net := net E0 |} in
  outcome_of tomorrow post_new s = Some (500, false, ["/api"; "/b"]%string)).
Proof. vm_compute. reflexivity. Qed.

(** A schema that does not parse is reported as updated. *)
Example bad_schema_is_success : on_process ∅ plain_file (fun s =>
  let r := admin_request "POST" "/api/v1/admin/policy/reload" "" "not json" in
  outcome_of E1 r s = Some (200, false, ["/api"; "/b"]%string) /\
  Handler.policySchema (gateway (after E1 r s)) = None /\
  Handler.policyVersion (gateway (after E1 r s)) = 1).
Proof. vm_compute. split; [reflexivity|]. split; reflexivity. Qed.

(** The billing endpoint asks for no credentials. *)
Example billing_is_public : on_process ∅ plain_file (fun s =>
  outcome_of E1 (anonymous (admin_request "POST" "/api/admin/ai-billing" "" "{}")) s
  = Some (200, false, ["/api"; "/b"]%string)).
Proof. vm_compute. reflexivity. Qed.

(** An administrator changes the routes and somebody restores the old file
    before the next tick: the poll compares the store with what it saw last, not
    with what the gateway serves, and never notices. *)
Example poll_misses_reverted_change : on_process ∅ plain_file (fun s =>
  let s1 := set_prov plain_file (after E1 post_new s) in
  match Boot.poll_step (Scenarios.os ∅) noon (Boot.poll_start (cfg s)) s1 with
  | (last, s2, None) =>
      last = Boot.poll_start (cfg s) /\
      map Prefix (Handler.GetRoutes (gateway s2)) = ["/api"; "/b"; "/new"]%string /\
      match Provider.Load noon (prov s2) with
      | Ok c => map Prefix (Routes c) = ["/api"; "/b"]%string
      | Err _ => False
      end
  | _ => False
  end).
Proof. vm_compute. split; [reflexivity|]. split; reflexivity. Qed.

(** Two changes that both load before they save: the first is lost. *)
Example concurrent_changes_are_lost :
  match Provider.Load noon plain_file with
  | Ok c0 =>
      let p1 := snd (Provider.Save noon (with_Routes (put new_route (Routes c0)) c0) plain_file) in
      let p2 := snd (Provider.Save noon (with_Routes (put (plain_route "/late" "http://l") (Routes c0)) c0) p1) in
      match Provider.Load noon p2 with
      | Ok c => map Prefix (Routes c) = ["/api"; "/b"; "/late"]%string
      | Err _ => False
      end
  | Err _ => False
  end.
Proof. vm_compute. reflexivity. Qed.

End AdminScenarios.
