(* ===== verification/PolicyCompiler.v ===== *)
(** * The policy compiler (main.go: [servgate policy compile])

    A policy file becomes a small Go program that is compiled to a WASM module:
    it reads the metadata of a request and prints a decision.  Rules are parsed
    into a syntax tree of that program, which is printed as Go source and given
    a meaning here; the theorem follows a request from the gateway's metadata
    to the decision.  Policy files are ASCII. *)

From S2P Require Import Prelude GoStrings Json Types Codec Policy Http Handler Proxy Gateway Serving Scenarios.
Import Codec.
Open Scope Z_scope.

Module PolicyCompiler.
Import Http Handler Gateway Serving Scenarios.

(** ** The rules of a file *)

Record rule := {
  action : string;
  rule_method : string;
  rule_path : string;
  condition : option (string * string);
}.

(** [strings.Trim] of double quotes. *)
Definition unquoted (v : string) : string := Trim v dquote.

(** The condition of a line, when it has the one shape that is understood. *)
Definition parse_condition (parts : list string) : option (string * string) :=
  match parts with
  | w :: hdr :: eq :: val =>
      if String.eqb w "if" && HasPrefix hdr "header." && String.eqb eq "=="
      then Some (ToLower (TrimPrefix hdr "header."), unquoted (Join val " "))
      else None
  | _ => None
  end.

Definition parse_line (line : string) : option rule :=
  let line := TrimSpace line in
  if String.eqb line "" || HasPrefix line "#" then None else
  match Fields line with
  | a :: m :: p :: rest =>
      Some {| action := a; rule_method := m; rule_path := p; condition := parse_condition rest |}
  | _ => None
  end.

Definition parse_rules (content : string) : list rule :=
  omap parse_line (Split (of_byte 10) content).

(** ** The program *)

Inductive test :=
| TTrue
| TMethod (m : string)
| TPath (p : string)
| THeader (k v : string).

Record branch := { on_method : test; on_path : test; on_header : option test; prints : string }.

Definition branch_of (r : rule) : branch :=
  {| on_method := if String.eqb (rule_method r) "*" then TTrue else TMethod (rule_method r);
     on_path := if String.eqb (rule_path r) "*" then TTrue else TPath (rule_path r);
     on_header := match condition r with Some (k, v) => Some (THeader k v) | None => None end;
     prints := action r |}.

Definition compile (content : string) : list branch := map branch_of (parse_rules content).

(** *** Its source *)

(** [%q] of an ASCII text. *)
Definition hex2 (c : ascii) : string :=
  String (Encoding.hex_digit (byte_of c / 16)) (String (Encoding.hex_digit (byte_of c mod 16)) "").
Definition go_quote_byte (c : ascii) : string :=
  let b := byte_of c in
  if b =? 34 then String (of_byte 92) dquote
  else if b =? 92 then String c (String c "")
  else if b =? 7 then "\a" else if b =? 8 then "\b" else if b =? 12 then "\f"
  else if b =? 10 then "\n" else if b =? 13 then "\r" else if b =? 9 then "\t" else if b =? 11 then "\v"
  else if (b <? 32) || (b =? 127) then "\x" ++ hex2 c
  else String c "".
Fixpoint go_quote_bytes (s : string) : string :=
  match s with
  | ""%string => ""%string
  | String c s' => go_quote_byte c ++ go_quote_bytes s'
  end.
Definition go_quote (s : string) : string := dquote ++ go_quote_bytes s ++ dquote.

Definition print_test (t : test) : string :=
  match t with
  | TTrue => "true"
  | TMethod m => "req.Method == " ++ go_quote m
  | TPath p => "req.Path == " ++ go_quote p
  | THeader k v => "req.Headers[" ++ go_quote k ++ "] == " ++ go_quote v
  end.

Definition tab : string := String (of_byte 9) "".

Definition print_branch (b : branch) : string :=
  tab ++ "if " ++ print_test (on_method b) ++ " && " ++ print_test (on_path b) ++
  match on_header b with Some t => " && " ++ print_test t | None => "" end ++ " {" ++ newline ++
  tab ++ tab ++ "fmt.Print(" ++ go_quote (prints b) ++ ")" ++ newline ++
  tab ++ tab ++ "return" ++ newline ++
  tab ++ "}" ++ newline.

Definition lines (ls : list string) : string := Join ls newline ++ newline.

Definition print_program (bs : list branch) : string :=
  lines ["package main"; ""; "import (";
         tab ++ quote "encoding/json"; tab ++ quote "fmt"; tab ++ quote "io"; tab ++ quote "os"; ")"; "";
         "type Request struct {";
         tab ++ "Method  string            `json:" ++ quote "method" ++ "`";
         tab ++ "Path    string            `json:" ++ quote "path" ++ "`";
         tab ++ "Headers map[string]string `json:" ++ quote "headers" ++ "`";
         "}"; ""; "func main() {";
         tab ++ "body, err := io.ReadAll(os.Stdin)";
         tab ++ "if err != nil {"; tab ++ tab ++ "fmt.Print(" ++ quote "deny" ++ ")"; tab ++ tab ++ "return";
         tab ++ "}"; "";
         tab ++ "var req Request";
         tab ++ "if err := json.Unmarshal(body, &req); err != nil {";
         tab ++ tab ++ "fmt.Print(" ++ quote "deny" ++ ")"; tab ++ tab ++ "return"; tab ++ "}"; ""]%string ++
  foldr (fun b s => print_branch b ++ s)%string ""%string bs ++ newline ++
  lines [tab ++ "// Default fallback"; tab ++ "fmt.Print(" ++ quote "deny" ++ ")"; "}"]%string.

(** *** Its meaning *)

Record PolicyRequest := { pr_Method : string; pr_Path : string; pr_Headers : gmap string string }.

(** An absent key of a Go map reads as the empty string. *)
Definition holds (req : PolicyRequest) (t : test) : bool :=
  match t with
  | TTrue => true
  | TMethod m => String.eqb (pr_Method req) m
  | TPath p => String.eqb (pr_Path req) p
  | THeader k v => String.eqb (default ""%string (pr_Headers req !! k)) v
  end.

Definition taken (req : PolicyRequest) (b : branch) : bool :=
  holds req (on_method b) && holds req (on_path b) &&
  match on_header b with Some t => holds req t | None => true end.

Fixpoint eval (bs : list branch) (req : PolicyRequest) : string :=
  match bs with
  | [] => "deny"
  | b :: bs' => if taken req b then prints b else eval bs' req
  end.

Definition decode_policy_request (stdin : string) : option PolicyRequest :=
  v ← json_parse stdin;
  es ← obj_entries v;
  m ← field decode "method" ""%string es;
  p ← field decode "path" ""%string es;
  h ← field decode "headers" (∅ : gmap string string) es;
  Some {| pr_Method := m; pr_Path := p; pr_Headers := h |}.

(** The compiled module: what it prints for its standard input. *)
Definition guest (bs : list branch) (stdin : string) : string :=
  match decode_policy_request stdin with
  | Some req => eval bs req
  | None => "deny"
  end.

(** ** The command *)

(** The output file and the source given to the Go compiler. *)
Definition runPolicyCommand (args : list string) (read_file : string -> result string string)
  : exec (result string (string * string)) :=
  match args with
  | _ :: _ :: cmd :: policyFile :: _ :: rest =>
      if negb (String.eqb cmd "compile")
      then Done (Err "Usage: servgate policy compile <file.policy> -o <file.wasm>"%string)
      else match rest with
           | [] => Panic "index out of range"
           | outputWasm :: _ =>
               match read_file policyFile with
               | Err e => Done (Err ("Failed to read policy file: " ++ e)%string)
               | Ok content => Done (Ok (outputWasm, print_program (compile content)))
               end
           end
  | _ => Done (Err "Usage: servgate policy compile <file.policy> -o <file.wasm>"%string)
  end.

(** ** Properties *)

(** A rule applies to the request with this method, path and (lower-case)
    headers; a missing header is the empty one. *)
Definition applies (r : rule) (m p : string) (hs : gmap string string) : Prop :=
  (rule_method r = "*"%string \/ rule_method r = m) /\
  (rule_path r = "*"%string \/ rule_path r = p) /\
  match condition r with
  | Some (k, v) => default ""%string (hs !! k) = v
  | None => True
  end.

Lemma taken_applies r m p hs :
  taken {| pr_Method := m; pr_Path := p; pr_Headers := hs |} (branch_of r) = true <-> applies r m p hs.
Proof.
  unfold taken, branch_of, applies. cbn [on_method on_path on_header].
  rewrite !andb_true_iff.
  assert (H1 : holds {| pr_Method := m; pr_Path := p; pr_Headers := hs |}
                 (if String.eqb (rule_method r) "*" then TTrue else TMethod (rule_method r)) = true
               <-> rule_method r = "*"%string \/ rule_method r = m).
  { destruct (String.eqb_spec (rule_method r) "*"); simpl; [tauto|]. rewrite String.eqb_eq. intuition congruence. }
  assert (H2 : holds {| pr_Method := m; pr_Path := p; pr_Headers := hs |}
                 (if String.eqb (rule_path r) "*" then TTrue else TPath (rule_path r)) = true
               <-> rule_path r = "*"%string \/ rule_path r = p).
  { destruct (String.eqb_spec (rule_path r) "*"); simpl; [tauto|]. rewrite String.eqb_eq. intuition congruence. }
  rewrite H1, H2. destruct (condition r) as [[k v]|]; simpl; [rewrite String.eqb_eq|]; tauto.
Qed.

Lemma eval_first m p hs rules (req := {| pr_Method := m; pr_Path := p; pr_Headers := hs |}) :
  (exists pre r post, rules = pre ++ r :: post /\ Forall (fun r' => ~ applies r' m p hs) pre /\
     applies r m p hs /\ eval (map branch_of rules) req = action r) \/
  (Forall (fun r => ~ applies r m p hs) rules /\ eval (map branch_of rules) req = "deny"%string).
Proof.
  induction rules as [|r rules IH]; [by right|]. cbn [map eval].
  destruct (taken req (branch_of r)) eqn:Et.
  - left. exists [], r, rules. apply taken_applies in Et.
    split; [done|]. split; [constructor|]. by split.
  - assert (Hno : ~ applies r m p hs) by (intros Ha; apply taken_applies in Ha; unfold req in Et; congruence).
    destruct IH as [(pre & r0 & post & -> & Hpre & Ha & He)|[Hall He]].
    + left. exists (r :: pre), r0, post. split; [done|]. split; [by constructor|done].
    + right. split; [by constructor|done].
Qed.

(** The metadata of a request, as the gateway prints it, reads back. *)
Lemma decode_policy_input (r : Request) :
  utf8_valid (method r) = true -> utf8_valid (path r) = true ->
  map_Forall (fun k v => utf8_valid k = true /\ utf8_valid v = true) (Policy.first_values (header r)) ->
  decode_policy_request (Gateway.policy_input r)
  = Some {| pr_Method := method r; pr_Path := path r; pr_Headers := Policy.first_values (header r) |}.
Proof.
  intros Hm Hp Hh. set (hs := Policy.first_values (header r)) in *.
  set (gs := [("headers", keep hs); ("method", keep (method r)); ("path", keep (path r))]%string).
  assert (Hd : distinct gs) by solve_distinct.
  assert (Hg : Forall (group_ok 1) gs).
  { assert (valid hs) by exact Hh. assert (valid (method r)) by exact Hm. assert (valid (path r)) by exact Hp. solve_groups. }
  unfold decode_policy_request.
  change (Gateway.policy_input r) with (render (JObj (obj_of gs))).
  rewrite json_parse_render; [|by eapply obj_of_wf|].
  2: { assert (Hdep : json_depth (JObj (obj_of gs)) <= 1 + 1); [|unfold maxNestingDepth; lia].
       apply obj_of_depth; [|lia]. eapply List.Forall_impl; [|exact Hg]. intros [k [v|]] [_ Hv]; [apply Hv|done]. }
  cbn [mbind option_bind obj_entries].
  rewrite (field_obj_of "method" _ gs (keep (method r)) (method r)) by (done || by left). cbn [mbind option_bind].
  rewrite (field_obj_of "path" _ gs (keep (path r)) (path r)) by (done || by left). cbn [mbind option_bind].
  rewrite (field_obj_of "headers" _ gs (keep hs) hs) by (done || by left). done.
Qed.

(** C10. The compiled policy decides as its file says: on the metadata the
    gateway prints for a request, the module prints the action of the first
    rule of the file that applies to its method, path and headers, and [deny]
    when none does. *)
Theorem compiled_policy_first_match content (r : Request) :
  utf8_valid (method r) = true -> utf8_valid (path r) = true ->
  map_Forall (fun k v => utf8_valid k = true /\ utf8_valid v = true) (Policy.first_values (header r)) ->
  let hs := Policy.first_values (header r) in
  let decision := guest (compile content) (Gateway.policy_input r) in
  (exists pre rl post, parse_rules content = pre ++ rl :: post /\
     Forall (fun r' => ~ applies r' (method r) (path r) hs) pre /\
     applies rl (method r) (path r) hs /\ decision = action rl) \/
  (Forall (fun rl => ~ applies rl (method r) (path r) hs) (parse_rules content) /\ decision = "deny"%string).
Proof.
  intros Hm Hp Hh hs decision. unfold decision, guest. rewrite (decode_policy_input r Hm Hp Hh).
  apply eval_first.
Qed.

(** ** The command at work *)

Definition file (ls : list string) : string := Join ls newline.

Definition sample_policy : string :=
  file ["# orders"; "deny DELETE *"; "allow GET /api/orders if header.X-Role == " ++ quote "sales team";
        "allow * /health"]%string.

Definition sales : Request := with_header "X-Role" "sales team" (get "/api/orders").

Lemma compiled_policy_first_match_witness :
  (utf8_valid (method sales) = true /\ utf8_valid (path sales) = true /\
   map_Forall (fun k v => utf8_valid k = true /\ utf8_valid v = true) (Policy.first_values (header sales))) /\
  guest (compile sample_policy) (Gateway.policy_input sales) = "allow"%string /\
  guest (compile sample_policy) (Gateway.policy_input (get "/api/orders")) = "deny"%string.
Proof.
  assert (Hs : map_Forall (fun k v => utf8_valid k = true /\ utf8_valid v = true)
                 (Policy.first_values (header sales)))
    by (apply (bool_decide_unpack _); vm_compute; done).
  assert (Hg : map_Forall (fun k v => utf8_valid k = true /\ utf8_valid v = true)
                 (Policy.first_values (header (get "/api/orders"))))
    by (apply (bool_decide_unpack _); vm_compute; done).
  split; [done|]. split.
  - destruct (compiled_policy_first_match sample_policy sales eq_refl eq_refl Hs) as [_|[_ H]];
      vm_compute; [done|vm_compute in H; congruence].
  - destruct (compiled_policy_first_match sample_policy (get "/api/orders") eq_refl eq_refl Hg) as [_|[_ H]];
      vm_compute; done.
Defined.

(** The source of a small file. *)
Example compiled_source :
  print_branch <$> compile (file ["allow GET /x if header.Team == " ++ quote "a b"]%string)
  = [lines [tab ++ "if req.Method == " ++ quote "GET" ++ " && req.Path == " ++ quote "/x" ++
              " && req.Headers[" ++ quote "team" ++ "] == " ++ quote "a b" ++ " {";
            tab ++ tab ++ "fmt.Print(" ++ quote "allow" ++ ")"; tab ++ tab ++ "return"; tab ++ "}"]]%string.
Proof. vm_compute. done. Qed.

(** A gateway whose modules are compiled policies. *)
#[local] Instance policy_modules : WasmRunner (string * string) :=
  fun m name input =>
    Done (if String.eqb name (fst m) then Ok (guest (compile (snd m)) input)
          else Err "WASM middleware not registered"%string, m).

Definition guarded_status (policy : string) (r : Request) : Z :=
  match NewGatewayHandler (os ∅) (fun _ : string => None (A := unit))
          [with_Middleware "policy" api_route] ("policy", policy)%string "" ∅ with
  | Done h => client_status (gw (snd (ServeHTTP world "" h r)))
  | Panic _ => 0
  end.

(** The rules of a file guard a route. *)
Example guarded_route :
  guarded_status (file ["deny POST *"; "allow GET /api/x if header.X-Role == dev"])
    (with_header "X-Role" "dev" (get "/api/x")) = 200 /\
  guarded_status (file ["deny POST *"; "allow GET /api/x if header.X-Role == dev"]) (get "/api/x") = 403.
Proof. vm_compute. done. Qed.

(** A condition the compiler does not understand is dropped without a word,
    and its rule applies to everybody. *)
Example dropped_condition :
  guarded_status (file ["allow GET /api/x if header.X-Role != guest"])
    (with_header "X-Role" "guest" (get "/api/x")) = 200 /\
  guarded_status (file ["allow GET /api/x if  X-Role == dev"]) (get "/api/x") = 200.
Proof. vm_compute. done. Qed.

(** An action other than [deny] lets requests pass, a misspelt one too. *)
Example misspelt_denial :
  guarded_status (file ["Deny GET /api/x"; "allow * *"]) (get "/api/x") = 200 /\
  guarded_status (file ["deny GET /api/x"; "allow * *"]) (get "/api/x") = 403.
Proof. vm_compute. done. Qed.

(** A missing header is the empty one. *)
Example absent_header_matches :
  guarded_status (file ["allow GET /api/x if header.X-Role == "]) (get "/api/x") = 200.
Proof. vm_compute. done. Qed.

(** Five arguments pass the usage check, and the sixth is read. *)
Example missing_output_panics :
  runPolicyCommand ["servgate"; "policy"; "compile"; "f.policy"; "-o"]%string (fun _ => Ok ""%string)
  = Panic "index out of range" /\
  (exists src, runPolicyCommand ["servgate"; "policy"; "compile"; "f.policy"; "-o"; "f.wasm"]%string
                 (fun _ => Ok sample_policy) = Done (Ok ("f.wasm"%string, src))).
Proof. split; [done|]. eexists. unfold runPolicyCommand. reflexivity. Qed.

End PolicyCompiler.
